(* ===== verification/_CoqProject ===== *)
-Q . S2P
Prelude.v
ClientHello.v
ClientHelloSpec.v
Packet.v
PacketSpec.v
BlockList.v
Extractor.v
ExtractorInv.v
ExtractorSpec.v
ExtractorRefine.v
ExtractorCloses.v
ExtractorDecision.v
ExtractorTypes.v
Streams.v
ExtractorTraffic.v
ExtractorBlocked.v
ExtractorLeaks.v
Interface.v
NFQueue.v
Worker.v
WorkerTrace.v
Cli.v
Main.v
Text.v
Program.v
ProgramInv.v
ProgramSpec.v
ProgramTrace.v
Scenarios.v
