(* ===== verification/Prelude.v ===== *)
(** * PacketInspector: a verification library for the TLS host name filter

    PacketInspector attaches to a range of Linux netfilter queues and drops the
    TCP connections whose TLS ClientHello names a host on a block list.  This
    library translates the program, file by file, into executable definitions
    and proves what it promises: no packet is lost or answered twice, a listed
    name is blocked however its ClientHello is cut up (within the limits that C1
    spells out), an unlisted one is not, memory stays bounded, nothing is held
    for long, nothing is read out of bounds, and every loop ends.

    ** How the program works, and where each part is modelled

    One thread per worker runs [queue.run_once -> extractor.feed ->
    extractor.decided -> queue.submit].  A packet enters as a view on the
    receive buffer; the extractor dissects it, looks its flow up by a 32-bit key
    and either decides it at once or hands it to the TCP reassembler and holds
    it until the host name of the flow is known.  What is decided waits in a
    buffer that the worker drains once per turn.

    - [Prelude] (this file): bytes, wrap-around at 8 to 64 bits, the monad of
      [outcome]s and the bounds-checked reads; the lemmas and hints all parts
      share.
    - [ClientHello] ([src/hostname_extractor.cpp], anonymous namespace):
      [opensTlsHandshake], [collectHandshake], [parseClientHello],
      [extractHostname].  [ClientHelloSpec] defines the wire format of a
      ClientHello and of the TLS record layer independently of the parser.
    - [Packet] ([include/packet.hpp], [src/packet.cpp]): the life cycle of a
      packet (view, owned, shell, husk) and the dissectors [parseL4],
      [parseIPv4], [parseIPv6], [flow_view], [flow_key].  [PacketSpec] defines
      the wire formats.
    - [BlockList] ([include/blocklist.hpp], [src/blocklist.cpp]): the reading of
      the list file and [isHostnameBlocked].
    - [Extractor] ([include/hostname_extractor.hpp],
      [src/hostname_extractor.cpp], class [TcpTlsHostnameExtractor]): a record
      with the members of the class, one definition per member function and per
      callback, named as in the source; where a function is long its blocks are
      definitions of their own, composed in the source's order ([feed] is
      [tick], [feed_flow], [feed_untracked] with [make_room], [feed_tracked],
      [reassemble]).  [ExtractorInv] has the invariant and a specification of
      each operation, [ExtractorSpec] the properties of runs, [ExtractorRefine]
      the abstract machine and the simulation, [ExtractorCloses] the deferred
      closes, [ExtractorDecision] what decides a flow, [ExtractorTypes] the
      integer types of the members, [ExtractorTraffic] one connection among any
      others, [ExtractorBlocked] how long a blocked flow stays blocked,
      [ExtractorLeaks] the reassembler's connections.  [Streams] has a small
      reassembler for the witnesses and the tests' scenarios.  [Interface] is
      the abstract class [HostnameExtractor] with its contract.
    - [NFQueue] ([include/NFQueue.hpp], [src/NFQueue.cpp]): set-up and teardown,
      [run_once], [handle], [submit], the counters and the error report.
    - [Worker] ([include/worker.hpp], [src/worker.cpp]): the policy, the packet
      callback, [drain_decided] and [loop].  [WorkerTrace] relates a worker's
      run to its extractor's run of the same calls.
    - [Cli] ([include/config.hpp], [src/cli.cpp]): [parse] with every option,
      [parse_uint] and the derived settings.
    - [Main] ([src/main.cpp]): [main] as sequential code: the order in which it
      binds, starts, joins and tears down, its exit code and the counters line.
      [Text] has what [parse] and [main] print.
    - [Program] ([src/main.cpp], [src/worker.cpp]): [main]'s thread, the
      workers' threads with [start], [join] and the destructor, the statistics
      thread and the signal handler, interleaved, as a step relation.
      [ProgramInv] has its invariant, [ProgramSpec] its properties,
      [ProgramTrace] carries what holds of an extractor's runs to each worker of
      the running program.
    - [Scenarios] ([tests/unit/], [tests/e2e/e2e_cases.cpp]): the inputs of the
      unit tests and the case table of the end-to-end test with the results they
      expect, evaluated on the definitions, and the runs behind some findings.

    ** What the theorems show

    Each property carries an identifier, in order of importance.

    - The filter filters: C1 (in every interleaving of the program, a connection
      to a listed name is dropped, any other accepted), C5 (what happens to each
      segment of a TLS connection), C13 (what a list file means), C15 (the
      segmentation does not matter), C23 (a blocked flow stays blocked until its
      slot of the ring is needed), C24 (the full table), C20 (nothing is
      inspected with --passthrough).
    - The detailed definitions against simpler ones: C8 (every run of the
      extractor is a run of a small machine of flows), C9 (every worker of the
      program is a run of an extractor of its own), C12 (the contract of the
      abstract class), C16 (every interleaving has the outcome of the sequential
      [main]) and C10 (the segments of a flow are never reordered).
    - No packet is lost: C2 (over the program's life), C11 (over any use of the
      extractor), C19 (nothing is held for long), C6 (nor refers to a buffer
      that is received into again), C31, C32.
    - The program as a whole: C3 (the objects the threads share outlive their
      use), C4 (once told to stop it ends, and no join waits for ever), C17,
      C37, C36 and C35 (what it says, and when).
    - The parsers: C7, C14 and C25 for TLS (an encoder-decoder round trip under
      every fragmentation, waiting, memory safety), C26, C27, C28, C29 and C39
      for packets.
    - Bounds and life: C18 (memory), C30 (views, owned bytes, shells, husks),
      C21 (termination), C33 and C38 (set-up and errors), C22 and C40 (the
      reassembler's connections), C34 (command line).

    Further lemmas of the same kind carry no identifier: a flow's resolution by
    one answer ([ExtractorSpec.resolve_decides_in_order]), one worker's account
    of its packets ([Worker.worker_answers_every_packet]), the stability of the
    parser's answer ([ClientHelloSpec.extractHostname_stable]), the integer
    types of the extractor's members ([ExtractorTypes.extractor_keeps_types]),
    the traffic of no interest ([ExtractorSpec.uninteresting_allowed]), the
    extractor's shutdown ([ExtractorSpec.extractor_shutdown_releases]), the
    options one by one ([Cli.number_option_stores],
    [Text.usage_documents_options]), the counters line
    ([Text.stats_text_roundtrip]), the pace of the statistics thread
    ([ProgramSpec.stats_thread_paced]).

    Some results show where the code does something other than its comments say:
    C28 (one extension header fewer than announced), C39 (colliding flow keys),
    C40 (a close that stays queued),
    [ExtractorLeaks.shared_key_leaks_connection] (a connection that is never
    closed, when two flows share a key),
    [ExtractorLeaks.zero_key_leaks_connection] (nor is one whose key is 0),
    [Interface.flush_may_block] (a flush that blocks),
    [ExtractorLeaks.ended_connection_closed_again],
    [Scenarios.Divergences.stale_slot_evicts_newest],
    [Scenarios.Divergences.evicted_flow_gets_through],
    [Cli.parse_uint_accepts_negative] and [ExtractorSpec.make_room_never_sweeps]
    (a sweep that cannot run).

    ** Conventions

    An integer of a C++ type is a [Z] in its range; every expression that can
    leave the range goes through [u8] to [u64] or [i32].  [std::size_t]
    quantities that only count elements are [nat].  A pointer with a length is a
    [span]: the bytes from the pointer to the end of what is readable there,
    with the length.  Reading outside them is [Fault OutOfBounds], so that
    memory safety is a theorem and not an assumption.  A loop without a
    structural measure has fuel, and running out of it is [Fault OutOfFuel],
    which the theorems rule out: the record loop and the walks over extensions
    and names get one unit per byte, and each turn consumes at least one (C25);
    the suffix walk gets one per byte of the name (C13); [evict_loop] and the
    IPv6 walk have the source's own bounds.  [Worker.loop] is cut off after a
    number of turns; C21 gives the number that suffices.

    ** Parameters

    What the program calls but does not contain is a parameter, as a class:
    [Pcpp] (PcapPlusPlus' TCP reassembler: any state, any callbacks), [MapOrder]
    (the order in which a range-for walks an [unordered_map]: any permutation),
    [Policy] (the callable given to the extractor), [Netfilter] (kernel and
    libnetfilter_queue: any results, except that a [poll] with a finite timeout
    returns; [run_once] hands it the timeout, [Worker.kIdlePoll] in the loop,
    and a [poll] that never returns is [Fault NeverReturns]), [EventFd] (the
    stop fd), the clocks of the workers, the texts of system errors, and for the
    sequential [main] which threads can be created ([creates]) and pinned
    ([affinity]).  Theorems that need more of them say so: C1 and C5 what the
    reassembler reports for each of this connection's packets and that it
    reports other packets under other keys ([ExtractorTraffic.Reassembles],
    which [ExtractorTraffic.streams_reassembles] shows to hold of the
    reassembler of [Streams]), C22 which connections it opens, reports and gives
    back ([ExtractorLeaks.Tracks], shown of [Streams] by
    [ExtractorLeaks.streams_track]) and that flows do not share a key, and it
    speaks of connections with keys other than 0; C23 and C12 that the policy
    lets a flow without a name pass ([ExtractorBlocked.nameless_pass], which the
    worker's policy does: [Worker.policy_nameless]); C38 that the callback
    leaves the queue's error alone; the theorems on the program that a received
    message has the length it says, that a written eventfd is readable and that
    a new one is not ([EventFd_ok]), C21 that the stop fd becomes readable.
    Witnesses run a concrete kernel, reassembler, eventfd and schedule ([demo_]
    definitions).

    ** What is not modelled

    Threads interleave at the granularity of a turn of [loop], a statement of
    [main], a nap of the statistics thread and the two halves of the signal
    handler.  That is exact for what they share and decide on (the stop fd, the
    flags, the objects' lifetimes); the statistics thread reads each worker's
    counters, which are relaxed atomics, as they are between two turns.
    Allocation and output do not fail, so the only exceptions are those of the
    block list, of the queues' set-up and of thread creation; both [Main] and
    [Program] have the last.  How the lines of several threads mix on one stream
    is left out.  Of the tests, [Scenarios] has the inputs and the expectations,
    with the encoders of [PacketSpec] for their packet builders and the
    reassembler of [Streams] for PcapPlusPlus; the harnesses, the benchmarks and
    the scripts are outside the program. *)
From Stdlib Require Import ZArith Lia String.
From Stdlib Require Export Strings.Byte.
From stdpp Require Export prelude gmap strings list numbers.
#[global] Open Scope Z_scope.
#[global] Set Default Proof Using "Type".

(** ** Bytes *)

Abbreviation bytes := (list byte).

Definition b2z (b : byte) : Z := Z.of_N (Byte.to_N b).

Definition z2b (z : Z) : byte :=
  match Byte.of_N (Z.to_N (z mod 256)) with Some b => b | None => x00 end.

Definition zlen {A} (l : list A) : Z := Z.of_nat (length l).

Definition str (s : string) : bytes := String.list_byte_of_string s.

#[export] Instance byte_eq_dec : EqDecision byte := Byte.byte_eq_dec.

#[export] Instance byte_countable : Countable byte.
Proof.
  refine (inj_countable Byte.to_N Byte.of_N _).
  intros b. apply Byte.of_to_N.
Defined.

(** ** Machine-width unsigned integers: a value of width [w] is a [Z], and
    every C++ expression that can leave the range is wrapped explicitly. *)

Definition u8 (x : Z) : Z := x mod 256.
Definition u16 (x : Z) : Z := x mod 65536.
Definition u32 (x : Z) : Z := x mod 4294967296.
Definition u64 (x : Z) : Z := x mod 18446744073709551616.

(** The conversion to [int]. *)
Definition i32 (x : Z) : Z := (x + 2147483648) mod 4294967296 - 2147483648.

Lemma i32_id x : -2147483648 <= x < 2147483648 -> i32 x = x.
Proof. intros Hx. unfold i32. rewrite Z.mod_small; lia. Qed.

(** ** Outcomes: a value, or what the code must avoid: a read outside a buffer,
    a loop cut off too early, a system call that waits for ever. *)

Inductive fault := OutOfBounds | OutOfFuel | NeverReturns.

Inductive outcome (A : Type) : Type :=
| Ok (a : A)
| Fault (f : fault).
Arguments Ok {A} _.
Arguments Fault {A} _.

#[export] Instance outcome_ret : MRet outcome := @Ok.

#[export] Instance outcome_bind : MBind outcome := λ A B k m,
  match m with Ok a => k a | Fault f => Fault f end.

#[export] Instance outcome_fmap : FMap outcome := λ A B f m,
  match m with Ok a => Ok (f a) | Fault e => Fault e end.

(** ** Memory reads. A pointer [const uint8_t *p] is the list of the bytes that
    are readable from [p] on; [p + k] is [drop k p]. *)

Definition rd8 (p : bytes) (i : Z) : outcome Z :=
  if i <? 0 then Fault OutOfBounds
  else match p !! Z.to_nat i with Some b => Ok (b2z b) | None => Fault OutOfBounds end.

Definition rd_range (p : bytes) (i n : Z) : outcome bytes :=
  if (i <? 0) || (n <? 0) || (zlen p <? i + n) then Fault OutOfBounds
  else Ok (take (Z.to_nat n) (drop (Z.to_nat i) p)).

(** [static_cast<uint16_t>((static_cast<uint16_t>(q[0]) << 8) | q[1])] *)
Definition load_be16 (p : bytes) (i : Z) : outcome Z :=
  hi ← rd8 p i;
  lo ← rd8 p (i + 1);
  Ok (u16 (Z.lor (Z.shiftl hi 8) lo)).

Definition padd (p : bytes) (k : Z) : bytes := drop (Z.to_nat k) p.

(** A pointer and a length, as the code passes byte ranges. *)
Record span := Span { ptr : bytes; span_len : Z }.

Definition span_bytes (s : span) : bytes := take (Z.to_nat (span_len s)) (ptr s).

(** A span lies inside its buffer. *)
Definition span_ok (s : span) : Prop := 0 <= span_len s <= zlen (ptr s).

(** A span is a range of [p] that ends before [len]. *)
Definition inside (p : bytes) (len : Z) (s : span) : Prop :=
  exists k, 0 <= k /\ ptr s = padd p k /\ 0 <= span_len s /\ k + span_len s <= len.

(** Big-endian writers, used by the encoders. *)
Definition put16 (n : Z) : bytes := [z2b (n / 256); z2b n].
Definition put24 (n : Z) : bytes := [z2b (n / 65536); z2b (n / 256); z2b n].


Arguments rd8 : simpl never.
Arguments rd_range : simpl never.
Arguments load_be16 : simpl never.
Arguments u8 : simpl never.
Arguments u16 : simpl never.
Arguments u32 : simpl never.
Arguments u64 : simpl never.
Arguments zlen : simpl never.
Arguments padd : simpl never.
Arguments put16 : simpl never.
Arguments put24 : simpl never.
Arguments b2z : simpl never.
Arguments z2b : simpl never.

(** ** Lengths *)

Lemma zlen_nonneg {A} (l : list A) : 0 <= zlen l.
Proof. unfold zlen; lia. Qed.

Lemma zlen_nil {A} : zlen (@nil A) = 0.
Proof. reflexivity. Qed.

Lemma zlen_cons {A} (x : A) l : zlen (x :: l) = 1 + zlen l.
Proof. unfold zlen; simpl; lia. Qed.

Lemma zlen_app {A} (l k : list A) : zlen (l ++ k) = zlen l + zlen k.
Proof. unfold zlen; rewrite length_app; lia. Qed.

Lemma zlen_take {A} (n : Z) (l : list A) :
  zlen (take (Z.to_nat n) l) = Z.max 0 (Z.min n (zlen l)).
Proof. unfold zlen; rewrite length_take; lia. Qed.

Lemma zlen_drop {A} (n : Z) (l : list A) :
  zlen (drop (Z.to_nat n) l) = Z.max 0 (zlen l - Z.max 0 n).
Proof. unfold zlen; rewrite length_drop; lia. Qed.

Lemma zlen_padd (p : bytes) k : 0 <= k <= zlen p -> zlen (padd p k) = zlen p - k.
Proof. intros; unfold padd; rewrite zlen_drop; lia. Qed.

Lemma zlen_replicate {A} n (x : A) : zlen (replicate n x) = Z.of_nat n.
Proof. unfold zlen; by rewrite length_replicate. Qed.

Lemma zlen_insert {A} i (x : A) l : zlen (<[i:=x]> l) = zlen l.
Proof. unfold zlen; by rewrite length_insert. Qed.

Lemma zlen_put16 n : zlen (put16 n) = 2.
Proof. reflexivity. Qed.

Lemma zlen_put24 n : zlen (put24 n) = 3.
Proof. reflexivity. Qed.

Lemma zlen_0_nil {A} (l : list A) : zlen l = 0 -> l = [].
Proof. destruct l; [done | rewrite zlen_cons; pose proof (zlen_nonneg l); lia]. Qed.

Create Rewrite HintDb zlen.
#[export] Hint Rewrite @zlen_nil @zlen_cons @zlen_app @zlen_take @zlen_drop
  @zlen_replicate @zlen_insert @zlen_put16 @zlen_put24 : zlen.

(** Normalise lengths and hand the goal to [lia], with the facts that the
    lengths still named are non-negative. *)
Ltac zlen_pose :=
  repeat match goal with
    | |- context [zlen ?l] =>
        lazymatch goal with
        | _ : 0 <= zlen l |- _ => fail
        | _ => pose proof (zlen_nonneg l)
        end
    | _ : context [zlen ?l] |- _ =>
        lazymatch goal with
        | _ : 0 <= zlen l |- _ => fail
        | _ => pose proof (zlen_nonneg l)
        end
    end.
Ltac zl := autorewrite with zlen in *; zlen_pose; lia.

(** ** Widths *)

Lemma b2z_range b : 0 <= b2z b < 256.
Proof. unfold b2z; pose proof (Byte.to_N_bounded b); lia. Qed.

Lemma b2z_z2b z : b2z (z2b z) = z mod 256.
Proof.
  unfold b2z, z2b. pose proof (Z.mod_pos_bound z 256 ltac:(lia)).
  destruct (Byte.of_N (Z.to_N (z mod 256))) eqn:E.
  - apply Byte.to_of_N in E. lia.
  - apply Byte.of_N_None_iff in E. lia.
Qed.

Lemma z2b_b2z b : z2b (b2z b) = b.
Proof.
  unfold b2z, z2b. pose proof (Byte.to_N_bounded b).
  rewrite Z.mod_small by lia. by rewrite N2Z.id, Byte.of_to_N.
Qed.

Lemma b2z_inj a b : b2z a = b2z b -> a = b.
Proof. intros H. by rewrite <- (z2b_b2z a), <- (z2b_b2z b), H. Qed.

Lemma u8_range x : 0 <= u8 x < 256.
Proof. apply Z.mod_pos_bound; lia. Qed.
Lemma u16_range x : 0 <= u16 x < 65536.
Proof. apply Z.mod_pos_bound; lia. Qed.
Lemma u32_range x : 0 <= u32 x < 4294967296.
Proof. apply Z.mod_pos_bound; lia. Qed.
Lemma u64_range x : 0 <= u64 x < 18446744073709551616.
Proof. apply Z.mod_pos_bound; lia. Qed.

Lemma u8_id x : 0 <= x < 256 -> u8 x = x.
Proof. apply Z.mod_small. Qed.
Lemma u16_id x : 0 <= x < 65536 -> u16 x = x.
Proof. apply Z.mod_small. Qed.
Lemma u32_id x : 0 <= x < 4294967296 -> u32 x = x.
Proof. apply Z.mod_small. Qed.
Lemma u64_id x : 0 <= x < 18446744073709551616 -> u64 x = x.
Proof. apply Z.mod_small. Qed.

(** Remove the wraps whose argument [lia] can bound. *)
Ltac unwrap :=
  repeat match goal with
    | |- context [u32 ?x] => rewrite (u32_id x) by first [lia | zl]
    | |- context [u16 ?x] => rewrite (u16_id x) by first [lia | zl]
    | |- context [u64 ?x] => rewrite (u64_id x) by first [lia | zl]
    | |- context [u8 ?x] => rewrite (u8_id x) by first [lia | zl]
    end.

Lemma lor_shift8 a b : 0 <= b < 256 -> Z.lor (Z.shiftl a 8) b = a * 256 + b.
Proof.
  intros Hb. assert (Z.land (Z.shiftl a 8) b = 0) as E.
  2: { rewrite <- Z.lxor_lor, <- Z.add_nocarry_lxor by done.
       rewrite Z.shiftl_mul_pow2; lia. }
  - apply Z.bits_inj'. intros n Hn. rewrite Z.land_spec, Z.bits_0.
    destruct (decide (n < 8)).
    + by rewrite Z.shiftl_spec_low.
    + assert (Z.testbit b n = false) as ->; [|apply andb_false_r].
      destruct (decide (b = 0)) as [->|]; [apply Z.bits_0|].
      apply Z.bits_above_log2; [lia|].
      apply Z.log2_lt_pow2; [lia|].
      assert (2 ^ 8 <= 2 ^ n) by (apply Z.pow_le_mono_r; lia). lia.
Qed.

(** ** Reads *)

Lemma rd8_ok p i : 0 <= i < zlen p ->
  exists b, p !! Z.to_nat i = Some b /\ rd8 p i = Ok (b2z b).
Proof.
  intros H. unfold zlen in H.
  destruct (lookup_lt_is_Some_2 p (Z.to_nat i)) as [b Hb]; [lia|].
  exists b. split; [done|]. unfold rd8. rewrite Hb.
  by rewrite (proj2 (Z.ltb_ge i 0)) by lia.
Qed.

Lemma rd8_range p i : 0 <= i < zlen p -> exists v, rd8 p i = Ok v /\ 0 <= v < 256.
Proof.
  intros H. destruct (rd8_ok p i H) as (b & _ & ->). eauto using b2z_range.
Qed.

Lemma rd8_inv p i v : rd8 p i = Ok v -> 0 <= i < zlen p /\ 0 <= v < 256.
Proof.
  unfold rd8, zlen. destruct (Z.ltb_spec i 0); [done|].
  destruct (p !! Z.to_nat i) eqn:E; [|done]. intros [= <-].
  apply lookup_lt_Some in E. split; [lia | apply b2z_range].
Qed.

Lemma rd8_app_l p q i : i < zlen p -> rd8 (p ++ q) i = rd8 p i.
Proof.
  intros H. unfold rd8. destruct (Z.ltb_spec i 0); [done|].
  unfold zlen in H. by rewrite lookup_app_l by lia.
Qed.

Lemma rd8_app_r p q i : zlen p <= i -> rd8 (p ++ q) i = rd8 q (i - zlen p).
Proof.
  intros H. pose proof (zlen_nonneg p). unfold rd8.
  rewrite (proj2 (Z.ltb_ge i 0)), (proj2 (Z.ltb_ge (i - zlen p) 0)) by lia.
  rewrite lookup_app_r by (unfold zlen in *; lia).
  by replace (Z.to_nat i - length p)%nat with (Z.to_nat (i - zlen p)) by (unfold zlen; lia).
Qed.

Lemma rd8_here b q : rd8 (b :: q) 0 = Ok (b2z b).
Proof. reflexivity. Qed.

Lemma rd8_at pre b q i : i = zlen pre -> rd8 (pre ++ b :: q) i = Ok (b2z b).
Proof. intros ->. rewrite rd8_app_r by lia. by rewrite Z.sub_diag. Qed.

Lemma rd8_padd p k i : 0 <= k -> 0 <= i -> rd8 (padd p k) i = rd8 p (k + i).
Proof.
  intros. unfold rd8, padd.
  rewrite (proj2 (Z.ltb_ge i 0)), (proj2 (Z.ltb_ge (k + i) 0)) by lia.
  rewrite lookup_drop. by replace (Z.to_nat (k + i)) with (Z.to_nat k + Z.to_nat i)%nat by lia.
Qed.

Lemma load_be16_ok p i : 0 <= i -> i + 2 <= zlen p ->
  exists v, load_be16 p i = Ok v /\ 0 <= v < 65536.
Proof.
  intros. unfold load_be16.
  destruct (rd8_range p i) as (a & -> & ?); [lia|].
  destruct (rd8_range p (i + 1)) as (b & -> & ?); [lia|]. simpl.
  eexists; split; [done|]. apply u16_range.
Qed.

Lemma load_be16_inv p i v : load_be16 p i = Ok v ->
  0 <= i /\ i + 2 <= zlen p /\ 0 <= v < 65536.
Proof.
  unfold load_be16. destruct (rd8 p i) as [a|] eqn:Ha; [simpl|done].
  destruct (rd8 p (i + 1)) as [b|] eqn:Hb; [simpl|done]. intros [= <-].
  apply rd8_inv in Ha as [??]. apply rd8_inv in Hb as [??].
  pose proof (u16_range (Z.lor (Z.shiftl a 8) b)). lia.
Qed.

Lemma load_be16_app_l p q i : i + 2 <= zlen p -> load_be16 (p ++ q) i = load_be16 p i.
Proof. intros. unfold load_be16. by rewrite !rd8_app_l by lia. Qed.

Lemma load_be16_app_r p q i :
  zlen p <= i -> load_be16 (p ++ q) i = load_be16 q (i - zlen p).
Proof.
  intros. unfold load_be16. rewrite !rd8_app_r by lia.
  by replace (i + 1 - zlen p) with (i - zlen p + 1) by lia.
Qed.

Lemma load_be16_padd p k i :
  0 <= k -> 0 <= i -> load_be16 (padd p k) i = load_be16 p (k + i).
Proof.
  intros. unfold load_be16. rewrite !rd8_padd by lia.
  by replace (k + (i + 1)) with (k + i + 1) by lia.
Qed.

Lemma load_be16_cells a b q : load_be16 (a :: b :: q) 0 = Ok (b2z a * 256 + b2z b).
Proof.
  unfold load_be16. simpl. f_equal. pose proof (b2z_range a). pose proof (b2z_range b).
  rewrite lor_shift8 by lia. apply u16_id. lia.
Qed.

Lemma put16_cells n : 0 <= n < 65536 ->
  b2z (z2b (n / 256)) * 256 + b2z (z2b n) = n.
Proof. intros. rewrite !b2z_z2b. Z.div_mod_to_equations. lia. Qed.

Lemma load_be16_at pre n q i :
  i = zlen pre -> 0 <= n < 65536 -> load_be16 (pre ++ put16 n ++ q) i = Ok n.
Proof.
  intros -> ?. rewrite load_be16_app_r by lia. rewrite Z.sub_diag. unfold put16. simpl.
  by rewrite load_be16_cells, put16_cells.
Qed.

Lemma rd_range_ok p i n : 0 <= i -> 0 <= n -> i + n <= zlen p ->
  rd_range p i n = Ok (take (Z.to_nat n) (drop (Z.to_nat i) p)).
Proof.
  intros. unfold rd_range.
  rewrite (proj2 (Z.ltb_ge i 0)), (proj2 (Z.ltb_ge n 0)), (proj2 (Z.ltb_ge _ (i + n))) by lia.
  done.
Qed.

Lemma rd_range_inv p i n l : rd_range p i n = Ok l ->
  0 <= i /\ 0 <= n /\ i + n <= zlen p /\ l = take (Z.to_nat n) (drop (Z.to_nat i) p) /\ zlen l = n.
Proof.
  unfold rd_range. destruct (Z.ltb_spec i 0), (Z.ltb_spec n 0), (Z.ltb_spec (zlen p) (i + n));
    simpl; try done. intros [= <-]. repeat split; try lia.
  rewrite zlen_take, zlen_drop. lia.
Qed.

Lemma rd_range_app_l p q i n : i + n <= zlen p -> rd_range (p ++ q) i n = rd_range p i n.
Proof.
  intros H. unfold rd_range. rewrite zlen_app. pose proof (zlen_nonneg q).
  destruct (Z.ltb_spec i 0); [done|]. destruct (Z.ltb_spec n 0); [done|].
  rewrite (proj2 (Z.ltb_ge _ (i + n))), (proj2 (Z.ltb_ge (zlen p) (i + n))) by lia.
  simpl. f_equal. unfold zlen in H.
  rewrite drop_app_le by lia. rewrite take_app_le; [done|]. rewrite length_drop. lia.
Qed.

Lemma rd_range_at pre l q i n : i = zlen pre -> n = zlen l ->
  rd_range (pre ++ l ++ q) i n = Ok l.
Proof.
  intros -> ->. rewrite rd_range_ok by zl. f_equal. unfold zlen.
  rewrite !Nat2Z.id. by rewrite drop_app_length, take_app_length.
Qed.

Lemma inside_ok p len s : 0 <= len <= zlen p -> inside p len s -> span_ok s.
Proof.
  intros ? (k & ? & Hp & ? & ?). unfold span_ok. rewrite Hp, zlen_padd by lia. lia.
Qed.

Lemma lor_shift16 a b c : 0 <= b < 256 -> 0 <= c < 256 ->
  Z.lor (Z.lor (Z.shiftl a 16) (Z.shiftl b 8)) c = (a * 256 + b) * 256 + c.
Proof.
  intros. replace (Z.shiftl a 16) with (Z.shiftl (Z.shiftl a 8) 8)
    by (rewrite Z.shiftl_shiftl by lia; done).
  rewrite <- Z.shiftl_lor, !lor_shift8 by lia. done.
Qed.

(** With distinct images, equal images come from one element. *)
Lemma NoDup_map_inj {A B} (f : A -> B) l x y : NoDup (map f l) -> x ∈ l -> y ∈ l ->
  f x = f y -> x = y.
Proof.
  induction l as [|z l IH]; [set_solver|]. simpl. intros Hnd Hx Hy E.
  pose proof (NoDup_cons_1_1 _ _ Hnd) as Hz. pose proof (NoDup_cons_1_2 _ _ Hnd) as Hl.
  assert (forall w, w ∈ l -> f w ∈ map f l) as Hin by (intros w Hw; by apply list_elem_of_fmap_2).
  apply elem_of_cons in Hx as [->|Hx], Hy as [->|Hy].
  - done.
  - destruct Hz. rewrite E. auto.
  - destruct Hz. rewrite <- E. auto.
  - auto.
Qed.

(** [destruct] one comparison in the condition of an [if] of the goal, turning
    it into an (in)equality of [Z], and simplify the connectives around it. *)
Ltac case_cmp :=
  match goal with
  | |- context [if ?c then _ else _] =>
      match c with
      | context [?a <? ?b] => destruct (Z.ltb_spec a b)
      | context [?a <=? ?b] => destruct (Z.leb_spec a b)
      | context [?a =? ?b] => destruct (Z.eqb_spec a b)
      end
  end;
  rewrite ?andb_false_r, ?andb_true_r, ?orb_false_r, ?orb_true_r; simpl.

(** Close a goal of shape [exists r .., f x = Ok r /\ P r] whose left side has
    been evaluated. *)
Ltac found :=
  solve [ eexists; split; [reflexivity|]; simpl; auto
        | eexists; eexists; split; [reflexivity|]; simpl; auto
        | eexists; reflexivity
        | eexists; eexists; reflexivity ].

(** Discharge a decidable hypothesis at a concrete input by evaluation: through
    its [Decision] instance, or as an equation of two values. *)
Ltac concrete :=
  first [ apply (bool_decide_unpack _); vm_compute; exact I
        | vm_compute; reflexivity
        | done ].
