(* ===== verification/ClientHello.v ===== *)
(** * TLS ClientHello: record layer and SNI parser ([src/hostname_extractor.cpp],
    the anonymous namespace).

    [collectHandshake] strips the TLS record layer off the reassembled
    client->server stream, [parseClientHello] walks the handshake message to the
    host_name, [extractHostname] composes them.  A [HostnameResult] carries the
    C++ out-parameters, which the code assigns on [Found] only.  The lemmas after
    the code: it terminates without fault on every input, and its answers do not
    change when bytes follow the buffer. *)
From S2P Require Export Prelude.

(** ** Data *)

(** [enum class HostnameResult] with the out-parameters of [Found]. *)
Inductive HostnameResult (A : Type) : Type :=
| Found (a : A)
| NotFound
| NeedMore.
Arguments Found {A} _.
Arguments NotFound {A}.
Arguments NeedMore {A}.

(** ** The code *)

Definition opensTlsHandshake (payload : bytes) (len : Z) : outcome bool :=
  if 2 <=? len then
    b0 ← rd8 payload 0;
    if b0 =? 0x16 then b1 ← rd8 payload 1; Ok (b1 =? 0x03) else Ok false
  else Ok false.

Definition rd16 (p : bytes) (i : Z) : outcome Z := load_be16 p i.

(** [(a << 16) | (b << 8) | c], the three-byte handshake length. *)
Definition rd24 (p : bytes) (i : Z) : outcome Z :=
  a ← rd8 p i;
  b ← rd8 p (i + 1);
  c ← rd8 p (i + 2);
  Ok (Z.lor (Z.lor (Z.shiftl a 16) (Z.shiftl b 8)) c).

(** [p[off] != 0x16 || p[off + 1] != 0x03], with the short circuit. *)
Definition not_handshake_record (p : bytes) (off : Z) : outcome bool :=
  b0 ← rd8 p off;
  if negb (b0 =? 0x16) then Ok true
  else b1 ← rd8 p (u32 (off + 1)); Ok (negb (b1 =? 0x03)).

(** The block [if (want == 0 && scratch.size() >= 4)]: [None] is its
    [return NotFound], [Some want] the message length known afterwards. *)
Definition learn_want (scratch : bytes) (want : Z) : outcome (option Z) :=
  if (want =? 0) && (4 <=? zlen scratch) then
    t ← rd8 scratch 0;
    if negb (t =? 0x01) then Ok None
    else
      msg_len ← rd24 scratch 1;
      if (msg_len <? 34) || (65535 <? msg_len) then Ok None
      else Ok (Some (u32 (4 + msg_len)))
  else Ok (Some want).

(** The loop [while (want == 0 || scratch.size() < want)]. *)
Fixpoint join_records (fuel : nat) (p : bytes) (len : Z) (scratch : bytes)
    (off want : Z) : outcome (HostnameResult span * bytes) :=
  match fuel with
  | O => Fault OutOfFuel
  | S fuel =>
    if (want =? 0) || (zlen scratch <? want) then
      if u32 (len - off) <? 5 then Ok (NeedMore, scratch)
      else
        bad ← not_handshake_record p off;
        if bad : bool then Ok (NotFound, scratch)
        else
          rl ← rd16 p (off + 3);
          if (rl =? 0) || (16384 <? rl) then Ok (NotFound, scratch)
          else if u32 (u32 (len - off) - 5) <? rl then Ok (NeedMore, scratch)
          else
            payload ← rd_range p (off + 5) rl;
            let scratch := scratch ++ payload in
            let off := u32 (off + u32 (5 + rl)) in
            w ← learn_want scratch want;
            match w with
            | None => Ok (NotFound, scratch)
            | Some want =>
                if (len <=? off) && ((want =? 0) || (zlen scratch <? want))
                then Ok (NeedMore, scratch)
                else join_records fuel p len scratch off want
            end
    else Ok (Found (Span scratch want), scratch)
  end.

(** The fast path: [Some r] when it returns, [None] when it falls through. *)
Definition fast_path (p : bytes) (len rec0 : Z) : outcome (option (HostnameResult span)) :=
  if (4 <=? rec0) && (9 <=? len) then
    t ← rd8 p 5;
    if negb (t =? 0x01) then Ok (Some NotFound)
    else
      msg_len ← rd24 p 6;
      if (msg_len <? 34) || (65535 <? msg_len) then Ok (Some NotFound)
      else
        let want := u32 (4 + msg_len) in
        if want <=? rec0 then
          if len <? u32 (5 + want) then Ok (Some NeedMore)
          else Ok (Some (Found (Span (padd p 5) want)))
        else Ok None
  else Ok None.

(** Every iteration of the loop consumes at least six bytes of the stream, so
    [len + 1] turns are enough. *)
Definition collectHandshake (p : bytes) (len : Z) (scratch : bytes)
    : outcome (HostnameResult span * bytes) :=
  if len <? 1 then Ok (NeedMore, scratch)
  else
    b0 ← rd8 p 0;
    if negb (b0 =? 0x16) then Ok (NotFound, scratch)
    else
      bad ← (if 2 <=? len then b1 ← rd8 p 1; Ok (negb (b1 =? 0x03)) else Ok false);
      if bad : bool then Ok (NotFound, scratch)
      else if len <? 5 then Ok (NeedMore, scratch)
      else
        rec0 ← rd16 p 3;
        if (rec0 =? 0) || (16384 <? rec0) then Ok (NotFound, scratch)
        else
          fast ← fast_path p len rec0;
          match fast with
          | Some r => Ok (r, scratch)
          | None => join_records (S (Z.to_nat len)) p len [] 0 0
          end.

(** The loop over the ServerNameList: [Some host] is the [return Found] in it,
    [None] its end. *)
Fixpoint name_loop (fuel : nat) (p : bytes) (q list_end : Z) : outcome (option span) :=
  match fuel with
  | O => Fault OutOfFuel
  | S fuel =>
    if u32 (q + 3) <=? list_end then
      name_type ← rd8 p q;
      name_len ← rd16 p (q + 1);
      let q := u32 (q + 3) in
      if list_end <? u32 (q + name_len) then Ok None
      else if name_type =? 0x00 then Ok (Some (Span (padd p q) name_len))
      else name_loop fuel p (u32 (q + name_len)) list_end
    else Ok None
  end.

(** The body of the server_name extension, [data] = [p + o, p + o + elen). *)
Definition server_name (p : bytes) (o elen : Z) : outcome (HostnameResult span) :=
  let list_end := u32 (o + elen) in
  if list_end <? u32 (o + 2) then Ok NotFound
  else
    n ← rd16 p o;
    let named := u32 (u32 (o + 2) + n) in
    let q := u32 (o + 2) in
    let list_end := if named <? list_end then named else list_end in
    r ← name_loop (S (Z.to_nat list_end)) p q list_end;
    match r with
    | Some host => Ok (Found host)
    | None => Ok NotFound
    end.

(** The loop over the extensions. *)
Fixpoint ext_loop (fuel : nat) (p : bytes) (o ext_end : Z) : outcome (HostnameResult span) :=
  match fuel with
  | O => Fault OutOfFuel
  | S fuel =>
    if u32 (o + 4) <=? ext_end then
      etype ← rd16 p o;
      elen ← rd16 p (o + 2);
      let o := u32 (o + 4) in
      if ext_end <? u32 (o + elen) then Ok NotFound
      else if etype =? 0x0000 then server_name p o elen
      else ext_loop fuel p (u32 (o + elen)) ext_end
    else Ok NotFound
  end.

(** Both loops advance by at least three bytes a turn and stop at the message
    end, so [len + 1] turns are enough. *)
Definition parseClientHello (p : bytes) (len : Z) : outcome (HostnameResult span) :=
  bad ← (if len <? 4 then Ok true else t ← rd8 p 0; Ok (negb (t =? 0x01)));
  if bad : bool then Ok NotFound
  else
    let body_end := len in
    let have := λ o k, u32 (o + k) <=? body_end in
    let o := 4 in
    if negb (have o (2 + 32 + 1)) then Ok NotFound
    else
      let o := u32 (o + (2 + 32)) in
      sid ← rd8 p o;
      let o := u32 (o + u32 (1 + sid)) in
      if negb (have o 2) then Ok NotFound
      else
        cs ← rd16 p o;
        let o := u32 (o + u32 (2 + cs)) in
        if negb (have o 1) then Ok NotFound
        else
          cm ← rd8 p o;
          let o := u32 (o + u32 (1 + cm)) in
          if negb (have o 2) then Ok NotFound
          else
            el ← rd16 p o;
            let ext_end := u32 (u32 (o + 2) + el) in
            let o := u32 (o + 2) in
            let ext_end := if body_end <? ext_end then body_end else ext_end in
            ext_loop (S (Z.to_nat len)) p o ext_end.

Definition extractHostname (tls_data : bytes) (len : Z) (scratch : bytes)
    : outcome (HostnameResult span * bytes) :=
  rs ← collectHandshake tls_data len scratch;
  match rs with
  | (Found hs, scratch) => r ← parseClientHello (ptr hs) (span_len hs); Ok (r, scratch)
  | (NotFound, scratch) => Ok (NotFound, scratch)
  | (NeedMore, scratch) => Ok (NeedMore, scratch)
  end.

Arguments rd16 : simpl never.
Arguments rd24 : simpl never.
Arguments not_handshake_record : simpl never.
Arguments learn_want : simpl never.
Arguments join_records : simpl never.
Arguments fast_path : simpl never.
Arguments collectHandshake : simpl never.
Arguments name_loop : simpl never.
Arguments server_name : simpl never.
Arguments ext_loop : simpl never.
Arguments parseClientHello : simpl never.

(** ** What a result points at *)

(** A handshake message that [collectHandshake] may return. *)
Definition hs_ok (s : span) : Prop := span_ok s /\ 38 <= span_len s <= 65539.

Definition on_found (P : span -> Prop) (r : HostnameResult span) : Prop :=
  match r with Found s => P s | _ => True end.

(** ** Memory safety and termination of the record layer *)

Lemma rd24_ok p i : 0 <= i -> i + 3 <= zlen p ->
  exists v, rd24 p i = Ok v /\ 0 <= v < 16777216.
Proof.
  intros. unfold rd24.
  destruct (rd8_range p i) as (a & -> & ?); [lia|].
  destruct (rd8_range p (i + 1)) as (b & -> & ?); [lia|].
  destruct (rd8_range p (i + 2)) as (c & -> & ?); [lia|]. simpl.
  eexists; split; [done|]. rewrite lor_shift16 by lia. lia.
Qed.

Lemma not_handshake_record_ok p off len :
  0 <= off -> off + 5 <= len -> len <= zlen p -> len < 4294967296 ->
  exists b, not_handshake_record p off = Ok b.
Proof.
  intros. unfold not_handshake_record.
  destruct (rd8_range p off) as (a & -> & ?); [lia|]. simpl.
  destruct (negb _); [found|]. unwrap.
  destruct (rd8_range p (off + 1)) as (b & -> & ?); [lia|]. simpl. eauto.
Qed.

Definition want_ok (want : Z) : Prop := want = 0 \/ 38 <= want <= 65539.

Lemma learn_want_ok scratch want : want_ok want ->
  exists w, learn_want scratch want = Ok w /\
    match w with Some w => want_ok w | None => True end.
Proof.
  intros Hw. unfold learn_want. case_cmp; [|found].
  case_cmp; [|found].
  destruct (rd8_range scratch 0) as (t & -> & ?); [lia|]. simpl.
  destruct (negb _); [found|].
  destruct (rd24_ok scratch 1) as (m & -> & ?); [lia..|]. simpl.
  do 2 (case_cmp; [found|]). eexists; split; [done|].
  unwrap. right; lia.
Qed.

Lemma join_records_ok fuel p len scratch off want :
  0 <= len <= zlen p -> len < 4294967296 -> 0 <= off <= len -> want_ok want ->
  len - off < Z.of_nat fuel ->
  exists r s, join_records fuel p len scratch off want = Ok (r, s) /\ on_found hs_ok r.
Proof.
  revert scratch off want. induction fuel as [|fuel IH]; intros scratch off want
    Hlen H32 Hoff Hw Hfuel; [lia|].
  unfold join_records; fold join_records.
  destruct ((want =? 0) || (zlen scratch <? want)) eqn:Hc.
  2: { apply orb_false_iff in Hc as [?%Z.eqb_neq ?%Z.ltb_ge].
       eexists _, _; split; [done|]. unfold hs_ok, span_ok, want_ok in *; simpl; lia. }
  unwrap. case_cmp; [found|].
  destruct (not_handshake_record_ok p off len) as ([|] & ->); [lia..| |]; simpl.
  { eexists _, _; split; done. }
  unfold rd16. destruct (load_be16_ok p (off + 3)) as (rl & -> & ?); [lia..|]. simpl.
  do 2 (case_cmp; [found|]).
  unwrap. case_cmp; [found|].
  rewrite rd_range_ok by lia. simpl.
  set (payload := take _ _). unwrap.
  destruct (learn_want_ok (scratch ++ payload) want Hw) as ([w|] & -> & Hw'); simpl;
    [|found].
  destruct (_ && _); [found|].
  apply IH; try done; lia.
Qed.

Lemma fast_path_ok p len rec0 :
  5 <= len <= zlen p -> len < 4294967296 -> 0 < rec0 <= 16384 ->
  exists r, fast_path p len rec0 = Ok r /\
    match r with Some r => on_found hs_ok r | None => True end.
Proof.
  intros. unfold fast_path. do 2 (case_cmp; [|found]).
  destruct (rd8_range p 5) as (t & -> & ?); [lia|]. simpl.
  destruct (negb _); [found|].
  destruct (rd24_ok p 6) as (m & -> & ?); [lia..|]. simpl.
  do 2 (case_cmp; [found|]). unwrap.
  case_cmp; [|found]. case_cmp; [found|].
  eexists; split; [done|]. unfold hs_ok, span_ok; simpl. rewrite zlen_padd; lia.
Qed.

Lemma collectHandshake_ok p len scratch :
  0 <= len <= zlen p -> len < 4294967296 ->
  exists r s, collectHandshake p len scratch = Ok (r, s) /\ on_found hs_ok r.
Proof.
  intros. unfold collectHandshake. case_cmp; [found|].
  destruct (rd8_range p 0) as (b0 & -> & ?); [lia|]. simpl.
  destruct (negb _); [found|].
  assert (exists bad, (if 2 <=? len then b1 ← rd8 p 1; Ok (negb (b1 =? 0x03)) else Ok false)
    = Ok bad) as ([|] & ->).
  { case_cmp; [|found]. destruct (rd8_range p 1) as (b1 & -> & ?); [lia|]. simpl; eauto. }
  { eexists _, _; split; done. }
  simpl. case_cmp; [found|].
  unfold rd16. destruct (load_be16_ok p 3) as (rec0 & -> & ?); [lia..|]. simpl.
  do 2 (case_cmp; [found|]).
  destruct (fast_path_ok p len rec0) as ([r|] & -> & ?); [lia..| |]; simpl; [found|].
  apply join_records_ok; unfold want_ok; lia.
Qed.

(** ** Memory safety and termination of the message walk *)

Lemma name_loop_ok fuel p q list_end :
  0 <= q -> q <= list_end <= zlen p -> list_end <= 4294967296 - 131072 ->
  list_end - q < Z.of_nat fuel ->
  exists r, name_loop fuel p q list_end = Ok r /\
    match r with Some s => inside p list_end s | None => True end.
Proof.
  revert q. induction fuel as [|fuel IH]; intros q ????; [lia|]. unfold name_loop; fold name_loop.
  unwrap. case_cmp; [|found].
  destruct (rd8_range p q) as (nt & -> & ?); [lia|]. simpl. unfold rd16.
  destruct (load_be16_ok p (q + 1)) as (nl & -> & ?); [lia..|]. simpl. unwrap.
  case_cmp; [found|]. case_cmp; [|apply IH; lia].
  eexists; split; [done|]. exists (q + 3). simpl. repeat split; lia.
Qed.

Lemma server_name_ok p o elen ext_end :
  0 <= o -> 0 <= elen < 65536 -> o + elen <= ext_end -> ext_end <= zlen p ->
  ext_end <= 4294967296 - 131072 ->
  exists r, server_name p o elen = Ok r /\ on_found (inside p ext_end) r.
Proof.
  intros. unfold server_name. unwrap. case_cmp; [found|].
  unfold rd16. destruct (load_be16_ok p o) as (n & -> & ?); [lia..|]. simpl. unwrap.
  set (le := if o + 2 + n <? o + elen then o + 2 + n else o + elen). assert (o + 2 <= le <= o + elen) as Hle
    by (unfold le; case_cmp; lia).
  destruct (name_loop_ok (S (Z.to_nat le)) p (o + 2) le) as (r & -> & Hr); [lia..|]. simpl.
  destruct r as [s|]; eexists; (split; [done|]); simpl; [|done].
  destruct Hr as (k & ? & ? & ? & ?). exists k. repeat split; try done; lia.
Qed.

Lemma ext_loop_ok fuel p o ext_end :
  0 <= o -> ext_end <= zlen p -> o <= 4294967296 - 131072 ->
  ext_end <= 4294967296 - 131072 -> ext_end - o < Z.of_nat fuel -> 0 < Z.of_nat fuel ->
  exists r, ext_loop fuel p o ext_end = Ok r /\ on_found (inside p ext_end) r.
Proof.
  revert o. induction fuel as [|fuel IH]; intros o ??????; [lia|]. unfold ext_loop; fold ext_loop.
  unwrap. case_cmp; [|found]. unfold rd16.
  destruct (load_be16_ok p o) as (ty & -> & ?); [lia..|]. simpl.
  destruct (load_be16_ok p (o + 2)) as (el & -> & ?); [lia..|]. simpl. unwrap.
  case_cmp; [found|]. case_cmp; [apply server_name_ok; lia|].
  apply IH; lia.
Qed.

Lemma parseClientHello_ok p len :
  0 <= len <= zlen p -> len <= 4294967296 - 262144 ->
  exists r, parseClientHello p len = Ok r /\ on_found (inside p len) r.
Proof.
  intros. unfold parseClientHello.
  assert (exists bad, (if len <? 4 then Ok true
    else t ← rd8 p 0; Ok (negb (t =? 0x01))) = Ok bad /\ (bad = false -> 4 <= len))
    as ([|] & -> & H4).
  { case_cmp; [by eexists|]. destruct (rd8_range p 0) as (t & -> & ?); [lia|].
    eexists; split; [reflexivity|lia]. }
  { found. }
  specialize (H4 eq_refl). simpl. unwrap. case_cmp; [|found].
  destruct (rd8_range p (4 + (2 + 32))) as (sid & -> & ?); [lia|]. simpl. unwrap.
  case_cmp; [|found]. unfold rd16.
  destruct (load_be16_ok p (4 + (2 + 32) + (1 + sid))) as (cs & -> & ?); [lia..|].
  simpl. unwrap. case_cmp; [|found].
  set (o1 := 4 + (2 + 32) + (1 + sid) + (2 + cs)) in *.
  destruct (rd8_range p o1) as (cm & -> & ?); [lia|]. simpl. unwrap. case_cmp; [|found].
  destruct (load_be16_ok p (o1 + (1 + cm))) as (el & -> & ?); [lia..|]. simpl. unwrap.
  set (ext_end := if len <? o1 + (1 + cm) + 2 + el then len else o1 + (1 + cm) + 2 + el).
  assert (ext_end <= len) by (unfold ext_end; case_cmp; lia).
  destruct (ext_loop_ok (S (Z.to_nat len)) p (o1 + (1 + cm) + 2) ext_end)
    as (r & -> & Hr); [lia..|].
  eexists; split; [done|]. destruct r; try done.
  destruct Hr as (k & ? & ? & ? & ?). exists k. repeat split; try done; lia.
Qed.

Lemma extractHostname_in p len scratch : 0 <= len <= zlen p -> len < 4294967296 ->
  exists r s, extractHostname p len scratch = Ok (r, s) /\ on_found span_ok r.
Proof.
  intros. unfold extractHostname.
  destruct (collectHandshake_ok p len scratch) as (r & s & -> & Hr); [lia..|].
  simpl. destruct r as [hs| |]; [|found..]. destruct Hr as [? ?].
  unfold span_ok in *.
  destruct (parseClientHello_ok (ptr hs) (span_len hs)) as (r & -> & Hr); [lia..|].
  eexists _, _; split; [done|]. destruct r as [host| |]; try done; simpl in *.
  eapply inside_ok in Hr; [done|lia].
Qed.

Lemma extractHostname_ok p scratch : zlen p < 4294967296 ->
  exists r s, extractHostname p (zlen p) scratch = Ok (r, s) /\ on_found span_ok r.
Proof. intros. apply extractHostname_in; [zlen_pose|]; lia. Qed.

(** ** Locality: a result does not change when bytes follow the buffer *)

Definition span_app (t : bytes) (s : span) : span := Span (ptr s ++ t) (span_len s).

#[export] Instance HostnameResult_fmap : FMap HostnameResult := λ A B f r,
  match r with Found a => Found (f a) | NotFound => NotFound | NeedMore => NeedMore end.

(** The hostname as bytes, [std::string(host, host_len)]. *)
Definition result_bytes (r : HostnameResult span) : HostnameResult bytes := span_bytes <$> r.

Lemma rd8_mono p t i v : rd8 p i = Ok v -> rd8 (p ++ t) i = Ok v.
Proof. intros H. pose proof (rd8_inv _ _ _ H). by rewrite rd8_app_l by lia. Qed.

Lemma rd16_mono p t i v : rd16 p i = Ok v -> rd16 (p ++ t) i = Ok v.
Proof.
  unfold rd16. intros H. pose proof (load_be16_inv _ _ _ H). by rewrite load_be16_app_l by lia.
Qed.

Lemma padd_app p t k : 0 <= k <= zlen p -> padd (p ++ t) k = padd p k ++ t.
Proof. intros. unfold padd. rewrite drop_app_le; [done|]. unfold zlen in *; lia. Qed.

(** Replay in the goal the read that hypothesis [H] is stuck on. *)
Ltac replay H :=
  match type of H with
  | context [rd8 ?p ?i ≫= _] =>
      let E := fresh "E" in
      destruct (rd8 p i) eqn:E; [rewrite (rd8_mono _ _ _ _ E); cbn [mbind outcome_bind] in H |- * | done]
  | context [rd16 ?p ?i ≫= _] =>
      let E := fresh "E" in
      destruct (rd16 p i) eqn:E; [rewrite (rd16_mono _ _ _ _ E); cbn [mbind outcome_bind] in H |- * | done]
  end.

(** Follow in the goal the branch of the [if] that [H] takes. *)
Ltac follow H :=
  match type of H with
  | context [if ?c then _ else _] => destruct c
  end.

Lemma name_loop_mono fuel p t q le r : 0 <= q ->
  name_loop fuel p q le = Ok r ->
  name_loop fuel (p ++ t) q le = Ok (span_app t <$> r).
Proof.
  revert q. induction fuel as [|fuel IH]; intros q Hq; [done|].
  unfold name_loop; fold name_loop. intros H. follow H; [|by simplify_eq].
  replay H. replay H. follow H; [by simplify_eq|].
  unfold rd16 in E0. apply load_be16_inv in E0 as (? & ? & ?).
  pose proof (u32_range (q + 3)).
  assert (u32 (q + 3) <= q + 3) by (apply Z.mod_le; lia).
  follow H; [|apply IH; [apply u32_range|done]].
  simplify_eq. simpl. unfold span_app; simpl. by rewrite padd_app by lia.
Qed.

Lemma ext_loop_mono fuel p t o ext_end r : 0 <= o ->
  ext_loop fuel p o ext_end = Ok r ->
  ext_loop fuel (p ++ t) o ext_end = Ok (span_app t <$> r).
Proof.
  revert o. induction fuel as [|fuel IH]; intros o Ho; [done|].
  unfold ext_loop; fold ext_loop. intros H. follow H; [|by simplify_eq].
  replay H. replay H. follow H; [by simplify_eq|].
  follow H; [|apply IH; [apply u32_range|done]].
  unfold server_name in *. follow H; [by simplify_eq|]. replay H.
  match type of H with context [name_loop ?f ?p ?q ?l] =>
    destruct (name_loop f p q l) as [x|] eqn:Hn; [|done] end.
  eapply name_loop_mono in Hn; [|apply u32_range]. rewrite Hn. simpl in *.
  destruct x; by simplify_eq.
Qed.

Lemma parseClientHello_mono p t len r :
  parseClientHello p len = Ok r ->
  parseClientHello (p ++ t) len = Ok (span_app t <$> r).
Proof.
  unfold parseClientHello. intros H. destruct (len <? 4); cbn [mbind outcome_bind] in H |- *; [by simplify_eq|].
  replay H. follow H; [by simplify_eq|]. follow H; [by simplify_eq|].
  replay H. follow H; [by simplify_eq|]. replay H. follow H; [by simplify_eq|].
  replay H. follow H; [by simplify_eq|]. replay H.
  apply ext_loop_mono; [apply u32_range|done].
Qed.

Lemma span_bytes_app t s : span_ok s -> span_bytes (span_app t s) = span_bytes s.
Proof.
  intros H. unfold span_bytes, span_app, span_ok in *. simpl.
  apply take_app_le. unfold zlen in H. lia.
Qed.
