(* ===== verification/ClientHelloSpec.v ===== *)
(** * What the ClientHello parser promises

    The encoders below are the specification: a [ClientHello] value is printed
    as a handshake message ([enc_hello]), a message is cut into TLS records in
    any way ([frames]), and the theorems say that the code of [ClientHello.v]
    gets the message and its SNI back, whatever the framing, whatever follows
    and however the stream is chunked.  [client_hello] and
    [split_across_two_records] are the builders of the unit tests. *)
From S2P Require Import ClientHello.

(** ** ClientHello messages *)

Inductive Extension :=
| ServerName (names : list (Z * bytes))
| OtherExtension (etype : Z) (data : bytes).

Record Hello := MkHello {
  legacy_version : bytes;
  random : bytes;
  session_id : bytes;
  cipher_suites : bytes;
  compression_methods : bytes;
  extensions : option (list Extension)
}.

Definition enc_name (n : Z * bytes) : bytes := z2b n.1 :: put16 (zlen n.2) ++ n.2.

Definition enc_names (ns : list (Z * bytes)) : bytes := concat (map enc_name ns).

Definition ext_type (e : Extension) : Z :=
  match e with ServerName _ => 0 | OtherExtension t _ => t end.

Definition ext_data (e : Extension) : bytes :=
  match e with
  | ServerName ns => put16 (zlen (enc_names ns)) ++ enc_names ns
  | OtherExtension _ d => d
  end.

Definition enc_ext (e : Extension) : bytes :=
  put16 (ext_type e) ++ put16 (zlen (ext_data e)) ++ ext_data e.

Definition enc_exts (es : list Extension) : bytes := concat (map enc_ext es).

Definition enc_ext_block (es : option (list Extension)) : bytes :=
  match es with
  | None => []
  | Some es => put16 (zlen (enc_exts es)) ++ enc_exts es
  end.

Definition enc_body (h : Hello) : bytes :=
  legacy_version h ++ random h ++
  z2b (zlen (session_id h)) :: session_id h ++
  put16 (zlen (cipher_suites h)) ++ cipher_suites h ++
  z2b (zlen (compression_methods h)) :: compression_methods h ++
  enc_ext_block (extensions h).

(** A handshake message of type ClientHello: msg_type(1) length(3) body. *)
Definition hello_message (body : bytes) : bytes := x01 :: put24 (zlen body) ++ body.

Definition enc_hello (h : Hello) : bytes := hello_message (enc_body h).

Definition wf_name (n : Z * bytes) : Prop := 0 <= n.1 < 256 /\ zlen n.2 < 65536.

Definition wf_ext (e : Extension) : Prop :=
  zlen (ext_data e) < 65536 /\
  match e with
  | ServerName ns => Forall wf_name ns
  | OtherExtension t _ => 0 < t < 65536
  end.

Definition wf_hello (h : Hello) : Prop :=
  zlen (legacy_version h) = 2 /\ zlen (random h) = 32 /\
  zlen (session_id h) < 256 /\ zlen (cipher_suites h) < 65536 /\
  zlen (compression_methods h) < 256 /\
  match extensions h with
  | None => True
  | Some es => Forall wf_ext es /\ zlen (enc_exts es) < 65536
  end.

#[export] Instance wf_name_dec n : Decision (wf_name n).
Proof. unfold wf_name. apply _. Defined.

#[export] Instance wf_ext_dec e : Decision (wf_ext e).
Proof. unfold wf_ext. destruct e; apply _. Defined.

#[export] Instance wf_hello_dec h : Decision (wf_hello h).
Proof. unfold wf_hello. destruct (extensions h); apply _. Defined.

(** The hostname of a hello: the first host_name entry of its first
    server_name extension. *)
Fixpoint first_host (ns : list (Z * bytes)) : option bytes :=
  match ns with
  | [] => None
  | n :: ns => if n.1 =? 0 then Some n.2 else first_host ns
  end.

Fixpoint first_server_name (es : list Extension) : option bytes :=
  match es with
  | [] => None
  | ServerName ns :: _ => first_host ns
  | OtherExtension _ _ :: es => first_server_name es
  end.

Definition sni (h : Hello) : option bytes :=
  match extensions h with None => None | Some es => first_server_name es end.

Definition sni_result (o : option bytes) : HostnameResult bytes :=
  match o with Some n => Found n | None => NotFound end.

(** ** TLS records *)

(** A handshake record: the minor version byte and the payload. *)
Definition frame (r : byte * bytes) : bytes := [x16; x03; r.1] ++ put16 (zlen r.2) ++ r.2.

Definition frames (rs : list (byte * bytes)) : bytes := concat (map frame rs).

Definition payloads (rs : list (byte * bytes)) : bytes := concat (map snd rs).

Definition wf_record (r : byte * bytes) : Prop := 1 <= zlen r.2 <= 16384.

#[export] Instance wf_record_dec r : Decision (wf_record r).
Proof. unfold wf_record. apply _. Defined.

(** ** The builders of the unit tests *)

(** [testpkt::client_hello] *)
Definition test_hello (host : bytes) : Hello := {|
  legacy_version := [x03; x03];
  random := replicate 32 xab;
  session_id := [];
  cipher_suites := [x13; x01];
  compression_methods := [x00];
  extensions := Some (if decide (host = []) then [] else [ServerName [(0, host)]])
|}.

Definition client_hello (host : bytes) : bytes := frame (x01, enc_hello (test_hello host)).

Definition split_across_two_records (one : bytes) (at_ : nat) : bytes :=
  let hs := drop 5 one in
  frame (x01, take at_ hs) ++ frame (x01, drop at_ hs).

Arguments frame : simpl never.
Arguments enc_ext : simpl never.
Arguments enc_name : simpl never.
Arguments hello_message : simpl never.

(** ** Record layer: any framing of a message gives the message back *)

Lemma zlen_frame r : zlen (frame r) = 5 + zlen r.2.
Proof. unfold frame. zl. Qed.

Lemma frames_cons r rs : frames (r :: rs) = frame r ++ frames rs.
Proof. reflexivity. Qed.

Lemma frames_app rs rs' : frames (rs ++ rs') = frames rs ++ frames rs'.
Proof. unfold frames. by rewrite map_app, concat_app. Qed.

Lemma payloads_cons r rs : payloads (r :: rs) = r.2 ++ payloads rs.
Proof. reflexivity. Qed.

#[export] Hint Rewrite zlen_frame : zlen.

Lemma zlen_hello_message body : zlen (hello_message body) = 4 + zlen body.
Proof. unfold hello_message. zl. Qed.

#[export] Hint Rewrite zlen_hello_message : zlen.

Lemma rd24_at pre n q i : i = zlen pre -> 0 <= n < 16777216 ->
  rd24 (pre ++ put24 n ++ q) i = Ok n.
Proof.
  intros -> Hn. unfold rd24, put24.
  rewrite (rd8_app_r pre _ (zlen pre)), (rd8_app_r pre _ (zlen pre + 1)),
    (rd8_app_r pre _ (zlen pre + 2)) by lia.
  rewrite Z.sub_diag, !Z.add_simpl_l. unfold rd8. simpl.
  rewrite lor_shift16 by apply b2z_range. f_equal. rewrite !b2z_z2b.
  Z.div_mod_to_equations. lia.
Qed.

(** The code's [want], for the payload bytes joined so far. *)
Definition want_of (m s : bytes) : Z := if 4 <=? zlen s then zlen m else 0.

Lemma learn_want_hello body s s0 t :
  34 <= zlen body <= 65535 -> hello_message body = (s0 ++ s) ++ t ->
  learn_want (s0 ++ s) (want_of (hello_message body) s0)
    = Ok (Some (want_of (hello_message body) (s0 ++ s))).
Proof.
  intros Hb Hm. unfold learn_want, want_of.
  rewrite zlen_hello_message, zlen_app. zlen_pose.
  destruct (Z.leb_spec 4 (zlen s0)).
  - rewrite (proj2 (Z.leb_le 4 (zlen s0 + zlen s))) by lia.
    by rewrite (proj2 (Z.eqb_neq (4 + zlen body) 0)) by lia.
  - case_cmp; [|done]. simpl.
    assert (forall i, 0 <= i < 4 -> rd8 (s0 ++ s) i = rd8 (hello_message body) i) as Hrd.
    { intros. rewrite Hm. by rewrite (rd8_app_l (s0 ++ s)) by zl. }
    rewrite Hrd by lia.
    assert (rd24 (s0 ++ s) 1 = Ok (zlen body)) as ->.
    { unfold rd24. rewrite !Hrd by lia. apply (rd24_at [x01] (zlen body) body 1); [done|lia]. }
    change (rd8 (hello_message body) 0) with (Ok 1). simpl.
    do 2 (case_cmp; [lia|]). by unwrap.
Qed.

(** The three reads of a turn of the joining loop. *)
Lemma record_reads pre r t :
  zlen r.2 < 65536 -> zlen pre < 4294967295 ->
  let p := pre ++ frame r ++ t in
  not_handshake_record p (zlen pre) = Ok false /\
  rd16 p (zlen pre + 3) = Ok (zlen r.2) /\
  rd_range p (zlen pre + 5) (zlen r.2) = Ok r.2.
Proof.
  intros Hr Hpre p. unfold p, frame. rewrite <- !app_assoc. zlen_pose. repeat split.
  - unfold not_handshake_record. simpl. rewrite (rd8_at pre _ _ (zlen pre)) by done.
    simpl. unwrap. rewrite (cons_middle x16 pre), (app_assoc pre). by rewrite rd8_at by zl.
  - unfold rd16. rewrite (app_assoc pre). apply load_be16_at; zl.
  - rewrite (app_assoc pre), (app_assoc (pre ++ _)). apply rd_range_at; zl.
Qed.

Lemma want_of_all body : 0 <= zlen body ->
  want_of (hello_message body) (hello_message body) = zlen (hello_message body).
Proof. intros. unfold want_of. by rewrite (proj2 (Z.leb_le 4 _)) by zl. Qed.

(** While payload bytes are missing, the loop goes on. *)
Lemma want_of_waiting m s : zlen s < zlen m ->
  (want_of m s =? 0) || (zlen s <? want_of m s) = true.
Proof.
  intros. unfold want_of. destruct (4 <=? zlen s); [|done].
  apply orb_true_iff; right; by apply Z.ltb_lt.
Qed.

Lemma join_records_frames fuel pre rs rest s body :
  34 <= zlen body <= 65535 -> s ++ payloads rs = hello_message body ->
  Forall wf_record rs -> zlen (pre ++ frames rs ++ rest) < 4294967296 ->
  (length rs < fuel)%nat ->
  join_records fuel (pre ++ frames rs ++ rest) (zlen (pre ++ frames rs ++ rest))
      s (zlen pre) (want_of (hello_message body) s)
    = Ok (Found (Span (hello_message body) (zlen (hello_message body))), hello_message body).
Proof.
  intros Hb. revert pre rs s. induction fuel as [|fuel IH]; intros pre rs s Hm Hwf Hlen Hfuel;
    [lia|].
  unfold join_records; fold join_records.
  destruct rs as [|r rs].
  { rewrite app_nil_r in Hm. subst s. rewrite want_of_all by lia.
    rewrite Z.ltb_irrefl, (proj2 (Z.eqb_neq (zlen _) 0)) by zl. done. }
  inversion_clear Hwf as [|?? Hr Hrs]. unfold wf_record in Hr.
  rewrite payloads_cons in Hm. rewrite frames_cons in *.
  assert (zlen (hello_message body) = zlen s + zlen r.2 + zlen (payloads rs)) as Hml
    by (rewrite <- Hm; zl).
  rewrite want_of_waiting by (rewrite Hml; zlen_pose; lia).
  set (p := pre ++ _ ++ rest) in *.
  assert (zlen p = zlen pre + 5 + zlen r.2 + zlen (frames rs) + zlen rest) as Hp
    by (unfold p; zl).
  zlen_pose. unwrap. rewrite (proj2 (Z.ltb_ge _ 5)) by lia.
  destruct (record_reads pre r (frames rs ++ rest)) as (E1 & E2 & E3); [lia|zl|].
  rewrite (app_assoc (frame r)) in E1, E2, E3. fold p in E1, E2, E3.
  rewrite E1. simpl. rewrite E2. simpl. do 2 (case_cmp; [lia|]). unwrap.
  rewrite (proj2 (Z.ltb_ge _ (zlen r.2))), E3 by lia.
  simpl. rewrite (learn_want_hello body r.2 s (payloads rs)) by (done || by rewrite <- Hm, app_assoc).
  simpl. unwrap.
  assert ((zlen p <=? zlen pre + (5 + zlen r.2)) &&
    ((want_of (hello_message body) (s ++ r.2) =? 0)
     || (zlen (s ++ r.2) <? want_of (hello_message body) (s ++ r.2))) = false) as ->.
  { destruct rs as [|r' rs].
    - apply andb_false_iff; right. unfold want_of. rewrite Hml.
      autorewrite with zlen in *. change (zlen (payloads [])) with 0 in *.
      rewrite (proj2 (Z.leb_le 4 _)) by lia.
      apply orb_false_iff; split; [apply Z.eqb_neq; lia | apply Z.ltb_ge; lia].
    - apply andb_false_iff; left. apply Z.leb_gt. rewrite Hp, frames_cons. zl. }
  replace (zlen pre + (5 + zlen r.2)) with (zlen (pre ++ frame r)) by zl.
  assert (p = (pre ++ frame r) ++ frames rs ++ rest) as Hp'
    by (unfold p; by rewrite <- !app_assoc).
  rewrite Hp'. apply IH; [by rewrite <- app_assoc|done|by rewrite <- Hp'|simpl in *; lia].
Qed.

Lemma frame_reads r t :
  rd8 (frame r ++ t) 0 = Ok 0x16 /\ rd8 (frame r ++ t) 1 = Ok 0x03 /\
  (zlen r.2 < 65536 -> rd16 (frame r ++ t) 3 = Ok (zlen r.2)) /\
  (forall i, 0 <= i < zlen r.2 -> rd8 (frame r ++ t) (5 + i) = rd8 r.2 i) /\
  padd (frame r ++ t) 5 = r.2 ++ t.
Proof.
  unfold frame. rewrite <- !app_assoc. repeat split.
  - intros. unfold rd16. apply load_be16_at; zl.
  - intros i ?. rewrite (app_assoc [_; _; _]). rewrite rd8_app_r by zl.
    rewrite rd8_app_l by zl. f_equal. zl.
Qed.

Lemma hello_reads body c t : 0 <= zlen body < 16777216 ->
  hello_message body = c ++ t -> 4 <= zlen c ->
  rd8 c 0 = Ok 1 /\ rd24 c 1 = Ok (zlen body).
Proof.
  intros Hb Hm Hc.
  assert (forall i, 0 <= i < 4 -> rd8 c i = rd8 (hello_message body) i) as Hrd.
  { intros. rewrite Hm. by rewrite rd8_app_l by lia. }
  rewrite Hrd by lia. split; [done|]. unfold rd24. rewrite !Hrd by lia.
  apply (rd24_at [x01] (zlen body) body 1); [done|lia].
Qed.

Lemma fast_path_frames r rs rest body :
  34 <= zlen body <= 65535 -> payloads (r :: rs) = hello_message body ->
  Forall wf_record (r :: rs) -> zlen (frame r ++ frames rs ++ rest) < 4294967296 ->
  let p := frame r ++ frames rs ++ rest in
  fast_path p (zlen p) (zlen r.2) = Ok None \/
  fast_path p (zlen p) (zlen r.2) =
    Ok (Some (Found (Span (hello_message body ++ rest) (zlen (hello_message body))))).
Proof.
  intros Hb Hm Hwf Hlen p. inversion_clear Hwf as [|?? Hr Hrs].
  rewrite payloads_cons in Hm. unfold wf_record in *. fold p in Hlen.
  destruct (frame_reads r (frames rs ++ rest)) as (_ & _ & _ & Hrd & Hpad). fold p in Hrd, Hpad.
  assert (zlen p = 5 + zlen r.2 + zlen (frames rs) + zlen rest) by (unfold p; zl).
  assert (zlen r.2 + zlen (payloads rs) = 4 + zlen body)
    by (rewrite <- zlen_hello_message, <- Hm; zl).
  zlen_pose. unfold fast_path. do 2 (case_cmp; [|by left]).
  edestruct (hello_reads body r.2 (payloads rs)) as [Ht Hl]; [lia|done|lia|].
  pose proof (Hrd 0) as E0. rewrite Z.add_0_r in E0. rewrite E0, Ht by lia. simpl.
  assert (rd24 p 6 = Ok (zlen body)) as ->.
  { rewrite <- Hl. unfold rd24. by rewrite <- !Hrd by lia. }
  simpl. do 2 (case_cmp; [lia|]). unwrap. case_cmp; [|by left].
  assert (payloads rs = []) as Hnil by (apply zlen_0_nil; lia).
  assert (rs = []) as ->.
  { destruct rs as [|r' rs]; [done|]. inversion_clear Hrs.
    rewrite payloads_cons in Hnil. unfold wf_record in *.
    apply app_eq_nil in Hnil as [Hn _]. rewrite Hn in *. rewrite zlen_nil in *. lia. }
  case_cmp; [lia|]. right. rewrite Hpad. rewrite app_nil_r in Hm. rewrite Hm.
  by rewrite zlen_hello_message.
Qed.

Lemma length_frames rs : Z.of_nat (length rs) <= zlen (frames rs).
Proof. induction rs as [|a l IH]; [done|]. rewrite frames_cons. simpl. zl. Qed.

(** The bytes a found message consists of, whatever the path that found it. *)
Lemma collectHandshake_frames rs rest scratch body :
  34 <= zlen body <= 65535 -> payloads rs = hello_message body ->
  Forall wf_record rs -> zlen (frames rs ++ rest) < 4294967296 ->
  exists t s, collectHandshake (frames rs ++ rest) (zlen (frames rs ++ rest)) scratch
    = Ok (Found (Span (hello_message body ++ t) (zlen (hello_message body))), s).
Proof.
  intros Hb Hm Hwf Hlen. destruct rs as [|r rs]; [done|].
  rewrite frames_cons, <- app_assoc in *.
  pose proof (fast_path_frames r rs rest body Hb Hm Hwf Hlen) as Hfast. cbv zeta in Hfast.
  pose proof Hwf as Hwf'. inversion_clear Hwf' as [|?? Hr Hrs]. unfold wf_record in Hr.
  assert (zlen (frame r ++ frames rs ++ rest)
    = 5 + zlen r.2 + zlen (frames rs) + zlen rest) as Hl by zl.
  destruct (frame_reads r (frames rs ++ rest)) as (E0 & E1 & E3 & _).
  pose proof (join_records_frames (S (Z.to_nat (zlen (frame r ++ frames rs ++ rest))))
    [] (r :: rs) rest [] body Hb Hm Hwf) as J.
  rewrite frames_cons, <- app_assoc in J.
  specialize (J Hlen). pose proof (length_frames (r :: rs)) as Hc.
  rewrite frames_cons in Hc. zlen_pose.
  set (p := frame r ++ frames rs ++ rest) in *. change ([] ++ p) with p in J. clearbody p.
  unfold collectHandshake. case_cmp; [lia|]. rewrite E0. simpl.
  rewrite (proj2 (Z.leb_le 2 (zlen p))), E1 by lia. simpl.
  case_cmp; [lia|]. rewrite E3 by lia. simpl.
  do 2 (case_cmp; [lia|]). destruct Hfast as [-> | ->]; simpl; [|by eexists _, _].
  exists [], (hello_message body). rewrite app_nil_r. apply J. zl.
Qed.

(** ** Waiting: a proper prefix of a framed message is never decided *)

Lemma rd8_cut p t i v : i < zlen p -> rd8 (p ++ t) i = Ok v -> rd8 p i = Ok v.
Proof. intros. by rewrite <- (rd8_app_l p t). Qed.

Lemma not_handshake_record_cut p t i v : 0 <= i -> i + 2 <= zlen p -> zlen p < 4294967296 ->
  not_handshake_record (p ++ t) i = Ok v -> not_handshake_record p i = Ok v.
Proof.
  intros ??? H. unfold not_handshake_record in *.
  rewrite (u32_id (i + 1)) in * by lia. by rewrite !rd8_app_l in H by lia.
Qed.

Lemma join_records_waits fuel pre rs p t s body :
  34 <= zlen body <= 65535 -> s ++ payloads rs = hello_message body ->
  Forall wf_record rs -> p ++ t = pre ++ frames rs -> t <> [] -> zlen pre <= zlen p ->
  zlen p < 4294967296 -> zlen p - zlen pre < Z.of_nat fuel ->
  exists s', join_records fuel p (zlen p) s (zlen pre) (want_of (hello_message body) s)
    = Ok (NeedMore, s').
Proof.
  intros Hb. revert pre rs s. induction fuel as [|fuel IH];
    intros pre rs s Hm Hwf Hp Ht Hpre Hlen Hfuel; [lia|].
  assert (1 <= zlen t) as Ht1 by (destruct t; [done|zl]).
  assert (zlen p + zlen t = zlen pre + zlen (frames rs)) as Hl
    by (rewrite <- !zlen_app; by rewrite Hp).
  zlen_pose. unfold join_records; fold join_records. destruct rs as [|r rs].
  { change (frames []) with (@nil byte) in *. rewrite zlen_nil in *. lia. }
  inversion_clear Hwf as [|?? Hr Hrs]. unfold wf_record in Hr.
  rewrite payloads_cons in Hm. rewrite frames_cons in *.
  assert (zlen (hello_message body) = zlen s + zlen r.2 + zlen (payloads rs)) as Hml
    by (rewrite <- Hm; zl).
  rewrite want_of_waiting by (rewrite Hml; zlen_pose; lia). unwrap.
  destruct (Z.ltb_spec (zlen p - zlen pre) 5); [found|].
  destruct (record_reads pre r (frames rs)) as (E1 & E2 & E3); [lia|lia|].
  rewrite <- Hp in E1, E2, E3. apply not_handshake_record_cut in E1; [|lia..].
  rewrite E1. simpl. unfold rd16 in *. rewrite load_be16_app_l in E2 by lia. rewrite E2. simpl.
  do 2 (case_cmp; [lia|]). unwrap. case_cmp; [found|].
  rewrite rd_range_app_l in E3 by lia. rewrite E3. simpl.
  rewrite (learn_want_hello body r.2 s (payloads rs)) by (done || by rewrite <- Hm, app_assoc).
  simpl. unwrap. match goal with |- context [if ?c then _ else _] => destruct c end; [found|].
  replace (zlen pre + (5 + zlen r.2)) with (zlen (pre ++ frame r)) by zl.
  apply (IH _ rs); try done; [by rewrite <- app_assoc|by rewrite <- app_assoc|zl|zl].
Qed.

(** ** Stability: a decision taken on a prefix of the stream is final *)

Lemma rd24_mono p t i v : rd24 p i = Ok v -> rd24 (p ++ t) i = Ok v.
Proof. unfold rd24. intros H. by do 3 replay H. Qed.

Lemma not_handshake_record_mono p t i v :
  not_handshake_record p i = Ok v -> not_handshake_record (p ++ t) i = Ok v.
Proof.
  unfold not_handshake_record. intros H. replay H. follow H; [by simplify_eq|].
  by replay H.
Qed.

Lemma rd_range_mono p t i n v : rd_range p i n = Ok v -> rd_range (p ++ t) i n = Ok v.
Proof.
  intros H. pose proof (rd_range_inv _ _ _ _ H) as (? & ? & ? & _). by rewrite rd_range_app_l.
Qed.

Definition decided_result {A} (r : HostnameResult A) : Prop :=
  match r with NeedMore => False | _ => True end.

#[export] Instance decided_result_dec {A} (r : HostnameResult A) : Decision (decided_result r).
Proof. destruct r; apply _. Defined.

Lemma join_records_stable fuel fuel' p t s off want r s' :
  0 <= off <= zlen p -> zlen (p ++ t) < 4294967296 -> (fuel <= fuel')%nat ->
  decided_result r ->
  join_records fuel p (zlen p) s off want = Ok (r, s') ->
  join_records fuel' (p ++ t) (zlen (p ++ t)) s off want = Ok (r, s').
Proof.
  revert fuel' s off want. induction fuel as [|fuel IH]; intros fuel' s off want Hoff Hlen Hf Hd;
    [done|].
  destruct fuel' as [|fuel']; [lia|]. unfold join_records; fold join_records.
  intros H. follow H; [|done]. rewrite zlen_app in *. zlen_pose.
  assert (forall x, 0 <= x <= zlen p -> u32 x = x) as U by (intros; apply u32_id; lia).
  rewrite U in H by lia. unwrap.
  destruct (Z.ltb_spec (zlen p - off) 5); [by simplify_eq|].
  rewrite (proj2 (Z.ltb_ge _ 5)) by lia.
  destruct (not_handshake_record p off) as [b|] eqn:E; [|done].
  rewrite (not_handshake_record_mono _ _ _ _ E). simpl in *. destruct b; [done|].
  replay H. apply load_be16_inv in E0 as (_ & _ & ?). follow H; [done|].
  rewrite U in H by lia. unwrap.
  match type of H with context [?x <? ?y] => destruct (Z.ltb_spec x y) end; [by simplify_eq|].
  rewrite (proj2 (Z.ltb_ge _ a)) by lia.
  destruct (rd_range p (off + 5) a) as [pay|] eqn:E1; [|done].
  rewrite (rd_range_mono _ _ _ _ _ E1). simpl in *.
  destruct (learn_want (s ++ pay) want) as [[w|]|]; simpl in *; [|done..].
  rewrite (U (5 + a)) in H by lia. rewrite U in H by lia. unwrap.
  match type of H with (if ?c then _ else _) = _ => destruct c eqn:Hc end; [by simplify_eq|].
  assert ((zlen p + zlen t <=? off + (5 + a)) &&
    ((w =? 0) || (zlen (s ++ pay) <? w)) = false) as ->.
  { apply andb_false_iff in Hc as [Hc| ->]; [|apply andb_false_r].
    apply andb_false_iff; left. apply Z.leb_gt in Hc. apply Z.leb_gt. lia. }
  apply IH; try done; lia.
Qed.

(** With fewer than nine bytes of a record of four or more, the joining loop
    waits, so the fast path is missed only where it could not have decided. *)
Lemma join_records_short p rec0 : 5 <= zlen p < 9 -> 4 <= rec0 ->
  rd8 p 0 = Ok 0x16 -> rd8 p 1 = Ok 0x03 -> rd16 p 3 = Ok rec0 -> rec0 <= 16384 ->
  exists s, join_records (S (Z.to_nat (zlen p))) p (zlen p) [] 0 0 = Ok (NeedMore, s).
Proof.
  intros ? ? E0 E1 E3 ?. unfold join_records; fold join_records. simpl. unwrap.
  rewrite (proj2 (Z.ltb_ge _ 5)) by lia. unfold not_handshake_record. rewrite E0. simpl.
  unwrap. rewrite !Z.add_0_l, E1. simpl. rewrite E3. simpl. do 2 (case_cmp; [lia|]).
  case_cmp; [|lia]. found.
Qed.

Lemma fast_path_stable p t rec0 r :
  5 <= zlen p -> zlen (p ++ t) < 4294967296 -> 0 <= rec0 ->
  fast_path p (zlen p) rec0 = Ok r ->
  match r with
  | Some r => decided_result r ->
      exists r', fast_path (p ++ t) (zlen (p ++ t)) rec0 = Ok (Some r') /\
        (r' = r \/ r' = span_app t <$> r)
  | None => fast_path (p ++ t) (zlen (p ++ t)) rec0 = Ok None \/ (4 <= rec0 /\ zlen p < 9)
  end.
Proof.
  intros H5 Hlen Hrec. rewrite zlen_app in *. zlen_pose. unfold fast_path.
  destruct (Z.leb_spec 4 rec0) as [H4|]; [|simpl; intros; simplify_eq; by left].
  destruct (Z.leb_spec 9 (zlen p)); [|simpl; intros; simplify_eq; by right].
  rewrite (proj2 (Z.leb_le 9 _)) by lia. simpl. intros H'. replay H'.
  follow H'; [simplify_eq; eauto|].
  destruct (rd24 p 6) as [m|] eqn:Em; [|done]. rewrite (rd24_mono _ _ _ _ Em). simpl in *.
  follow H'; [simplify_eq; eauto|].
  match type of H' with context [?x <=? rec0] => destruct (x <=? rec0) end;
    [|simplify_eq; by left].
  match type of H' with context [zlen p <? ?x] => destruct (Z.ltb_spec (zlen p) x) end;
    simplify_eq; intros Hd; [done|].
  rewrite (proj2 (Z.ltb_ge _ _)) by lia. eexists; split; [done|]. right.
  simpl. unfold span_app. by rewrite padd_app by lia.
Qed.

Lemma collectHandshake_stable p t scratch r s :
  zlen (p ++ t) < 4294967296 -> decided_result r ->
  collectHandshake p (zlen p) scratch = Ok (r, s) ->
  exists r', collectHandshake (p ++ t) (zlen (p ++ t)) scratch = Ok (r', s) /\
    (r' = r \/ r' = span_app t <$> r).
Proof.
  intros Hlen Hd. pose proof (fun rec0 x A => fast_path_stable p t rec0 x A Hlen) as Hfast.
  unfold collectHandshake. rewrite zlen_app in *. zlen_pose.
  intros Hc. destruct (Z.ltb_spec (zlen p) 1); [by simplify_eq|].
  rewrite (proj2 (Z.ltb_ge _ 1)) by lia. replay Hc.
  destruct (Z.eqb_spec a 0x16) as [->|]; simpl in *; [|simplify_eq; eauto].
  destruct (Z.leb_spec 2 (zlen p)).
  2: { simpl in Hc. rewrite (proj2 (Z.ltb_lt _ 5)) in Hc by lia. by simplify_eq. }
  rewrite (proj2 (Z.leb_le 2 _)) by lia. replay Hc.
  destruct (Z.eqb_spec a 0x03) as [->|]; simpl in *; [|simplify_eq; eauto].
  destruct (Z.ltb_spec (zlen p) 5); [by simplify_eq|].
  rewrite (proj2 (Z.ltb_ge _ 5)) by lia. replay Hc.
  match type of Hc with (if ?c then _ else _) = _ => destruct c eqn:Hrec end;
    [by simplify_eq; eauto|].
  apply orb_false_iff in Hrec as [?%Z.eqb_neq ?%Z.ltb_ge].
  pose proof (load_be16_inv _ _ _ E1) as (_ & _ & ?).
  destruct (fast_path p (zlen p) a) as [[r0|]|] eqn:Ef; simpl in Hc; [| |done].
  - apply Hfast in Ef; [|lia..]. simplify_eq. destruct (Ef Hd) as (r' & -> & ?). simpl. eauto.
  - apply Hfast in Ef; [|lia..]. destruct Ef as [-> | [? ?]]; simpl.
    + exists r. split; [|by left]. rewrite <- zlen_app in *.
      eapply join_records_stable; [| |  |exact Hd|exact Hc]; rewrite ?zlen_app in *; lia.
    + destruct (join_records_short p a) as (s0 & Hs); try done; [].
      rewrite Hc in Hs. by simplify_eq.
Qed.

Lemma result_bytes_app t r : on_found span_ok r ->
  result_bytes (span_app t <$> r) = result_bytes r.
Proof. destruct r as [s| |]; [|done..]. intros H. unfold result_bytes. simpl.
  by rewrite span_bytes_app. Qed.

Lemma extractHostname_stable_aux p t scratch r s :
  zlen (p ++ t) < 4294967296 -> decided_result r ->
  extractHostname p (zlen p) scratch = Ok (r, s) ->
  exists r', extractHostname (p ++ t) (zlen (p ++ t)) scratch = Ok (r', s) /\
    result_bytes r' = result_bytes r.
Proof.
  intros Hlen Hd. unfold extractHostname. pose proof (zlen_nonneg p). pose proof (zlen_nonneg t).
  destruct (collectHandshake_ok p (zlen p) scratch) as (c & s0 & Hc & Hok);
    [lia|rewrite zlen_app in Hlen; lia|].
  rewrite Hc. simpl. intros H'.
  assert (decided_result c) as Hdc by (destruct c; simplify_eq/=; done).
  destruct (collectHandshake_stable p t scratch c s0 Hlen Hdc Hc) as (c' & -> & Hc').
  simpl. destruct c as [hs| |]; simplify_eq/=;
    [|destruct Hc' as [->| ->]; eexists; split; done|done].
  destruct Hok as [Hsp ?]. unfold span_ok in Hsp.
  destruct (parseClientHello_ok (ptr hs) (span_len hs)) as (x & Hx & Hin); [lia..|].
  rewrite Hx in H'. simplify_eq/=.
  assert (on_found span_ok r) as Hr.
  { destruct r; [|done..]. simpl in *. eapply inside_ok; [|done]. lia. }
  destruct Hc' as [-> | ->]; simpl; [rewrite Hx; by eexists|].
  rewrite (parseClientHello_mono _ t _ _ Hx). simpl. eexists; split; [done|].
  by apply result_bytes_app.
Qed.

(** ** The message walk finds the SNI of any well-formed hello *)

Lemma enc_names_cons n ns : enc_names (n :: ns) = enc_name n ++ enc_names ns.
Proof. reflexivity. Qed.

Lemma enc_exts_cons e es : enc_exts (e :: es) = enc_ext e ++ enc_exts es.
Proof. reflexivity. Qed.

Lemma zlen_enc_name n : zlen (enc_name n) = 3 + zlen n.2.
Proof. unfold enc_name. zl. Qed.

Lemma zlen_enc_ext e : zlen (enc_ext e) = 4 + zlen (ext_data e).
Proof. unfold enc_ext. zl. Qed.

#[export] Hint Rewrite zlen_enc_name zlen_enc_ext : zlen.

Lemma padd_at (pre l : bytes) k : k = zlen pre -> padd (pre ++ l) k = l.
Proof. intros ->. unfold padd, zlen. rewrite Nat2Z.id. apply drop_app_length. Qed.

Lemma span_bytes_at (l t : bytes) : span_bytes (Span (l ++ t) (zlen l)) = l.
Proof. unfold span_bytes, zlen. simpl. rewrite Nat2Z.id. apply take_app_length. Qed.

Lemma name_loop_enc fuel pre ns rest q list_end :
  Forall wf_name ns -> q = zlen pre -> list_end = zlen pre + zlen (enc_names ns) ->
  list_end <= 4294967296 - 131072 -> zlen (enc_names ns) < Z.of_nat fuel ->
  exists r, name_loop fuel (pre ++ enc_names ns ++ rest) q list_end = Ok r /\
    span_bytes <$> r = first_host ns.
Proof.
  intros Hwf -> ->. revert pre ns Hwf. induction fuel as [|fuel IH]; intros pre ns Hwf Hle Hf.
  { zlen_pose. lia. }
  zlen_pose. unfold name_loop; fold name_loop. destruct ns as [|n ns].
  { change (enc_names []) with (@nil byte) in *. rewrite zlen_nil in *. unwrap.
    case_cmp; [lia|]. by eexists. }
  inversion_clear Hwf as [|?? [Hn1 Hn2] Hns]. rewrite enc_names_cons, zlen_app, zlen_enc_name in *.
  zlen_pose. set (p := pre ++ _ ++ rest). unwrap. case_cmp; [|lia].
  assert (p = pre ++ z2b n.1 :: put16 (zlen n.2) ++ n.2 ++ enc_names ns ++ rest) as Hp
    by (unfold p, enc_name; by rewrite <- !app_assoc).
  replace (rd8 p (zlen pre)) with (@Ok Z (n.1)).
  2: { rewrite Hp, (rd8_at pre _ _ (zlen pre)), b2z_z2b, Z.mod_small by lia. done. }
  simpl. replace (rd16 p (zlen pre + 1)) with (@Ok Z (zlen n.2)).
  2: { rewrite Hp. unfold rd16. rewrite (cons_middle (z2b n.1) pre), (app_assoc pre).
       symmetry. apply load_be16_at; zl. }
  simpl. unwrap. case_cmp; [lia|]. case_cmp.
  - eexists; split; [done|]. simpl. f_equal. rewrite Hp.
    rewrite (cons_middle (z2b n.1) pre), (app_assoc pre), (app_assoc (pre ++ _)).
    rewrite padd_at by zl. apply span_bytes_at.
  - unfold p. rewrite <- (app_assoc (enc_name n)), (app_assoc pre).
    replace (zlen pre + 3 + zlen n.2) with (zlen (pre ++ enc_name n)) by zl.
    replace (zlen pre + (3 + zlen n.2 + zlen (enc_names ns)))
      with (zlen (pre ++ enc_name n) + zlen (enc_names ns)) by zl.
    apply IH; [done|zl|lia].
Qed.

Lemma server_name_enc pre ns rest o elen :
  Forall wf_name ns -> o = zlen pre -> elen = zlen (ext_data (ServerName ns)) ->
  elen < 65536 -> o + elen <= 4294967296 - 131072 ->
  exists r, server_name (pre ++ ext_data (ServerName ns) ++ rest) o elen = Ok r /\
    result_bytes r = sni_result (first_host ns).
Proof.
  intros Hwf -> -> Hd Hle. unfold ext_data in *. set (n := enc_names ns) in *.
  set (p := pre ++ _ ++ rest). rewrite zlen_app, zlen_put16 in *. zlen_pose.
  unfold server_name. unwrap. rewrite (proj2 (Z.ltb_ge _ (zlen pre + 2))) by lia.
  replace (rd16 p (zlen pre)) with (@Ok Z (zlen n)).
  2: { unfold p, rd16. rewrite <- app_assoc. symmetry. apply load_be16_at; [done|lia]. }
  cbn [mbind outcome_bind]. unwrap. rewrite (proj2 (Z.ltb_ge _ (zlen pre + (2 + zlen n)))) by lia.
  edestruct (name_loop_enc (S (Z.to_nat (zlen pre + (2 + zlen n)))) (pre ++ put16 (zlen n))
    ns rest (zlen pre + 2)) as (r & Hr & Hb); [done|zl|done|fold n; zl|fold n; zl|].
  fold n in Hr. rewrite <- app_assoc in Hr. rewrite app_assoc in Hr.
  rewrite zlen_app, zlen_put16 in Hr.
  replace (zlen pre + 2 + zlen n) with (zlen pre + (2 + zlen n)) in Hr by lia.
  unfold p. rewrite <- (app_assoc (put16 _)), app_assoc. rewrite Hr. cbn [mbind outcome_bind].
  destruct r as [sp|]; simpl in *; eexists; (split; [done|]); by rewrite <- Hb.
Qed.

Lemma ext_loop_enc fuel pre es rest o ext_end :
  Forall wf_ext es -> o = zlen pre -> ext_end = zlen pre + zlen (enc_exts es) ->
  ext_end <= 4294967296 - 131072 -> zlen (enc_exts es) < Z.of_nat fuel ->
  exists r, ext_loop fuel (pre ++ enc_exts es ++ rest) o ext_end = Ok r /\
    result_bytes r = sni_result (first_server_name es).
Proof.
  intros Hwf -> ->. revert pre es Hwf. induction fuel as [|fuel IH]; intros pre es Hwf Hle Hf.
  { zlen_pose. lia. }
  zlen_pose. unfold ext_loop; fold ext_loop. destruct es as [|e es].
  { change (enc_exts []) with (@nil byte) in *. rewrite zlen_nil in *. unwrap.
    case_cmp; [lia|]. by eexists. }
  inversion_clear Hwf as [|?? [Hd Ht] Hes]. rewrite enc_exts_cons, zlen_app, zlen_enc_ext in *.
  zlen_pose. set (p := pre ++ _ ++ rest). unwrap. case_cmp; [|lia].
  assert (p = pre ++ put16 (ext_type e) ++ put16 (zlen (ext_data e)) ++ ext_data e
    ++ enc_exts es ++ rest) as Hp by (unfold p, enc_ext; by rewrite <- !app_assoc).
  assert (0 <= ext_type e < 65536) as He by (destruct e; simpl in *; lia).
  replace (rd16 p (zlen pre)) with (@Ok Z (ext_type e)).
  2: { rewrite Hp. symmetry. by apply load_be16_at. }
  simpl. replace (rd16 p (zlen pre + 2)) with (@Ok Z (zlen (ext_data e))).
  2: { rewrite Hp. unfold rd16. rewrite (app_assoc pre). symmetry. apply load_be16_at; zl. }
  simpl. unwrap. case_cmp; [lia|]. destruct e as [ns|t d];
    unfold ext_type in *.
  - edestruct (server_name_enc (pre ++ put16 0 ++ put16 (zlen (ext_data (ServerName ns))))
      ns (enc_exts es ++ rest)) as (r & Hr & Hb); [done|done|done|done|zl|].
    rewrite <- !app_assoc, <- Hp in Hr. rewrite Z.eqb_refl.
    match type of Hr with server_name _ ?x _ = _ =>
      replace x with (zlen pre + 4) in Hr by zl end.
    rewrite Hr. eexists; split; [done|]. by rewrite Hb.
  - rewrite (proj2 (Z.eqb_neq t 0)) by lia.
    unfold p. rewrite <- (app_assoc (enc_ext _)), (app_assoc pre).
    replace (zlen pre + 4 + zlen (ext_data (OtherExtension t d)))
      with (zlen (pre ++ enc_ext (OtherExtension t d))) by zl.
    replace (zlen pre + (4 + zlen (ext_data (OtherExtension t d)) + zlen (enc_exts es)))
      with (zlen (pre ++ enc_ext (OtherExtension t d)) + zlen (enc_exts es)) by zl.
    apply IH; [done|zl|lia].
Qed.

(** Read a field of [p], whose contents [Hp] lists, at a given prefix. *)
Lemma rd8_field p pre b q i :
  p = pre ++ b :: q -> i = zlen pre -> rd8 p i = Ok (b2z b).
Proof. intros -> ->. by apply rd8_at. Qed.

Lemma rd16_field p pre n q i :
  p = pre ++ put16 n ++ q -> i = zlen pre -> 0 <= n < 65536 -> rd16 p i = Ok n.
Proof. intros -> -> ?. by apply load_be16_at. Qed.

Lemma b2z_z2b_small n : 0 <= n < 256 -> b2z (z2b n) = n.
Proof. intros. by rewrite b2z_z2b, Z.mod_small. Qed.

Lemma zlen_enc_ext_block es : zlen (enc_ext_block es) =
  match es with None => 0 | Some es => 2 + zlen (enc_exts es) end.
Proof. destruct es; unfold enc_ext_block; zl. Qed.

#[export] Hint Rewrite zlen_enc_ext_block : zlen.

Lemma zlen_enc_hello h : wf_hello h -> zlen (enc_hello h) =
  42 + zlen (session_id h) + zlen (cipher_suites h) + zlen (compression_methods h)
  + zlen (enc_ext_block (extensions h)).
Proof.
  intros (? & ? & ? & ? & ? & ?). unfold enc_hello, enc_body.
  autorewrite with zlen. zlen_pose. lia.
Qed.

(** The fields in front of the extensions, where [parseClientHello] reads them. *)
Lemma hello_fields h rest : wf_hello h ->
  let p := enc_hello h ++ rest in
  let ns := zlen (session_id h) in let nc := zlen (cipher_suites h) in
  let nm := zlen (compression_methods h) in
  rd8 p 0 = Ok 1 /\ rd8 p (4 + (2 + 32)) = Ok ns /\ rd16 p (4 + (2 + 32) + (1 + ns)) = Ok nc /\
  rd8 p (4 + (2 + 32) + (1 + ns) + (2 + nc)) = Ok nm /\
  exists pre, p = pre ++ enc_ext_block (extensions h) ++ rest /\
    zlen pre = 4 + (2 + 32) + (1 + ns) + (2 + nc) + (1 + nm).
Proof.
  intros (Hv & Hr & Hs & Hc & Hm & _). cbv zeta. set (p := enc_hello h ++ rest).
  set (pre0 := x01 :: put24 (zlen (enc_body h)) ++ legacy_version h ++ random h).
  set (blk := enc_ext_block (extensions h)).
  assert (zlen pre0 = 38) as Hpre0 by (unfold pre0; zl).
  assert (p = pre0 ++ z2b (zlen (session_id h)) :: session_id h
    ++ put16 (zlen (cipher_suites h)) ++ cipher_suites h
    ++ z2b (zlen (compression_methods h)) :: compression_methods h ++ blk ++ rest) as Hp.
  { unfold p, enc_hello, hello_message, pre0, blk. unfold enc_body at 2.
    rewrite <- !app_comm_cons, <- !app_assoc. do 4 f_equal.
    by rewrite <- !app_comm_cons, <- !app_assoc, <- !app_comm_cons, <- !app_assoc. }
  zlen_pose. assert (rd8 p 0 = Ok 1) as E0 by done.
  clearbody p. set (ns := zlen (session_id h)) in *. set (nc := zlen (cipher_suites h)) in *.
  set (nm := zlen (compression_methods h)) in *.
  pose proof (rd8_field p _ _ _ (4 + (2 + 32)) Hp ltac:(lia)) as E1.
  rewrite b2z_z2b_small in E1 by lia.
  rewrite (cons_middle _ pre0), (app_assoc pre0), (app_assoc (pre0 ++ _)) in Hp.
  assert (rd16 p (4 + (2 + 32) + (1 + ns)) = Ok nc) as E2
    by (eapply rd16_field; [exact Hp|zl|lia]).
  rewrite (app_assoc _ (put16 nc)), (app_assoc _ (cipher_suites h)) in Hp.
  pose proof (rd8_field p _ _ _ (4 + (2 + 32) + (1 + ns) + (2 + nc)) Hp ltac:(zl)) as E3.
  rewrite b2z_z2b_small in E3 by lia.
  rewrite (cons_middle (z2b nm)), (app_assoc _ [z2b nm]),
    (app_assoc _ (compression_methods h)) in Hp.
  split_and!; try done. eexists. split; [exact Hp|zl].
Qed.

Lemma parseClientHello_enc h rest : wf_hello h ->
  exists r, parseClientHello (enc_hello h ++ rest) (zlen (enc_hello h)) = Ok r /\
    result_bytes r = sni_result (sni h).
Proof.
  intros Hwf. pose proof (zlen_enc_hello h Hwf) as Hlen. rewrite zlen_enc_ext_block in Hlen.
  destruct (hello_fields h rest Hwf) as (E0 & E1 & E2 & E3 & pre & Hp & Hpre).
  destruct Hwf as (Hv & Hr & Hs & Hc & Hm & He).
  set (len := zlen (enc_hello h)) in *. set (p := enc_hello h ++ rest) in *.
  zlen_pose. assert (len <= 300000) by (destruct (extensions h); lia).
  assert (42 <= len) by (destruct (extensions h); zlen_pose; lia).
  clearbody p. set (ns := zlen (session_id h)) in *. set (nc := zlen (cipher_suites h)) in *.
  set (nm := zlen (compression_methods h)) in *.
  set (o1 := 4 + (2 + 32) + (1 + ns) + (2 + nc) + (1 + nm)) in *.
  unfold parseClientHello. rewrite (proj2 (Z.ltb_ge len 4)), E0 by lia. simpl.
  unwrap. case_cmp; [|lia]. rewrite E1. simpl. unwrap.
  case_cmp; [|destruct (extensions h); zlen_pose; lia]. rewrite E2. simpl. unwrap.
  case_cmp; [|destruct (extensions h); zlen_pose; lia]. rewrite E3. simpl. unwrap. fold o1.
  unfold sni. destruct (extensions h) as [es|].
  2: { case_cmp; [lia|]. by eexists. }
  destruct He as [Hes Hel]. zlen_pose. case_cmp; [|lia].
  unfold enc_ext_block in Hp. rewrite <- app_assoc in Hp.
  rewrite (rd16_field p pre (zlen (enc_exts es)) _ o1 Hp) by lia. simpl. unwrap.
  set (e := if len <? _ then _ else _).
  assert (e = zlen (pre ++ put16 (zlen (enc_exts es))) + zlen (enc_exts es)) as ->
    by (unfold e; rewrite zlen_app, zlen_put16; case_cmp; lia).
  rewrite Hp, app_assoc. apply ext_loop_enc; [done|zl|done|zl|zl].
Qed.

Lemma payloads_full r rs body : 
  payloads (r :: rs) = hello_message body -> Forall wf_record rs ->
  zlen (hello_message body) <= zlen r.2 -> rs = [] /\ r.2 = hello_message body.
Proof.
  rewrite payloads_cons. intros Hm Hrs Hle. assert (rs = []) as ->.
  { destruct rs as [|r' rs]; [done|]. inversion_clear Hrs. unfold wf_record in *.
    rewrite payloads_cons in Hm. apply (f_equal zlen) in Hm. zl. }
  split; [done|]. by rewrite app_nil_r in Hm.
Qed.

Lemma collectHandshake_waits rs p t scratch body :
  34 <= zlen body <= 65535 -> payloads rs = hello_message body -> Forall wf_record rs ->
  p ++ t = frames rs -> t <> [] -> zlen p < 4294967296 ->
  exists s, collectHandshake p (zlen p) scratch = Ok (NeedMore, s).
Proof.
  intros Hb Hm Hwf Hp Ht Hlen. unfold collectHandshake.
  destruct (Z.ltb_spec (zlen p) 1); [found|].
  destruct rs as [|r rs]; [done|].
  pose proof (join_records_waits (S (Z.to_nat (zlen p))) [] (r :: rs) p t [] body Hb Hm Hwf
    Hp Ht ltac:(zl) Hlen) as J.
  inversion_clear Hwf as [|?? Hr Hrs]. unfold wf_record in Hr. rewrite frames_cons in Hp.
  destruct (frame_reads r (frames rs)) as (E0 & E1 & E3 & Eb & _).
  rewrite <- Hp in E0, E1, E3, Eb. rewrite (rd8_cut p t 0 0x16) by (done || lia). simpl.
  destruct (Z.leb_spec 2 (zlen p)); simpl.
  2: { rewrite (proj2 (Z.ltb_lt _ 5)) by lia. found. }
  rewrite (rd8_cut p t 1 0x03) by (done || lia). simpl. destruct (Z.ltb_spec (zlen p) 5); [found|].
  specialize (E3 ltac:(lia)). unfold rd16 in *. rewrite load_be16_app_l in E3 by lia.
  rewrite E3. simpl. do 2 (case_cmp; [lia|]).
  assert (fast_path p (zlen p) (zlen r.2) = Ok None \/
    fast_path p (zlen p) (zlen r.2) = Ok (Some NeedMore)) as Hf.
  { unfold fast_path. case_cmp; [|by left]. case_cmp; [|by left].
    edestruct (hello_reads body r.2 (payloads rs)) as [Ht0 Hl]; [lia|done|lia|].
    assert (forall i, 0 <= i < 4 -> rd8 p (5 + i) = rd8 r.2 i) as Hrd
      by (intros; rewrite <- Eb by lia; by rewrite rd8_app_l by lia).
    pose proof (Hrd 0 ltac:(lia)) as Eb0. rewrite Z.add_0_r in Eb0. rewrite Eb0, Ht0. simpl.
    assert (rd24 p 6 = Ok (zlen body)) as ->
      by (rewrite <- Hl; unfold rd24; by rewrite <- !Hrd by lia).
    simpl. do 2 (case_cmp; [lia|]). unwrap. case_cmp; [|by left].
    destruct (payloads_full r rs body) as [-> Hr2]; [done|done|zl|].
    apply (f_equal zlen) in Hp. apply (f_equal zlen) in Hr2.
    assert (1 <= zlen t) by (destruct t; [done|zl]).
    change (frames []) with (@nil byte) in *. autorewrite with zlen in *.
    case_cmp; [by right|lia]. }
  destruct Hf as [-> | ->]; simpl; [|found]. change (zlen []) with 0 in J.
  change (want_of _ []) with 0 in J. apply J. lia.
Qed.

Lemma fst_if {A B} (c : bool) (x y x' y' : outcome (A * B)) :
  fst <$> x = fst <$> x' -> fst <$> y = fst <$> y' ->
  fst <$> (if c then x else y) = fst <$> (if c then x' else y').
Proof. by destruct c. Qed.

Lemma fst_bind {A B C} (m : outcome C) (k k' : C -> outcome (A * B)) :
  (forall c, fst <$> k c = fst <$> k' c) -> fst <$> (m ≫= k) = fst <$> (m ≫= k').
Proof. intros. destruct m; [apply H|done]. Qed.

(** The old contents of the scratch buffer never matter. *)
Lemma collectHandshake_scratch p len s s' :
  fst <$> collectHandshake p len s = fst <$> collectHandshake p len s'.
Proof.
  unfold collectHandshake.
  repeat first [apply fst_if; [done|] | apply fst_bind; intros | case_match; done].
Qed.

Lemma extractHostname_scratch p len s s' :
  fst <$> extractHostname p len s = fst <$> extractHostname p len s'.
Proof.
  pose proof (collectHandshake_scratch p len s s') as H. unfold extractHostname.
  destruct (collectHandshake p len s) as [[c x]|], (collectHandshake p len s') as [[c' x']|];
    simplify_eq/=; try done.
  destruct c'; simpl; try done. by destruct (parseClientHello _ _).
Qed.

Lemma extractHostname_framed h rs rest scratch :
  wf_hello h -> zlen (enc_body h) <= 65535 -> payloads rs = enc_hello h ->
  Forall wf_record rs -> zlen (frames rs ++ rest) < 4294967296 ->
  exists r s, extractHostname (frames rs ++ rest) (zlen (frames rs ++ rest)) scratch = Ok (r, s)
    /\ result_bytes r = sni_result (sni h).
Proof.
  intros Hwf Hb Hp Hrs Hlen.
  assert (34 <= zlen (enc_body h)).
  { pose proof (zlen_enc_hello h Hwf) as E. unfold enc_hello in E.
    rewrite zlen_hello_message in E. zlen_pose. lia. }
  destruct (collectHandshake_frames rs rest scratch (enc_body h)) as (t & s & E); try done.
  unfold extractHostname. rewrite E. cbn [mbind outcome_bind ptr span_len].
  destruct (parseClientHello_enc h t Hwf) as (r & Hr & Hs). unfold enc_hello in Hr.
  rewrite Hr. cbn [mbind outcome_bind]. eauto.
Qed.

Lemma enc_body_test_hello host : 0 < zlen host < 16000 ->
  wf_hello (test_hello host) /\ zlen (enc_body (test_hello host)) = 52 + zlen host /\
  sni (test_hello host) = Some host.
Proof.
  intros Hh. unfold test_hello. destruct (decide (host = [])) as [->|]; [unfold zlen in Hh; simpl in Hh; lia|].
  assert (zlen (enc_names [(0, host)]) = 3 + zlen host) as Hn
    by (rewrite enc_names_cons, zlen_app, zlen_enc_name; change (zlen (enc_names [])) with 0; simpl; lia).
  assert (zlen (enc_exts [ServerName [(0, host)]]) = 9 + zlen host) as He.
  { rewrite enc_exts_cons, zlen_app, zlen_enc_ext. unfold ext_data.
    change (zlen (enc_exts [])) with 0. rewrite zlen_app, Hn, zlen_put16. lia. }
  split; [|split; [|done]].
  2: { unfold enc_body. cbn [legacy_version random session_id cipher_suites
         compression_methods extensions]. autorewrite with zlen. rewrite He. simpl. lia. }
  unfold wf_hello. cbn [legacy_version random session_id cipher_suites compression_methods
    extensions]. split_and!; [done..| |lia].
  constructor; [|constructor]. split; [unfold ext_data; rewrite zlen_app, Hn, zlen_put16; lia|].
  constructor; [|constructor]. split; simpl; lia.
Qed.

(** ** Properties *)

(** C7: the SNI of a ClientHello is found whatever the fragmentation.  For every
    well-formed hello, every way of cutting its handshake message into TLS
    records, every continuation of the stream and every scratch contents,
    [extractHostname] returns without fault the first host_name of the first
    server_name extension, or NotFound when the hello has none. *)
Theorem extractHostname_any_framing h rs rest scratch :
  wf_hello h -> zlen (enc_body h) <= 65535 -> payloads rs = enc_hello h ->
  Forall wf_record rs -> zlen (frames rs ++ rest) < 4294967296 ->
  result_bytes <$> (fst <$> extractHostname (frames rs ++ rest)
    (zlen (frames rs ++ rest)) scratch) = Ok (sni_result (sni h)).
Proof.
  intros. destruct (extractHostname_framed h rs rest scratch) as (r & s & -> & <-); done.
Qed.

(** C14: no bypass by guessing: while any byte of the records that carry a
    ClientHello is missing, the answer is NeedMore, so the flow stays held. *)
Theorem extractHostname_waits h rs p t scratch :
  wf_hello h -> zlen (enc_body h) <= 65535 -> payloads rs = enc_hello h ->
  Forall wf_record rs -> p ++ t = frames rs -> t <> [] -> zlen p < 4294967296 ->
  fst <$> extractHostname p (zlen p) scratch = Ok NeedMore.
Proof.
  intros Hwf Hb Hp Hrs Hpt Ht Hlen.
  assert (34 <= zlen (enc_body h)).
  { pose proof (zlen_enc_hello h Hwf) as E. unfold enc_hello in E.
    rewrite zlen_hello_message in E. zlen_pose. lia. }
  destruct (collectHandshake_waits rs p t scratch (enc_body h)) as (s & E); try done.
  unfold extractHostname. by rewrite E.
Qed.

(** A decision taken on a prefix of the client stream is final: whatever
    bytes follow and whatever the scratch buffer holds, the same call on the
    longer stream gives the same answer, so the answer does not depend on how
    the stream was chunked into segments. *)
Lemma extractHostname_stable p t scratch scratch' r :
  zlen (p ++ t) < 4294967296 -> decided_result r ->
  fst <$> extractHostname p (zlen p) scratch = Ok r ->
  result_bytes <$> (fst <$> extractHostname (p ++ t) (zlen (p ++ t)) scratch')
    = Ok (result_bytes r).
Proof.
  intros Hlen Hd H. rewrite (extractHostname_scratch _ _ scratch scratch') in H.
  destruct (extractHostname p (zlen p) scratch') as [[r' s]|] eqn:E; simplify_eq/=.
  destruct (extractHostname_stable_aux p t scratch' r s Hlen Hd E) as (x & -> & <-). done.
Qed.

(** C25: on every byte stream a [uint32_t] length can describe, [extractHostname]
    terminates and performs no out-of-bounds read, and a hostname it returns is a
    range of readable bytes. *)
Theorem extractHostname_memory_safe p scratch :
  zlen p < 4294967296 ->
  exists r s, extractHostname p (zlen p) scratch = Ok (r, s) /\
    match r with Found host => 0 <= span_len host <= zlen (ptr host) | _ => True end.
Proof. apply extractHostname_ok. Qed.

(** The unit tests' ClientHello is blocked under every two-record split:
    for every host name and every split offset inside the handshake message,
    the host comes back. *)
Lemma split_client_hello_found host at_ scratch :
  0 < zlen host < 16000 -> (0 < at_)%nat -> Z.of_nat at_ < 56 + zlen host ->
  let two := split_across_two_records (client_hello host) at_ in
  result_bytes <$> (fst <$> extractHostname two (zlen two) scratch) = Ok (Found host).
Proof.
  intros Hh Ha Hb two. destruct (enc_body_test_hello host Hh) as (Hwf & Hlen & Hsni).
  assert (zlen (enc_hello (test_hello host)) = 56 + zlen host) as Hz
    by (unfold enc_hello; rewrite zlen_hello_message; lia).
  set (m := enc_hello (test_hello host)) in *.
  assert (drop 5 (client_hello host) = m) as Hd by done.
  assert (two = frames [(x01, take at_ m); (x01, drop at_ m)] ++ []) as ->
    by (unfold two, split_across_two_records; rewrite Hd, app_nil_r, !frames_cons;
        change (frames []) with (@nil byte); by rewrite app_nil_r).
  assert (zlen (take at_ m) = Z.of_nat at_) as H1.
  { unfold zlen in *. rewrite length_take. lia. }
  assert (zlen (drop at_ m) = 56 + zlen host - Z.of_nat at_) as H2.
  { unfold zlen in *. rewrite length_drop. lia. }
  destruct (extractHostname_framed (test_hello host)
    [(x01, take at_ m); (x01, drop at_ m)] [] scratch) as (r & s & -> & Hr); try done; [lia| | | |].
  - unfold payloads. simpl. rewrite app_nil_r. apply take_drop.
  - repeat constructor; unfold wf_record; simpl; lia.
  - rewrite app_nil_r, !frames_cons, !zlen_app, !zlen_frame. change (zlen (frames [])) with 0.
    simpl. lia.
  - simpl. by rewrite Hr, Hsni.
Qed.

(** ** Witnesses *)

Definition demo_hello : Hello := {|
  legacy_version := [x03; x03]; random := replicate 32 x11; session_id := [x01; x02];
  cipher_suites := [x13; x01; x13; x02]; compression_methods := [x00];
  extensions := Some [OtherExtension 43 [x02; x03; x04];
    ServerName [(7, str "ignored"); (0, str "blocked.example.com")];
    ServerName [(0, str "second.example.com")]]
|}.

Definition demo_records : list (byte * bytes) :=
  [(x01, take 3 (enc_hello demo_hello)); (x03, take 40 (drop 3 (enc_hello demo_hello)));
   (x03, drop 43 (enc_hello demo_hello))].

Definition demo_stream : bytes := frames demo_records.

Lemma extractHostname_any_framing_witness :
  result_bytes <$> (fst <$> extractHostname (demo_stream ++ str "early data")
    (zlen (demo_stream ++ str "early data")) [x00]) = Ok (Found (str "blocked.example.com")).
Proof.
  refine (eq_trans (extractHostname_any_framing demo_hello demo_records (str "early data")
    [x00] _ _ _ _ _) _); concrete.
Defined.

Lemma extractHostname_waits_witness :
  fst <$> extractHostname (take 60 demo_stream) (zlen (take 60 demo_stream)) [] = Ok NeedMore.
Proof.
  refine (extractHostname_waits demo_hello demo_records (take 60 demo_stream)
    (drop 60 demo_stream) [] _ _ _ _ _ _ _); concrete.
Defined.

Lemma extractHostname_stable_witness :
  result_bytes <$> (fst <$> extractHostname (demo_stream ++ str "more")
    (zlen (demo_stream ++ str "more")) [x07]) = Ok (Found (str "blocked.example.com")).
Proof.
  refine (eq_trans (extractHostname_stable demo_stream (str "more") [] [x07]
    (match extractHostname demo_stream (zlen demo_stream) [] with
     | Ok (r, _) => r | Fault _ => NeedMore end) _ _ _) _); concrete.
Defined.

Lemma extractHostname_memory_safe_witness :
  exists r s, extractHostname (str "not a record") (zlen (str "not a record")) [] = Ok (r, s) /\
    match r with Found host => 0 <= span_len host <= zlen (ptr host) | _ => True end.
Proof. apply (extractHostname_memory_safe (str "not a record") []). concrete. Defined.

Lemma split_client_hello_found_witness :
  let two := split_across_two_records (client_hello (str "blocked.example.com")) 1 in
  result_bytes <$> (fst <$> extractHostname two (zlen two) [])
    = Ok (Found (str "blocked.example.com")).
Proof. apply (split_client_hello_found (str "blocked.example.com") 1 []); concrete. Defined.
