(* ===== verification/Packet.v ===== *)
(** * Packets ([include/packet.hpp], [src/packet.cpp]): ownership life cycle,
    L3/L4 dissection and the flow key.

    A [Packet] is view, owned or shell; moves return the new object and the
    husk.  The dissectors take the buffer and its length apart, fill a
    [FlowView] the way the C++ mutates its reference parameter (also on the
    paths that return false) and locate the L4 payload. *)
From S2P Require Export Prelude.

(** ** Data *)

Inductive Verdict := ALLOW | BLOCK.

#[export] Instance Verdict_eq_dec : EqDecision Verdict.
Proof. solve_decision. Defined.

Record FlowView := MkFlowView {
  ip_version : Z;
  ip_proto : Z;
  src_ip : bytes;
  dst_ip : bytes;
  src_port : Z;
  dst_port : Z;
  payload : bytes;
  payload_len : Z;
  tcp_flags : Z;
  key : Z
}.

(** [FlowView{}] *)
Definition FlowView_default : FlowView :=
  MkFlowView 0 0 (replicate 16 x00) (replicate 16 x00) 0 0 [] 0 0 0.

Definition set_ip_version (f : FlowView) v :=
  MkFlowView v (ip_proto f) (src_ip f) (dst_ip f) (src_port f) (dst_port f)
    (payload f) (payload_len f) (tcp_flags f) (key f).
Definition set_ip_proto (f : FlowView) v :=
  MkFlowView (ip_version f) v (src_ip f) (dst_ip f) (src_port f) (dst_port f)
    (payload f) (payload_len f) (tcp_flags f) (key f).
Definition set_ips (f : FlowView) s d :=
  MkFlowView (ip_version f) (ip_proto f) s d (src_port f) (dst_port f)
    (payload f) (payload_len f) (tcp_flags f) (key f).
Definition set_ports (f : FlowView) s d :=
  MkFlowView (ip_version f) (ip_proto f) (src_ip f) (dst_ip f) s d
    (payload f) (payload_len f) (tcp_flags f) (key f).
Definition set_payload (f : FlowView) p n :=
  MkFlowView (ip_version f) (ip_proto f) (src_ip f) (dst_ip f) (src_port f) (dst_port f)
    p n (tcp_flags f) (key f).
Definition set_tcp_flags (f : FlowView) v :=
  MkFlowView (ip_version f) (ip_proto f) (src_ip f) (dst_ip f) (src_port f) (dst_port f)
    (payload f) (payload_len f) v (key f).
Definition set_key (f : FlowView) v :=
  MkFlowView (ip_version f) (ip_proto f) (src_ip f) (dst_ip f) (src_port f) (dst_port f)
    (payload f) (payload_len f) (tcp_flags f) v.

(** [_view] and [_owned] are the pointed-to bytes, [None] for a null pointer. *)
Record Packet := MkPacket {
  _view : option bytes;
  _owned : option bytes;
  _len : Z;
  _id : Z;
  _verdict : Verdict;
  _pending : bool
}.

(** ** Life cycle *)

Definition Packet_default : Packet := MkPacket None None 0 0 ALLOW false.

(** [Packet(const uint8_t *data, uint32_t len, uint32_t id)] *)
Definition Packet_view (data : option bytes) (len id : Z) : Packet :=
  MkPacket data None len id ALLOW true.

(** [Packet::clear], run on an object whose [_owned] was moved from. *)
Definition clear (p : Packet) : Packet := MkPacket None (_owned p) 0 0 ALLOW false.

(** The move constructor: the new packet and the husk.  A moved-from
    [unique_ptr] is null. *)
Definition Packet_move (o : Packet) : Packet * Packet :=
  (MkPacket (_view o) (_owned o) (_len o) (_id o) (_verdict o) (_pending o),
   clear (MkPacket (_view o) None (_len o) (_id o) (_verdict o) (_pending o))).

(** Move assignment; [self] is the test [this == &o]. *)
Definition Packet_assign (self : bool) (this o : Packet) : Packet * Packet :=
  if self then (this, this) else Packet_move o.

Definition data (p : Packet) : option bytes :=
  match _view p with Some v => Some v | None => _owned p end.

Definition has_bytes (p : Packet) : bool := match data p with Some _ => true | None => false end.

Definition is_view (p : Packet) : bool := match _view p with Some _ => true | None => false end.

Definition pending_verdict (p : Packet) : bool := _pending p.

Definition set_verdict (p : Packet) (v : Verdict) : Packet :=
  MkPacket (_view p) (_owned p) (_len p) (_id p) v (_pending p).

Definition clear_pending (p : Packet) : Packet :=
  MkPacket (_view p) (_owned p) (_len p) (_id p) (_verdict p) false.

Definition release_bytes (p : Packet) : Packet :=
  MkPacket None None (_len p) (_id p) (_verdict p) (_pending p).

Definition materialize (p : Packet) : outcome Packet :=
  match _view p with
  | None => Ok p
  | Some v =>
      if 0 <? _len p then
        buf ← rd_range v 0 (_len p);
        Ok (MkPacket None (Some buf) (_len p) (_id p) (_verdict p) (_pending p))
      else Ok (MkPacket None (_owned p) (_len p) (_id p) (_verdict p) (_pending p))
  end.

(** ** Dissection *)

Definition kProtoTcp : Z := 6.
Definition kProtoUdp : Z := 17.

Definition be16 (p : bytes) (i : Z) : outcome Z := load_be16 p i.

(** [memcpy(dst, src + i, n)] into the front of an array. *)
Definition memcpy (dst src : bytes) (i n : Z) : outcome bytes :=
  if zlen dst <? n then Fault OutOfBounds
  else l ← rd_range src i n; Ok (l ++ drop (Z.to_nat n) dst).

(** What a parser leaves behind: its return value, [flow] and the out-parameters
    [payload]/[payload_len]. *)
Definition Parsed : Type := bool * FlowView * span.

Definition parseL4 (proto : Z) (l4 : bytes) (l4_len : Z) (flow : FlowView) (pl : span)
    : outcome Parsed :=
  let flow := set_ip_proto flow proto in
  if proto =? kProtoTcp then
    if l4_len <? 20 then Ok (false, flow, pl)
    else
      sp ← be16 l4 0;
      dp ← be16 l4 2;
      fl ← rd8 l4 13;
      let flow := set_tcp_flags (set_ports flow sp dp) fl in
      b12 ← rd8 l4 12;
      let data_off := u32 (Z.shiftr b12 4 * 4) in
      if (data_off <? 20) || (l4_len <? data_off) then Ok (false, flow, pl)
      else Ok (true, flow, Span (padd l4 data_off) (u32 (l4_len - data_off)))
  else if proto =? kProtoUdp then
    if l4_len <? 8 then Ok (false, flow, pl)
    else
      sp ← be16 l4 0;
      dp ← be16 l4 2;
      let flow := set_ports flow sp dp in
      udp_len ← be16 l4 4;
      let plen := u32 (l4_len - 8) in
      let plen := if (8 <=? udp_len) && (u32 (udp_len - 8) <=? plen)
                  then u32 (udp_len - 8) else plen in
      Ok (true, flow, Span (padd l4 8) plen)
  else Ok (false, flow, pl).

Definition parseIPv4 (d : bytes) (len : Z) (flow : FlowView) (pl : span) : outcome Parsed :=
  if len <? 20 then Ok (false, flow, pl)
  else
    let flow := set_ip_version flow 4 in
    b0 ← rd8 d 0;
    let ihl := u32 (Z.land b0 0x0f * 4) in
    if (ihl <? 20) || (len <? ihl) then Ok (false, flow, pl)
    else
      frag ← be16 d 6;
      if negb (Z.land frag 0x1fff =? 0) then Ok (false, flow, pl)
      else
        src ← memcpy (src_ip flow) d 12 4;
        dst ← memcpy (dst_ip flow) d 16 4;
        let flow := set_ips flow src dst in
        total_len ← be16 d 2;
        let l3_len := if (ihl <=? total_len) && (total_len <=? len) then total_len else len in
        proto ← rd8 d 9;
        parseL4 proto (padd d ihl) (u32 (l3_len - ihl)) flow pl.

Definition kV6HopByHop : Z := 0.
Definition kV6Routing : Z := 43.
Definition kV6Fragment : Z := 44.
Definition kV6DestOpts : Z := 60.
Definition kV6Mobility : Z := 135.
Definition kMaxV6ExtHeaders : nat := 8.

(** The extension-header walk; [n] is the number of turns left. *)
Fixpoint v6_walk (n : nat) (d : bytes) (l3_len next off : Z) (flow : FlowView) (pl : span)
    : outcome Parsed :=
  match n with
  | O => Ok (false, flow, pl)
  | S n =>
    if (next =? kProtoTcp) || (next =? kProtoUdp) then
      parseL4 next (padd d off) (u32 (l3_len - off)) flow pl
    else if (next =? kV6HopByHop) || (next =? kV6Routing) || (next =? kV6DestOpts)
            || (next =? kV6Mobility) then
      if l3_len <? u32 (off + 2) then Ok (false, flow, pl)
      else
        next ← rd8 d off;
        hlen ← rd8 d (u32 (off + 1));
        let off := u32 (off + u32 (u32 (hlen + 1) * 8)) in
        if l3_len <? off then Ok (false, flow, pl)
        else v6_walk n d l3_len next off flow pl
    else if next =? kV6Fragment then
      if l3_len <? u32 (off + 8) then Ok (false, flow, pl)
      else
        frag ← be16 d (off + 2);
        if negb (Z.land frag 0xfff8 =? 0) then Ok (false, flow, pl)
        else
          next ← rd8 d off;
          v6_walk n d l3_len next (u32 (off + 8)) flow pl
    else Ok (false, flow, pl)
  end.

Definition parseIPv6 (d : bytes) (len : Z) (flow : FlowView) (pl : span) : outcome Parsed :=
  let kFixed := 40 in
  if len <? kFixed then Ok (false, flow, pl)
  else
    let flow := set_ip_version flow 6 in
    plen ← be16 d 4;
    src ← memcpy (src_ip flow) d 8 16;
    dst ← memcpy (dst_ip flow) d 24 16;
    let flow := set_ips flow src dst in
    let l3_len := if u32 (kFixed + plen) <=? len then u32 (kFixed + plen) else len in
    next ← rd8 d 6;
    v6_walk kMaxV6ExtHeaders d l3_len next kFixed flow pl.

(** [size_t] arithmetic, truncated to 32 bits at the end. *)
Definition endpointHash (ip : bytes) (port : Z) : Z :=
  let h := fold_left (λ h b, u64 (u64 (h * 131) + b2z b)) ip 0 in
  u32 (u64 (u64 (h * 131) + port)).

Definition routeKey (f : FlowView) : Z :=
  let a := endpointHash (src_ip f) (src_port f) in
  let b := endpointHash (dst_ip f) (dst_port f) in
  let lo := if a <? b then a else b in
  let hi := if a <? b then b else a in
  let h := ip_proto f in
  let h := u64 (u64 (h * 1000003) + lo) in
  let h := u64 (u64 (h * 1000003) + hi) in
  u32 h.

Definition parseFlow (d : option bytes) (len : Z) (pl : span) : outcome Parsed :=
  let flow := FlowView_default in
  match d with
  | None => Ok (false, flow, pl)
  | Some d =>
    if len <? 1 then Ok (false, flow, pl)
    else
      b0 ← rd8 d 0;
      let version := u8 (Z.shiftr b0 4) in
      if version =? 4 then parseIPv4 d len flow pl
      else if version =? 6 then parseIPv6 d len flow pl
      else Ok (false, flow, pl)
  end.

(** [flow_view]: the returned boolean and what [flow] holds afterwards. *)
Definition flow_view (p : Packet) : outcome (bool * FlowView) :=
  r ← parseFlow (data p) (_len p) (Span [] 0);
  match r with
  | (false, flow, _) => Ok (false, flow)
  | (true, flow, pl) =>
      let flow := set_payload flow (ptr pl) (span_len pl) in
      Ok (true, set_key flow (routeKey flow))
  end.

Definition flow_key (p : Packet) : outcome Z :=
 '(b, flow) ← flow_view p;
  Ok (if b : bool then key flow else 0).

Arguments be16 : simpl never.
Arguments memcpy : simpl never.
Arguments parseL4 : simpl never.
Arguments v6_walk : simpl never.
Arguments routeKey : simpl never.
Arguments endpointHash : simpl never.

(** ** Memory safety of the dissectors *)

(** What a dissector started on [flow] may leave behind; a successful one has
    located a payload inside the first [len] bytes of [d]. *)
Definition dissected (d : bytes) (len : Z) (f : FlowView) (s : span) : Prop :=
  (ip_proto f = 6 \/ ip_proto f = 17) /\ 0 <= src_port f < 65536 /\
  0 <= dst_port f < 65536 /\ 0 <= tcp_flags f < 256 /\ inside d len s.

Definition parsed_ok (d : bytes) (len : Z) (flow : FlowView) (r : Parsed) : Prop :=
  ip_version r.1.2 = ip_version flow /\ src_ip r.1.2 = src_ip flow /\
  dst_ip r.1.2 = dst_ip flow /\ (r.1.1 = true -> dissected d len r.1.2 r.2).

Lemma parsed_ok_false d len flow f s :
  ip_version f = ip_version flow -> src_ip f = src_ip flow -> dst_ip f = dst_ip flow ->
  parsed_ok d len flow (false, f, s).
Proof. intros. by split_and!. Qed.

#[export] Hint Resolve parsed_ok_false : core.

Lemma padd_padd d a b : 0 <= a -> 0 <= b -> padd (padd d a) b = padd d (a + b).
Proof. intros. unfold padd. rewrite drop_drop. f_equal. lia. Qed.

Lemma inside_padd d a n len s : 0 <= a -> inside (padd d a) n s -> a + n <= len ->
  inside d len s.
Proof.
  intros ? (k & ? & Hp & ? & ?) ?. exists (a + k). rewrite Hp, padd_padd by lia.
  repeat split; lia.
Qed.

Lemma land_bound a n : 0 <= a -> 0 <= n -> 0 <= Z.land a n <= n.
Proof.
  intros. split; [by apply Z.land_nonneg; left|].
  apply Z.ldiff_le; [done|]. rewrite Z.ldiff_land, <- Z.land_assoc, Z.land_lnot_diag.
  apply Z.land_0_r.
Qed.

Lemma parseL4_ok proto l4 l4_len flow pl :
  0 <= l4_len <= zlen l4 -> l4_len < 4294967296 -> tcp_flags flow = 0 ->
  exists r, parseL4 proto l4 l4_len flow pl = Ok r /\ parsed_ok l4 l4_len flow r.
Proof.
  intros Hl H32 Hf. unfold parseL4, be16, kProtoTcp, kProtoUdp.
  destruct (Z.eqb_spec proto 6) as [->|].
  - case_cmp; [found|].
    destruct (load_be16_ok l4 0) as (sp & -> & ?); [lia..|].
    destruct (load_be16_ok l4 2) as (dp & -> & ?); [lia..|].
    destruct (rd8_range l4 13) as (fl & -> & ?); [lia|].
    destruct (rd8_range l4 12) as (b & -> & Hb); [lia|]. simpl.
    rewrite Z.shiftr_div_pow2 by lia. change (2 ^ 4) with 16.
    assert (0 <= b / 16 < 16) by (Z.div_mod_to_equations; lia). unwrap.
    do 2 (case_cmp; [found|]). eexists; split; [done|]. split_and!; try done.
    intros _. unfold dissected. simpl. split_and!; try lia. exists (b / 16 * 4). simpl.
    unwrap. split_and!; try done; lia.
  - destruct (Z.eqb_spec proto 17) as [->|]; [|found]. case_cmp; [found|].
    destruct (load_be16_ok l4 0) as (sp & -> & ?); [lia..|].
    destruct (load_be16_ok l4 2) as (dp & -> & ?); [lia..|].
    destruct (load_be16_ok l4 4) as (ul & -> & ?); [lia..|]. simpl. unwrap.
    eexists; split; [done|]. split_and!; try done. intros _. unfold dissected. simpl.
    split_and!; try lia. exists 8. simpl. split_and!; try done; try lia.
    + destruct (_ && _) eqn:E; [|lia]. apply andb_prop in E as [?%Z.leb_le _]. unwrap. lia.
    + destruct (_ && _) eqn:E; [|lia]. apply andb_prop in E as [_ ?%Z.leb_le]. lia.
Qed.

Lemma memcpy_ok dst src i n : 0 <= i -> 0 <= n <= zlen dst -> i + n <= zlen src ->
  exists l, memcpy dst src i n = Ok l /\ zlen l = zlen dst /\
    l = take (Z.to_nat n) (drop (Z.to_nat i) src) ++ drop (Z.to_nat n) dst.
Proof.
  intros. unfold memcpy. rewrite (proj2 (Z.ltb_ge _ n)), rd_range_ok by lia.
  eexists; split; [done|]. split; [|done]. zl.
Qed.

(** A branch that returns false and leaves [flow] as it is. *)
Ltac rejected :=
  repeat eexists; simpl; try done; try lia.

Lemma parseIPv4_ok d len flow pl :
  0 <= len <= zlen d -> len < 4294967296 -> tcp_flags flow = 0 ->
  zlen (src_ip flow) = 16 -> zlen (dst_ip flow) = 16 ->
  exists r, parseIPv4 d len flow pl = Ok r /\
    (r.1.1 = true -> dissected d len r.1.2 r.2 /\ ip_version r.1.2 = 4) /\
    zlen (src_ip r.1.2) = 16 /\ zlen (dst_ip r.1.2) = 16.
Proof.
  intros Hl H32 Hf Hs Hd. unfold parseIPv4, be16. case_cmp; [rejected|].
  destruct (rd8_range d 0) as (b0 & -> & ?); [lia|]. simpl.
  pose proof (land_bound b0 15 ltac:(lia) ltac:(lia)). unwrap.
  do 2 (case_cmp; [rejected|]).
  destruct (load_be16_ok d 6) as (frag & -> & ?); [lia..|]. simpl.
  destruct (negb _); [rejected|].
  destruct (memcpy_ok (src_ip flow) d 12 4) as (src & -> & ? & _); [lia..|].
  destruct (memcpy_ok (dst_ip flow) d 16 4) as (dst & -> & ? & _); [lia..|]. simpl.
  destruct (load_be16_ok d 2) as (tl & -> & ?); [lia..|].
  destruct (rd8_range d 9) as (pr & -> & ?); [lia|]. simpl.
  set (l3 := if _ && _ then tl else len).
  assert (Z.land b0 15 * 4 <= l3 <= len) as Hl3.
  { unfold l3. destruct (_ && _) eqn:E; [|lia].
    apply andb_prop in E as [?%Z.leb_le ?%Z.leb_le]. lia. }
  unwrap.
  match goal with |- context [parseL4 pr ?x ?n ?f pl] =>
    destruct (parseL4_ok pr x n f pl) as (r & -> & Hr) end;
    [rewrite zlen_padd by lia; lia|lia|done|].
  eexists; split; [done|]. destruct Hr as (Hv & Hsr & Hdr & Hr).
  rewrite Hsr, Hdr. simpl. split; [|lia]. intros Hb. split; [|by rewrite Hv].
  destruct (Hr Hb) as (? & ? & ? & ? & Hin). unfold dissected. split_and!; try done; try lia.
  eapply inside_padd; [|exact Hin|]; lia.
Qed.

Lemma v6_walk_ok n d l3_len next off flow pl :
  0 <= off <= l3_len -> l3_len <= zlen d -> l3_len < 4294967296 ->
  off + Z.of_nat n * 2048 < 4294960000 -> tcp_flags flow = 0 ->
  exists r, v6_walk n d l3_len next off flow pl = Ok r /\ parsed_ok d l3_len flow r.
Proof.
  revert next off. induction n as [|n IH]; intros next off Ho Hl H32 Hn Hf; [found|].
  unfold v6_walk; fold v6_walk. destruct (_ || _).
  { unwrap. destruct (parseL4_ok next (padd d off) (l3_len - off) flow pl)
      as (r & -> & Hv & Hs & Hd & Hr); [rewrite zlen_padd by lia; lia|lia|done|].
    eexists; split; [done|]. split_and!; try done. intros Hb.
    destruct (Hr Hb) as (? & ? & ? & ? & Hin). split_and!; try done; try lia.
    eapply inside_padd; [|exact Hin|]; lia. }
  destruct (_ || _).
  { unwrap. case_cmp; [found|].
    destruct (rd8_range d off) as (nx & -> & ?); [lia|].
    destruct (rd8_range d (off + 1)) as (hl & -> & ?); [lia|]. simpl. unwrap.
    case_cmp; [found|]. apply IH; lia. }
  destruct (_ =? _); [|found]. unwrap. case_cmp; [found|]. unfold be16.
  destruct (load_be16_ok d (off + 2)) as (fr & -> & ?); [lia..|]. simpl.
  destruct (negb _); [found|].
  destruct (rd8_range d off) as (nx & -> & ?); [lia|]. simpl. apply IH; lia.
Qed.

Lemma parseIPv6_ok d len flow pl :
  0 <= len <= zlen d -> len < 4294967296 -> tcp_flags flow = 0 ->
  zlen (src_ip flow) = 16 -> zlen (dst_ip flow) = 16 ->
  exists r, parseIPv6 d len flow pl = Ok r /\
    (r.1.1 = true -> dissected d len r.1.2 r.2 /\ ip_version r.1.2 = 6) /\
    zlen (src_ip r.1.2) = 16 /\ zlen (dst_ip r.1.2) = 16.
Proof.
  intros Hl H32 Hf Hs Hd. unfold parseIPv6, be16. case_cmp; [rejected|].
  destruct (load_be16_ok d 4) as (plen & -> & ?); [lia..|]. simpl.
  destruct (memcpy_ok (src_ip flow) d 8 16) as (src & -> & ? & _); [lia..|].
  destruct (memcpy_ok (dst_ip flow) d 24 16) as (dst & -> & ? & _); [lia..|]. simpl.
  destruct (rd8_range d 6) as (next & -> & ?); [lia|]. simpl. unwrap.
  set (l3 := if _ <=? _ then _ else len).
  assert (40 <= l3 <= len) as Hl3 by (unfold l3; case_cmp; lia).
  match goal with |- context [v6_walk ?n d l3 next 40 ?f pl] =>
    destruct (v6_walk_ok n d l3 next 40 f pl) as (r & -> & Hv & Hsr & Hdr & Hr) end;
    [lia|lia|lia|unfold kMaxV6ExtHeaders; lia|done|].
  eexists; split; [done|]. rewrite Hsr, Hdr. simpl. split; [|lia]. intros Hb.
  split; [|by rewrite Hv]. destruct (Hr Hb) as (? & ? & ? & ? & (k & ? & ? & ? & ?)).
  unfold dissected. split_and!; try done; try lia. exists k. split_and!; try done; lia.
Qed.

(** A packet whose bytes are there: [_len] bytes are readable. *)
Definition readable (p : Packet) : Prop :=
  0 <= _len p < 4294967296 /\
  match data p with Some d => _len p <= zlen d | None => True end.

Lemma flow_view_ok p : readable p ->
  exists b f, flow_view p = Ok (b, f) /\ zlen (src_ip f) = 16 /\ zlen (dst_ip f) = 16 /\
    (b = true -> exists d, data p = Some d /\
      (ip_version f = 4 \/ ip_version f = 6) /\ 0 <= key f < 4294967296 /\
      dissected d (_len p) f (Span (payload f) (payload_len f))).
Proof.
  intros [Hlen Hd]. unfold flow_view, parseFlow. destruct (data p) as [d|]; [|rejected].
  case_cmp; [rejected|]. destruct (rd8_range d 0) as (b0 & -> & ?); [lia|]. simpl.
  destruct (_ =? 4); [|destruct (_ =? 6); [|rejected]].
  - destruct (parseIPv4_ok d (_len p) FlowView_default (Span [] 0))
      as ([[[|] f] s] & -> & Hr & ? & ?); [lia|lia|done..| |rejected].
    simpl in *. destruct Hr as [Hr Hv]; [done|]. eexists _, _; split; [done|].
    split_and!; try done. intros _. exists d. split_and!; try done; try apply u32_range;
      [by left|..]; destruct s; apply Hr.
  - destruct (parseIPv6_ok d (_len p) FlowView_default (Span [] 0))
      as ([[[|] f] s] & -> & Hr & ? & ?); [lia|lia|done..| |rejected].
    simpl in *. destruct Hr as [Hr Hv]; [done|]. eexists _, _; split; [done|].
    split_and!; try done. intros _. exists d. split_and!; try done; try apply u32_range;
      [by right|..]; destruct s; apply Hr.
Qed.
