(* ===== verification/PacketSpec.v ===== *)
(** * What the dissector promises

    Wire encoders for TCP and UDP segments, IPv4 packets with options and IPv6
    packets with extension headers, and the theorems that [flow_view] recovers
    their fields; the direction-insensitivity and the collisions of the flow
    key; the ownership life cycle of [Packet]. *)
From S2P Require Import Packet.

(** ** Transport segments *)

Inductive Transport :=
| Tcp (sport dport : Z) (seq_ack : bytes) (reserved flags : Z) (win_sum_urg options body : bytes)
| Udp (sport dport : Z) (checksum body : bytes).

Definition t_proto (t : Transport) : Z := match t with Tcp _ _ _ _ _ _ _ _ => 6 | Udp _ _ _ _ => 17 end.
Definition t_sport (t : Transport) : Z := match t with Tcp s _ _ _ _ _ _ _ | Udp s _ _ _ => s end.
Definition t_dport (t : Transport) : Z := match t with Tcp _ d _ _ _ _ _ _ | Udp _ d _ _ => d end.
Definition t_flags (t : Transport) : Z := match t with Tcp _ _ _ _ f _ _ _ => f | Udp _ _ _ _ => 0 end.
Definition t_body (t : Transport) : bytes := match t with Tcp _ _ _ _ _ _ _ b | Udp _ _ _ b => b end.

Definition enc_transport (t : Transport) : bytes :=
  match t with
  | Tcp sp dp sa rsv fl wsu opts body =>
      put16 sp ++ put16 dp ++ sa ++ [z2b ((5 + zlen opts / 4) * 16 + rsv); z2b fl]
        ++ wsu ++ opts ++ body
  | Udp sp dp ck body => put16 sp ++ put16 dp ++ put16 (8 + zlen body) ++ ck ++ body
  end.

Definition wf_transport (t : Transport) : Prop :=
  0 <= t_sport t < 65536 /\ 0 <= t_dport t < 65536 /\
  match t with
  | Tcp _ _ sa rsv fl wsu opts body =>
      zlen sa = 8 /\ zlen wsu = 6 /\ 0 <= rsv < 16 /\ 0 <= fl < 256 /\
      zlen opts = 4 * (zlen opts / 4) /\ zlen opts <= 40
  | Udp _ _ ck body => zlen ck = 2 /\ zlen body < 65528
  end.

#[export] Instance wf_transport_dec t : Decision (wf_transport t).
Proof. unfold wf_transport. destruct t; apply _. Defined.

(** ** IPv4 *)

Record Ipv4 := MkIpv4 {
  tos : byte;
  ident : bytes;
  frag_word : Z;
  ttl : byte;
  checksum : bytes;
  src4 : bytes;
  dst4 : bytes;
  options : bytes
}.

Definition enc_ipv4 (h : Ipv4) (t : Transport) : bytes :=
  [z2b (64 + (5 + zlen (options h) / 4)); tos h]
  ++ put16 (20 + zlen (options h) + zlen (enc_transport t)) ++ ident h ++ put16 (frag_word h)
  ++ [ttl h; z2b (t_proto t)] ++ checksum h ++ src4 h ++ dst4 h
  ++ options h ++ enc_transport t.

(** Offset 0: not a later fragment.  The flags are free. *)
Definition wf_ipv4 (h : Ipv4) (t : Transport) : Prop :=
  zlen (ident h) = 2 /\ 0 <= frag_word h < 65536 /\ Z.land (frag_word h) 0x1fff = 0 /\
  zlen (checksum h) = 2 /\ zlen (src4 h) = 4 /\ zlen (dst4 h) = 4 /\
  zlen (options h) = 4 * (zlen (options h) / 4) /\ zlen (options h) <= 40 /\
  20 + zlen (options h) + zlen (enc_transport t) < 65536.

#[export] Instance wf_ipv4_dec h t : Decision (wf_ipv4 h t).
Proof. unfold wf_ipv4. apply _. Defined.

(** ** IPv6 *)

Inductive V6Ext :=
| HopByHop (contents : bytes)
| Routing (contents : bytes)
| DestOpts (contents : bytes)
| Mobility (contents : bytes)
| FirstFragment (reserved : byte) (flags : Z) (ident : bytes).

Definition v6_kind (e : V6Ext) : Z :=
  match e with
  | HopByHop _ => 0 | Routing _ => 43 | DestOpts _ => 60 | Mobility _ => 135
  | FirstFragment _ _ _ => 44
  end.

Definition enc_v6ext (e : V6Ext) (next : Z) : bytes :=
  match e with
  | HopByHop c | Routing c | DestOpts c | Mobility c =>
      [z2b next; z2b ((zlen c - 6) / 8)] ++ c
  | FirstFragment rsv fl i => [z2b next; rsv] ++ put16 fl ++ i
  end.

Definition wf_v6ext (e : V6Ext) : Prop :=
  match e with
  | HopByHop c | Routing c | DestOpts c | Mobility c =>
      zlen c = 6 + 8 * ((zlen c - 6) / 8) /\ 6 <= zlen c < 2048
  | FirstFragment _ fl i => 0 <= fl < 65536 /\ Z.land fl 0xfff8 = 0 /\ zlen i = 4
  end.

#[export] Instance wf_v6ext_dec e : Decision (wf_v6ext e).
Proof. destruct e; apply _. Defined.

Definition first_kind (es : list V6Ext) (proto : Z) : Z :=
  match es with [] => proto | e :: _ => v6_kind e end.

Fixpoint enc_chain (es : list V6Ext) (proto : Z) : bytes :=
  match es with
  | [] => []
  | e :: es => enc_v6ext e (first_kind es proto) ++ enc_chain es proto
  end.

Record Ipv6 := MkIpv6 {
  class_flow : bytes;
  hop_limit : byte;
  src6 : bytes;
  dst6 : bytes;
  ext_headers : list V6Ext
}.

Definition enc_ipv6 (h : Ipv6) (t : Transport) : bytes :=
  let tail := enc_chain (ext_headers h) (t_proto t) ++ enc_transport t in
  x60 :: class_flow h ++ put16 (zlen tail)
  ++ [z2b (first_kind (ext_headers h) (t_proto t)); hop_limit h]
  ++ src6 h ++ dst6 h ++ tail.

Definition wf_ipv6 (h : Ipv6) (t : Transport) : Prop :=
  zlen (class_flow h) = 3 /\ zlen (src6 h) = 16 /\ zlen (dst6 h) = 16 /\
  Forall wf_v6ext (ext_headers h) /\
  zlen (enc_chain (ext_headers h) (t_proto t) ++ enc_transport t) < 65536.

#[export] Instance wf_ipv6_dec h t : Decision (wf_ipv6 h t).
Proof. unfold wf_ipv6. apply _. Defined.

(** The flow a well-formed packet belongs to. *)
Definition flow_of (version : Z) (src dst : bytes) (t : Transport) (rest : bytes) : FlowView :=
  let f := MkFlowView version (t_proto t) src dst (t_sport t) (t_dport t)
             (t_body t ++ rest) (zlen (t_body t)) (t_flags t) 0 in
  set_key f (routeKey f).

(** ** Life-cycle invariant: at most one of [_view] and [_owned] is live. *)
Definition Packet_wf (p : Packet) : Prop := _view p = None \/ _owned p = None.

(** ** Reading cells of an explicit buffer *)

Lemma rd8_cell p i b : 0 <= i -> p !! Z.to_nat i = Some b -> rd8 p i = Ok (b2z b).
Proof. intros ? H. unfold rd8. by rewrite (proj2 (Z.ltb_ge i 0)), H by lia. Qed.

Lemma be16_cells p i a b : 0 <= i -> p !! Z.to_nat i = Some a ->
  p !! Z.to_nat (i + 1) = Some b -> be16 p i = Ok (b2z a * 256 + b2z b).
Proof.
  intros. unfold be16, load_be16.
  rewrite (rd8_cell p i a), (rd8_cell p (i + 1) b) by (done || lia). simpl. f_equal.
  pose proof (b2z_range a). pose proof (b2z_range b). rewrite lor_shift8 by lia.
  apply u16_id. lia.
Qed.

Lemma be16_put16 p i n : 0 <= n < 65536 -> 0 <= i -> p !! Z.to_nat i = Some (z2b (n / 256)) ->
  p !! Z.to_nat (i + 1) = Some (z2b n) -> be16 p i = Ok n.
Proof. intros. by erewrite be16_cells, put16_cells by done. Qed.

Lemma b2z_z2b_id n : 0 <= n < 256 -> b2z (z2b n) = n.
Proof. intros. by rewrite b2z_z2b, Z.mod_small. Qed.

Lemma rd8_put8 p i n : 0 <= n < 256 -> 0 <= i -> p !! Z.to_nat i = Some (z2b n) ->
  rd8 p i = Ok n.
Proof. intros. by erewrite rd8_cell, b2z_z2b_id by done. Qed.

(** Replace a list of known length by its elements. *)
Ltac explode l :=
  repeat (destruct l as [|? l]; [exfalso; unfold zlen in *; simpl in *; lia|]);
  destruct l as [|? l]; [|exfalso; unfold zlen in *; simpl in *; lia].

(** ** Transport round trips *)

Lemma zlen_enc_transport t : wf_transport t -> zlen (enc_transport t) =
  match t with
  | Tcp _ _ _ _ _ _ opts body => 20 + zlen opts + zlen body
  | Udp _ _ _ body => 8 + zlen body
  end.
Proof. intros (_ & _ & Hwf). destruct t; simpl in Hwf; unfold enc_transport; zl. Qed.

Lemma shiftr4 n r : 0 <= r < 16 -> Z.shiftr (n * 16 + r) 4 = n.
Proof.
  intros. rewrite Z.shiftr_div_pow2 by lia. change (2 ^ 4) with 16.
  rewrite Z.div_add_l by lia. rewrite Z.div_small by lia. lia.
Qed.

Lemma padd_drop (l : bytes) (n : nat) : padd l (Z.of_nat n) = drop n l.
Proof. unfold padd. by rewrite Nat2Z.id. Qed.

Lemma parseL4_enc t rest flow pl : wf_transport t -> zlen (enc_transport t) < 4294967296 ->
  tcp_flags flow = 0 ->
  parseL4 (t_proto t) (enc_transport t ++ rest) (zlen (enc_transport t)) flow pl =
    Ok (true, set_tcp_flags (set_ports (set_ip_proto flow (t_proto t)) (t_sport t) (t_dport t))
                (t_flags t), Span (t_body t ++ rest) (zlen (t_body t))).
Proof.
  intros Hwf H32 Hf. pose proof (zlen_enc_transport t Hwf) as Hlen.
  destruct Hwf as (Hs & Hd & Hwf). destruct t as [sp dp sa rsv fl wsu opts body|sp dp ck body];
    simpl in Hs, Hd, Hwf.
  - destruct Hwf as (Hsa & Hw & Hrsv & Hfl & Ho & Ho40). zlen_pose.
    set (p := enc_transport _ ++ rest). set (n := zlen (enc_transport _)) in *.
    assert (0 <= zlen opts / 4 <= 10) as Hq by lia.
    explode sa. explode wsu. unfold parseL4, t_proto, kProtoTcp. simpl Z.eqb. cbv iota.
    rewrite (proj2 (Z.ltb_ge n 20)) by lia.
    rewrite (be16_put16 p 0 sp), (be16_put16 p 2 dp), (rd8_put8 p 13 fl),
      (rd8_put8 p 12 ((5 + zlen opts / 4) * 16 + rsv)) by (done || lia).
    cbn [mbind outcome_bind]. rewrite shiftr4 by lia. unwrap.
    rewrite (proj2 (Z.ltb_ge _ 20)), (proj2 (Z.ltb_ge n _)) by lia. cbn [orb].
    do 3 f_equal; [|simpl; lia]. unfold p, enc_transport. simpl. rewrite <- app_assoc.
    replace ((5 + zlen opts / 4) * 4) with (Z.of_nat (20 + length opts))
      by (unfold zlen in *; lia).
    rewrite padd_drop. simpl. by rewrite drop_app_length.
  - destruct Hwf as (Hck & Hb). zlen_pose.
    set (p := enc_transport _ ++ rest). set (n := zlen (enc_transport _)) in *.
    explode ck. unfold parseL4, t_proto, kProtoTcp, kProtoUdp. simpl Z.eqb. cbv iota.
    rewrite (proj2 (Z.ltb_ge n 8)) by lia.
    rewrite (be16_put16 p 0 sp), (be16_put16 p 2 dp), (be16_put16 p 4 (8 + zlen body))
      by (done || lia).
    cbn [mbind outcome_bind]. unwrap. rewrite (proj2 (Z.leb_le 8 _)), (proj2 (Z.leb_le _ (n - 8))) by lia.
    cbn [andb]. do 3 f_equal; [|simpl; lia]. unfold set_tcp_flags, set_ports, set_ip_proto. simpl.
    by rewrite Hf.
Qed.


(** ** IPv4 *)

Lemma zlen_enc_ipv4 h t : wf_ipv4 h t ->
  zlen (enc_ipv4 h t) = 20 + zlen (options h) + zlen (enc_transport t).
Proof. intros (? & ? & ? & ? & ? & ? & ? & ? & ?). unfold enc_ipv4. zl. Qed.

Lemma land15 n r : 0 <= r < 16 -> Z.land (n * 16 + r) 15 = r.
Proof.
  intros. change 15 with (Z.ones 4). rewrite Z.land_ones by lia. change (2 ^ 4) with 16.
  rewrite Z.add_comm, Z.mod_add by lia. apply Z.mod_small. lia.
Qed.

Lemma memcpy_cells dst src i n l : zlen l = n -> 0 < n <= zlen dst -> 0 <= i ->
  take (Z.to_nat n) (drop (Z.to_nat i) src) = l ->
  memcpy dst src i n = Ok (l ++ drop (Z.to_nat n) dst).
Proof.
  intros Hl Hd Hi <-. rewrite zlen_take, zlen_drop in Hl. pose proof (zlen_nonneg src).
  unfold memcpy. rewrite (proj2 (Z.ltb_ge _ n)), rd_range_ok by lia. done.
Qed.

Lemma parseIPv4_enc h t rest flow pl : wf_transport t -> wf_ipv4 h t ->
  zlen (enc_ipv4 h t ++ rest) < 4294967296 -> tcp_flags flow = 0 ->
  zlen (src_ip flow) = 16 -> zlen (dst_ip flow) = 16 ->
  parseIPv4 (enc_ipv4 h t ++ rest) (zlen (enc_ipv4 h t ++ rest)) flow pl =
    parseL4 (t_proto t) (enc_transport t ++ rest) (zlen (enc_transport t))
      (set_ips (set_ip_version flow 4) (src4 h ++ drop 4 (src_ip flow))
         (dst4 h ++ drop 4 (dst_ip flow))) pl.
Proof.
  intros Hwt Hwf H32 Hf Hs16 Hd16. pose proof (zlen_enc_ipv4 h t Hwf) as Hlen.
  destruct Hwf as (Hid & Hfr & Hoff & Hck & Hs & Hd & Ho & Ho40 & Htot).
  rewrite zlen_app, Hlen in *. set (et := enc_transport t) in *.
  destruct h as [tos idn fw ttl ck s d o]; simpl in *. zlen_pose.
  assert (0 <= zlen o / 4 <= 10) as Hq by lia.
  set (len := 20 + zlen o + zlen et + zlen rest) in *.
  match goal with |- context [parseIPv4 ?x] => set (w := x) end.
  explode idn. explode ck. explode s. explode d.
  unfold parseIPv4. rewrite (proj2 (Z.ltb_ge len 20)) by lia.
  rewrite (rd8_put8 w 0 (64 + (5 + zlen o / 4))) by (done || lia).
  cbn [mbind outcome_bind]. replace (64 + (5 + zlen o / 4)) with (4 * 16 + (5 + zlen o / 4)) by lia.
  rewrite land15 by lia. unwrap. replace ((5 + zlen o / 4) * 4) with (20 + zlen o) by lia.
  rewrite (proj2 (Z.ltb_ge _ 20)), (proj2 (Z.ltb_ge len _)) by lia. cbn [orb].
  rewrite (be16_put16 w 6 fw) by (done || lia). cbn [mbind outcome_bind].
  rewrite Hoff. cbn [negb Z.eqb].
  rewrite (memcpy_cells _ w 12 4 [b3;b4;b5;b6]), (memcpy_cells _ w 16 4 [b7;b8;b9;b10])
    by first [reflexivity | simpl; lia].
  cbn [mbind outcome_bind].
  rewrite (be16_put16 w 2 (20 + zlen o + zlen et)) by (done || lia).
  cbn [mbind outcome_bind]. rewrite (proj2 (Z.leb_le _ _)), (proj2 (Z.leb_le _ len)) by lia.
  cbn [andb]. rewrite (rd8_put8 w 9 (t_proto t)) by (done || destruct t; simpl; lia).
  cbn [mbind outcome_bind]. unwrap. f_equal; [|lia].
  unfold w, enc_ipv4. simpl. rewrite <- app_assoc.
  replace (20 + zlen o) with (Z.of_nat (20 + length o)) by (unfold zlen; lia).
  rewrite padd_drop. simpl. by rewrite drop_app_length.
Qed.

(** ** IPv6 *)

(** A buffer that holds [x] at [off]. *)
Definition holds (d : bytes) (off : Z) (x : bytes) : Prop :=
  exists tl, padd d off = x ++ tl.

Lemma padd_rd8 d off x i : padd d off = x -> 0 <= off -> 0 <= i -> rd8 d (off + i) = rd8 x i.
Proof. intros <- ??. by rewrite rd8_padd. Qed.

Lemma padd_be16 d off x i : padd d off = x -> 0 <= off -> 0 <= i -> be16 d (off + i) = be16 x i.
Proof. intros <- ??. unfold be16. by rewrite load_be16_padd. Qed.

Lemma padd_zlen_app d off n x y : padd d off = x ++ y -> zlen x = n -> 0 <= off ->
  padd d (off + n) = y.
Proof.
  intros H <- ?. rewrite <- padd_padd, H by (zlen_pose; lia). unfold zlen. rewrite padd_drop.
  apply drop_app_length.
Qed.

Lemma zlen_enc_v6ext e next : wf_v6ext e ->
  8 <= zlen (enc_v6ext e next) <= 2048.
Proof. destruct e; simpl; intros Hwf; zl. Qed.

Lemma first_kind_range es t : 0 <= first_kind es (t_proto t) < 256.
Proof. destruct es as [|[]], t; simpl; lia. Qed.

(** One turn of the walk over a well-formed extension header. *)
Lemma v6_walk_ext n d l3 e next y off flow pl : wf_v6ext e -> 0 <= next < 256 -> 0 <= off ->
  padd d off = enc_v6ext e next ++ y -> off + zlen (enc_v6ext e next) <= l3 ->
  l3 < 4294967296 ->
  v6_walk (S n) d l3 (v6_kind e) off flow pl =
  v6_walk n d l3 next (off + zlen (enc_v6ext e next)) flow pl.
Proof.
  intros Hwf Hn Hoff Hd Hl3 H32. pose proof (zlen_enc_v6ext e next Hwf).
  unfold v6_walk; fold v6_walk.
  assert (rd8 d off = Ok next) as Hr0.
  { rewrite <- (Z.add_0_r off), (padd_rd8 _ _ _ _ Hd) by lia.
    destruct e; apply rd8_put8; done. }
  set (len := zlen (enc_v6ext e next)) in *.
  destruct e as [c|c|c|c|rsv fl i]; simpl in Hwf, Hd; simpl v6_kind;
    unfold kProtoTcp, kProtoUdp, kV6HopByHop, kV6Routing, kV6DestOpts, kV6Mobility, kV6Fragment;
    cbn [Z.eqb Pos.eqb orb]; unwrap.
  1-4: destruct Hwf as [Hc Hc2];
    rewrite (proj2 (Z.ltb_ge l3 (off + 2))), Hr0 by lia; cbn [mbind outcome_bind];
    assert (len = 2 + zlen c) by (unfold len; simpl; zl);
    rewrite (padd_rd8 _ _ _ 1 Hd), (rd8_put8 _ 1 ((zlen c - 6) / 8)) by (done || lia);
    cbn [mbind outcome_bind]; unwrap;
    replace (off + ((zlen c - 6) / 8 + 1) * 8) with (off + len) by lia;
    by rewrite (proj2 (Z.ltb_ge l3 (off + len))) by lia.
  destruct Hwf as (Hfl & Hz & Hi). assert (len = 8) as -> by (unfold len; simpl; zl).
  rewrite (proj2 (Z.ltb_ge l3 (off + 8))) by lia.
  rewrite (padd_be16 _ _ _ 2 Hd), (be16_put16 _ 2 fl) by (done || lia).
  cbn [mbind outcome_bind]. rewrite Hz. cbn [Z.eqb negb]. by rewrite Hr0.
Qed.

Lemma v6_walk_end n d l3 t off flow pl :
  v6_walk (S n) d l3 (t_proto t) off flow pl =
  parseL4 (t_proto t) (padd d off) (u32 (l3 - off)) flow pl.
Proof. by destruct t. Qed.

(** The whole chain: a turn for each header and one for the transport. *)
Lemma v6_walk_chain es t y : Forall wf_v6ext es ->
  forall n d l3 off flow pl, 0 <= off ->
  padd d off = enc_chain es (t_proto t) ++ y ->
  off + zlen (enc_chain es (t_proto t)) <= l3 -> l3 < 4294967296 ->
  v6_walk n d l3 (first_kind es (t_proto t)) off flow pl =
  if (length es <? n)%nat
  then parseL4 (t_proto t) y (l3 - (off + zlen (enc_chain es (t_proto t)))) flow pl
  else Ok (false, flow, pl).
Proof.
  induction 1 as [|e es He Hes IH]; intros n d l3 off flow pl Hoff Hd Hl3 H32;
    (destruct n as [|n]; [done|]).
  - simpl first_kind. rewrite v6_walk_end, Hd. simpl in *. rewrite zlen_nil in *.
    rewrite u32_id by lia. f_equal. lia.
  - simpl in Hd, Hl3. rewrite <- app_assoc in Hd. rewrite zlen_app in Hl3.
    pose proof (zlen_enc_v6ext e (first_kind es (t_proto t)) He). zlen_pose.
    simpl first_kind. erewrite (v6_walk_ext n d l3 e) by
      first [exact Hd | apply first_kind_range | done | lia].
    rewrite IH by first [eapply padd_zlen_app; [exact Hd|done|lia] | lia].
    change (length (e :: es) <? S n)%nat with (length es <? n)%nat.
    destruct (_ <? _)%nat; [|done]. f_equal. simpl. rewrite zlen_app. lia.
Qed.

Lemma zlen_enc_ipv6 h t : wf_ipv6 h t ->
  zlen (enc_ipv6 h t) = 40 + zlen (enc_chain (ext_headers h) (t_proto t))
                        + zlen (enc_transport t).
Proof. intros (? & ? & ? & _ & ?). unfold enc_ipv6. zl. Qed.

Lemma parseIPv6_enc h t rest flow pl : wf_transport t -> wf_ipv6 h t ->
  zlen (enc_ipv6 h t ++ rest) < 4294967296 ->
  zlen (src_ip flow) = 16 -> zlen (dst_ip flow) = 16 ->
  let flow' := set_ips (set_ip_version flow 6) (src6 h) (dst6 h) in
  parseIPv6 (enc_ipv6 h t ++ rest) (zlen (enc_ipv6 h t ++ rest)) flow pl =
    if (length (ext_headers h) <? 8)%nat
    then parseL4 (t_proto t) (enc_transport t ++ rest) (zlen (enc_transport t)) flow' pl
    else Ok (false, flow', pl).
Proof.
  intros Hwt Hwf H32 Hs16 Hd16. pose proof (zlen_enc_ipv6 h t Hwf) as Hlen.
  destruct Hwf as (Hc & Hs & Hd & He & Htot). rewrite zlen_app, Hlen in *.
  pose proof (first_kind_range (ext_headers h) t) as Hk.
  destruct h as [cf hl s d es]; simpl in *. zlen_pose. rewrite ?zlen_app in Htot.
  match goal with |- context [parseIPv6 ?x ?y] => set (w := x); set (len := y) in * end.
  explode cf. explode s. explode d.
  set (chain := enc_chain es (t_proto t)) in *. set (et := enc_transport t) in *.
  assert (padd w 40 = chain ++ et ++ rest) as Hpadd.
  { change 40 with (Z.of_nat 40). rewrite padd_drop. unfold w, enc_ipv6. simpl.
    by rewrite <- app_assoc. }
  unfold parseIPv6. rewrite (proj2 (Z.ltb_ge len 40)) by lia.
  rewrite (be16_put16 w 4 (zlen (chain ++ et))) by (done || rewrite ?zlen_app; lia).
  cbn [mbind outcome_bind].
  match goal with |- context [set_ips _ ?s ?d] =>
    rewrite (memcpy_cells _ w 8 16 s), (memcpy_cells _ w 24 16 d)
      by first [reflexivity | simpl; lia] end.
  cbn [mbind outcome_bind]. rewrite (rd8_put8 w 6 (first_kind es (t_proto t))) by done.
  cbn [mbind outcome_bind]. rewrite zlen_app. unwrap.
  rewrite (proj2 (Z.leb_le _ len)) by lia.
  rewrite (v6_walk_chain es t (et ++ rest)) by first [done | fold chain; lia].
  fold chain. change kMaxV6ExtHeaders with 8%nat.
  assert (forall f : bytes, zlen f = 16 -> drop (Z.to_nat 16) f = []) as Hdrop.
  { intros f Hf. apply drop_ge. unfold zlen in Hf. lia. }
  simpl src_ip. simpl dst_ip. rewrite !Hdrop, !app_nil_r by done.
  destruct (_ <? _)%nat; [|done]. f_equal. lia.
Qed.

(** ** The whole dissection *)

Definition pad16 (a : bytes) : bytes := a ++ replicate 12 x00.

Lemma flow_view_v4 h t rest p : wf_transport t -> wf_ipv4 h t ->
  data p = Some (enc_ipv4 h t ++ rest) -> _len p = zlen (enc_ipv4 h t ++ rest) ->
  _len p < 4294967296 ->
  flow_view p = Ok (true, flow_of 4 (pad16 (src4 h)) (pad16 (dst4 h)) t rest).
Proof.
  intros Hwt Hwf Hd Hl H32. pose proof (zlen_enc_ipv4 h t Hwf) as Hlen.
  unfold flow_view, parseFlow. rewrite Hd, Hl in *. zlen_pose.
  rewrite (proj2 (Z.ltb_ge _ 1)) by (rewrite zlen_app; zlen_pose; lia).
  assert (0 <= zlen (options h) / 4 <= 10) as Hq
    by (destruct Hwf as (_ & _ & _ & _ & _ & _ & Ho & Ho' & _); lia).
  rewrite (rd8_put8 _ 0 (64 + (5 + zlen (options h) / 4))) by (done || lia).
  cbn [mbind outcome_bind]. replace (64 + (5 + zlen (options h) / 4))
    with (4 * 16 + (5 + zlen (options h) / 4)) by lia.
  rewrite shiftr4 by lia. cbn [Z.eqb Pos.eqb u8 Z.modulo Z.div_eucl]. unwrap. cbn [Z.eqb Pos.eqb].
  rewrite (parseIPv4_enc h t rest) by done.
  rewrite parseL4_enc by (try done; destruct Hwf as (_ & _ & _ & _ & _ & _ & _ & _ & ?); zl).
  reflexivity.
Qed.

Lemma flow_view_v6 h t rest p : wf_transport t -> wf_ipv6 h t ->
  data p = Some (enc_ipv6 h t ++ rest) -> _len p = zlen (enc_ipv6 h t ++ rest) ->
  _len p < 4294967296 ->
  flow_view p = Ok
    (if (length (ext_headers h) <? 8)%nat
     then (true, flow_of 6 (src6 h) (dst6 h) t rest)
     else (false, set_ips (set_ip_version FlowView_default 6) (src6 h) (dst6 h))).
Proof.
  intros Hwt Hwf Hd Hl H32. pose proof (zlen_enc_ipv6 h t Hwf) as Hlen.
  unfold flow_view, parseFlow. rewrite Hd, Hl in *.
  rewrite (proj2 (Z.ltb_ge _ 1)) by (rewrite zlen_app; zlen_pose; lia).
  rewrite (rd8_cell _ 0 x60) by (done || lia). cbn [mbind outcome_bind].
  change (u8 (Z.shiftr (b2z x60) 4)) with 6. cbn [Z.eqb Pos.eqb].
  rewrite (parseIPv6_enc h t rest) by done.
  destruct (_ <? _)%nat; [|done].
  rewrite parseL4_enc by (try done; destruct Hwf as (_ & _ & _ & _ & ?); zl).
  reflexivity.
Qed.

(** ** The flow key *)

(** The flow of the packets in the other direction. *)
Definition reply_of (f g : FlowView) : Prop :=
  ip_proto g = ip_proto f /\ src_ip g = dst_ip f /\ dst_ip g = src_ip f /\
  src_port g = dst_port f /\ dst_port g = src_port f.

Lemma routeKey_reply f g : reply_of f g -> routeKey g = routeKey f.
Proof.
  intros (Hp & Hs & Hd & Hsp & Hdp). unfold routeKey. rewrite Hp, Hs, Hd, Hsp, Hdp.
  generalize (endpointHash (dst_ip f) (dst_port f)) (endpointHash (src_ip f) (src_port f)).
  intros a b. destruct (Z.ltb_spec a b), (Z.ltb_spec b a); try lia; [done..|].
  by replace a with b by lia.
Qed.

Lemma routeKey_range f : 0 <= routeKey f < 4294967296.
Proof. apply u32_range. Qed.

(** One step of the polynomial hash. *)
Definition hash_step (h b : Z) : Z := u64 (u64 (h * 131) + b).

Lemma hash_step_mod h b : hash_step h b = (h * 131 + b) mod 18446744073709551616.
Proof. unfold hash_step, u64. apply Zplus_mod_idemp_l. Qed.

(** The hash is not injective on two adjacent bytes: [131] units of the later
    one are worth one of the earlier. *)
Lemma hash_step_carry h c d : hash_step (hash_step h (c + 1)) (d - 131) =
  hash_step (hash_step h c) d.
Proof.
  rewrite !hash_step_mod, <- Zplus_mod_idemp_l, Zmult_mod_idemp_l, Zplus_mod_idemp_l.
  symmetry. rewrite <- Zplus_mod_idemp_l, Zmult_mod_idemp_l, Zplus_mod_idemp_l.
  f_equal. lia.
Qed.

Lemma endpointHash_carry pre suf c d c' d' port :
  b2z c' = b2z c + 1 -> b2z d = b2z d' + 131 ->
  endpointHash (pre ++ [c'; d'] ++ suf) port = endpointHash (pre ++ [c; d] ++ suf) port.
Proof.
  intros Hc Hd. unfold endpointHash. rewrite !fold_left_app.
  set (h := fold_left _ pre 0). do 5 f_equal. simpl.
  fold (hash_step h (b2z c')) (hash_step h (b2z c)).
  fold (hash_step (hash_step h (b2z c')) (b2z d')) (hash_step (hash_step h (b2z c)) (b2z d)).
  f_equal. rewrite Hc. replace (b2z d') with (b2z d - 131) by lia. apply hash_step_carry.
Qed.

(** ** Packets that carry a dissectable flow *)

(** The buffer [d] of [len] bytes is a well-formed packet of the flow [f],
    possibly followed by link-layer padding. *)
Inductive carries : bytes -> Z -> FlowView -> Prop :=
| carries_v4 h t rest :
    wf_transport t -> wf_ipv4 h t -> zlen (enc_ipv4 h t ++ rest) < 4294967296 ->
    carries (enc_ipv4 h t ++ rest) (zlen (enc_ipv4 h t ++ rest))
      (flow_of 4 (pad16 (src4 h)) (pad16 (dst4 h)) t rest)
| carries_v6 h t rest :
    wf_transport t -> wf_ipv6 h t -> (length (ext_headers h) < 8)%nat ->
    zlen (enc_ipv6 h t ++ rest) < 4294967296 ->
    carries (enc_ipv6 h t ++ rest) (zlen (enc_ipv6 h t ++ rest))
      (flow_of 6 (src6 h) (dst6 h) t rest).

Lemma flow_view_carries p d f : data p = Some d -> carries d (_len p) f ->
  flow_view p = Ok (true, f).
Proof.
  intros Hd Hc. inversion Hc as [h t rest ?? H32 E1 E2|h t rest ?? Hn H32 E1 E2]; subst.
  - by apply (flow_view_v4 h t rest); [..|rewrite <- E2].
  - rewrite (flow_view_v6 h t rest) by (try done; by rewrite <- E2).
    by rewrite (proj2 (Nat.ltb_lt _ _)).
Qed.

Lemma carries_key d n f : carries d n f -> key f = routeKey f.
Proof. by destruct 1. Qed.

Lemma flow_key_carries p d f : data p = Some d -> carries d (_len p) f ->
  flow_key p = Ok (routeKey f).
Proof.
  intros Hd Hc. unfold flow_key. erewrite flow_view_carries by done.
  cbn [mbind outcome_bind]. by rewrite (carries_key _ _ _ Hc).
Qed.

Lemma materialize_spec p : Packet_wf p -> readable p ->
  exists q, materialize p = Ok q /\ Packet_wf q /\ is_view q = false /\
    (_len q, _id q, _verdict q, _pending q) = (_len p, _id p, _verdict p, _pending p) /\
    match _view p with
    | None => q = p
    | Some v => if 0 <? _len p then data q = Some (take (Z.to_nat (_len p)) v)
                else data q = None
    end.
Proof.
  intros Hwf [Hl Hd]. unfold materialize, data in *.
  destruct p as [[v|] o n i vd pe]; simpl in *.
  - destruct Hwf as [|Ho]; [done|]. simpl in Ho. subst o.
    destruct (Z.ltb_spec 0 n).
    + rewrite rd_range_ok by lia. cbn [mbind outcome_bind]. eexists; split; [done|].
      split_and!; try done. by left.
    + eexists; split; [done|]. split_and!; try done. by left.
  - eexists; split; [done|]. by split_and!.
Qed.

Lemma materialize_idemp p q : materialize p = Ok q -> materialize q = Ok q.
Proof.
  unfold materialize. destruct p as [[v|] o n i vd pe]; simpl.
  - destruct (0 <? n); [destruct (rd_range v 0 n)|]; simpl; try done; by intros [= <-].
  - by intros [= <-].
Qed.

(** * Properties *)

Definition demo_tcp : Transport :=
  Tcp 51000 443 (replicate 8 x01) 0 0x18 (replicate 6 x02) (replicate 4 x01)
    (str "GET").

Definition demo_tcp_reply : Transport :=
  Tcp 443 51000 (replicate 8 x03) 0 0x10 (replicate 6 x04) [] [].

Definition demo_ipv4 : Ipv4 :=
  MkIpv4 x00 [x12; x34] 0x4000 x40 [x00; x00] [x0a; x00; x00; x01] [x5d; xb8; xd8; x22] [].

Definition demo_ipv4_reply : Ipv4 :=
  MkIpv4 x00 [x12; x35] 0x4000 x38 [x00; x00] [x5d; xb8; xd8; x22] [x0a; x00; x00; x01]
    (replicate 4 x01).

Definition demo_ipv6 (n : nat) : Ipv6 :=
  MkIpv6 [x00; x00; x00] x40 (replicate 16 x20) (replicate 16 x26)
    (replicate n (HopByHop (replicate 6 x00))).

Definition demo_packet (d : bytes) : Packet := Packet_view (Some d) (zlen d) 7.

(** C26: dissecting a packet never reads outside its buffer: whatever its bytes,
    [flow_view] returns, and when it reports a flow the L4 payload it points at
    lies inside the packet's bytes and every field is within its type. *)
Theorem flow_view_memory_safe p : readable p ->
  exists b f, flow_view p = Ok (b, f) /\ zlen (src_ip f) = 16 /\ zlen (dst_ip f) = 16 /\
    (b = true -> exists d, data p = Some d /\
      (ip_version f = 4 \/ ip_version f = 6) /\ 0 <= key f < 4294967296 /\
      dissected d (_len p) f (Span (payload f) (payload_len f))).
Proof. apply flow_view_ok. Qed.

Lemma flow_view_memory_safe_witness :
  exists b f, flow_view (demo_packet [x45; x00; xff]) = Ok (b, f) /\ zlen (src_ip f) = 16.
Proof.
  destruct (flow_view_memory_safe (demo_packet [x45; x00; xff])) as (b & f & H & H16 & _).
  - split; [|simpl]; concrete.
  - exists b, f. exact (conj H H16).
Defined.

(** C27: the dissection inverts the wire format of IPv4: for every TCP or UDP
    segment, any IPv4 options and any padding after the datagram, [flow_view]
    returns the addresses, ports, flags, payload and the flow key. *)
Theorem flow_view_ipv4 h t rest p : wf_transport t -> wf_ipv4 h t ->
  data p = Some (enc_ipv4 h t ++ rest) -> _len p = zlen (enc_ipv4 h t ++ rest) ->
  _len p < 4294967296 ->
  flow_view p = Ok (true, flow_of 4 (pad16 (src4 h)) (pad16 (dst4 h)) t rest).
Proof. apply flow_view_v4. Qed.

Lemma flow_view_ipv4_witness :
  flow_view (demo_packet (enc_ipv4 demo_ipv4 demo_tcp ++ [x00; x00])) =
    Ok (true, flow_of 4 (pad16 [x0a; x00; x00; x01]) (pad16 [x5d; xb8; xd8; x22]) demo_tcp
                [x00; x00]).
Proof. refine (flow_view_ipv4 demo_ipv4 demo_tcp [x00; x00] _ _ _ _ _ _); concrete. Defined.

(** C28: the dissection inverts the wire format of IPv6 through its chain of
    extension headers: the flow is recovered exactly when at most seven headers
    precede the transport header, and the packet is rejected otherwise. *)
Theorem flow_view_ipv6 h t rest p : wf_transport t -> wf_ipv6 h t ->
  data p = Some (enc_ipv6 h t ++ rest) -> _len p = zlen (enc_ipv6 h t ++ rest) ->
  _len p < 4294967296 ->
  flow_view p = Ok
    (if (length (ext_headers h) <? 8)%nat
     then (true, flow_of 6 (src6 h) (dst6 h) t rest)
     else (false, set_ips (set_ip_version FlowView_default 6) (src6 h) (dst6 h))).
Proof. apply flow_view_v6. Qed.

Lemma flow_view_ipv6_witness :
  flow_view (demo_packet (enc_ipv6 (demo_ipv6 7) demo_tcp ++ [])) =
    Ok (true, flow_of 6 (replicate 16 x20) (replicate 16 x26) demo_tcp []) /\
  flow_view (demo_packet (enc_ipv6 (demo_ipv6 8) demo_tcp ++ [])) =
    Ok (false, set_ips (set_ip_version FlowView_default 6) (replicate 16 x20) (replicate 16 x26)).
Proof.
  split; [refine (flow_view_ipv6 (demo_ipv6 7) demo_tcp [] _ _ _ _ _ _)
         |refine (flow_view_ipv6 (demo_ipv6 8) demo_tcp [] _ _ _ _ _ _)]; concrete.
Defined.

(** C29: both directions of a connection have the same flow key, for IPv4 and
    IPv6, whatever options, extension headers, payloads and padding their
    packets carry; it is the route key of the flow. *)
Theorem flow_key_both_directions p d f q e g :
  data p = Some d -> carries d (_len p) f ->
  data q = Some e -> carries e (_len q) g -> reply_of f g ->
  flow_key p = Ok (routeKey f) /\ flow_key q = flow_key p.
Proof.
  intros Hd Hf He Hg Hr. rewrite (flow_key_carries p d f), (flow_key_carries q e g) by done.
  by rewrite (routeKey_reply f g).
Qed.

Lemma flow_key_both_directions_witness :
  flow_key (demo_packet (enc_ipv4 demo_ipv4_reply demo_tcp_reply ++ [])) =
  flow_key (demo_packet (enc_ipv4 demo_ipv4 demo_tcp ++ [x00])).
Proof.
  refine (proj2 (flow_key_both_directions
    (demo_packet (enc_ipv4 demo_ipv4 demo_tcp ++ [x00])) _ _
    (demo_packet (enc_ipv4 demo_ipv4_reply demo_tcp_reply ++ [])) _ _ eq_refl _ eq_refl _ _));
    [apply (carries_v4 demo_ipv4 demo_tcp [x00])
    |apply (carries_v4 demo_ipv4_reply demo_tcp_reply [])|]; concrete.
Defined.

(** C39: the flow key identifies connections only up to collisions an address
    can be chosen for: two IPv4 clients whose last two octets are [c, d] and
    [c + 1, d - 131] get one flow key for the same ports and server. *)
Theorem routeKey_collision a b c d c' d' f :
  b2z c' = b2z c + 1 -> b2z d = b2z d' + 131 ->
  routeKey (set_ips f (pad16 [a; b; c'; d']) (dst_ip f)) =
  routeKey (set_ips f (pad16 [a; b; c; d]) (dst_ip f)).
Proof.
  intros Hc Hd. unfold routeKey, pad16. simpl src_ip. simpl dst_ip.
  pose proof (endpointHash_carry [a; b] (replicate 12 x00) c d c' d' (src_port f) Hc Hd) as E.
  simpl app in E |- *. cbn [src_port dst_port ip_proto set_ips]. by rewrite E.
Qed.

(** 10.0.0.200 and 10.0.1.69. *)
Lemma routeKey_collision_witness :
  routeKey (set_ips FlowView_default (pad16 [x0a; x00; x01; x45]) (replicate 16 x00)) =
  routeKey (set_ips FlowView_default (pad16 [x0a; x00; x00; xc8]) (replicate 16 x00)).
Proof.
  refine (routeKey_collision x0a x00 x00 xc8 x01 x45 FlowView_default _ _); concrete.
Defined.

(** C30: the life cycle of a packet keeps what a verdict needs.  [materialize]
    leaves no view behind, keeps the bytes, id, verdict and pending flag and is
    idempotent; [release_bytes] leaves a shell with the same id, verdict and
    pending flag; moving yields the same packet and a husk that holds no bytes
    and is not pending, so that of the two objects exactly one can be verdicted
    when the source could. *)
Theorem packet_life_cycle p : Packet_wf p -> readable p ->
  (exists q, materialize p = Ok q /\ materialize q = Ok q /\ is_view q = false /\
     Packet_wf q /\
     (_len q, _id q, _verdict q, _pending q) = (_len p, _id p, _verdict p, _pending p) /\
     (0 < _len p -> data q = (take (Z.to_nat (_len p)) <$> _view p) ∪ _owned p)) /\
  (has_bytes (release_bytes p) = false /\ Packet_wf (release_bytes p) /\
   (_id (release_bytes p), _verdict (release_bytes p), _pending (release_bytes p)) =
   (_id p, _verdict p, _pending p)) /\
  (forall self o, let '(this, husk) := Packet_assign self p o in
     if self then this = p
     else this = o /\ has_bytes husk = false /\ _pending husk = false).
Proof.
  intros Hwf Hr. split_and!; try done.
  - destruct (materialize_spec p Hwf Hr) as (q & Hq & Hwq & Hv & Hf & Hd).
    exists q. split_and!; try done; [by eapply materialize_idemp|]. intros Hlen.
    destruct (_view p) as [v|] eqn:Ev.
    + rewrite (proj2 (Z.ltb_lt 0 _)) in Hd by lia. rewrite Hd. simpl. by destruct (_owned p).
    + subst q. unfold data. rewrite Ev. simpl. by destruct (_owned p).
  - by left.
  - intros [] o; [done|]. by destruct o.
Qed.

Lemma packet_life_cycle_witness :
  exists q, materialize (demo_packet (str "abc")) = Ok q /\ materialize q = Ok q /\
    is_view q = false.
Proof.
  destruct (packet_life_cycle (demo_packet (str "abc"))) as [(q & H1 & H2 & H3 & _) _].
  - right. concrete.
  - split; concrete.
  - exists q. exact (conj H1 (conj H2 H3)).
Defined.
