(* ===== verification/BlockList.v ===== *)
(** * The block list ([include/blocklist.hpp], [src/blocklist.cpp])

    The parser of the list file, the two sets it fills and the suffix walk of
    [isHostnameBlocked], with the specification both meet: a host name is
    blocked exactly when some line of the file matches it. *)
From S2P Require Import Prelude.

(** ** Model *)

(** The file splits into lines as [std::getline] reads them: a newline ends a
    line, and an unterminated last line counts when it is not empty. *)
Fixpoint getlines (cur : bytes) (s : bytes) : list bytes :=
  match s with
  | [] => match cur with [] => [] | _ => [cur] end
  | b :: s => if decide (b = x0a) then cur :: getlines [] s else getlines (cur ++ [b]) s
  end.

(** [std::isspace] of the C locale. *)
Definition isspace (b : byte) : bool :=
  ((9 <=? b2z b) && (b2z b <=? 13)) || (b2z b =? 32).

Definition parse_line (line : bytes) : bytes := List.filter (λ b, negb (isspace b)) line.

Record BlockList := MkBlockList { _exact : gset bytes; _wildcard : gset bytes }.

(** The body of the reading loop. *)
Definition add_line (bl : BlockList) (line : bytes) : BlockList :=
  let line := parse_line line in
  match line with
  | [] => bl
  | b :: _ =>
      if decide (b = x23) then bl
      else if (2 <? zlen line) && bool_decide (line !! 0%nat = Some x2a)
              && bool_decide (line !! 1%nat = Some x2e)
      then MkBlockList (_exact bl) ({[ drop 2 line ]} ∪ _wildcard bl)
      else MkBlockList ({[ line ]} ∪ _exact bl) (_wildcard bl)
  end.

(** The constructor; [None] for a file that cannot be opened, and [None] as the
    result for the exception thrown then. *)
Definition BlockList_ctor (file : option bytes) : option BlockList :=
  content ← file;
  Some (fold_left add_line (getlines [] content) (MkBlockList ∅ ∅)).

(** [hostname.find('.', pos)] *)
Definition find_dot (h : bytes) (pos : nat) : option nat :=
  match list_find (x2e =.) (drop pos h) with Some (i, _) => Some (pos + i)%nat | None => None end.

(** The loop over the dots of [hostname]. *)
Fixpoint suffix_walk (fuel : nat) (wild : gset bytes) (hostname : bytes) (dot : option nat)
    : outcome bool :=
  match dot with
  | None => Ok false
  | Some dot =>
    match fuel with
    | O => Fault OutOfFuel
    | S fuel =>
      let suffix := drop (dot + 1) hostname in
      match suffix with
      | [] => Ok false
      | _ => if decide (suffix ∈ wild) then Ok true
             else suffix_walk fuel wild hostname (find_dot hostname (dot + 1))
      end
    end
  end.

Definition isHostnameBlocked (bl : BlockList) (hostname : bytes) : outcome bool :=
  if decide (hostname ∈ _exact bl) then Ok true
  else suffix_walk (length hostname) (_wildcard bl) hostname (find_dot hostname 0).

(** ** Specification *)

(** [h] is a proper subdomain of [s]. *)
Definition subdomain (s h : bytes) : Prop := s <> [] /\ exists p, h = p ++ x2e :: s.

Definition blocks (bl : BlockList) (h : bytes) : Prop :=
  h ∈ _exact bl \/ exists s, s ∈ _wildcard bl /\ subdomain s h.

(** What one entry of the file, stripped of white space, matches: nothing for
    a blank line or a comment, the proper subdomains of [s] for a wildcard
    "*.s", and the entry itself otherwise. *)
Definition entry_matches (e h : bytes) : Prop :=
  e <> [] /\ head e <> Some x23 /\
  ((exists s, e = x2a :: x2e :: s /\ subdomain s h) \/
   (h = e /\ forall s, e = x2a :: x2e :: s -> s = [])).

Definition newline_free (l : bytes) : Prop := x0a ∉ l.

(** The text file with these lines. *)
Definition file_of (lines : list bytes) : bytes := concat (map (λ l, l ++ [x0a]) lines).

(** ** The suffix walk *)

Lemma find_dot_spec h pos :
  match find_dot h pos with
  | Some i => (pos <= i)%nat /\ h !! i = Some x2e /\
              forall j, (pos <= j < i)%nat -> h !! j <> Some x2e
  | None => forall j, (pos <= j)%nat -> h !! j <> Some x2e
  end.
Proof.
  unfold find_dot. destruct (list_find _ _) as [[i b]|] eqn:E.
  - apply list_find_Some in E as (Hi & <- & Hmin). rewrite lookup_drop in Hi.
    split_and!; [lia|done|]. intros j Hj Hjd.
    apply (Hmin (j - pos)%nat x2e); [|lia|done]. rewrite lookup_drop. rewrite <- Hjd. f_equal. lia.
  - intros j Hj Hjd. apply list_find_None in E.
    assert (drop pos h !! (j - pos)%nat = Some x2e) as Hl
      by (rewrite lookup_drop, <- Hjd; f_equal; lia).
    by apply (Forall_lookup_1 _ _ _ _ E Hl).
Qed.

(** The suffixes the walk still has to look at from the dot [pos] on. *)
Definition hit (wild : gset bytes) (h : bytes) (pos : nat) : Prop :=
  exists i, (pos <= i)%nat /\ h !! i = Some x2e /\ drop (S i) h <> [] /\ drop (S i) h ∈ wild.

Lemma suffix_walk_spec wild h fuel pos : (length h <= fuel + pos)%nat ->
  exists r, suffix_walk fuel wild h (find_dot h pos) = Ok r /\ (r = true <-> hit wild h pos).
Proof.
  revert pos. induction fuel as [|fuel IH]; intros pos Hf;
    pose proof (find_dot_spec h pos) as Hs; destruct (find_dot h pos) as [i|].
  - destruct Hs as (Hi & Hd & _). apply lookup_lt_Some in Hd. lia.
  - exists false. split; [done|]. split; [done|]. intros (i & ? & ? & _). by destruct (Hs i).
  - destruct Hs as (Hi & Hd & Hmin). cbn [suffix_walk].
    replace (i + 1)%nat with (S i) by lia.
    assert (hit wild h pos <-> hit wild h i) as Hhit.
    { split; intros (j & Hj & Hjd & Hr); exists j; split_and!; try done; try apply Hr; [|lia].
      destruct (decide (i <= j)%nat); [done|]. exfalso. apply (Hmin j); [lia|done]. }
    setoid_rewrite Hhit.
    destruct (drop (S i) h) as [|b t] eqn:Ed.
    + exists false. split; [done|]. split; [done|]. intros (j & Hj & _ & Hne & _).
      destruct Hne. replace (S j) with (S i + (j - i))%nat by lia.
      by rewrite <- drop_drop, Ed, drop_nil.
    + destruct (decide _) as [Hin|Hin].
      { exists true. split; [done|]. split; [|done]. intros _. exists i. rewrite Ed. by split_and!. }
      apply lookup_lt_Some in Hd as Hlt.
      destruct (IH (S i)) as (r & -> & Hr); [lia|].
      exists r. split; [done|]. rewrite Hr. split; intros (j & Hj & Hjr); exists j.
      * split; [lia|done].
      * split; [|done]. destruct (decide (j = i)) as [->|]; [|lia].
        destruct Hjr as (_ & _ & Hin'). by rewrite Ed in Hin'.
  - exists false. split; [done|]. split; [done|]. intros (i & ? & ? & _). by destruct (Hs i).
Qed.

Lemma hit_subdomain wild h : hit wild h 0 <-> exists s, s ∈ wild /\ subdomain s h.
Proof.
  split.
  - intros (i & _ & Hd & Hne & Hin). exists (drop (S i) h). split_and!; [done|].
    split; [done|]. exists (take i h). by rewrite take_drop_middle.
  - intros (s & Hin & Hne & p & ->). exists (length p).
    replace (drop (S (length p)) (p ++ x2e :: s)) with s
      by (rewrite cons_middle, app_assoc;
          replace (S (length p)) with (length (p ++ [x2e])) by (rewrite length_app; simpl; lia);
          by rewrite drop_app_length).
    split_and!; [lia| |done|done]. by rewrite list_lookup_middle.
Qed.

Lemma isHostnameBlocked_spec bl h :
  exists r, isHostnameBlocked bl h = Ok r /\ (r = true <-> blocks bl h).
Proof.
  unfold isHostnameBlocked, blocks. destruct (decide _) as [Hin|Hin].
  - exists true. split; [done|]. split; [by left|done].
  - destruct (suffix_walk_spec (_wildcard bl) h (length h) 0) as (r & -> & Hr); [lia|].
    exists r. split; [done|]. rewrite Hr, hit_subdomain. split; [by right|].
    by intros [|].
Qed.

(** ** The file *)

Lemma getlines_line cur l rest : newline_free l ->
  getlines cur (l ++ x0a :: rest) = (cur ++ l) :: getlines [] rest.
Proof.
  revert cur. induction l as [|b l IH]; intros cur Hl; simpl.
  - by rewrite app_nil_r.
  - apply not_elem_of_cons in Hl as [Hb Hl]. rewrite decide_False by done.
    rewrite IH by done. by rewrite <- app_assoc.
Qed.

Lemma getlines_file_of lines : Forall newline_free lines ->
  getlines [] (file_of lines) = lines.
Proof.
  induction 1 as [|l lines Hl _ IH]; [done|].
  unfold file_of in *. simpl. rewrite <- app_assoc. simpl.
  by rewrite getlines_line, IH.
Qed.

Lemma blocks_add_exact bl e h :
  blocks (MkBlockList ({[ e ]} ∪ _exact bl) (_wildcard bl)) h <-> blocks bl h \/ h = e.
Proof. unfold blocks. simpl. set_solver. Qed.

Lemma blocks_add_wildcard bl s h :
  blocks (MkBlockList (_exact bl) ({[ s ]} ∪ _wildcard bl)) h <-> blocks bl h \/ subdomain s h.
Proof. unfold blocks. simpl. set_solver. Qed.

Lemma wildcard_shape (line : bytes) :
  (2 <? zlen line) && bool_decide (line !! 0%nat = Some x2a)
    && bool_decide (line !! 1%nat = Some x2e) = true <->
  exists s, line = x2a :: x2e :: s /\ s <> [].
Proof.
  rewrite !andb_true_iff, !bool_decide_eq_true, Z.ltb_lt. split.
  - intros [[Hn H0] H1]. destruct line as [|a [|b [|c s]]]; try (unfold zlen in Hn; simpl in Hn; lia).
    simpl in H0, H1. simplify_eq. by exists (c :: s).
  - intros (s & -> & Hs). destruct s as [|c s]; [done|]. split_and!; [|done|done].
    unfold zlen. simpl. lia.
Qed.

Lemma blocks_add_line bl l h :
  blocks (add_line bl l) h <-> blocks bl h \/ entry_matches (parse_line l) h.
Proof.
  unfold add_line, entry_matches. destruct (parse_line l) as [|b e]; [naive_solver|].
  destruct (decide (b = x23)) as [->|Hb]; [naive_solver|].
  pose proof (wildcard_shape (b :: e)) as Hw. destruct (_ && _).
  - destruct Hw as [(s & [= -> ->] & Hs) _]; [done|]. rewrite blocks_add_wildcard. simpl.
    rewrite drop_0. naive_solver.
  - rewrite blocks_add_exact. assert (forall s, b :: e = x2a :: x2e :: s -> s = []) as Hn.
    { intros s Es. destruct s; [done|]. destruct Hw as [_ Hw]. discriminate Hw. eauto. }
    assert (Some b <> Some x23) by congruence. simpl. split; [naive_solver|].
    intros [?|(_ & _ & [(s & Es & Hs & _)|[? _]])]; [by left| |by right].
    by rewrite (Hn s Es) in Hs.
Qed.

Lemma blocks_fold lines bl h :
  blocks (fold_left add_line lines bl) h <->
  blocks bl h \/ exists l, l ∈ lines /\ entry_matches (parse_line l) h.
Proof.
  revert bl. induction lines as [|l lines IH]; intros bl; simpl.
  - set_solver.
  - rewrite IH, blocks_add_line. set_solver.
Qed.

(** * Properties *)

Definition demo_lines : list bytes :=
  [str "# ads"; str " ads.example.com "; []; str "*.tracker.net"].

(** C13: the list decides as its file reads.  For a file of any lines, the
    constructor succeeds, the look-up terminates, and a host name is blocked if
    and only if some line of the file matches it: an entry equal to it, or a
    wildcard it is a proper subdomain of at any depth; never by a comment, a
    blank line or the apex of a wildcard. *)
Theorem blocklist_decides lines h : Forall newline_free lines ->
  exists bl r, BlockList_ctor (Some (file_of lines)) = Some bl /\
    isHostnameBlocked bl h = Ok r /\
    (r = true <-> exists l, l ∈ lines /\ entry_matches (parse_line l) h).
Proof.
  intros Hl. unfold BlockList_ctor. simpl. rewrite getlines_file_of by done.
  eexists. destruct (isHostnameBlocked_spec (fold_left add_line lines (MkBlockList ∅ ∅)) h)
    as (r & Hr & Hb).
  exists r. split_and!; [done|done|]. rewrite Hb, blocks_fold. unfold blocks. set_solver.
Qed.

Lemma blocklist_decides_witness :
  exists bl r, BlockList_ctor (Some (file_of demo_lines)) = Some bl /\
    isHostnameBlocked bl (str "a.b.tracker.net") = Ok r /\
    (r = true <-> exists l, l ∈ demo_lines /\ entry_matches (parse_line l) (str "a.b.tracker.net")).
Proof. refine (blocklist_decides demo_lines (str "a.b.tracker.net") _). unfold newline_free. concrete. Defined.

