(* ===== verification/Extractor.v ===== *)
(** * The hostname extractor ([include/hostname_extractor.hpp],
    [src/hostname_extractor.cpp])

    The per-worker state machine: the flow table, the ring of blocked flows, the
    deferred closes, the callbacks of the TCP reassembler and the decided
    buffer.  Time is a number of nanoseconds of the steady clock.

    Two things are parameters.  PcapPlusPlus' [TcpReassembly] is the class
    [Pcpp]: each call takes the reassembler's state to its next one and reports,
    in order, the callbacks it fired; the reassembler is entered only when no
    callback runs, so the callbacks of a call can be replayed after it.  The
    iteration order of [std::unordered_map] is the class [MapOrder], which
    promises only that a walk meets every entry once. *)
From S2P Require Import ClientHello Packet.

Definition kMaxPacketsPerConn : nat := 32.
Definition kMaxStreamBytes : Z := 32 * 1024.
Definition seconds (n : Z) : Z := n * 1000000000.
Definition kWaitIdleTimeout : Z := seconds 10.
Definition kBlockIdleTimeout : Z := seconds 60.
Definition kSweepInterval : Z := seconds 1.

Definition kTcpFin : Z := 1.
Definition kTcpSyn : Z := 2.
Definition kTcpRst : Z := 4.
Definition kTcpAck : Z := 16.
Definition kClientSide : Z := 0.
Definition kDefaultMaxFlows : nat := Z.to_nat 65536.
Definition kDefaultBlockedShare : nat := 4.

(** ** Data *)

Inductive State := Wait | Block.

#[export] Instance State_eq_dec : EqDecision State.
Proof. solve_decision. Defined.

Record Conn := MkConn {
  state : State;
  held : list Packet;
  stream : bytes;
  pcpp_key : Z;
  pcpp_closed : bool;
  last : Z
}.

(** [Conn{}] *)
Definition Conn_default : Conn := MkConn Wait [] [] 0 false 0.

Definition set_held (c : Conn) h := MkConn (state c) h (stream c) (pcpp_key c) (pcpp_closed c) (last c).
Definition set_stream (c : Conn) s := MkConn (state c) (held c) s (pcpp_key c) (pcpp_closed c) (last c).
Definition set_pcpp_key (c : Conn) k := MkConn (state c) (held c) (stream c) k (pcpp_closed c) (last c).
Definition set_pcpp_closed (c : Conn) b := MkConn (state c) (held c) (stream c) (pcpp_key c) b (last c).
Definition set_last (c : Conn) t := MkConn (state c) (held c) (stream c) (pcpp_key c) (pcpp_closed c) t.

Record Decided := MkDecided { pkt : Packet; verdict : Verdict }.

Record Extractor (D R : Type) := MkExtractor {
  _decided : list Decided;
  _policy : D;
  _reassembly : R;
  _to_close : list Z;
  _hs_scratch : bytes;
  _conns : gmap Z Conn;
  _current_key : Z;
  _feeding : bool;
  _max_flows : nat;
  _max_blocked : nat;
  _block_ring : list Z;
  _block_next : nat;
  _lastSweep : Z;
  _flows : nat;
  _blocked : nat;
  _dropped_at_cap : Z
}.
Arguments MkExtractor {D R}.
Arguments _decided {D R}.
Arguments _policy {D R}.
Arguments _reassembly {D R}.
Arguments _to_close {D R}.
Arguments _hs_scratch {D R}.
Arguments _conns {D R}.
Arguments _current_key {D R}.
Arguments _feeding {D R}.
Arguments _max_flows {D R}.
Arguments _max_blocked {D R}.
Arguments _block_ring {D R}.
Arguments _block_next {D R}.
Arguments _lastSweep {D R}.
Arguments _flows {D R}.
Arguments _blocked {D R}.
Arguments _dropped_at_cap {D R}.

(** Assignments to one member of [*this]. *)
Section setters.
  Context {D R : Type}.
  Implicit Types e : Extractor D R.

Definition set_decided e v : Extractor D R :=
  MkExtractor v (_policy e) (_reassembly e) (_to_close e) (_hs_scratch e) (_conns e)
    (_current_key e) (_feeding e) (_max_flows e) (_max_blocked e) (_block_ring e)
    (_block_next e) (_lastSweep e) (_flows e) (_blocked e) (_dropped_at_cap e).
Definition set_policy e v : Extractor D R :=
  MkExtractor (_decided e) v (_reassembly e) (_to_close e) (_hs_scratch e) (_conns e)
    (_current_key e) (_feeding e) (_max_flows e) (_max_blocked e) (_block_ring e)
    (_block_next e) (_lastSweep e) (_flows e) (_blocked e) (_dropped_at_cap e).
Definition set_reassembly e v : Extractor D R :=
  MkExtractor (_decided e) (_policy e) v (_to_close e) (_hs_scratch e) (_conns e)
    (_current_key e) (_feeding e) (_max_flows e) (_max_blocked e) (_block_ring e)
    (_block_next e) (_lastSweep e) (_flows e) (_blocked e) (_dropped_at_cap e).
Definition set_to_close e v : Extractor D R :=
  MkExtractor (_decided e) (_policy e) (_reassembly e) v (_hs_scratch e) (_conns e)
    (_current_key e) (_feeding e) (_max_flows e) (_max_blocked e) (_block_ring e)
    (_block_next e) (_lastSweep e) (_flows e) (_blocked e) (_dropped_at_cap e).
Definition set_scratch e v : Extractor D R :=
  MkExtractor (_decided e) (_policy e) (_reassembly e) (_to_close e) v (_conns e)
    (_current_key e) (_feeding e) (_max_flows e) (_max_blocked e) (_block_ring e)
    (_block_next e) (_lastSweep e) (_flows e) (_blocked e) (_dropped_at_cap e).
Definition set_conns e v : Extractor D R :=
  MkExtractor (_decided e) (_policy e) (_reassembly e) (_to_close e) (_hs_scratch e) v
    (_current_key e) (_feeding e) (_max_flows e) (_max_blocked e) (_block_ring e)
    (_block_next e) (_lastSweep e) (_flows e) (_blocked e) (_dropped_at_cap e).
Definition set_current_key e v : Extractor D R :=
  MkExtractor (_decided e) (_policy e) (_reassembly e) (_to_close e) (_hs_scratch e)
    (_conns e) v (_feeding e) (_max_flows e) (_max_blocked e) (_block_ring e) (_block_next
    e) (_lastSweep e) (_flows e) (_blocked e) (_dropped_at_cap e).
Definition set_feeding e v : Extractor D R :=
  MkExtractor (_decided e) (_policy e) (_reassembly e) (_to_close e) (_hs_scratch e)
    (_conns e) (_current_key e) v (_max_flows e) (_max_blocked e) (_block_ring e)
    (_block_next e) (_lastSweep e) (_flows e) (_blocked e) (_dropped_at_cap e).
Definition set_lastSweep e v : Extractor D R :=
  MkExtractor (_decided e) (_policy e) (_reassembly e) (_to_close e) (_hs_scratch e)
    (_conns e) (_current_key e) (_feeding e) (_max_flows e) (_max_blocked e) (_block_ring e)
    (_block_next e) v (_flows e) (_blocked e) (_dropped_at_cap e).
Definition set_flows e v : Extractor D R :=
  MkExtractor (_decided e) (_policy e) (_reassembly e) (_to_close e) (_hs_scratch e)
    (_conns e) (_current_key e) (_feeding e) (_max_flows e) (_max_blocked e) (_block_ring e)
    (_block_next e) (_lastSweep e) v (_blocked e) (_dropped_at_cap e).
Definition set_blocked e v : Extractor D R :=
  MkExtractor (_decided e) (_policy e) (_reassembly e) (_to_close e) (_hs_scratch e)
    (_conns e) (_current_key e) (_feeding e) (_max_flows e) (_max_blocked e) (_block_ring e)
    (_block_next e) (_lastSweep e) (_flows e) v (_dropped_at_cap e).
Definition set_dropped e v : Extractor D R :=
  MkExtractor (_decided e) (_policy e) (_reassembly e) (_to_close e) (_hs_scratch e)
    (_conns e) (_current_key e) (_feeding e) (_max_flows e) (_max_blocked e) (_block_ring e)
    (_block_next e) (_lastSweep e) (_flows e) (_blocked e) v.
Definition set_ring e ring next : Extractor D R :=
  MkExtractor (_decided e) (_policy e) (_reassembly e) (_to_close e) (_hs_scratch e)
    (_conns e) (_current_key e) (_feeding e) (_max_flows e) (_max_blocked e) ring next
    (_lastSweep e) (_flows e) (_blocked e) (_dropped_at_cap e).
End setters.

(** ** What the extractor is built on *)

Inductive Callback :=
| ConnectionStart (flowKey : Z)
| MessageReady (side : Z) (data : bytes) (flowKey : Z)
| ConnectionEnd.

(** [pcpp::TcpReassembly] *)
Class Pcpp (R : Type) := {
  reassemblePacket : R -> bytes -> R * list Callback;
  closeConnection : R -> Z -> R * list Callback;
  purgeClosedConnections : R -> R * list Callback
}.

(** The order in which a range-for walks the flow table. *)
Class MapOrder := {
  iter : gmap Z Conn -> list (Z * Conn);
  iter_perm m : iter m ≡ₚ map_to_list m
}.

(** The policy: a callable with captured state [D]. *)
Class Policy (D : Type) := _decide : option bytes -> D -> Verdict * D.

(** A client-to-server SYN. *)
Definition isClientSyn (f : FlowView) : bool :=
  negb (Z.land (tcp_flags f) kTcpSyn =? 0) && (Z.land (tcp_flags f) kTcpAck =? 0).

(** ** Operations *)

Section extractor.
  Context {D R : Type} `{!Policy D} `{!Pcpp R} `{!MapOrder}.
  Abbreviation Ext := (Extractor D R).
  Implicit Types e : Ext.

(** The constructor, given the closure's and the reassembler's initial states. *)
Definition Extractor_ctor (d : D) (r : R) (max_flows max_blocked : nat) : Ext :=
  let mf := if (max_flows =? 0)%nat then 1%nat else max_flows in
  let mb := if negb (max_blocked =? 0)%nat then max_blocked
            else Nat.max 1 (mf / kDefaultBlockedShare) in
  let mb := Nat.min mb mf in
  MkExtractor [] d r [] [] ∅ 0 false mf mb (replicate mb 0) 0 0 0 0 0.

Definition publish e : Ext := set_flows e (size (_conns e)).

Definition decide e (p : Packet) (v : Verdict) : Ext :=
  set_decided e (_decided e ++ [MkDecided p v]).

(** [_block_ring[_block_next]] *)
Definition ring_head e : outcome Z :=
  match _block_ring e !! _block_next e with Some k => Ok k | None => Fault OutOfBounds end.

(** Store into the head slot and move on. *)
Definition ring_put e (key : Z) : Ext :=
  set_ring e (<[ _block_next e := key ]> (_block_ring e))
    ((_block_next e + 1) mod _max_blocked e)%nat.

(** Erase [victim] if it is a blocked flow; says whether it did. *)
Definition erase_blocked e (victim : Z) : bool * Ext :=
  match _conns e !! victim with
  | Some c =>
      if decide_rel (=) (state c) Block
      then (true, publish (set_conns e (delete victim (_conns e))))
      else (false, e)
  | None => (false, e)
  end.

Definition remember_blocked e (key : Z) : outcome Ext :=
  victim ← ring_head e;
  let e := if negb (victim =? 0) && negb (victim =? key)
           then (erase_blocked e victim).2 else e in
  Ok (ring_put e key).

(** The loop of [evict_oldest_blocked]; [n] is the number of slots left to try. *)
Fixpoint evict_loop (n : nat) e : outcome (bool * Ext) :=
  match n with
  | O => Ok (false, e)
  | S n =>
      victim ← ring_head e;
      let e := ring_put e 0 in
      if victim =? 0 then evict_loop n e
      else match erase_blocked e victim with
           | (true, e) => Ok (true, e)
           | (false, e) => evict_loop n e
           end
  end.

Definition evict_oldest_blocked e : outcome (bool * Ext) := evict_loop (_max_blocked e) e.

Definition resolve e (key : Z) (hostname : option bytes) : outcome Ext :=
  match _conns e !! key with
  | None => Ok e
  | Some c =>
    match state c with
    | Block => Ok e
    | Wait =>
      let '(v, d) := _decide hostname (_policy e) in
      let e := set_policy e d in
      e ← match v with
          | BLOCK =>
              remember_blocked
                (set_conns e (<[ key := MkConn Block [] [] (pcpp_key c) (pcpp_closed c) (last c) ]>
                                (_conns e))) key
          | ALLOW => Ok (set_conns e (delete key (_conns e)))
          end;
      let e := if negb (pcpp_key c =? 0) && negb (pcpp_closed c)
               then set_to_close e (_to_close e ++ [pcpp_key c]) else e in
      Ok (fold_left (λ e p, decide e p v) (held c) e)
    end
  end.

(** *** Callbacks *)

Definition onConnectionStart e (flowKey : Z) : outcome Ext :=
  if negb (_feeding e) then Ok e
  else match _conns e !! _current_key e with
       | None => Ok e
       | Some c => Ok (set_conns e (<[ _current_key e := set_pcpp_key c flowKey ]> (_conns e)))
       end.

Definition onMessageReady e (side : Z) (data : bytes) (flowKey : Z) : outcome Ext :=
  if negb (_feeding e) then Ok e
  else if negb (side =? kClientSide) then Ok e
  else match _conns e !! _current_key e with
       | None => Ok e
       | Some c =>
         match state c with
         | Block => Ok e
         | Wait =>
           let c := set_stream (set_pcpp_key c flowKey) (stream c ++ data) in
           let e := set_conns e (<[ _current_key e := c ]> (_conns e)) in
           rs ← extractHostname (stream c) (u32 (zlen (stream c))) (_hs_scratch e);
           let e := set_scratch e rs.2 in
           match rs.1 with
           | Found host =>
               h ← rd_range (ptr host) 0 (span_len host);
               resolve e (_current_key e) (Some h)
           | NotFound => resolve e (_current_key e) None
           | NeedMore =>
               if kMaxStreamBytes <? zlen (stream c)
               then resolve e (_current_key e) None else Ok e
           end
         end
       end.

Definition onConnectionEnd e : outcome Ext :=
  if negb (_feeding e) then Ok e
  else match _conns e !! _current_key e with
       | None => Ok e
       | Some c =>
           let e := set_conns e (<[ _current_key e := set_pcpp_closed c true ]> (_conns e)) in
           resolve e (_current_key e) None
       end.

Definition callback e (cb : Callback) : outcome Ext :=
  match cb with
  | ConnectionStart k => onConnectionStart e k
  | MessageReady side data k => onMessageReady e side data k
  | ConnectionEnd => onConnectionEnd e
  end.

Fixpoint callbacks e (cbs : list Callback) : outcome Ext :=
  match cbs with
  | [] => Ok e
  | cb :: cbs => e ← callback e cb; callbacks e cbs
  end.

(** A call into the reassembler: its new state, then the callbacks it fired. *)
Definition run_pcpp e (rc : R * list Callback) : outcome Ext :=
  callbacks (set_reassembly e rc.1) rc.2.

Fixpoint close_all e (tokens : list Z) : outcome Ext :=
  match tokens with
  | [] => Ok e
  | t :: tokens => e ← run_pcpp e (closeConnection (_reassembly e) t); close_all e tokens
  end.

Definition drain_closes e : outcome Ext :=
  e ← close_all e (_to_close e);
  Ok (set_to_close e []).

(** *** The idle sweep *)

Definition idle_limit (c : Conn) : Z :=
  match state c with Block => kBlockIdleTimeout | Wait => kWaitIdleTimeout end.

Definition is_expired (now : Z) (c : Conn) : bool := idle_limit c <=? now - last c.

Definition is_blocked (c : Conn) : bool := if decide_rel (=) (state c) Block then true else false.

(** The body of the loop over [expired]. *)
Definition expire e (key : Z) : outcome Ext :=
  match _conns e !! key with
  | None => Ok e
  | Some c =>
      match state c with
      | Block => Ok (set_conns e (delete key (_conns e)))
      | Wait => resolve e key None
      end
  end.

Fixpoint expire_all e (keys : list Z) : outcome Ext :=
  match keys with
  | [] => Ok e
  | key :: keys => e ← expire e key; expire_all e keys
  end.

Definition sweep e (now : Z) : outcome Ext :=
  let entries := iter (_conns e) in
  let expired := map fst (List.filter (λ kc, is_expired now kc.2) entries) in
  let e := set_blocked e (length (List.filter (λ kc, is_blocked kc.2) entries)) in
  e ← expire_all e expired;
  e ← run_pcpp e (purgeClosedConnections (_reassembly e));
  e ← drain_closes e;
  Ok (publish e).

Definition tick e (now : Z) : outcome Ext :=
  if now - _lastSweep e <? kSweepInterval then Ok e
  else sweep (set_lastSweep e now) now.

(** *** Shutdown *)

Fixpoint resolve_all e (keys : list Z) : outcome Ext :=
  match keys with
  | [] => Ok e
  | key :: keys => e ← resolve e key None; resolve_all e keys
  end.

Definition flush e : outcome Ext :=
  let waiting := map fst (List.filter (λ kc, negb (is_blocked kc.2)) (iter (_conns e))) in
  e ← resolve_all e waiting;
  let e := set_conns e ∅ in
  e ← drain_closes e;
  Ok (publish e).

(** *** One packet *)

(** The table is full: sweep, rate-limited, then drop the oldest blocked flow. *)
Definition make_room e (now : Z) : outcome Ext :=
  if (_max_flows e <=? size (_conns e))%nat then
    e ← (if kSweepInterval <=? now - _lastSweep e then sweep (set_lastSweep e now) now else Ok e);
    if (_max_flows e <=? size (_conns e))%nat
    then r ← evict_oldest_blocked e; Ok r.2
    else Ok e
  else Ok e.

(** The bytes given to [pcpp::RawPacket]. *)
Definition raw_packet (p : Packet) : outcome bytes :=
  match data p with None => Fault OutOfBounds | Some d => rd_range d 0 (_len p) end.

(** [still->second.held.back().release_bytes()] *)
Definition release_back (l : list Packet) : list Packet :=
  match List.rev l with [] => [] | p :: l => List.rev l ++ [release_bytes p] end.

(** From [_current_key = key] to the end of [feed], for a packet handed to the
    reassembler. *)
Definition reassemble e (key : Z) (p : Packet) (hold : bool) : outcome Ext :=
  raw ← raw_packet p;
  let e := if hold then
             match _conns e !! key with
             | Some c => set_conns e (<[ key := set_held c (held c ++ [p]) ]> (_conns e))
             | None => e
             end
           else e in
  let e := set_feeding (set_current_key e key) true in
  e ← run_pcpp e (reassemblePacket (_reassembly e) raw);
  let e := set_feeding e false in
  e ← drain_closes e;
  if hold then
    match _conns e !! key with
    | Some c => Ok (set_conns e (<[ key := set_held c (release_back (held c)) ]> (_conns e)))
    | None => Ok e
    end
  else Ok (decide e p ALLOW).

(** [feed] once the packet's flow has its [Wait] entry [c]. *)
Definition feed_tracked e (now key : Z) (c : Conn) (f : FlowView) (p : Packet) : outcome Ext :=
  let c := set_last c now in
  let e := set_conns e (<[ key := c ]> (_conns e)) in
  if (kMaxPacketsPerConn <=? length (held c))%nat then
    e ← resolve e key None;
    Ok (decide e p ALLOW)
  else
    let hold := 0 <? payload_len f in
    if negb hold && (Z.land (tcp_flags f) (Z.lor kTcpSyn (Z.lor kTcpFin kTcpRst)) =? 0)
    then Ok (decide e p ALLOW)
    else reassemble e key p hold.

(** [feed] for a packet of a flow without an entry. *)
Definition feed_untracked e (now key : Z) (f : FlowView) (p : Packet) : outcome Ext :=
  opens ← (if isClientSyn f then Ok true else opensTlsHandshake (payload f) (payload_len f));
  if negb opens then Ok (decide e p ALLOW)
  else
    e ← make_room e now;
    if (_max_flows e <=? size (_conns e))%nat then
      Ok (decide (set_dropped e (u64 (_dropped_at_cap e + 1))) p ALLOW)
    else feed_tracked e now key Conn_default f p.

Definition feed_flow e (now : Z) (f : FlowView) (p : Packet) : outcome Ext :=
  match _conns e !! key f with
  | Some c =>
      match state c with
      | Block =>
          Ok (decide (set_conns e (<[ key f := set_last c now ]> (_conns e))) p BLOCK)
      | Wait => feed_tracked e now (key f) c f p
      end
  | None => feed_untracked e now (key f) f p
  end.

(** [feed], at the time [now] that its [steady_clock::now()] reads.  The guard
    object publishes the table size on every exit. *)
Definition feed e (now : Z) (p : Packet) : outcome Ext :=
  e ← tick e now;
  publish <$>
    (if negb (has_bytes p) then Ok (decide e p ALLOW)
     else
       r ← flow_view p;
       if negb r.1 || negb (ip_proto r.2 =? kProtoTcp) then Ok (decide e p ALLOW)
       else feed_flow e now r.2 p).

(** The counters [tracked_flows()], [blocked_flows()] and
    [flows_dropped_at_cap()]. *)
Definition tracked_flows e : nat := _flows e.
Definition blocked_flows e : nat := _blocked e.
Definition flows_dropped_at_cap e : Z := _dropped_at_cap e.

(** [decided().clear()], the caller's half of the protocol. *)
Definition clear_decided e : Ext := set_decided e [].

End extractor.
