(* ===== verification/ExtractorInv.v ===== *)
(** * Invariants of the extractor

    [Inv] is what holds of an extractor between any two of its internal steps;
    [Step] is what every internal operation (resolve, eviction, callbacks,
    closes, sweep) does to the state: it keeps every packet exactly once, only
    appends to the decided buffer and never revives or refills a flow. *)
From S2P Require Import ClientHello Packet Extractor.

(** ** The packets in the flow table *)

Definition held_in (m : gmap Z Conn) : list Packet := map_to_list m ≫= λ kc, held kc.2.

Lemma held_in_empty : held_in ∅ = [].
Proof. unfold held_in. by rewrite map_to_list_empty. Qed.

Lemma held_in_insert m k c : m !! k = None -> held_in (<[k:=c]> m) ≡ₚ held c ++ held_in m.
Proof. intros. unfold held_in. by rewrite map_to_list_insert. Qed.

Lemma held_in_delete m k c : m !! k = Some c -> held_in m ≡ₚ held c ++ held_in (delete k m).
Proof.
  intros. rewrite <- held_in_insert by apply lookup_delete_eq. by rewrite insert_delete_id.
Qed.

Lemma held_in_update m k c : held_in (<[k:=c]> m) ≡ₚ held c ++ held_in (delete k m).
Proof. by rewrite <- insert_delete_eq, held_in_insert by apply lookup_delete_eq. Qed.

Lemma elem_of_held_in m p : p ∈ held_in m <-> exists k c, m !! k = Some c /\ p ∈ held c.
Proof.
  unfold held_in. rewrite list_elem_of_bind. split.
  - intros ([k c] & Hp & Hkc). apply elem_of_map_to_list in Hkc. by exists k, c.
  - intros (k & c & Hm & Hp). exists (k, c). split; [done|]. by apply elem_of_map_to_list.
Qed.

Section inv.
  Context {D R : Type} `{!Policy D} `{!Pcpp R} `{!MapOrder}.
  Abbreviation Ext := (Extractor D R).
  Implicit Types e : Ext.

(** Every packet the extractor answers for. *)
Definition stored e : list Packet := map pkt (_decided e) ++ held_in (_conns e).

Definition Conn_ok (c : Conn) : Prop :=
  match state c with
  | Block => held c = [] /\ stream c = []
  | Wait => (length (held c) <= kMaxPacketsPerConn)%nat /\ zlen (stream c) <= kMaxStreamBytes
  end.

(** The invariant, except that the blocked flow [x] may be missing from the
    ring; [0] is no exception, as the ring cannot represent it. *)
Record Inv_but (x : Z) e : Prop := {
  inv_ring : length (_block_ring e) = _max_blocked e;
  inv_next : (_block_next e < _max_blocked e)%nat;
  inv_caps : (_max_blocked e <= _max_flows e)%nat;
  inv_size : (size (_conns e) <= _max_flows e)%nat;
  inv_conn : map_Forall (λ _, Conn_ok) (_conns e);
  inv_blocked : forall k c, _conns e !! k = Some c -> state c = Block -> k <> 0 ->
    k <> x -> k ∈ _block_ring e
}.

Definition Inv e : Prop := Inv_but 0 e.

(** What an internal operation may make of an entry. *)
Definition from (c c' : Conn) : Prop :=
  last c' = last c /\
  ((state c' = state c /\ held c' = held c) \/
   (state c = Wait /\ state c' = Block /\ held c' = [])).

Record Step e e' : Prop := {
  st_stored : stored e' ≡ₚ stored e;
  st_decided : exists l, _decided e' = _decided e ++ l;
  st_from : forall k c', _conns e' !! k = Some c' -> exists c, _conns e !! k = Some c /\ from c c';
  st_caps : _max_flows e' = _max_flows e /\ _max_blocked e' = _max_blocked e;
  st_feeding : _feeding e' = _feeding e /\ _current_key e' = _current_key e;
  st_time : _lastSweep e' = _lastSweep e /\ _dropped_at_cap e' = _dropped_at_cap e
}.

(** [m] run on [e] returns, keeps the invariant and is an internal step. *)
Definition runs (m : outcome Ext) e : Prop := exists e', m = Ok e' /\ Inv e' /\ Step e e'.

Lemma from_refl c : from c c.
Proof. split; [done|]. by left. Qed.

Lemma from_trans c1 c2 c3 : from c1 c2 -> from c2 c3 -> from c1 c3.
Proof.
  intros [L1 H1] [L2 H2]. split; [congruence|].
  destruct H1 as [[S1 E1]|(S1 & S1' & E1)], H2 as [[S2 E2]|(S2 & S2' & E2)].
  - left. split; congruence.
  - right. split_and!; congruence.
  - right. split_and!; congruence.
  - congruence.
Qed.

#[export] Instance Step_preorder : PreOrder Step.
Proof.
  split.
  - intros e. split; try done; [by exists []; rewrite app_nil_r|eauto using from_refl].
  - intros e1 e2 e3 [P1 [l1 D1] F1 C1 G1 T1] [P2 [l2 D2] F2 C2 G2 T2]. split.
    + by rewrite P2.
    + exists (l1 ++ l2). by rewrite D2, D1, app_assoc.
    + intros k c3 H3. destruct (F2 _ _ H3) as (c2 & H2 & ?).
      destruct (F1 _ _ H2) as (c1 & H1 & ?). eauto using from_trans.
    + intuition congruence.
    + intuition congruence.
    + intuition congruence.
Qed.

Lemma runs_ok e e' : Inv e' -> Step e e' -> runs (Ok e') e.
Proof. intros. by exists e'. Qed.

Lemma runs_bind (m : outcome Ext) (k : Ext -> outcome Ext) e :
  runs m e -> (forall e', Inv e' -> Step e e' -> runs (k e') e') -> runs (m ≫= k) e.
Proof.
  intros (e1 & -> & I1 & S1) Hk. cbn [mbind outcome_bind]. destruct (Hk e1 I1 S1) as (e2 & -> & I2 & S2).
  exists e2. split_and!; [done|done|]. by etrans.
Qed.

Lemma runs_from m e e' : Step e e' -> runs m e' -> runs m e.
Proof. intros S (e'' & -> & I & S'). exists e''. split_and!; [done|done|]. by etrans. Qed.

(** Members neither the invariant nor a step looks at. *)
Definition same_core e e' : Prop :=
  _decided e' = _decided e /\ _conns e' = _conns e /\ _block_ring e' = _block_ring e /\
  _block_next e' = _block_next e /\ _max_flows e' = _max_flows e /\
  _max_blocked e' = _max_blocked e /\ _feeding e' = _feeding e /\
  _current_key e' = _current_key e /\ _lastSweep e' = _lastSweep e /\
  _dropped_at_cap e' = _dropped_at_cap e.

Lemma same_core_inv x e e' : same_core e e' -> Inv_but x e -> Inv_but x e'.
Proof.
  intros (E1 & E2 & E3 & E4 & E5 & E6 & _) [? ? ? ? ? ?].
  split; rewrite ?E2, ?E3, ?E4, ?E5, ?E6; done.
Qed.

Lemma same_core_step e e' : same_core e e' -> Step e e'.
Proof.
  intros (E1 & E2 & E3 & E4 & E5 & E6 & E7 & E8 & E9 & E10). split; try done.
  - unfold stored. by rewrite E1, E2.
  - exists []. by rewrite E1, app_nil_r.
  - rewrite E2. eauto using from_refl.
Qed.

(** *** Updates of the flow table *)

Lemma set_conns_step e m : held_in m ≡ₚ held_in (_conns e) ->
  (forall k c', m !! k = Some c' -> exists c, _conns e !! k = Some c /\ from c c') ->
  Step e (set_conns e m).
Proof.
  intros Hp Hf. split; try done.
  - unfold stored. simpl. by rewrite Hp.
  - exists []. by rewrite app_nil_r.
Qed.

(** Replace the members of an entry a step may change. *)
Lemma update_step e k c c' : _conns e !! k = Some c -> held c' = held c -> state c' = state c ->
  last c' = last c -> Step e (set_conns e (<[k := c']> (_conns e))).
Proof.
  intros Hk Hh Hs Hl. apply set_conns_step.
  - by rewrite held_in_update, Hh, <- held_in_delete.
  - intros j cj. rewrite lookup_insert_Some. intros [[<- <-]|[_ Hj]].
    + exists c. split; [done|]. split; [done|]. by left.
    + eauto using from_refl.
Qed.

Lemma delete_blocked_step e k c : _conns e !! k = Some c -> held c = [] ->
  Step e (set_conns e (delete k (_conns e))).
Proof.
  intros Hk Hh. apply set_conns_step.
  - by rewrite (held_in_delete (_conns e) k c), Hh.
  - intros j cj [_ Hj]%lookup_delete_Some. eauto using from_refl.
Qed.

Lemma delete_inv x e k : Inv_but x e -> Inv_but x (set_conns e (delete k (_conns e))).
Proof.
  intros [? ? ? Hs Hc Hb]. split; try done; simpl.
  - etrans; [|exact Hs]. apply map_subseteq_size. apply delete_subseteq.
  - by apply map_Forall_delete.
  - intros j cj [_ Hj]%lookup_delete_Some. by apply Hb.
Qed.

Lemma insert_inv x e k c c' : Inv_but x e -> _conns e !! k = Some c -> Conn_ok c' ->
  (state c' = Block -> state c = Block \/ k = x) ->
  Inv_but x (set_conns e (<[k := c']> (_conns e))).
Proof.
  intros [? ? ? Hs Hc Hb] Hk Hok Hst. split; try done; simpl.
  - by rewrite map_size_insert_Some by done.
  - by apply map_Forall_insert_2.
  - intros j cj. rewrite lookup_insert_Some. intros [[<- <-]|[_ Hj]]; [|by apply Hb].
    intros. destruct Hst; [done| |done]. by apply (Hb k c).
Qed.

(** *** The ring of blocked flows *)

Lemma elem_of_overwrite (l : list Z) i v x k : l !! i = Some v -> k ∈ l -> k <> v ->
  k ∈ <[i := x]> l.
Proof.
  intros Hi [j Hj]%list_elem_of_lookup Hne. apply list_elem_of_lookup. exists j.
  rewrite list_lookup_insert_ne; [done|]. intros ->. congruence.
Qed.

Lemma ring_head_ok x e : Inv_but x e ->
  exists v, ring_head e = Ok v /\ _block_ring e !! _block_next e = Some v.
Proof.
  intros [Hr Hn _ _ _ _]. unfold ring_head.
  destruct (lookup_lt_is_Some_2 (_block_ring e) (_block_next e)) as [v Hv]; [lia|].
  exists v. by rewrite Hv.
Qed.

(** Overwriting the head keeps the invariant when the flow it named is not a
    blocked one (any more). *)
Lemma ring_put_inv x e v key : Inv_but x e -> _block_ring e !! _block_next e = Some v ->
  (forall c, _conns e !! v = Some c -> state c = Block -> v = 0 \/ v = key) ->
  Inv_but (if base.decide (key = x) then 0 else x) (ring_put e key).
Proof.
  intros [Hr Hn Hc Hs Hok Hb] Hv Hvic. split; try done; simpl.
  - by rewrite length_insert.
  - apply Nat.mod_upper_bound. lia.
  - intros k c Hk Hst H0 Hx. destruct (base.decide (k = key)) as [->|Hne].
    + apply list_elem_of_insert. lia.
    + apply (elem_of_overwrite _ _ v); [done| |].
      * apply (Hb k c); try done. intros ->. by rewrite decide_False in Hx by congruence.
      * intros ->. destruct (Hvic c Hk Hst); done.
Qed.

Lemma ring_put_step e key : Step e (ring_put e key).
Proof. split; try done; [by exists []; rewrite app_nil_r|eauto using from_refl]. Qed.

Lemma publish_core e : same_core e (publish e).
Proof. by split_and!. Qed.

Lemma erase_blocked_spec x e v b e' : Inv_but x e -> erase_blocked e v = (b, e') ->
  Inv_but x e' /\ Step e e' /\ _block_ring e' = _block_ring e /\
  _block_next e' = _block_next e /\
  (forall c, _conns e' !! v = Some c -> state c = Wait) /\
  _conns e' = (if b then delete v (_conns e) else _conns e) /\
  _to_close e' = _to_close e /\ _reassembly e' = _reassembly e.
Proof.
  intros Hi. unfold erase_blocked. destruct (_conns e !! v) as [c|] eqn:Hv.
  - destruct (decide_rel (=) (state c) Block) as [Hs|Hs]; intros [= <- <-].
    + pose proof (inv_conn _ _ Hi v c Hv) as Hok. unfold Conn_ok in Hok. rewrite Hs in Hok.
      split_and!; try done.
      * eapply same_core_inv; [apply publish_core|]. by apply delete_inv.
      * etrans; [apply (delete_blocked_step e v c); [done|apply Hok]|]. apply same_core_step, publish_core.
      * simpl. intros c'. by rewrite lookup_delete_eq.
    + split_and!; try done. rewrite Hv. intros c' [= <-]. by destruct (state c).
  - intros [= <- <-]. split_and!; try done. by rewrite Hv.
Qed.

Lemma remember_blocked_spec e key c : Inv_but key e -> _conns e !! key = Some c ->
  exists e', remember_blocked e key = Ok e' /\ Inv e' /\ Step e e' /\
    _conns e' !! key = Some c /\ _conns e' ⊆ _conns e /\
    (forall k c1, _conns e !! k = Some c1 -> state c1 = Wait -> _conns e' !! k = Some c1) /\
    (_to_close e', _reassembly e', _decided e', _policy e', _hs_scratch e') =
    (_to_close e, _reassembly e, _decided e, _policy e, _hs_scratch e).
Proof.
  intros Hi Hc. unfold remember_blocked.
  destruct (ring_head_ok _ _ Hi) as (v & -> & Hv). cbn [mbind outcome_bind].
  assert (forall e1, Inv_but key e1 -> _block_ring e1 !! _block_next e1 = Some v ->
    (forall c, _conns e1 !! v = Some c -> state c = Block -> v = 0 \/ v = key) ->
    Inv (ring_put e1 key)) as Hput.
  { intros e1 I1 Hv1 Hvic. pose proof (ring_put_inv _ _ _ key I1 Hv1 Hvic) as Hput.
    by rewrite decide_True in Hput. }
  destruct (Z.eqb_spec v 0) as [->|H0]; [|destruct (Z.eqb_spec v key) as [->|Hk]]; simpl.
  1-2: eexists; split_and!; [done|apply Hput; auto|apply ring_put_step|done..].
  destruct (erase_blocked e v) as [b e1] eqn:E.
  destruct (erase_blocked_spec _ _ _ _ _ Hi E) as (I1 & S1 & R1 & N1 & V1 & C1 & _).
  simpl. eexists; split_and!; [done| | | | | |].
  - apply Hput; [done|by rewrite R1, N1|]. intros c1 Hc1 Hs. by rewrite (V1 c1) in Hs.
  - etrans; [exact S1|apply ring_put_step].
  - simpl. rewrite C1. destruct b; [|done]. by rewrite lookup_delete_ne.
  - simpl. rewrite C1. destruct b; [apply delete_subseteq|done].
  - simpl. intros k c1 Hk1 Hs. rewrite C1. destruct b; [|done].
    unfold erase_blocked in E. destruct (_conns e !! v) as [cv|] eqn:Ev; [|done].
    destruct (decide_rel (=) (state cv) Block); [|done].
    rewrite lookup_delete_ne; [done|]. intros ->. congruence.
  - unfold erase_blocked in E. destruct (_conns e !! v) as [cv|]; [|by injection E as <- <-].
    destruct (decide_rel _ _ _); by injection E as <- <-.
Qed.

Lemma ring_clear_inv e v : Inv e -> _block_ring e !! _block_next e = Some v ->
  Inv_but v (ring_put e 0).
Proof.
  intros [Hr Hn Hc Hs Hok Hb] Hv. split; try done; simpl.
  - by rewrite length_insert.
  - apply Nat.mod_upper_bound. lia.
  - intros k c Hk Hst H0 Hx. apply (elem_of_overwrite _ _ v); [done| |done]. by apply (Hb k c).
Qed.

Lemma Inv_but_absent v e : Inv_but v e ->
  (forall c, _conns e !! v = Some c -> state c = Wait) -> Inv e.
Proof.
  intros [Hr Hn Hc Hs Hok Hb] Hv. split; try done. intros k c Hk Hst H0 _.
  apply (Hb k c); try done. intros ->. by rewrite (Hv c) in Hst.
Qed.

(** Only the [n] slots from the head on may still name a flow. *)
Definition cleared (n : nat) e : Prop :=
  forall i v, _block_ring e !! i = Some v -> v <> 0 ->
    exists j, (j < n)%nat /\ i = ((_block_next e + j) mod _max_blocked e)%nat.

Lemma cleared_full e : Inv e -> cleared (_max_blocked e) e.
Proof.
  intros [Hr Hn _ _ _ _] i v Hi _. apply lookup_lt_Some in Hi.
  destruct (base.decide (_block_next e <= i)%nat).
  - exists (i - _block_next e)%nat. split; [lia|].
    replace (_block_next e + (i - _block_next e))%nat with i by lia.
    symmetry. apply Nat.mod_small. lia.
  - exists (i + _max_blocked e - _block_next e)%nat. split; [lia|].
    replace (_block_next e + (i + _max_blocked e - _block_next e))%nat
      with (i + 1 * _max_blocked e)%nat by lia.
    rewrite Nat.Div0.mod_add. symmetry. apply Nat.mod_small. lia.
Qed.

Lemma cleared_put n e : Inv e -> cleared (S n) e -> cleared n (ring_put e 0).
Proof.
  intros [Hr Hn _ _ _ _] Hc i v Hi Hv. simpl in *.
  destruct (base.decide (i = _block_next e)) as [->|Hne].
  { rewrite list_lookup_insert_eq in Hi by lia. congruence. }
  rewrite list_lookup_insert_ne in Hi by done.
  destruct (Hc i v Hi Hv) as ([|j] & Hj & ->).
  { rewrite Nat.add_0_r, Nat.mod_small in Hne; done. }
  exists j. split; [lia|]. rewrite Nat.Div0.add_mod_idemp_l. f_equal. lia.
Qed.

Lemma cleared_none e k c : Inv e -> cleared 0 e -> _conns e !! k = Some c -> state c = Block ->
  k = 0.
Proof.
  intros Hi Hc Hk Hs. destruct (base.decide (k = 0)) as [|Hk0]; [done|].
  pose proof (inv_blocked _ _ Hi k c Hk Hs Hk0 Hk0) as [i Hin]%list_elem_of_lookup.
  destruct (Hc i k Hin Hk0) as (j & Hj & _). lia.
Qed.

Lemma evict_loop_spec n e : Inv e -> cleared n e ->
  exists b e', evict_loop n e = Ok (b, e') /\ Inv e' /\ Step e e' /\
    (if b then exists k c, _conns e !! k = Some c /\ state c = Block /\
                 _conns e' = delete k (_conns e)
     else _conns e' = _conns e /\
          forall k c, _conns e !! k = Some c -> state c = Block -> k = 0) /\
    _to_close e' = _to_close e /\ _reassembly e' = _reassembly e.
Proof.
  revert e. induction n as [|n IH]; intros e Hi Hcl; simpl.
  { exists false, e. split_and!; try done. intros k c. by apply cleared_none. }
  destruct (ring_head_ok _ _ Hi) as (v & -> & Hv). cbn [mbind outcome_bind].
  pose proof (ring_clear_inv _ _ Hi Hv) as I1. pose proof (cleared_put _ _ Hi Hcl) as C1.
  pose proof (ring_put_step e 0) as S1.
  destruct (Z.eqb_spec v 0) as [->|H0].
  { destruct (IH _ I1 C1) as (b & e' & -> & I2 & S2 & HC & HT1 & HT2).
    exists b, e'. split_and!; try done. by etrans. }
  destruct (erase_blocked (ring_put e 0) v) as [b e1] eqn:E. 
  pose proof (erase_blocked_spec _ _ _ _ _ I1 E) as (I2 & S2 & R2 & N2 & V2 & K2 & T2 & RE2).
  pose proof (Inv_but_absent _ _ I2 V2) as I3. simpl in *. destruct b.
  - exists true, e1. split_and!; try done; [by etrans|].
    unfold erase_blocked in E. simpl in E. destruct (_conns e !! v) as [c|] eqn:Hc; [|done].
    destruct (decide_rel _ _ _) as [Hs|]; [|done]. by exists v, c.
  - assert (cleared n e1) as C2.
    { unfold cleared in *. rewrite R2, N2. destruct S2 as [_ _ _ [_ ->] _ _]. done. }
    destruct (IH _ I3 C2) as (b & e' & -> & I4 & S4 & HC & HT1 & HT2). rewrite K2 in HC.
    exists b, e'. rewrite T2 in HT1. rewrite RE2 in HT2. split_and!; try done.
    etrans; [exact S1|]. by etrans.
Qed.

Lemma decide_step_inv e p v : Inv e -> Inv (decide e p v).
Proof. by intros [? ? ? ? ? ?]. Qed.

Lemma decide_all_decided e l v :
  fold_left (λ e p, decide e p v) l e = set_decided e (_decided e ++ map (λ p, MkDecided p v) l).
Proof.
  revert e. induction l as [|p l IH]; intros e; simpl.
  - rewrite app_nil_r. by destruct e.
  - rewrite IH. unfold decide. simpl. by rewrite <- app_assoc.
Qed.

(** *** Resolving a flow *)

(** The packets of a resolved flow move from its entry to the decided buffer. *)
Lemma resolve_step e m e1 key c v : _conns e !! key = Some c -> state c = Wait ->
  (m = delete key (_conns e) \/
   exists c', m = <[key := c']> (_conns e) /\ state c' = Block /\ held c' = [] /\ last c' = last c) ->
  forall d, Step (set_conns (set_policy e d) m) e1 ->
  Step e (set_decided e1 (_decided e1 ++ map (λ p, MkDecided p v) (held c))).
Proof.
  intros Hc Hs Hm d [P1 [l D1] F1 C1 G1 T1]. split; simpl in *; try done.
  - assert (held_in m ≡ₚ held_in (delete key (_conns e))) as Hm'.
    { destruct Hm as [->|(c' & -> & _ & Hh & _)]; [done|]. by rewrite held_in_update, Hh. }
    unfold stored in *. simpl in *.
    rewrite map_app, map_map. simpl. rewrite map_id.
    rewrite (Permutation_app_comm (map pkt (_decided e1))), <- app_assoc, P1, Hm'.
    rewrite (held_in_delete (_conns e) key c) by done. solve_Permutation.
  - exists (l ++ map (λ p, MkDecided p v) (held c)). by rewrite D1, <- app_assoc.
  - intros k c2 Hk. destruct (F1 k c2 Hk) as (c1 & Hk1 & Hf).
    destruct Hm as [->|(c' & -> & Hs' & Hh & Hl)].
    + apply lookup_delete_Some in Hk1 as [_ Hk1]. eauto.
    + apply lookup_insert_Some in Hk1 as [[<- <-]|[_ Hk1]]; [|by eauto].
      exists c. split; [done|]. eapply from_trans; [|exact Hf]. split; [done|]. by right.
Qed.

Definition closing (c : Conn) : list Z :=
  if negb (pcpp_key c =? 0) && negb (pcpp_closed c) then [pcpp_key c] else [].

(** Everything a resolution does. *)
Record Resolved e (key : Z) (c : Conn) (v : Verdict) (d : D) e' : Prop := {
  rs_inv : Inv e';
  rs_step : Step e e';
  rs_decided : _decided e' = _decided e ++ map (λ p, MkDecided p v) (held c);
  rs_policy : _policy e' = d;
  rs_entry : _conns e' !! key =
    match v with
    | BLOCK => Some (MkConn Block [] [] (pcpp_key c) (pcpp_closed c) (last c))
    | ALLOW => None
    end;
  rs_waiting : forall k c1, k <> key -> _conns e !! k = Some c1 -> state c1 = Wait ->
    _conns e' !! k = Some c1;
  rs_others : forall k c1, k <> key -> _conns e' !! k = Some c1 -> _conns e !! k = Some c1;
  rs_closes : _to_close e' = _to_close e ++ closing c;
  rs_pcpp : _reassembly e' = _reassembly e
}.

(** The close that [resolve] queues. *)
Definition queue_close e (c : Conn) : Ext :=
  if negb (pcpp_key c =? 0) && negb (pcpp_closed c)
  then set_to_close e (_to_close e ++ [pcpp_key c]) else e.

Lemma queue_close_spec e c : let e' := queue_close e c in
  same_core e e' /\ _to_close e' = _to_close e ++ closing c /\ _reassembly e' = _reassembly e /\
  _policy e' = _policy e.
Proof. unfold queue_close, closing. destruct (_ && _); [by split_and!|]. rewrite app_nil_r. by split_and!. Qed.

(** The end of [resolve], from [e1], in which the flow's entry has been replaced
    and a blocked one registered. *)
Lemma resolve_end e key c v d m e1 : _conns e !! key = Some c -> state c = Wait -> Inv e1 ->
  m = delete key (_conns e) \/
  (exists c', m = <[key := c']> (_conns e) /\ state c' = Block /\ held c' = [] /\ last c' = last c) ->
  Step (set_conns (set_policy e d) m) e1 ->
  (_decided e1, _policy e1, _to_close e1, _reassembly e1) = (_decided e, d, _to_close e, _reassembly e) ->
  _conns e1 !! key =
    match v with
    | BLOCK => Some (MkConn Block [] [] (pcpp_key c) (pcpp_closed c) (last c))
    | ALLOW => None
    end ->
  (forall k c1, k <> key -> m !! k = Some c1 -> state c1 = Wait -> _conns e1 !! k = Some c1) ->
  _conns e1 ⊆ m ->
  exists e', Ok (fold_left (λ e p, decide e p v) (held c) (queue_close e1 c)) = Ok e' /\
    Resolved e key c v d e'.
Proof.
  intros Hc Hs I1 Hm S1 [= D1 P1 T1 R1] K1 W1 M1.
  destruct (queue_close_spec e1 c) as (Sc & Tc & Rc & Pc). set (e2 := queue_close e1 c) in *.
  rewrite decide_all_decided. eexists; split; [done|].
  pose proof (same_core_inv 0 _ _ Sc I1) as I2. pose proof (same_core_step _ _ Sc) as S2.
  destruct Sc as (D2 & C2 & _).
  assert (forall k, k <> key -> m !! k = _conns e !! k) as Hk_m.
  { intros k Hk. destruct Hm as [->|(c' & -> & _)]; [by apply lookup_delete_ne|by apply lookup_insert_ne]. }
  split; simpl; rewrite ?C2, ?D2, ?D1, ?Pc, ?Tc, ?Rc, ?T1; try done.
  - by destruct I2.
  - rewrite <- D1, <- D2. eapply (resolve_step e m e2 key c v); [done|done|done|by etrans].
  - intros k c1 Hk Hk1. apply W1; [done|]. by rewrite Hk_m.
  - intros k c1 Hk Hk1. rewrite <- Hk_m by done. by eapply lookup_weaken.
Qed.

Lemma resolve_wait e key c hostname v d : Inv e -> _conns e !! key = Some c ->
  state c = Wait -> _decide hostname (_policy e) = (v, d) ->
  exists e', resolve e key hostname = Ok e' /\ Resolved e key c v d e'.
Proof.
  intros Hi Hc Hs Hd. unfold resolve. rewrite Hc, Hs, Hd. destruct v.
  - cbn [mbind outcome_bind]. set (e1 := set_conns (set_policy e d) _).
    apply (resolve_end e key c ALLOW d (delete key (_conns e)) e1); try done.
    + apply (delete_inv 0 (set_policy e d)); by destruct Hi.
    + by left.
    + apply lookup_delete_eq.
  - set (cb := MkConn Block [] [] (pcpp_key c) (pcpp_closed c) (last c)).
    set (e0 := set_conns (set_policy e d) (<[key := cb]> (_conns (set_policy e d)))).
    assert (Inv_but key e0) as I0.
    { apply (insert_inv key (set_policy e d) key c); [|done|by split|by right].
      destruct Hi as [? ? ? ? ? Hb]. split; try done. simpl. eauto. }
    destruct (remember_blocked_spec e0 key cb I0) as (e1 & -> & I1 & S1 & K1 & M1 & W1 & [= T1 R1 D1 P1 _]).
    { simpl. by rewrite lookup_insert_eq. }
    apply (resolve_end e key c BLOCK d (<[key := cb]> (_conns e)) e1); try done.
    + right. by exists cb.
    + by rewrite D1, P1, T1, R1.
    + intros k c1 _. apply W1.
Qed.

Lemma resolve_idle e key hostname : (forall c, _conns e !! key = Some c -> state c = Block) ->
  resolve e key hostname = Ok e.
Proof.
  intros Hb. unfold resolve. destruct (_conns e !! key) as [c|]; [|done]. by rewrite (Hb c).
Qed.

Lemma resolve_runs e key hostname : Inv e -> runs (resolve e key hostname) e.
Proof.
  intros Hi. destruct (_conns e !! key) as [c|] eqn:Hc.
  - destruct (state c) eqn:Hs.
    + destruct (_decide hostname (_policy e)) as [v d] eqn:Hd.
      destruct (resolve_wait e key c hostname v d Hi Hc Hs Hd) as (e' & -> & []). by apply runs_ok.
    + rewrite resolve_idle by (rewrite Hc; congruence). by apply runs_ok.
  - rewrite resolve_idle by (by rewrite Hc). by apply runs_ok.
Qed.

(** *** Callbacks *)

(** [resolve] looks at none of the members of its entry that reassembly
    changes. *)
Lemma resolve_insert e k c1 c2 h : state c1 = Wait -> state c2 = Wait -> held c1 = held c2 ->
  pcpp_key c1 = pcpp_key c2 -> pcpp_closed c1 = pcpp_closed c2 -> last c1 = last c2 ->
  resolve (set_conns e (<[k := c1]> (_conns e))) k h =
  resolve (set_conns e (<[k := c2]> (_conns e))) k h.
Proof.
  intros S1 S2 Hh Hk Hc Hl. unfold resolve. simpl. rewrite !lookup_insert_eq, S1, S2, Hh, Hk, Hc, Hl.
  destruct (_decide h (_policy e)) as [[] d]; simpl.
  - by rewrite !delete_insert_eq.
  - by rewrite !insert_insert_eq.
Qed.

Lemma update_runs e k c c' : Inv e -> _conns e !! k = Some c -> Conn_ok c' ->
  held c' = held c -> state c' = state c -> last c' = last c ->
  Inv (set_conns e (<[k := c']> (_conns e))) /\ Step e (set_conns e (<[k := c']> (_conns e))).
Proof.
  intros Hi Hc Hok Hh Hs Hl. split.
  - apply (insert_inv 0 e k c c'); try done. left. congruence.
  - by eapply update_step.
Qed.

Lemma onConnectionStart_runs e k : Inv e -> runs (onConnectionStart e k) e.
Proof.
  intros Hi. unfold onConnectionStart. destruct (negb _); [by apply runs_ok|].
  destruct (_conns e !! _current_key e) as [c|] eqn:Hc; [|by apply runs_ok].
  pose proof (inv_conn _ _ Hi _ _ Hc) as Hok.
  apply runs_ok; apply (update_runs e (_current_key e) c); try done.
Qed.

Lemma onConnectionEnd_runs e : Inv e -> runs (onConnectionEnd e) e.
Proof.
  intros Hi. unfold onConnectionEnd. destruct (negb _); [by apply runs_ok|].
  destruct (_conns e !! _current_key e) as [c|] eqn:Hc; [|by apply runs_ok].
  pose proof (inv_conn _ _ Hi _ _ Hc) as Hok.
  destruct (update_runs e (_current_key e) c (set_pcpp_closed c true)) as [I1 S1]; try done.
  eapply runs_from; [exact S1|]. by apply resolve_runs.
Qed.

Lemma onMessageReady_runs e side data k : Inv e -> runs (onMessageReady e side data k) e.
Proof.
  intros Hi. unfold onMessageReady. destruct (negb _); [by apply runs_ok|].
  destruct (negb _); [by apply runs_ok|].
  destruct (_conns e !! _current_key e) as [c|] eqn:Hc; [|by apply runs_ok].
  destruct (state c) eqn:Hs; [|by apply runs_ok].
  pose proof (inv_conn _ _ Hi _ _ Hc) as Hok. simpl.
  set (s := stream c ++ data). set (c1 := set_stream (set_pcpp_key c k) s).
  set (key := _current_key e) in *.
  pose proof (u32_range (zlen s)). pose proof (zlen_nonneg s).
  destruct (extractHostname_in s (u32 (zlen s)) (_hs_scratch e)) as (r & sc & -> & Hr).
  { split; [lia|]. apply Z.mod_le; lia. }
  { lia. }
  cbn [mbind outcome_bind]. simpl fst. simpl snd.
  assert (forall h, runs (resolve (set_scratch (set_conns e (<[key := c1]> (_conns e))) sc) key h) e)
    as Hres.
  { intros h. set (e0 := set_scratch e sc).
    change (set_scratch _ sc) with (set_conns e0 (<[key := c1]> (_conns e0))).
    rewrite (resolve_insert e0 key c1 (set_pcpp_key c k)) by done.
    assert (same_core e e0) as Sc by (by split_and!).
    destruct (update_runs e0 key c (set_pcpp_key c k)) as [I1 S1]; try done.
    { by eapply same_core_inv. }
    eapply runs_from; [by apply same_core_step|]. eapply runs_from; [exact S1|].
    by apply resolve_runs. }
  destruct r as [host| |]; [|apply Hres|].
  - destruct Hr. rewrite rd_range_ok by lia. apply Hres.
  - destruct (Z.ltb_spec kMaxStreamBytes (zlen s)); [apply Hres|].
    assert (Conn_ok c1) as Hok1.
    { unfold Conn_ok in *. simpl. rewrite Hs in *. destruct Hok. by split. }
    destruct (update_runs e key c c1) as [I1 S1]; try done.
    assert (same_core (set_conns e (<[key := c1]> (_conns e)))
              (set_scratch (set_conns e (<[key := c1]> (_conns e))) sc)) as Sc by (by split_and!).
    apply runs_ok; [by eapply (same_core_inv 0)|]. etrans; [exact S1|]. by apply same_core_step.
Qed.

Lemma callbacks_runs e cbs : Inv e -> runs (callbacks e cbs) e.
Proof.
  revert e. induction cbs as [|cb cbs IH]; intros e Hi; simpl; [by apply runs_ok|].
  apply runs_bind; [|by auto]. destruct cb; simpl;
    eauto using onConnectionStart_runs, onMessageReady_runs, onConnectionEnd_runs.
Qed.

Lemma run_pcpp_runs e rc : Inv e -> runs (run_pcpp e rc) e.
Proof.
  intros Hi. assert (same_core e (set_reassembly e rc.1)) as Sc by (by split_and!).
  eapply runs_from; [by apply same_core_step|]. apply callbacks_runs. by eapply same_core_inv.
Qed.

Lemma close_all_runs e l : Inv e -> runs (close_all e l) e.
Proof.
  revert e. induction l as [|t l IH]; intros e Hi; simpl; [by apply runs_ok|].
  apply runs_bind; [by apply run_pcpp_runs|]. auto.
Qed.

Lemma drain_closes_runs e : Inv e -> runs (drain_closes e) e.
Proof.
  intros Hi. unfold drain_closes. apply runs_bind; [by apply close_all_runs|].
  intros e1 I1 _. assert (same_core e1 (set_to_close e1 [])) as Sc by (by split_and!).
  apply runs_ok; [by eapply (same_core_inv 0)|by apply same_core_step].
Qed.

(** Outside [reassemblePacket] every callback is ignored. *)
Lemma callbacks_idle e cbs : _feeding e = false -> callbacks e cbs = Ok e.
Proof.
  intros Hf. induction cbs as [|cb cbs IH]; [done|]. simpl.
  assert (callback e cb = Ok e) as ->; [|done].
  destruct cb; simpl; unfold onConnectionStart, onMessageReady, onConnectionEnd; by rewrite Hf.
Qed.

Lemma run_pcpp_idle e rc : _feeding e = false -> run_pcpp e rc = Ok (set_reassembly e rc.1).
Proof. intros. unfold run_pcpp. by rewrite callbacks_idle. Qed.

Lemma close_all_idle e l : _feeding e = false ->
  exists r, close_all e l = Ok (set_reassembly e r).
Proof.
  revert e. induction l as [|t l IH]; intros e Hf; simpl.
  { exists (_reassembly e). by destruct e. }
  rewrite run_pcpp_idle by done. cbn [mbind outcome_bind].
  destruct (IH (set_reassembly e (closeConnection (_reassembly e) t).1)) as (r & ->); [done|].
  by exists r.
Qed.

Lemma drain_closes_idle e : _feeding e = false ->
  exists r, drain_closes e = Ok (set_to_close (set_reassembly e r) []).
Proof.
  intros Hf. unfold drain_closes. destruct (close_all_idle e (_to_close e) Hf) as (r & ->).
  by exists r.
Qed.

(** *** The sweep *)

Lemma expire_spec e key : Inv e -> exists e', expire e key = Ok e' /\ Inv e' /\ Step e e' /\
  (forall k c, k <> key -> _conns e !! k = Some c -> state c = Wait -> _conns e' !! k = Some c) /\
  (forall k c, k <> key -> _conns e' !! k = Some c -> _conns e !! k = Some c) /\
  (forall c', _conns e' !! key = Some c' -> state c' = Block /\
     exists c, _conns e !! key = Some c /\ state c = Wait).
Proof.
  intros Hi. unfold expire. destruct (_conns e !! key) as [c|] eqn:Hc.
  2: { exists e. split_and!; try done. intros c. by rewrite Hc. }
  destruct (state c) eqn:Hs.
  - destruct (_decide None (_policy e)) as [v d] eqn:Hd.
    destruct (resolve_wait e key c None v d Hi Hc Hs Hd) as (e' & -> & [I1 S1 _ _ E1 W1 O1 _ _]).
    exists e'. split_and!; try done; try naive_solver.
    intros c'. rewrite E1. destruct v; [done|]. intros [= <-]. split; [done|]. by exists c.
  - pose proof (inv_conn _ _ Hi _ _ Hc) as Hok. unfold Conn_ok in Hok. rewrite Hs in Hok.
    eexists. split_and!; [done|by apply delete_inv|apply (delete_blocked_step e key c); [done|apply Hok]|..];
      simpl.
    + intros k c1 Hk. by rewrite lookup_delete_ne.
    + intros k c1 Hk. by rewrite lookup_delete_ne.
    + intros c'. by rewrite lookup_delete_eq.
Qed.

(** What a sweep over [keys] leaves in the table. *)
Record Swept e (keys : list Z) e' : Prop := {
  sw_kept : forall k c, k ∉ keys -> _conns e !! k = Some c -> state c = Wait ->
    _conns e' !! k = Some c;
  sw_wait : forall k c, _conns e' !! k = Some c -> state c = Wait ->
    (k ∉ keys) /\ _conns e !! k = Some c;
  sw_block : forall k c, _conns e' !! k = Some c -> state c = Block ->
    ((k ∉ keys) /\ _conns e !! k = Some c) \/ (exists c0, _conns e !! k = Some c0 /\ state c0 = Wait)
}.

Lemma expire_all_spec e keys : Inv e -> exists e', expire_all e keys = Ok e' /\
  Inv e' /\ Step e e' /\ Swept e keys e'.
Proof.
  revert e. induction keys as [|key keys IH]; intros e Hi.
  { exists e. split_and!; try done. split; intros; try done; [by split; [set_solver|]|].
    left. split; [set_solver|done]. }
  cbn [expire_all]. destruct (expire_spec e key Hi) as (e1 & -> & I1 & S1 & W1 & O1 & K1).
  cbn [mbind outcome_bind]. destruct (IH e1 I1) as (e2 & -> & I2 & S2 & [KP WT BL]).
  exists e2. split_and!; try done; [by etrans|]. split.
  - intros k c [Hk1 Hk2]%not_elem_of_cons Hc Hs. apply KP; [done| |done]. by apply W1.
  - intros k c Hc Hs. destruct (WT k c Hc Hs) as [Hk Hc1].
    assert (k <> key) as Hne. { intros ->. destruct (K1 c Hc1). congruence. }
    split; [by apply not_elem_of_cons|]. by apply O1.
  - intros k c Hc Hs. destruct (base.decide (k = key)) as [->|Hne].
    + right. destruct (BL key c Hc Hs) as [[_ Hc1]|(c0 & Hc1 & _)]; destruct (K1 _ Hc1); done.
    + destruct (BL k c Hc Hs) as [[Hk Hc1]|(c0 & Hc1 & Hs0)].
      * left. split; [by apply not_elem_of_cons|]. by apply O1.
      * right. exists c0. split; [by apply O1|done].
Qed.

Definition expired_keys e (now : Z) : list Z :=
  map fst (List.filter (λ kc, is_expired now kc.2) (iter (_conns e))).

Lemma elem_of_filtered_keys m (f : Conn -> bool) k :
  k ∈ map fst (List.filter (λ kc, f kc.2) (iter m)) <-> exists c, m !! k = Some c /\ f c = true.
Proof.
  rewrite list_elem_of_In, in_map_iff. split.
  - intros ([k' c] & <- & [Hin Hf]%filter_In). exists c. split; [|done].
    apply elem_of_map_to_list. rewrite <- iter_perm. by apply list_elem_of_In.
  - intros (c & Hm & Hf). exists (k, c). split; [done|]. apply filter_In. split; [|done].
    apply list_elem_of_In. rewrite iter_perm. by apply elem_of_map_to_list.
Qed.

Lemma sweep_spec e now : Inv e -> _feeding e = false ->
  exists e', sweep e now = Ok e' /\ Inv e' /\ Step e e' /\ _to_close e' = [] /\
    Swept e (expired_keys e now) e' /\ _flows e' = size (_conns e').
Proof.
  intros Hi Hf. unfold sweep. fold (expired_keys e now).
  set (e0 := set_blocked e _).
  assert (same_core e e0) as Sc by (by split_and!).
  destruct (expire_all_spec e0 (expired_keys e now)) as (e1 & -> & I1 & S1 & W1).
  { by eapply same_core_inv. }
  cbn [mbind outcome_bind]. assert (_feeding e1 = false) as Hf1.
  { destruct S1 as [_ _ _ _ [-> _] _]. done. }
  rewrite run_pcpp_idle by done. cbn [mbind outcome_bind].
  match goal with |- context [drain_closes ?x] => destruct (drain_closes_idle x Hf1) as (r & ->) end.
  cbn [mbind outcome_bind]. eexists; split; [done|].
  match goal with |- Inv ?x /\ _ => assert (same_core e1 x) as Sc1 by (by split_and!) end.
  split_and!; try done.
  - by eapply same_core_inv.
  - etrans; [by apply same_core_step|]. etrans; [exact S1|]. by apply same_core_step.
  - destruct W1. by split.
Qed.

Lemma Swept_lastSweep e t keys e' : Swept (set_lastSweep e t) keys e' -> Swept e keys e'.
Proof. intros []. by split. Qed.

Lemma set_lastSweep_id e : set_lastSweep e (_lastSweep e) = e.
Proof. by destruct e. Qed.

Lemma set_lastSweep_inv e t : Inv e -> Inv (set_lastSweep e t).
Proof. by intros []. Qed.

(** Between two calls no callback is listened to.  (Closes may be pending: the
    path of [feed] that gives up on a flooded flow does not drain them.) *)
Definition quiet e : Prop := _feeding e = false.

Lemma tick_spec e now : Inv e -> quiet e ->
  exists e', tick e now = Ok e' /\ Inv e' /\ quiet e' /\
    Step (set_lastSweep e (_lastSweep e')) e' /\
    ((now - _lastSweep e < kSweepInterval /\ e' = e) \/
     (kSweepInterval <= now - _lastSweep e /\ _lastSweep e' = now /\
      Swept e (expired_keys e now) e' /\ _flows e' = size (_conns e'))).
Proof.
  intros Hi Hf. unfold tick. destruct (Z.ltb_spec (now - _lastSweep e) kSweepInterval).
  { exists e. rewrite set_lastSweep_id. split_and!; try done. left. by split. }
  destruct (sweep_spec (set_lastSweep e now) now) as (e' & -> & I1 & S1 & E1 & W1 & Z1).
  { by apply set_lastSweep_inv. } { done. }
  assert (_lastSweep e' = now) as Hl by (by destruct S1 as [_ _ _ _ _ [-> _]]).
  exists e'. rewrite Hl. split_and!; try done.
  - unfold quiet. by destruct S1 as [_ _ _ _ [-> _] _].
  - right. split_and!; [done|done| |done]. by apply Swept_lastSweep in W1.
Qed.

Lemma evict_runs e : Inv e -> exists b e', evict_oldest_blocked e = Ok (b, e') /\ Inv e' /\
  Step e e' /\
  (if b then exists k c, _conns e !! k = Some c /\ state c = Block /\
               _conns e' = delete k (_conns e)
   else _conns e' = _conns e /\
        forall k c, _conns e !! k = Some c -> state c = Block -> k = 0) /\
  _to_close e' = _to_close e /\ _reassembly e' = _reassembly e.
Proof. intros Hi. apply evict_loop_spec; [done|by apply cleared_full]. Qed.

(** Directly after a [tick] the sweep inside [make_room] never runs. *)
Lemma make_room_spec e now : Inv e -> quiet e -> now - _lastSweep e < kSweepInterval ->
  exists e', make_room e now = Ok e' /\ Inv e' /\ Step e e' /\ _to_close e' = _to_close e /\
    (forall k c, _conns e !! k = Some c -> state c = Wait -> _conns e' !! k = Some c) /\
    (_conns e' ⊆ _conns e) /\
    ((_max_flows e <= size (_conns e'))%nat ->
       _conns e' = _conns e /\ forall k c, _conns e !! k = Some c -> state c = Block -> k = 0).
Proof.
  intros Hi Hf Hnow. unfold make_room.
  destruct (Nat.leb_spec (_max_flows e) (size (_conns e))) as [Hge|Hlt].
  2: { exists e. split_and!; try done. lia. }
  rewrite (proj2 (Z.leb_gt kSweepInterval _)) by done. cbn [mbind outcome_bind].
  rewrite (proj2 (Nat.leb_le _ _) Hge).
  destruct (evict_runs e Hi) as (b & e' & -> & I1 & S1 & HC & HT & _). cbn [mbind outcome_bind].
  exists e'. simpl. split_and!; try done.
  - intros k c Hc Hs. destruct b; [|by rewrite (proj1 HC)].
    destruct HC as (k' & c' & Hc' & Hs' & ->). rewrite lookup_delete_ne; [done|congruence].
  - destruct b; [|by rewrite (proj1 HC)].
    destruct HC as (k' & c' & Hc' & Hs' & ->). apply delete_subseteq.
  - intros Hfull. destruct b; [|done]. destruct HC as (k & c & Hk & _ & Hd). exfalso.
    rewrite Hd, map_size_delete_Some in Hfull by done.
    pose proof (inv_size _ _ Hi). assert (size (_conns e) <> 0%nat); [|lia].
    intros Hem%map_size_empty_inv. by rewrite Hem, lookup_empty in Hk.
Qed.

(** ** Feeding a packet *)

(** Held packets carry no bytes, so none of them points into a receive buffer
    that the next [recv] overwrites. *)
Definition shells e : Prop :=
  forall k c q, _conns e !! k = Some c -> q ∈ held c -> has_bytes q = false.

(** Every waiting flow has been heard of after [t]. *)
Definition recent (t : Z) e : Prop :=
  forall k c, _conns e !! k = Some c -> state c = Wait -> t < last c.

(** What every part of a [feed] at the time [now] does to what was there
    before. *)
Record Keep (now : Z) e e' : Prop := {
  kp_stored : stored e' ≡ₚ stored e;
  kp_decided : exists l, _decided e' = _decided e ++ l;
  kp_shells : shells e -> shells e';
  kp_caps : _max_flows e' = _max_flows e /\ _max_blocked e' = _max_blocked e;
  kp_time : _lastSweep e' = _lastSweep e;
  kp_recent : forall t, t < now -> recent t e -> recent t e'
}.

(** The packet [p] has been taken in: it is now one of the stored packets, as
    itself or as its shell. *)
Record Fed (now : Z) e (p : Packet) e' : Prop := {
  fd_inv : Inv e';
  fd_quiet : quiet e';
  fd_stored : map release_bytes (stored e') ≡ₚ
    release_bytes p :: map release_bytes (stored e);
  fd_decided : exists l, _decided e' = _decided e ++ l;
  fd_shells : shells e -> shells e';
  fd_caps : _max_flows e' = _max_flows e /\ _max_blocked e' = _max_blocked e;
  fd_time : _lastSweep e' = _lastSweep e;
  fd_recent : forall t, t < now -> recent t e -> recent t e'
}.

#[export] Instance Keep_preorder now : PreOrder (Keep now).
Proof.
  split.
  - intros e. split; try done. by exists []; rewrite app_nil_r.
  - intros e1 e2 e3 [P1 [l1 D1] F1 C1 T1 R1] [P2 [l2 D2] F2 C2 T2 R2]. split.
    + by rewrite P2.
    + exists (l1 ++ l2). by rewrite D2, D1, app_assoc.
    + auto.
    + intuition congruence.
    + congruence.
    + auto.
Qed.

Lemma Step_keep now e e' : Step e e' -> Keep now e e'.
Proof.
  intros [P D0 F C _ [T _]]. split; try done.
  - intros Hs k c' q Hk Hq.
    destruct (F k c' Hk) as (c & Hc & _ & [[_ Hh]|(_ & _ & Hh)]); rewrite Hh in Hq; [|set_solver].
    by apply (Hs k c).
  - intros t _ Hr k c' Hk Hs. destruct (F k c' Hk) as (c & Hc & -> & [[Hst _]|(_ & Hb & _)]);
      [|congruence]. apply (Hr k c); congruence.
Qed.

Lemma Fed_keep now e0 e p e' : Keep now e0 e -> Fed now e p e' -> Fed now e0 p e'.
Proof.
  intros [P1 [l1 D1] S1 C1 T1 R1] [I2 Q2 P2 [l2 D2] S2 C2 T2 R2]. split; try done.
  - by rewrite P2, P1.
  - exists (l1 ++ l2). by rewrite D2, D1, app_assoc.
  - auto.
  - intuition congruence.
  - congruence.
  - auto.
Qed.

(** A refused packet: decided on the spot. *)
Lemma decide_fed now e p v : Inv e -> quiet e -> Fed now e p (decide e p v).
Proof.
  intros Hi Hq. split; try done.
  - by destruct Hi.
  - unfold stored. simpl. rewrite !map_app. simpl. solve_Permutation.
  - by eexists.
Qed.

Lemma release_idemp p : release_bytes (release_bytes p) = release_bytes p.
Proof. done. Qed.

Lemma release_back_snoc l p : release_back (l ++ [p]) = l ++ [release_bytes p].
Proof. unfold release_back. rewrite rev_unit. by rewrite List.rev_involutive. Qed.

Lemma map_release_back l : map release_bytes (release_back l) = map release_bytes l.
Proof.
  destruct l as [|p l _] using rev_ind; [done|]. by rewrite release_back_snoc, !map_app.
Qed.

Lemma length_release_back l : length (release_back l) = length l.
Proof. by rewrite <- (length_map release_bytes), map_release_back, length_map. Qed.

(** Replace what a flow holds. *)
Lemma set_held_inv e k c h : Inv e -> _conns e !! k = Some c ->
  (state c = Wait -> (length h <= kMaxPacketsPerConn)%nat) -> (state c = Block -> h = []) ->
  Inv (set_conns e (<[k := set_held c h]> (_conns e))).
Proof.
  intros Hi Hc Hw Hb. apply (insert_inv 0 e k c); try done; [|by left].
  pose proof (inv_conn _ _ Hi _ _ Hc) as Hok. unfold Conn_ok in *. simpl.
  destruct (state c); destruct Hok; auto.
Qed.

Lemma set_held_recent e k c h t : _conns e !! k = Some c -> recent t e ->
  recent t (set_conns e (<[k := set_held c h]> (_conns e))).
Proof.
  intros Hc Hr k' c'. simpl. rewrite lookup_insert_Some. intros [[<- <-]|[_ Hk]]; [|by apply (Hr k')].
  apply (Hr k c Hc).
Qed.

Lemma raw_packet_ok p : readable p -> has_bytes p = true -> exists raw, raw_packet p = Ok raw.
Proof.
  intros [Hl Hd] Hb. unfold raw_packet, has_bytes in *. destruct (data p) as [d|]; [|done].
  rewrite rd_range_ok by lia. by eexists.
Qed.

(** The reassembler call, from a quiet state whose flow [key] waits. *)
Lemma pcpp_call_spec e key raw : Inv e -> quiet e ->
  exists e3 e4,
    run_pcpp (set_feeding (set_current_key e key) true) (reassemblePacket (_reassembly e) raw) = Ok e3 /\
    drain_closes (set_feeding e3 false) = Ok e4 /\
    Inv e4 /\ quiet e4 /\ (forall now, Keep now e e4) /\ _conns e4 = _conns e3 /\ _decided e4 = _decided e3 /\
    (forall k c', _conns e4 !! k = Some c' -> exists c, _conns e !! k = Some c /\ from c c').
Proof.
  intros Hi Hq. set (e1 := set_feeding (set_current_key e key) true).
  assert (Inv e1) as I1 by (by destruct Hi).
  destruct (run_pcpp_runs e1 (reassemblePacket (_reassembly e) raw) I1) as (e3 & H3 & I3 & S3).
  destruct (drain_closes_idle (set_feeding e3 false)) as (r & H4); [done|].
  exists e3. eexists. split_and!; [done|exact H4|..]; try done.
  - by destruct I3.
  - intros now. pose proof (Step_keep now _ _ S3) as []. by split.
  - simpl. by destruct S3.
Qed.

(** What the flows hold after a call in which [p] was added to the flow [key]. *)
Section after_hold.
  Context (e : Ext) (key : Z) (c : Conn) (p : Packet) (e4 : Ext) (Hc : _conns e !! key = Some c).
  Context (F4 : forall k c', _conns e4 !! k = Some c' ->
    exists c0, <[key := set_held c (held c ++ [p])]> (_conns e) !! k = Some c0 /\ from c0 c').

Lemma hold_own c4 : _conns e4 !! key = Some c4 -> held c4 = held c ++ [p] \/ held c4 = [].
Proof using F4.
  intros Hc4. destruct (F4 key c4 Hc4) as (c0 & Hk0 & _ & Hf).
  rewrite lookup_insert_eq in Hk0. injection Hk0 as <-. destruct Hf as [[_ ->]|(_ & _ & ->)]; auto.
Qed.

Lemma hold_shells : shells e -> forall k c' q, _conns e4 !! k = Some c' -> q ∈ held c' ->
  has_bytes q = false \/ (k = key /\ held c' = held c ++ [p]).
Proof using F4 Hc.
  intros Hsh k c' q Hk Hq'. destruct (F4 k c' Hk) as (c0 & Hk0 & _ & Hf).
  assert (held c' = held c0) as Eh.
  { destruct Hf as [[_ Hf]|(_ & _ & Hf)]; [done|]. rewrite Hf in Hq'. set_solver. }
  apply lookup_insert_Some in Hk0 as [[<- <-]|[_ Hk0]]; [by right|].
  left. apply (Hsh k c0); [done|congruence].
Qed.

Lemma hold_released c4 : _conns e4 !! key = Some c4 -> shells e ->
  shells (set_conns e4 (<[key := set_held c4 (release_back (held c4))]> (_conns e4))).
Proof using F4 Hc.
  intros Hc4 Hshe k c' q. simpl. rewrite lookup_insert_Some. intros [[<- <-]|[Hne Hk]] Hq'; simpl in *.
  - destruct (hold_own c4 Hc4) as [Hh4|Hh4]; rewrite Hh4 in Hq'; [|by set_solver].
    rewrite release_back_snoc in Hq'. apply elem_of_app in Hq' as [Hq'|Hq'].
    + by apply (Hshe key c).
    + apply list_elem_of_singleton in Hq' as ->. done.
  - destruct (hold_shells Hshe k c' q Hk Hq') as [|[? _]]; [done|congruence].
Qed.
End after_hold.

Lemma reassemble_hold now e key c p : Inv e -> quiet e -> _conns e !! key = Some c ->
  state c = Wait -> (length (held c) < kMaxPacketsPerConn)%nat -> readable p ->
  has_bytes p = true -> exists e', reassemble e key p true = Ok e' /\ Fed now e p e'.
Proof.
  intros Hi Hq Hc Hs Hlen Hr Hb. unfold reassemble.
  destruct (raw_packet_ok p Hr Hb) as (raw & ->). cbn [mbind outcome_bind]. rewrite Hc.
  set (e1 := set_conns e (<[key := set_held c (held c ++ [p])]> (_conns e))).
  assert (Inv e1) as I1.
  { apply set_held_inv; try done; [|congruence]. intros _. rewrite length_app. simpl. lia. }
  destruct (pcpp_call_spec e1 key raw I1) as (e3 & e4 & H3 & H4 & I4 & Q4 & K4 & _ & _ & F4);
    [done|].
  destruct (K4 now) as [P4 D4 _ C4 T4 R4].
  change (_reassembly (set_feeding (set_current_key e1 key) true)) with (_reassembly e1).
  rewrite H3. cbn [mbind outcome_bind]. rewrite H4. cbn [mbind outcome_bind].
  assert (stored e1 ≡ₚ p :: stored e) as Hst.
  { unfold stored. simpl. rewrite held_in_update, (held_in_delete (_conns e) key c) by done.
    simpl. solve_Permutation. }
  destruct (_conns e4 !! key) as [c4|] eqn:Hc4.
  - eexists; split; [done|]. split; try done.
    + pose proof (inv_conn _ _ I4 _ _ Hc4) as Hok. unfold Conn_ok in Hok.
      apply set_held_inv; try done; intros Hs4; rewrite Hs4 in Hok.
      * rewrite length_release_back. apply Hok.
      * by rewrite (proj1 Hok).
    + change (release_bytes p :: map release_bytes (stored e)) with (map release_bytes (p :: stored e)).
      rewrite <- Hst, <- P4. unfold stored. simpl. rewrite !map_app, held_in_update, map_app. simpl.
      by rewrite map_release_back, <- map_app, <- held_in_delete.
    + by apply (hold_released e key c p).
    + intros t Ht Hrec. apply set_held_recent; [done|]. apply R4; [done|]. by apply set_held_recent.
  - eexists; split; [done|]. split; try done.
    + by rewrite P4, Hst.
    + intros Hshe k c' q Hk Hq'. destruct (hold_shells e key c p e4 Hc F4 Hshe k c' q Hk Hq') as [|[-> _]]; [done|congruence].
    + intros t Ht Hrec. apply R4; [done|]. by apply set_held_recent.
Qed.

Lemma reassemble_pass now e key p : Inv e -> quiet e -> readable p ->
  has_bytes p = true -> exists e', reassemble e key p false = Ok e' /\ Fed now e p e'.
Proof.
  intros Hi Hq Hr Hb. unfold reassemble.
  destruct (raw_packet_ok p Hr Hb) as (raw & ->). cbn [mbind outcome_bind].
  destruct (pcpp_call_spec e key raw Hi) as (e3 & e4 & H3 & H4 & I4 & Q4 & K4 & _); [done|].
  change (_reassembly (set_feeding (set_current_key e key) true)) with (_reassembly e).
  rewrite H3. cbn [mbind outcome_bind]. rewrite H4. cbn [mbind outcome_bind].
  eexists; split; [done|]. eapply Fed_keep; [exact (K4 now)|]. by apply decide_fed.
Qed.

(** Touch the entry of a tracked flow, or make one for a new flow. *)
Lemma touch_keep e key c now : Inv e -> quiet e -> state c = Wait ->
  (_conns e !! key = Some c \/
   (_conns e !! key = None /\ c = Conn_default /\ (size (_conns e) < _max_flows e)%nat)) ->
  let e1 := set_conns e (<[key := set_last c now]> (_conns e)) in
  Inv e1 /\ quiet e1 /\ Keep now e e1 /\ _conns e1 !! key = Some (set_last c now).
Proof.
  intros Hi Hq Hs Hc e1.
  assert (Conn_ok (set_last c now)) as Hok.
  { destruct Hc as [Hc|(_ & -> & _)]; [|split; [apply Nat.le_0_l|done]].
    pose proof (inv_conn _ _ Hi _ _ Hc) as Hok. unfold Conn_ok in *. simpl. by rewrite Hs in *. }
  split_and!; [|done| |by apply lookup_insert_eq].
  - destruct Hc as [Hc|(Hc & -> & Hsz)].
    + apply (insert_inv 0 e key c); try done. by left.
    + destruct Hi as [I1 I2 I3 I4 I5 I6]. split; try done; simpl.
      * rewrite map_size_insert_None by done. lia.
      * by apply map_Forall_insert_2.
      * intros k c'. rewrite lookup_insert_Some. intros [[<- <-]|[_ Hk]]; [done|by apply I6].
  - split; try done.
    + unfold stored. simpl. destruct Hc as [Hc|(Hc & -> & _)].
      * by rewrite held_in_update, (held_in_delete (_conns e) key c).
      * by rewrite held_in_insert.
    + by exists []; rewrite app_nil_r.
    + intros Hsh k c' q. simpl. rewrite lookup_insert_Some. intros [[<- <-]|[_ Hk]] Hq'.
      * destruct Hc as [Hc|(_ & -> & _)]; [|simpl in Hq'; set_solver]. by apply (Hsh key c).
      * by apply (Hsh k c').
    + intros t Ht Hrec k c'. simpl. rewrite lookup_insert_Some.
      intros [[<- <-]|[_ Hk]]; [done|]. by apply (Hrec k).
Qed.

Lemma feed_tracked_spec e now key c f p : Inv e -> quiet e -> state c = Wait ->
  (_conns e !! key = Some c \/
   (_conns e !! key = None /\ c = Conn_default /\ (size (_conns e) < _max_flows e)%nat)) ->
  readable p -> has_bytes p = true ->
  exists e', feed_tracked e now key c f p = Ok e' /\ Fed now e p e'.
Proof.
  intros Hi Hq Hs Hc Hr Hb. unfold feed_tracked.
  destruct (touch_keep e key c now Hi Hq Hs Hc) as (I1 & Q1 & K1 & L1).
  set (e1 := set_conns e _) in *. set (c1 := set_last c now) in *.
  destruct (Nat.leb_spec kMaxPacketsPerConn (length (held c1))) as [Hge|Hlt].
  - destruct (resolve_runs e1 key None I1) as (e2 & -> & I2 & S2). cbn [mbind outcome_bind].
    eexists; split; [done|]. eapply Fed_keep; [etrans; [exact K1|by apply Step_keep]|].
    apply decide_fed; [done|]. unfold quiet. by destruct S2 as [_ _ _ _ [-> _] _].
  - destruct (_ && _).
    + eexists; split; [done|]. eapply Fed_keep; [exact K1|]. by apply decide_fed.
    + destruct (0 <? payload_len f).
      * destruct (reassemble_hold now e1 key c1 p) as (e2 & -> & F2); try done.
        eexists; split; [done|]. by eapply Fed_keep.
      * destruct (reassemble_pass now e1 key p) as (e2 & -> & F2); try done.
        eexists; split; [done|]. by eapply Fed_keep.
Qed.

Lemma opens_ok f d len : dissected d len f (Span (payload f) (payload_len f)) ->
  0 <= len <= zlen d -> exists b, opensTlsHandshake (payload f) (payload_len f) = Ok b.
Proof.
  intros (_ & _ & _ & _ & Hin) Hl. apply (inside_ok d len) in Hin; [|done].
  unfold span_ok in Hin. simpl in Hin. unfold opensTlsHandshake. case_cmp; [|by eexists].
  destruct (rd8_range (payload f) 0) as (a & -> & _); [lia|]. simpl.
  destruct (a =? 22); [|by eexists].
  destruct (rd8_range (payload f) 1) as (b & -> & _); [lia|]. by eexists.
Qed.

Lemma feed_untracked_spec e now f p : Inv e -> quiet e -> now - _lastSweep e < kSweepInterval ->
  _conns e !! key f = None -> readable p -> has_bytes p = true ->
  (exists b, opensTlsHandshake (payload f) (payload_len f) = Ok b) ->
  exists e', feed_untracked e now (key f) f p = Ok e' /\ Fed now e p e'.
Proof.
  intros Hi Hq Hnow Hc Hr Hb [b Ho]. unfold feed_untracked.
  assert (exists b', (if isClientSyn f then Ok true else opensTlsHandshake (payload f) (payload_len f))
            = Ok b') as [b' ->] by (destruct (isClientSyn f); [by exists true|by exists b]).
  cbn [mbind outcome_bind]. destruct b'; simpl.
  2: { eexists; split; [done|]. by apply decide_fed. }
  destruct (make_room_spec e now Hi Hq Hnow) as (e1 & -> & I1 & S1 & _ & _ & Hsub & _).
  cbn [mbind outcome_bind].
  assert (quiet e1) as Q1 by (unfold quiet; by destruct S1 as [_ _ _ _ [-> _] _]).
  destruct (Nat.leb_spec (_max_flows e1) (size (_conns e1))).
  - eexists; split; [done|]. eapply Fed_keep; [by apply Step_keep|].
    change (Fed now e1 p (set_dropped (decide e1 p ALLOW) (u64 (_dropped_at_cap e1 + 1)))).
    destruct (decide_fed now e1 p ALLOW I1 Q1) as [[]]. by split.
  - destruct (feed_tracked_spec e1 now (key f) Conn_default f p) as (e2 & -> & F2); try done.
    { right. split_and!; try done. destruct (_conns e1 !! key f) as [c|] eqn:E; [|done].
      eapply lookup_weaken in E; [|exact Hsub]. congruence. }
    eexists; split; [done|]. eapply Fed_keep; [by apply Step_keep|done].
Qed.

Lemma feed_flow_spec e now f p : Inv e -> quiet e -> now - _lastSweep e < kSweepInterval ->
  readable p -> has_bytes p = true ->
  (exists b, opensTlsHandshake (payload f) (payload_len f) = Ok b) ->
  exists e', feed_flow e now f p = Ok e' /\ Fed now e p e'.
Proof.
  intros Hi Hq Hnow Hr Hb Ho. unfold feed_flow.
  destruct (_conns e !! key f) as [c|] eqn:Hc; [|by apply feed_untracked_spec].
  destruct (state c) eqn:Hs; [apply feed_tracked_spec; auto|].
  pose proof (inv_conn _ _ Hi _ _ Hc) as Hok. unfold Conn_ok in Hok. rewrite Hs in Hok.
  eexists; split; [done|].
  assert (Inv (set_conns e (<[key f := set_last c now]> (_conns e)))) as I1.
  { apply (insert_inv 0 e (key f) c); try done; [|by left]. unfold Conn_ok. simpl. by rewrite Hs. }
  eapply Fed_keep; [|by apply decide_fed]. split; try done.
  - unfold stored. simpl. by rewrite held_in_update, (held_in_delete (_conns e) (key f) c).
  - by exists []; rewrite app_nil_r.
  - intros Hsh k c' q. simpl. rewrite lookup_insert_Some. intros [[<- <-]|[_ Hk]] Hq'.
    + simpl in Hq'. destruct Hok as [Hok _]. rewrite Hok in Hq'. set_solver.
    + by apply (Hsh k c').
  - intros t Ht Hrec k c'. simpl. rewrite lookup_insert_Some.
    intros [[<- <-]|[_ Hk]]; [done|]. by apply (Hrec k).
Qed.

Lemma publish_fed now e p e' : Fed now e p e' -> Fed now e p (publish e').
Proof. intros [I Q P D0 S C T Rc]. split; try done. by destruct I. Qed.

Lemma lastSweep_after_tick e now e' : tick e now = Ok e' ->
  (now - _lastSweep e < kSweepInterval /\ e' = e) \/ _lastSweep e' = now ->
  now - _lastSweep e' < kSweepInterval.
Proof. intros _ [[? ->]| ->]; [done|]. rewrite Z.sub_diag. done. Qed.

Lemma feed_spec e now p : Inv e -> quiet e -> readable p ->
  exists e1 e', tick e now = Ok e1 /\ feed e now p = Ok e' /\ Inv e1 /\ quiet e1 /\
    now - _lastSweep e1 < kSweepInterval /\
    Step (set_lastSweep e (_lastSweep e1)) e1 /\ Fed now e1 p e' /\
    ((now - _lastSweep e < kSweepInterval /\ e1 = e) \/
     (kSweepInterval <= now - _lastSweep e /\ _lastSweep e1 = now /\
      Swept e (expired_keys e now) e1 /\ _flows e1 = size (_conns e1))) /\ _flows e' = size (_conns e').
Proof.
  intros Hi Hq Hr. unfold feed.
  destruct (tick_spec e now Hi Hq) as (e1 & Ht & I1 & Q1 & S1 & Hcase).
  assert (now - _lastSweep e1 < kSweepInterval) as Hnow.
  { eapply lastSweep_after_tick; [exact Ht|]. naive_solver. }
  rewrite Ht. cbn [mbind outcome_bind].
  assert (exists e2, (if negb (has_bytes p) then Ok (decide e1 p ALLOW)
     else r ← flow_view p;
       if negb r.1 || negb (ip_proto r.2 =? kProtoTcp) then Ok (decide e1 p ALLOW)
       else feed_flow e1 now r.2 p) = Ok e2 /\ Fed now e1 p e2) as (e2 & -> & F2).
  { destruct (has_bytes p) eqn:Hb; simpl.
    2: { eexists; split; [done|]. by apply decide_fed. }
    destruct (flow_view_ok p Hr) as (b & f & -> & _ & _ & Hd). cbn [mbind outcome_bind]. simpl.
    destruct b; simpl; [|eexists; split; [done|]; by apply decide_fed].
    destruct (negb (ip_proto f =? kProtoTcp)); [eexists; split; [done|]; by apply decide_fed|].
    destruct (Hd eq_refl) as (d & Ed & _ & _ & Hdis).
    apply feed_flow_spec; try done. eapply opens_ok; [exact Hdis|].
    destruct Hr as [? Hr]. rewrite Ed in Hr. lia. }
  exists e1. eexists. split_and!; [done|done|done|done|done|done|by apply publish_fed|done|done].
Qed.

(** ** The other entry points *)

Lemma resolve_all_spec e keys : Inv e -> quiet e -> exists e', resolve_all e keys = Ok e' /\
  Inv e' /\ quiet e' /\ Step e e' /\
  (forall k c, _conns e' !! k = Some c -> state c = Wait ->
     (k ∉ keys) /\ _conns e !! k = Some c).
Proof.
  revert e. induction keys as [|key keys IH]; intros e Hi Hq; simpl.
  { exists e. split_and!; try done. intros. split; [set_solver|done]. }
  assert (exists e1, resolve e key None = Ok e1 /\ Inv e1 /\ Step e e1 /\
    forall k c, _conns e1 !! k = Some c -> state c = Wait -> k <> key /\ _conns e !! k = Some c)
    as (e1 & -> & I1 & S1 & W1).
  { destruct (_conns e !! key) as [c|] eqn:Hc; [destruct (state c) eqn:Hs|].
    - destruct (_decide None (_policy e)) as [v d] eqn:Hd.
      destruct (resolve_wait e key c None v d Hi Hc Hs Hd) as (e1 & -> & [I1 S1 _ _ E1 _ O1 _ _]).
      exists e1. split_and!; try done. intros k c1 Hk Hs1.
      assert (k <> key) as Hne by (intros ->; rewrite E1 in Hk; destruct v; naive_solver).
      split; [done|]. by apply O1.
    - rewrite resolve_idle by (rewrite Hc; congruence). exists e. split_and!; try done.
      intros k c1 Hk Hs1. split; [congruence|done].
    - rewrite resolve_idle by (by rewrite Hc). exists e. split_and!; try done.
      intros k c1 Hk Hs1. split; [congruence|done]. }
  cbn [mbind outcome_bind].
  destruct (IH e1 I1) as (e2 & -> & I2 & Q2 & S2 & W2).
  { unfold quiet. by destruct S1 as [_ _ _ _ [-> _] _]. }
  exists e2. split_and!; try done; [by etrans|]. intros k c Hk Hs.
  destruct (W2 k c Hk Hs) as [Hn Hk1]. destruct (W1 k c Hk1 Hs) as [Hne Hk0].
  split; [|done]. by apply not_elem_of_cons.
Qed.

Lemma flush_spec e : Inv e -> quiet e -> exists e', flush e = Ok e' /\ Inv e' /\ quiet e' /\
  _conns e' = ∅ /\ _to_close e' = [] /\ (exists l, _decided e' = _decided e ++ l) /\
  map pkt (_decided e') ≡ₚ stored e /\ _flows e' = size (_conns e') /\
  _lastSweep e' = _lastSweep e.
Proof.
  intros Hi Hq. unfold flush. set (keys := map fst _).
  destruct (resolve_all_spec e keys Hi Hq) as (e1 & -> & I1 & Q1 & [P1 D1 _ _ _ T1] & W1).
  cbn [mbind outcome_bind].
  destruct (drain_closes_idle (set_conns e1 ∅)) as (r & ->); [done|]. cbn [mbind outcome_bind].
  eexists; split; [done|]. split_and!; try done.
  - destruct I1 as [? ? ? ? ? ?]. split; try done; simpl.
    rewrite map_size_empty. lia.
  - simpl. rewrite <- P1. unfold stored.
    assert (held_in (_conns e1) = []) as ->; [|by rewrite app_nil_r].
    destruct (held_in (_conns e1)) as [|q l] eqn:E; [done|]. exfalso.
    assert (q ∈ held_in (_conns e1)) as (k & c & Hk & Hin)%elem_of_held_in by (rewrite E; by left).
    pose proof (inv_conn _ _ I1 _ _ Hk) as Hok. unfold Conn_ok in Hok.
    destruct (state c) eqn:Hs; [|rewrite (proj1 Hok) in Hin; set_solver].
    destruct (W1 k c Hk Hs) as [Hn Hk0]. apply Hn. unfold keys.
    apply (elem_of_filtered_keys _ (λ c, negb (is_blocked c))). exists c. split; [done|].
    unfold is_blocked. by destruct (decide_rel _ _ _); [congruence|].
  - apply T1.
Qed.

Lemma ctor_inv d r mf mb : Inv (Extractor_ctor (D := D) (R := R) d r mf mb) /\
  quiet (Extractor_ctor (D := D) (R := R) d r mf mb).
Proof.
  split; [|done]. unfold Extractor_ctor.
  assert (forall m, (1 <= m)%nat -> (1 <= Nat.max 1 (m / kDefaultBlockedShare))%nat) as Hmax by lia.
  split; simpl; try done.
  - by rewrite length_replicate.
  - destruct (Nat.eqb_spec mb 0), (Nat.eqb_spec mf 0); simpl; lia.
  - lia.
  - rewrite map_size_empty. lia.
Qed.

End inv.
