(* ===== verification/ExtractorSpec.v ===== *)
(** * What the extractor promises

    Conservation of packets along every run of its interface, release at
    shutdown, the bounds on what it holds and on the blocked flows, the order
    and the single verdict of a resolution, and the idle time-outs. *)
From S2P Require Import ClientHello ClientHelloSpec Packet PacketSpec Extractor ExtractorInv.

(** ** Runs of the interface *)

(** What a caller does with an extractor; [Drain] is the caller taking and
    clearing [decided()]. *)
Inductive op := Feed (now : Z) (p : Packet) | Tick (now : Z) | Flush | Drain.

(** Ids do not depend on the bytes a packet carries. *)
Lemma released_ids l1 l2 : map release_bytes l1 ≡ₚ map release_bytes l2 ->
  map _id l1 ≡ₚ map _id l2.
Proof.
  intros Hp. apply (Permutation_map _id) in Hp. by rewrite !map_map in Hp.
Qed.

Section runs.
  Context {D R : Type} `{!Policy D} `{!Pcpp R} `{!MapOrder}.
  Abbreviation Ext := (Extractor D R).
  Implicit Types e : Ext.

(** One call: the new state and what the caller took away. *)
Definition run_op e (o : op) : outcome (Ext * list Decided) :=
  match o with
  | Feed now p => e ← feed e now p; Ok (e, [])
  | Tick now => e ← tick e now; Ok (e, [])
  | Flush => e ← flush e; Ok (e, [])
  | Drain => Ok (clear_decided e, _decided e)
  end.

Fixpoint run e (ops : list op) : outcome (Ext * list Decided) :=
  match ops with
  | [] => Ok (e, [])
  | o :: ops =>
      r ← run_op e o;
      rs ← run r.1 ops;
      Ok (rs.1, r.2 ++ rs.2)
  end.

Definition fed_by (o : op) : list Packet := match o with Feed _ p => [p] | _ => [] end.

(** The packets given to the extractor. *)
Definition fed (ops : list op) : list Packet := ops ≫= fed_by.

(** The time an operation reads. *)
Definition op_ok (o : op) : Prop := match o with Feed _ p => readable p | _ => True end.

(** What holds between two calls. *)
Record Good e : Prop := {
  gd_inv : Inv e;
  gd_quiet : quiet e;
  gd_shells : shells e;
  gd_flows : _flows e = size (_conns e)
}.

Lemma Good_ctor d r mf mb : Good (Extractor_ctor (D := D) (R := R) d r mf mb).
Proof.
  destruct (ctor_inv (D := D) (R := R) d r mf mb). by split.
Qed.

Lemma shells_released e : shells e -> forall q, q ∈ held_in (_conns e) -> has_bytes q = false.
Proof. intros Hs q (k & c & Hk & Hq)%elem_of_held_in. by apply (Hs k c). Qed.

Lemma clear_decided_inv e : Inv e -> Inv (clear_decided e).
Proof. by intros []. Qed.

(** One call keeps the invariants and accounts for every packet. *)
Lemma run_op_good e o : Good e -> op_ok o -> exists e' out, run_op e o = Ok (e', out) /\
  Good e' /\ map release_bytes (map pkt out ++ stored e') ≡ₚ
             map release_bytes (fed_by o ++ stored e).
Proof.
  intros [Hi Hq Hs Hf] Ho. destruct o as [now p|now| |]; simpl in *.
  - destruct (feed_spec e now p Hi Hq Ho)
      as (e1 & e' & _ & -> & I1 & Q1 & _ & S1 & [I2 Q2 P2 _ Sh2 _ _ _] & _ & Hfl).
    exists e', []. pose proof (Step_keep now _ _ S1) as [_ _ Sh1 _ _ _].
    split_and!; [done|split; auto|].
    simpl. rewrite P2. destruct S1 as [P1 _ _ _ _ _]. by rewrite P1.
  - destruct (tick_spec e now Hi Hq) as (e' & -> & I1 & Q1 & S1 & Hcase).
    exists e', []. pose proof (Step_keep now _ _ S1) as [_ _ Sh1 _ _ _].
    split_and!; [done| |].
    + split; auto. destruct Hcase as [[_ ->]|(_ & _ & _ & ?)]; done.
    + destruct S1 as [P1 _ _ _ _ _]. by rewrite P1.
  - destruct (flush_spec e Hi Hq) as (e' & -> & I1 & Q1 & C1 & _ & _ & P1 & F1 & _).
    exists e', []. split_and!; [done| |].
    + split; try done. intros k c q. by rewrite C1, lookup_empty.
    + simpl. unfold stored at 1. by rewrite C1, held_in_empty, app_nil_r, P1.
  - exists (clear_decided e), (_decided e). split_and!; [done| |done].
    split; try done. by apply clear_decided_inv.
Qed.

Lemma run_good e ops : Good e -> Forall op_ok ops -> exists e' out, run e ops = Ok (e', out) /\
  Good e' /\ map release_bytes (map pkt out ++ stored e') ≡ₚ
             map release_bytes (fed ops ++ stored e).
Proof.
  revert e. induction ops as [|o ops IH]; intros e Hg Hops.
  { exists e, []. by split_and!. }
  destruct (Forall_cons_1 _ _ _ Hops) as [Ho Hops'].
  destruct (run_op_good e o Hg Ho) as (e1 & out1 & H1 & G1 & P1).
  destruct (IH e1 G1 Hops') as (e2 & out2 & H2 & G2 & P2).
  exists e2, (out1 ++ out2). cbn [run]. rewrite H1. cbn [mbind outcome_bind fst snd]. rewrite H2.
  split_and!; [done|done|].
  change (fed (o :: ops)) with (fed_by o ++ fed ops).
  rewrite !map_app in P1, P2. rewrite !map_app, <- app_assoc, P2.
  rewrite (Permutation_app_comm (map release_bytes (fed_by o))), <- app_assoc, <- P1.
  apply Permutation_app_swap_app.
Qed.

(** A run that ends with a shutdown. *)
Definition shutdown (ops : list op) : list op := ops ++ [Flush; Drain].

Lemma run_app e ops1 ops2 : run e (ops1 ++ ops2) =
  (r ← run e ops1; rs ← run r.1 ops2; Ok (rs.1, r.2 ++ rs.2)).
Proof.
  revert e. induction ops1 as [|o ops1 IH]; intros e; simpl.
  { destruct (run e ops2) as [[]|]; done. }
  destruct (run_op e o) as [[e1 out1]|]; [|done]. cbn [mbind outcome_bind fst snd]. rewrite IH.
  destruct (run e1 ops1) as [[e2 out2]|]; [|done]. cbn [mbind outcome_bind fst snd].
  destruct (run e2 ops2) as [[e3 out3]|]; [|done]. cbn [mbind outcome_bind fst snd].
  by rewrite app_assoc.
Qed.

Lemma run_shutdown e ops : Good e -> Forall op_ok ops -> exists e' out,
  run e (shutdown ops) = Ok (e', out) /\ Good e' /\ _conns e' = ∅ /\ _decided e' = [] /\
  map release_bytes (map pkt out) ≡ₚ map release_bytes (fed ops ++ stored e).
Proof.
  intros Hg Hops. destruct (run_good e ops Hg Hops) as (e1 & out1 & H1 & G1 & P1).
  destruct G1 as [I1 Q1 Sh1 F1].
  destruct (flush_spec e1 I1 Q1) as (e2 & H2 & I2 & Q2 & C2 & _ & _ & P2 & F2 & _).
  exists (clear_decided e2), (out1 ++ _decided e2). unfold shutdown. rewrite run_app, H1.
  cbn [mbind outcome_bind run run_op fst snd]. rewrite H2. cbn [mbind outcome_bind fst snd app].
  rewrite app_nil_r. split_and!; try done.
  - split; try done; [by apply clear_decided_inv|]. intros k c q. simpl. by rewrite C2, lookup_empty.
  - rewrite <- P1, !map_app. by rewrite P2.
Qed.

(** ** Bounds *)

Definition blocked_keys e : list Z :=
  map fst (List.filter (λ kc, is_blocked kc.2) (iter (_conns e))).

Lemma NoDup_filtered_keys (m : gmap Z Conn) (f : Z * Conn -> bool) :
  NoDup (map fst (List.filter f (iter m))).
Proof.
  assert (NoDup (iter m).*1) as Hnd by (rewrite iter_perm; apply NoDup_fst_map_to_list).
  induction (iter m) as [|[k c] l IH]; simpl in *; [apply NoDup_nil_2|].
  pose proof (NoDup_cons_1_1 _ _ Hnd) as Hk. apply NoDup_cons_1_2 in Hnd.
  destruct (f (k, c)); simpl; [|by apply IH].
  apply NoDup_cons_2; [|by apply IH]. intros Hin. apply Hk.
  rewrite list_elem_of_In in Hin. apply in_map_iff in Hin as ([k' c'] & <- & [Hin _]%filter_In).
  apply list_elem_of_fmap. exists (k', c'). split; [done|]. by apply list_elem_of_In.
Qed.

Lemma elem_of_blocked_keys e k :
  k ∈ blocked_keys e <-> exists c, _conns e !! k = Some c /\ state c = Block.
Proof.
  unfold blocked_keys. rewrite elem_of_filtered_keys. unfold is_blocked.
  split; intros (c & Hc & Hs); exists c; (split; [done|]);
    destruct (decide_rel (=) (state c) Block); congruence.
Qed.

(** Blocked flows other than a flow whose key is 0 fit in the ring. *)
Lemma blocked_bound e : Inv e ->
  (length (List.filter (λ k, negb (k =? 0)%Z) (blocked_keys e)) <= _max_blocked e)%nat.
Proof.
  intros Hi. rewrite <- (inv_ring _ _ Hi). apply submseteq_length, NoDup_submseteq.
  - assert (NoDup (blocked_keys e)) as Hnd by apply NoDup_filtered_keys.
    rewrite NoDup_ListNoDup in *. by apply List.NoDup_filter.
  - intros k. rewrite list_elem_of_In, filter_In, <- list_elem_of_In.
    intros [(c & Hc & Hs)%elem_of_blocked_keys H0].
    assert (k <> 0) by (intros ->; done). by apply (inv_blocked _ _ Hi k c).
Qed.

(** ** Time *)

Definition op_time (o : op) : option Z :=
  match o with Feed now _ | Tick now => Some now | Flush | Drain => None end.

(** The clock never runs backwards: the operations happen at times from [t] on,
    in order. *)
Fixpoint monotone (t : Z) (ops : list op) : Prop :=
  match ops with
  | [] => True
  | o :: ops =>
      match op_time o with
      | Some now => t <= now /\ monotone now ops
      | None => monotone t ops
      end
  end.

Fixpoint end_time (t : Z) (ops : list op) : Z :=
  match ops with [] => t | o :: ops => end_time (default t (op_time o)) ops end.

Lemma monotone_app t ops1 ops2 :
  monotone t (ops1 ++ ops2) <-> monotone t ops1 /\ monotone (end_time t ops1) ops2.
Proof.
  revert t. induction ops1 as [|o ops1 IH]; intros t; simpl; [naive_solver|].
  destruct (op_time o) as [now|]; simpl; rewrite IH; naive_solver.
Qed.

(** The sweep has run recently enough for the flows still waiting. *)
Definition Timed (t : Z) e : Prop :=
  _lastSweep e <= t /\ recent (_lastSweep e - kWaitIdleTimeout) e.

Lemma recent_weaken t t' e : t' <= t -> recent t e -> recent t' e.
Proof. intros Ht Hr k c Hk Hs. specialize (Hr k c Hk Hs). lia. Qed.

Lemma tick_timed t e now e' : Inv e -> quiet e -> tick e now = Ok e' -> t <= now -> Timed t e ->
  Timed now e' /\ recent (now - kWaitIdleTimeout - kSweepInterval) e'.
Proof.
  intros Hi Hq Ht Hnow [Hl Hr]. destruct (tick_spec e now Hi Hq) as (e1 & Ht1 & _ & _ & _ & Hcase).
  rewrite Ht in Ht1. injection Ht1 as <-.
  destruct Hcase as [[Hs ->]|(Hs & Hl' & [_ Hw _] & _)].
  - split; [split; [lia|done]|]. eapply recent_weaken; [|exact Hr]. lia.
  - assert (recent (now - kWaitIdleTimeout) e') as Hr'.
    { intros k c Hk Hst. destruct (Hw k c Hk Hst) as [Hn Hc].
      destruct (Z.lt_ge_cases (now - kWaitIdleTimeout) (last c)) as [|Hge]; [done|]. exfalso.
      apply Hn. apply (elem_of_filtered_keys _ (is_expired now)). exists c. split; [done|].
      unfold is_expired, idle_limit. rewrite Hst. apply Z.leb_le. lia. }
    split; [split; [lia|by rewrite Hl']|]. eapply recent_weaken; [|exact Hr']. unfold kSweepInterval, seconds. lia.
Qed.

Lemma run_op_timed t e o e' out : Good e -> op_ok o -> run_op e o = Ok (e', out) ->
  default t (op_time o) >= t -> Timed t e -> Timed (default t (op_time o)) e'.
Proof.
  intros [Hi Hq Hs Hf] Ho Hrun Ht HT. destruct o as [now p|now| |]; simpl in *.
  - destruct (feed_spec e now p Hi Hq Ho)
      as (e1 & e2 & Htick & Hfeed & I1 & Q1 & _ & _ & [_ _ _ _ _ _ Tm Rc] & _ & _).
    rewrite Hfeed in Hrun. injection Hrun as <- <-.
    destruct (tick_timed t e now e1 Hi Hq Htick) as [[Hl Hr] _]; [lia|done|].
    split; [lia|]. rewrite Tm. apply Rc; [|done]. unfold kWaitIdleTimeout, seconds. lia.
  - destruct (tick e now) as [e1|] eqn:Htick; [|done]. injection Hrun as <- <-.
    by apply (tick_timed t e now); [..|lia|].
  - destruct (flush_spec e Hi Hq) as (e1 & H1 & _ & _ & C1 & _ & _ & _ & _ & L1).
    rewrite H1 in Hrun. injection Hrun as <- <-. destruct HT as [Hl Hr].
    split; [lia|]. intros k c. by rewrite C1, lookup_empty.
  - injection Hrun as <- <-. exact HT.
Qed.

Lemma run_timed t e ops e' out : Good e -> Forall op_ok ops -> monotone t ops ->
  run e ops = Ok (e', out) -> Timed t e -> Timed (end_time t ops) e'.
Proof.
  revert t e out. induction ops as [|o ops IH]; intros t e out Hg Hops Hm Hrun HT.
  { injection Hrun as <- <-. done. }
  destruct (Forall_cons_1 _ _ _ Hops) as [Ho Hops'].
  destruct (run_op_good e o Hg Ho) as (e1 & out1 & H1 & G1 & _).
  cbn [run] in Hrun. rewrite H1 in Hrun. cbn [mbind outcome_bind fst snd] in Hrun.
  destruct (run e1 ops) as [[e2 out2]|] eqn:H2; [|done]. injection Hrun as <- <-.
  simpl in Hm. assert (default t (op_time o) >= t /\ monotone (default t (op_time o)) ops) as [Ht Hm'].
  { destruct (op_time o); simpl; [|by split; [lia|]]. destruct Hm. by split; [lia|]. }
  apply (IH (default t (op_time o)) e1 out2); try done.
  exact (run_op_timed t e o e1 out1 Hg Ho H1 Ht HT).
Qed.

Lemma Timed_ctor d r mf mb t : 0 <= t -> Timed t (Extractor_ctor (D := D) (R := R) d r mf mb).
Proof. intros Ht. split; [done|]. intros k c. simpl. by rewrite lookup_empty. Qed.

(** After a run that ends with a tick at [now], every waiting flow has been
    heard of in the last eleven seconds. *)
Lemma run_tick_recent e t ops now e' out : Good e -> Timed t e -> Forall op_ok ops ->
  monotone t (ops ++ [Tick now]) -> run e (ops ++ [Tick now]) = Ok (e', out) ->
  recent (now - kWaitIdleTimeout - kSweepInterval) e'.
Proof.
  intros Hg HT Hops [Hm1 Hm2]%monotone_app Hrun. rewrite run_app in Hrun.
  destruct (run_good e ops Hg Hops) as (e1 & out1 & H1 & [I1 Q1 _ _] & _).
  pose proof (run_timed t e ops e1 out1 Hg Hops Hm1 H1 HT) as HT1.
  rewrite H1 in Hrun. cbn [mbind outcome_bind run run_op fst snd] in Hrun.
  destruct (tick e1 now) as [e2|] eqn:Ht; [|done]. injection Hrun as <- <-.
  simpl in Hm2. eapply (tick_timed (end_time t ops) e1 now e2); try done. lia.
Qed.

End runs.

(** ** A concrete setting

    A reassembler that hands every payload over as it comes (side 0 is the one
    that talks to port 443), and a policy that counts how often it is asked. *)

Definition demo_reassemble (raw : bytes) : list Callback :=
  match flow_view (Packet_view (Some raw) (zlen raw) 0) with
  | Ok (true, f) =>
      (if isClientSyn f then [ConnectionStart 9] else []) ++
      (if 0 <? payload_len f
       then [MessageReady (if dst_port f =? 443 then 0 else 1)
               (take (Z.to_nat (payload_len f)) (payload f)) 9] else []) ++
      (if Z.land (tcp_flags f) 5 =? 0 then [] else [ConnectionEnd])
  | _ => []
  end.

#[export] Instance demo_pcpp : Pcpp (list Z) := {|
  reassemblePacket r raw := (r, demo_reassemble raw);
  closeConnection r k := (k :: r, [ConnectionEnd]);
  purgeClosedConnections r := (r, [])
|}.

#[export] Instance demo_order : MapOrder := {|
  iter := map_to_list;
  iter_perm m := Permutation_refl _
|}.

#[export] Instance demo_policy : Policy nat := λ h asked,
  (if base.decide (h = Some (str "blocked.example")) then BLOCK else ALLOW, S asked).

Definition demo_extractor (mf mb : nat) : Extractor nat (list Z) := Extractor_ctor 0%nat [] mf mb.

(** The [id]-th packet of the client's connection from port [port]. *)
Definition demo_segment (port flags : Z) (body : bytes) (id : Z) : Packet :=
  let d := enc_ipv4 demo_ipv4
             (Tcp port 443 (replicate 8 x01) 0 flags (replicate 6 x02) [] body) in
  Packet_view (Some d) (zlen d) id.

Definition demo_blocked_hello : bytes := client_hello (str "blocked.example").

(** A SYN, a ClientHello in two segments, one more packet of that connection,
    and an unfinished second connection. *)
Definition demo_ops : list op :=
  [Feed (seconds 5) (demo_segment 51000 2 [] 1);
   Feed (seconds 5 + 10) (demo_segment 51000 24 (take 30 demo_blocked_hello) 2);
   Drain;
   Feed (seconds 5 + 20) (demo_segment 51000 24 (drop 30 demo_blocked_hello) 3);
   Feed (seconds 5 + 30) (demo_segment 51000 24 (str "more") 4);
   Drain;
   Feed (seconds 5 + 40) (demo_segment 52000 24 (take 30 demo_blocked_hello) 5)].

Definition demo_result : outcome (list (Z * Verdict)) :=
  r ← run (demo_extractor 4 1) (shutdown demo_ops);
  Ok (map (λ d, (_id (pkt d), verdict d)) r.2).

(** The SYN passes, the hello's two segments and the packet after it are dropped,
    and the unfinished connection is released by the shutdown. *)
Example demo_result_eq :
  demo_result = Ok [(1, ALLOW); (2, BLOCK); (3, BLOCK); (4, BLOCK); (5, ALLOW)].
Proof. vm_compute. reflexivity. Qed.

(** * Properties *)

Section properties.
  Context {D R : Type} `{!Policy D} `{!Pcpp R} `{!MapOrder}.
  Abbreviation Ext := (Extractor D R).
  Implicit Types e : Ext.

(** C11: every packet is accounted for.  Whatever a caller feeds, ticks, flushes
    and drains, in whatever order and at whatever times, whatever the policy
    answers and whatever callbacks the reassembler fires, the calls return
    (no out-of-bounds access, no fuel exhausted) and each packet fed is, exactly
    once, either handed back with a verdict or still in the extractor. *)
Theorem extractor_conserves_packets d r mf mb ops : Forall op_ok ops ->
  exists e' out, run (Extractor_ctor (D := D) (R := R) d r mf mb) ops = Ok (e', out) /\
    map release_bytes (map pkt (out ++ _decided e') ++ held_in (_conns e')) ≡ₚ
    map release_bytes (fed ops).
Proof.
  intros Hops. destruct (run_good _ ops (Good_ctor d r mf mb) Hops) as (e' & out & H1 & _ & P1).
  exists e', out. split; [done|]. unfold stored in P1. simpl in P1.
  rewrite held_in_empty, app_nil_r in P1.
  rewrite (map_app pkt), <- app_assoc. exact P1.
Qed.

(** Shutdown leaves nothing behind: after [flush] and one last drain, every
    packet ever fed has been handed back exactly once, the flow table is empty
    and nothing is undecided. *)
Lemma extractor_shutdown_releases d r mf mb ops : Forall op_ok ops ->
  exists e' out, run (Extractor_ctor (D := D) (R := R) d r mf mb) (shutdown ops) = Ok (e', out) /\
    _conns e' = ∅ /\ _decided e' = [] /\ tracked_flows e' = 0%nat /\
    map release_bytes (map pkt out) ≡ₚ map release_bytes (fed ops).
Proof.
  intros Hops. destruct (run_shutdown _ ops (Good_ctor d r mf mb) Hops)
    as (e' & out & H1 & [_ _ _ Hf] & C1 & D1 & P1).
  exists e', out. unfold stored in P1. simpl in P1. rewrite held_in_empty, app_nil_r in P1.
  split_and!; try done. unfold tracked_flows. rewrite Hf, C1. apply map_size_empty.
Qed.

(** C18: memory stays bounded and nothing dangles.  In every reachable state at
    most [max_flows] flows are tracked and the published count is exact; a
    waiting flow holds at most 32 packets, none of which still points at packet
    bytes, and at most 32 KiB of stream; a blocked flow holds neither; and the
    blocked flows, one with flow key 0 apart, are at most [max_blocked]. *)
Theorem extractor_bounded d r mf mb ops e' out : Forall op_ok ops ->
  run (Extractor_ctor (D := D) (R := R) d r mf mb) ops = Ok (e', out) ->
  (tracked_flows e' = size (_conns e')) /\ (tracked_flows e' <= _max_flows e')%nat /\
  (length (List.filter (λ k, negb (k =? 0)%Z) (blocked_keys e')) <= _max_blocked e')%nat /\
  (forall k c, _conns e' !! k = Some c -> Conn_ok c) /\
  (forall q, q ∈ held_in (_conns e') -> has_bytes q = false).
Proof.
  intros Hops Hrun. destruct (run_good _ ops (Good_ctor d r mf mb) Hops)
    as (e1 & out1 & H1 & [Hi Hq Hs Hf] & _).
  rewrite Hrun in H1. injection H1 as <- <-. unfold tracked_flows. split_and!.
  - done.
  - rewrite Hf. apply (inv_size _ _ Hi).
  - by apply blocked_bound.
  - intros k c. apply (inv_conn _ _ Hi).
  - by apply shells_released.
Qed.

(** No packet is held for long.  On a clock that never runs backwards, right
    after a [tick] at [now] every flow still waiting has been heard of within
    the last eleven seconds (the ten-second time-out and the one-second sweep
    interval): the packets of a flow that went silent have been released. *)
Lemma idle_flows_released d r mf mb ops now e' out k c : Forall op_ok ops ->
  monotone 0 (ops ++ [Tick now]) ->
  run (Extractor_ctor (D := D) (R := R) d r mf mb) (ops ++ [Tick now]) = Ok (e', out) ->
  _conns e' !! k = Some c -> held c <> [] -> now - last c < seconds 11.
Proof.
  intros Hops Hm Hrun Hk Hh.
  pose proof (run_tick_recent _ 0 ops now e' out (Good_ctor d r mf mb)
    (Timed_ctor d r mf mb 0 ltac:(lia)) Hops Hm Hrun) as Hr.
  destruct (run_good _ (ops ++ [Tick now]) (Good_ctor d r mf mb)) as (e1 & o1 & H1 & [Hi _ _ _] & _).
  { apply Forall_app. split; [done|by repeat constructor]. }
  rewrite Hrun in H1. injection H1 as <- <-.
  pose proof (inv_conn _ _ Hi _ _ Hk) as Hok. unfold Conn_ok in Hok.
  destruct (state c) eqn:Hs; [|by destruct Hok].
  specialize (Hr k c Hk Hs). unfold kWaitIdleTimeout, kSweepInterval, seconds in *. lia.
Qed.

(** A flow is resolved by one answer.  Resolving a waiting flow asks the
    policy once and gives that verdict to everything the flow held, in arrival
    order; on BLOCK the entry stays, blocked and empty, on ALLOW it is erased;
    every other waiting flow is untouched, and the reassembler's connection is
    queued for closing unless it is already closed. *)
Lemma resolve_decides_in_order e key c hostname : Inv e -> _conns e !! key = Some c ->
  state c = Wait -> let '(v, d) := _decide hostname (_policy e) in
  exists e', resolve e key hostname = Ok e' /\ Inv e' /\ _policy e' = d /\
    _decided e' = _decided e ++ map (λ p, MkDecided p v) (held c) /\
    _conns e' !! key = (if base.decide (v = BLOCK)
      then Some (MkConn Block [] [] (pcpp_key c) (pcpp_closed c) (last c)) else None) /\
    (forall k c1, k <> key -> state c1 = Wait ->
       _conns e' !! k = Some c1 <-> _conns e !! k = Some c1) /\
    _to_close e' = _to_close e ++
      (if negb (pcpp_key c =? 0) && negb (pcpp_closed c) then [pcpp_key c] else []).
Proof.
  intros Hi Hc Hs. destruct (_decide hostname (_policy e)) as [v d] eqn:Hd.
  destruct (resolve_wait e key c hostname v d Hi Hc Hs Hd) as (e' & H1 & [I1 _ D1 P1 E1 W1 O1 T1 _]).
  exists e'. split_and!; try done.
  - rewrite E1. by destruct v.
  - intros k c1 Hk Hs1. split; auto.
Qed.

(** C24: undecided flows are never displaced.  Making room in a full table after
    a tick keeps every waiting flow; it fails, and a new flow goes unchecked,
    only when the table holds nothing but waiting flows (and a blocked one with
    flow key 0, which the ring cannot name). *)
Theorem make_room_protects_waiting e now : Inv e -> quiet e ->
  now - _lastSweep e < kSweepInterval ->
  exists e', make_room e now = Ok e' /\ Inv e' /\
    (forall k c, _conns e !! k = Some c -> state c = Wait -> _conns e' !! k = Some c) /\
    ((size (_conns e') < _max_flows e)%nat \/
     (_conns e' = _conns e /\ forall k c, _conns e !! k = Some c -> state c = Block -> k = 0)).
Proof.
  intros Hi Hq Hnow. destruct (make_room_spec e now Hi Hq Hnow) as (e' & H1 & I1 & _ & _ & W1 & _ & F1).
  exists e'. split_and!; try done.
  destruct (Nat.lt_ge_cases (size (_conns e')) (_max_flows e)) as [|Hge]; [by left|].
  right. by apply F1.
Qed.

(** Traffic of no interest is not delayed.  A packet that cannot be
    dissected or is not TCP, and a packet of an untracked flow that neither
    opens a connection nor a TLS handshake, is allowed on the spot and leaves
    the flow table as it is. *)
Lemma uninteresting_allowed e now p b f : flow_view p = Ok (b, f) ->
  now - _lastSweep e < kSweepInterval ->
  (has_bytes p = false \/ b = false \/ ip_proto f <> kProtoTcp \/
   (_conns e !! key f = None /\ isClientSyn f = false /\
    opensTlsHandshake (payload f) (payload_len f) = Ok false)) ->
  feed e now p = Ok (publish (decide e p ALLOW)).
Proof.
  intros Hf Hnow Hcase. unfold feed, tick. rewrite (proj2 (Z.ltb_lt _ _) Hnow).
  cbn [mbind outcome_bind]. destruct (has_bytes p); [|done]. rewrite Hf.
  cbn [mbind outcome_bind negb fst snd]. destruct b; [|done].
  destruct (Z.eqb_spec (ip_proto f) kProtoTcp) as [Hp|]; [|done]. simpl.
  destruct Hcase as [|[|[|(Hc & Hsyn & Ho)]]]; [done..|].
  unfold feed_flow, feed_untracked. by rewrite Hc, Hsyn, Ho.
Qed.

(** Within one [feed] the sweep runs at most once: the rate limit that
    [tick] has just applied makes the second sweep, in the full-table branch,
    unreachable, so that branch only ever evicts. *)
Lemma make_room_never_sweeps e now e1 : Inv e -> quiet e -> tick e now = Ok e1 ->
  make_room e1 now =
    if (_max_flows e1 <=? size (_conns e1))%nat then snd <$> evict_oldest_blocked e1 else Ok e1.
Proof.
  intros Hi Hq Ht. destruct (tick_spec e now Hi Hq) as (e2 & Ht2 & I2 & _ & _ & Hcase).
  rewrite Ht in Ht2. injection Ht2 as <-.
  assert (now - _lastSweep e1 < kSweepInterval) as Hnow.
  { eapply lastSweep_after_tick; [exact Ht|]. naive_solver. }
  unfold make_room. destruct (_ <=? _)%nat eqn:Hfull; [|done].
  rewrite (proj2 (Z.leb_gt kSweepInterval _)) by done. cbn [mbind outcome_bind].
  rewrite Hfull. by destruct (evict_oldest_blocked e1) as [[]|].
Qed.

End properties.

(** ** Witnesses *)

#[export] Instance op_ok_dec o : Decision (op_ok o).
Proof.
  destruct o as [now p|now| |]; unfold op_ok, readable; try apply _.
  destruct (data p); apply _.
Defined.

#[local] Instance monotone_dec t ops : Decision (monotone t ops).
Proof.
  revert t. induction ops as [|o ops IH]; intros t; [apply _|].
  simpl. destruct (op_time o); apply _.
Defined.

Lemma extractor_conserves_packets_witness :
  exists e' out, run (demo_extractor 4 1) demo_ops = Ok (e', out) /\
    map release_bytes (map pkt (out ++ _decided e') ++ held_in (_conns e')) ≡ₚ
    map release_bytes (fed demo_ops).
Proof. refine (extractor_conserves_packets 0%nat [] 4 1 demo_ops _). concrete. Defined.

Lemma extractor_shutdown_releases_witness :
  exists e' out, run (demo_extractor 4 1) (shutdown demo_ops) = Ok (e', out) /\
    _conns e' = ∅ /\ _decided e' = [] /\ tracked_flows e' = 0%nat /\
    map release_bytes (map pkt out) ≡ₚ map release_bytes (fed demo_ops).
Proof. refine (extractor_shutdown_releases 0%nat [] 4 1 demo_ops _). concrete. Defined.

(** The state after [demo_ops]: one blocked and one waiting flow. *)
Definition demo_state : Extractor nat (list Z) :=
  match run (demo_extractor 4 1) demo_ops with Ok r => r.1 | Fault _ => demo_extractor 4 1 end.

Definition demo_out : list Decided :=
  match run (demo_extractor 4 1) demo_ops with Ok r => r.2 | Fault _ => [] end.

Definition key_of (p : Packet) : Z := match flow_key p with Ok k => k | Fault _ => 0 end.

(** The bytes of a packet that the extractor has been given. *)
Definition packet_bytes (p : Packet) : bytes := match raw_packet p with Ok raw => raw | Fault _ => [] end.

Definition demo_blocked_key : Z := key_of (demo_segment 51000 24 (str "more") 4).
Definition demo_waiting_key : Z := key_of (demo_segment 52000 24 (str "more") 4).

Definition demo_conn (k : Z) : Conn := default Conn_default (_conns demo_state !! k).

Lemma extractor_bounded_witness :
  (tracked_flows demo_state <= 4)%nat /\
  (length (List.filter (λ k, negb (k =? 0)%Z) (blocked_keys demo_state)) <= 1)%nat.
Proof.
  destruct (extractor_bounded 0%nat [] 4 1 demo_ops demo_state demo_out)
    as (_ & H1 & H2 & _); [concrete|concrete|].
  exact (conj H1 H2).
Defined.

Definition demo_ticked : Extractor nat (list Z) :=
  match run (demo_extractor 4 1) (demo_ops ++ [Tick (seconds 7)]) with
  | Ok r => r.1 | Fault _ => demo_extractor 4 1 end.

Lemma idle_flows_released_witness :
  seconds 7 - last (default Conn_default (_conns demo_ticked !! demo_waiting_key)) < seconds 11.
Proof.
  refine (idle_flows_released 0%nat [] 4 1 demo_ops (seconds 7) demo_ticked demo_out
            demo_waiting_key _ _ _ _ _ _); [concrete|concrete|concrete|concrete|].
  vm_compute. discriminate.
Defined.

Lemma demo_state_good : Inv demo_state /\ quiet demo_state.
Proof.
  destruct (run_good (demo_extractor 4 1) demo_ops (Good_ctor 0%nat [] 4 1))
    as (e' & out & H1 & [I1 Q1 _ _] & _); [concrete|].
  assert (demo_state = e') as ->; [|by split]. unfold demo_state. by rewrite H1.
Qed.

Lemma resolve_decides_in_order_witness :
  exists e', resolve demo_state demo_waiting_key (Some (str "blocked.example")) = Ok e' /\
    Inv e' /\ _policy e' = 2%nat /\
    map (λ d, (_id (pkt d), verdict d)) (_decided e') = [(5, BLOCK)].
Proof.
  destruct (resolve_decides_in_order demo_state demo_waiting_key (demo_conn demo_waiting_key)
    (Some (str "blocked.example")) (proj1 demo_state_good)) as (e' & H1 & I1 & P1 & D1 & _);
    [concrete|concrete|].
  exists e'. split; [exact H1|]. split; [exact I1|]. split; [exact P1|]. rewrite D1. concrete.
Defined.

Lemma make_room_protects_waiting_witness :
  exists e', make_room demo_state (seconds 5 + 50) = Ok e' /\ Inv e'.
Proof.
  destruct (make_room_protects_waiting demo_state (seconds 5 + 50) (proj1 demo_state_good)
    (proj2 demo_state_good)) as (e' & H1 & I1 & _); [concrete|]. exists e'. exact (conj H1 I1).
Defined.

Lemma uninteresting_allowed_witness :
  feed demo_state (seconds 5 + 50) (demo_segment 53000 24 (str "GET /") 8) =
  Ok (publish (decide demo_state (demo_segment 53000 24 (str "GET /") 8) ALLOW)).
Proof.
  refine (uninteresting_allowed demo_state (seconds 5 + 50) (demo_segment 53000 24 (str "GET /") 8)
    true (match flow_view (demo_segment 53000 24 (str "GET /") 8) with
          | Ok r => r.2 | Fault _ => FlowView_default end) _ _ _); [concrete|concrete|].
  right. right. right. split; [|split]; concrete.
Defined.

Lemma make_room_never_sweeps_witness :
  make_room demo_state (seconds 5 + 50) = Ok demo_state.
Proof.
  rewrite (make_room_never_sweeps demo_state (seconds 5 + 50) demo_state);
    [vm_compute; reflexivity|exact (proj1 demo_state_good)|exact (proj2 demo_state_good)|concrete].
Defined.
