(* ===== verification/ExtractorRefine.v ===== *)
(** * The extractor refines a machine of flows

    The abstract machine below is what a reader of [hostname_extractor.hpp]
    expects: a flow is unknown, waiting with the segments withheld so far, or
    blocked; a packet passes, is withheld or is dropped; a waiting flow is
    resolved by asking the policy once.  It knows neither reassembly nor time,
    sweeps, rings, caps or deferred closes.  Every run of the extractor is a run
    of the machine that takes in the same packets in the same order and returns
    the same verdicts in the same order; what the machine satisfies, such as
    that the segments of a flow are never reordered, holds of the extractor. *)
From S2P Require Import ClientHello Packet Extractor ExtractorInv ExtractorSpec.

(** ** The machine *)

(** A packet, as the machine sees it: the flow it carries data of, if it does,
    and its id. *)
Record label := MkLabel { l_flow : option Z; l_id : Z }.

Definition label_of (p : Packet) : label :=
  MkLabel
    match flow_view p with
    | Ok (true, f) =>
        if has_bytes p && (ip_proto f =? kProtoTcp) && (0 <? payload_len f)
        then Some (key f) else None
    | _ => None
    end (_id p).

Inductive AFlow := AWait (withheld : list label) | ABlock.

Record AState (D : Type) := MkAState {
  a_flows : gmap Z AFlow;
  a_policy : D;
  a_out : list (label * Verdict)
}.
Arguments MkAState {D}.
Arguments a_flows {D}.
Arguments a_policy {D}.
Arguments a_out {D}.

Section machine.
  Context {D : Type} `{!Policy D}.
  Implicit Types a : AState D.

Definition a_waits a (l : label) : Prop :=
  exists k ls, l_flow l = Some k /\ a_flows a !! k = Some (AWait ls).

(** One step, with the packet it takes in. *)
Inductive astep a : list label -> AState D -> Prop :=
| a_pass l : ~ a_waits a l ->
    astep a [l] (MkAState (a_flows a) (a_policy a) (a_out a ++ [(l, ALLOW)]))
| a_open k : a_flows a !! k = None ->
    astep a [] (MkAState (<[k := AWait []]> (a_flows a)) (a_policy a) (a_out a))
| a_withhold k ls l : a_flows a !! k = Some (AWait ls) -> l_flow l = Some k ->
    astep a [l] (MkAState (<[k := AWait (ls ++ [l])]> (a_flows a)) (a_policy a) (a_out a))
| a_resolve k ls hostname v d : a_flows a !! k = Some (AWait ls) ->
    _decide hostname (a_policy a) = (v, d) ->
    astep a [] (MkAState
      (match v with BLOCK => <[k := ABlock]> (a_flows a) | ALLOW => delete k (a_flows a) end)
      d (a_out a ++ map (λ l, (l, v)) ls))
| a_drop k l : a_flows a !! k = Some ABlock -> (forall k', l_flow l = Some k' -> k' = k) ->
    astep a [l] (MkAState (a_flows a) (a_policy a) (a_out a ++ [(l, BLOCK)]))
| a_forget k : a_flows a !! k = Some ABlock ->
    astep a [] (MkAState (delete k (a_flows a)) (a_policy a) (a_out a)).

Inductive asteps a : list label -> AState D -> Prop :=
| asteps_refl : asteps a [] a
| asteps_cons l1 a1 l2 a2 : astep a l1 a1 -> asteps a1 l2 a2 -> asteps a (l1 ++ l2) a2.

Lemma asteps_one a l a' : astep a l a' -> asteps a l a'.
Proof. intros H. rewrite <- (app_nil_r l). eapply asteps_cons; [done|]. apply asteps_refl. Qed.

Lemma asteps_app a l1 a1 l2 a2 : asteps a l1 a1 -> asteps a1 l2 a2 -> asteps a (l1 ++ l2) a2.
Proof.
  induction 1 as [|a x1 b x2 c Hs _ IH]; [done|]. intros H. rewrite <- app_assoc.
  eapply asteps_cons; [done|]. auto.
Qed.

End machine.

(** ** The simulation *)

Definition flow_rel (x : option AFlow) (y : option Conn) : Prop :=
  match x, y with
  | None, None => True
  | Some (AWait ls), Some c => state c = Wait /\ map l_id ls = map _id (held c)
  | Some ABlock, Some c => state c = Block
  | _, _ => False
  end.

(** An entry of the decided buffer with the bytes of its packet left out. *)
Definition answer (d : Decided) : Z * Verdict := (_id (pkt d), verdict d).

Section simulation.
  Context {D R : Type} `{!Policy D} `{!Pcpp R} `{!MapOrder}.
  Abbreviation Ext := (Extractor D R).
  Implicit Types e : Ext.
  Implicit Types a : AState D.

(** [taken] is what the caller has already drained. *)
Record refines (taken : list Decided) e a : Prop := {
  rf_flows : forall k, flow_rel (a_flows a !! k) (_conns e !! k);
  rf_policy : a_policy a = _policy e;
  rf_out : map (λ x, (l_id x.1, x.2)) (a_out a) = map answer (taken ++ _decided e)
}.

(** Every result of [m] is reached by the machine from what [e] refines, taking
    in [l]. *)
Definition sim (m : outcome Ext) e (l : list label) : Prop :=
  forall t a e', refines t e a -> m = Ok e' -> exists a', asteps a l a' /\ refines t e' a'.

Definition same_view e e' : Prop :=
  _conns e' = _conns e /\ _decided e' = _decided e /\ _policy e' = _policy e.

Lemma refines_view t e e' a : same_view e e' -> refines t e a -> refines t e' a.
Proof. intros (C & Dd & P) [H1 H2 H3]. split; [by rewrite C|by rewrite P|by rewrite Dd]. Qed.

Lemma sim_ok e e' : same_view e e' -> sim (Ok e') e [].
Proof.
  intros Hv t a e1 Hr [= <-]. exists a. split; [apply asteps_refl|]. by eapply refines_view.
Qed.

Lemma sim_from e e' l m : same_view e e' -> sim m e' l -> sim m e l.
Proof. intros Hv Hm t a e1 Hr. apply Hm. by eapply refines_view. Qed.

Lemma sim_bind m (k : Ext -> outcome Ext) e l1 l2 : sim m e l1 ->
  (forall e1, m = Ok e1 -> sim (k e1) e1 l2) -> sim (m ≫= k) e (l1 ++ l2).
Proof.
  intros Hm Hk t a e' Hr. destruct m as [e1|]; [|done]. cbn [mbind outcome_bind]. intros He.
  destruct (Hm t a e1 Hr eq_refl) as (a1 & S1 & R1).
  destruct (Hk e1 eq_refl t a1 e' R1 He) as (a2 & S2 & R2).
  exists a2. split; [by eapply asteps_app|done].
Qed.

Lemma sim_bind_silent m (k : Ext -> outcome Ext) e l : sim m e [] ->
  (forall e1, m = Ok e1 -> sim (k e1) e1 l) -> sim (m ≫= k) e l.
Proof. apply (sim_bind m k e []). Qed.

(** An assignment, then the rest. *)
Lemma sim_then m e e1 l1 l2 : sim (Ok e1) e l1 -> sim m e1 l2 -> sim m e (l1 ++ l2).
Proof. intros H1 H2. apply (sim_bind (Ok e1) (λ _, m) e l1 l2 H1). by intros e2 [= <-]. Qed.

Lemma sim_then_silent m e e1 l : sim (Ok e1) e [] -> sim m e1 l -> sim m e l.
Proof. apply (sim_then m e e1 []). Qed.

Lemma sim_bind_read {A} (m : outcome A) (k : A -> outcome Ext) e l :
  (forall x, m = Ok x -> sim (k x) e l) -> sim (m ≫= k) e l.
Proof.
  intros Hk t a e' Hr. destruct m as [x|]; [|done]. cbn [mbind outcome_bind]. by apply Hk.
Qed.

(** One step of the machine. *)
Lemma sim_step e e' l : (forall t a, refines t e a -> exists a', astep a l a' /\ refines t e' a') ->
  sim (Ok e') e l.
Proof.
  intros Hstep t a e1 Hr [= <-]. destruct (Hstep t a Hr) as (a' & S1 & R1). exists a'.
  split; [by apply asteps_one|done].
Qed.

Lemma flow_rel_insert (m : gmap Z AFlow) (cs : gmap Z Conn) k x c :
  (forall k, flow_rel (m !! k) (cs !! k)) -> flow_rel (Some x) (Some c) ->
  forall k', flow_rel (<[k := x]> m !! k') (<[k := c]> cs !! k').
Proof.
  intros Hm Hx k'. destruct (base.decide (k = k')) as [<-|Hne].
  - by rewrite !lookup_insert_eq.
  - by rewrite !lookup_insert_ne.
Qed.

Lemma flow_rel_delete (m : gmap Z AFlow) (cs : gmap Z Conn) k :
  (forall k, flow_rel (m !! k) (cs !! k)) ->
  forall k', flow_rel (delete k m !! k') (delete k cs !! k').
Proof.
  intros Hm k'. destruct (base.decide (k = k')) as [<-|Hne].
  - by rewrite !lookup_delete_eq.
  - by rewrite !lookup_delete_ne.
Qed.

(** Replace an entry by one the machine does not tell from it. *)
Lemma sim_update e k c c' : _conns e !! k = Some c -> state c' = state c ->
  map _id (held c') = map _id (held c) ->
  sim (Ok (set_conns e (<[k := c']> (_conns e)))) e [].
Proof.
  intros Hc Hs Hh t a e' [F P O] [= <-]. exists a. split; [apply asteps_refl|].
  split; [|done|done]. intros k'. simpl. destruct (base.decide (k = k')) as [<-|Hne].
  - rewrite lookup_insert_eq. specialize (F k). rewrite Hc in F.
    destruct (a_flows a !! k) as [[ls|]|]; simpl in *; [|congruence|done].
    by rewrite Hs, Hh.
  - by rewrite lookup_insert_ne.
Qed.

Lemma sim_forget e k c : _conns e !! k = Some c -> state c = Block ->
  sim (Ok (set_conns e (delete k (_conns e)))) e [].
Proof.
  intros Hc Hs. apply sim_step. intros t a [F P O].
  eexists. split; [apply (a_forget a k)|].
  - specialize (F k). rewrite Hc in F.
    destruct (a_flows a !! k) as [[ls|]|]; simpl in F; [|done|done].
    destruct F as [F _]. congruence.
  - split; [by apply flow_rel_delete|done|done].
Qed.

Lemma refines_out t e a p v l : refines t e a -> l_id l = _id p ->
  map (λ x, (l_id x.1, x.2)) (a_out a ++ [(l, v)]) = map answer (t ++ _decided (decide e p v)).
Proof.
  intros [_ _ O] Hl. unfold decide. simpl. rewrite map_app, O, app_assoc, (map_app answer (_ ++ _)).
  simpl. by rewrite Hl.
Qed.

Lemma sim_pass e p : (forall k c, l_flow (label_of p) = Some k -> _conns e !! k = Some c ->
    state c = Block) ->
  sim (Ok (decide e p ALLOW)) e [label_of p].
Proof.
  intros Hw. apply sim_step. intros t a Hr. eexists. split; [apply (a_pass a (label_of p))|].
  - intros (k & ls & Hk & Ha). pose proof (rf_flows _ _ _ Hr k) as F. rewrite Ha in F. simpl in F.
    destruct (_conns e !! k) as [c|] eqn:Hc; [|done]. rewrite (Hw k c Hk Hc) in F. by destruct F.
  - pose proof (refines_out t e a p ALLOW (label_of p) Hr eq_refl) as Ho.
    destruct Hr as [F P O]. by split.
Qed.

Lemma sim_drop e k c p : _conns e !! k = Some c -> state c = Block ->
  (forall k', l_flow (label_of p) = Some k' -> k' = k) ->
  sim (Ok (decide e p BLOCK)) e [label_of p].
Proof.
  intros Hc Hs Hk. apply sim_step. intros t a Hr. eexists.
  split; [apply (a_drop a k (label_of p)); [|done]|].
  - pose proof (rf_flows _ _ _ Hr k) as F. rewrite Hc in F.
    destruct (a_flows a !! k) as [[ls|]|]; simpl in F; [|done|done]. destruct F. congruence.
  - pose proof (refines_out t e a p BLOCK (label_of p) Hr eq_refl) as Ho.
    destruct Hr as [F P O]. by split.
Qed.

(** ** The operations *)

(** What making room in the ring does to the flows: at most one blocked flow
    goes. *)
Definition may_forget e e' : Prop :=
  _decided e' = _decided e /\ _policy e' = _policy e /\
  (_conns e' = _conns e \/ exists k c, _conns e !! k = Some c /\ state c = Block /\
     _conns e' = delete k (_conns e)).

Lemma erase_blocked_forgets e v : may_forget e (erase_blocked e v).2.
Proof.
  unfold may_forget, erase_blocked. destruct (_conns e !! v) as [c|] eqn:Hc.
  - destruct (decide_rel (=) (state c) Block) as [Hs|].
    + split_and!; [done|done|]. right. exists v, c. by split_and!.
    + split_and!; auto.
  - split_and!; auto.
Qed.

Lemma remember_blocked_forgets e key e' : remember_blocked e key = Ok e' -> may_forget e e'.
Proof.
  unfold remember_blocked. destruct (ring_head e) as [v|]; [|done]. cbn [mbind outcome_bind].
  intros [= <-]. destruct (_ && _); [exact (erase_blocked_forgets e v)|].
  split_and!; auto.
Qed.

Lemma sim_may_forget e e' : may_forget e e' -> sim (Ok e') e [].
Proof.
  intros (Dd & P & [C|(k & c & Hc & Hs & C)]); [by apply sim_ok|].
  intros t a e1 Hr [= <-]. destruct (sim_forget e k c Hc Hs t a _ Hr eq_refl) as (a' & S1 & R1).
  exists a'. split; [done|]. eapply refines_view; [|exact R1]. by split_and!.
Qed.

Lemma evict_loop_forgets n e b e' : evict_loop n e = Ok (b, e') -> may_forget e e'.
Proof.
  revert e. induction n as [|n IH]; intros e; simpl.
  { intros [= <- <-]. split_and!; auto. }
  destruct (ring_head e) as [v|]; [|done]. cbn [mbind outcome_bind].
  set (e1 := ring_put e 0). assert (may_forget e1 e' -> may_forget e e') as H1 by done.
  destruct (v =? 0); [auto|].
  pose proof (erase_blocked_forgets e1 v) as Hv.
  destruct (erase_blocked e1 v) as [[] e2] eqn:He; simpl in Hv.
  - intros [= <- <-]. auto.
  - assert (e2 = e1) as ->; [|auto].
    unfold erase_blocked in He. destruct (_conns e1 !! v); [|by injection He].
    destruct (decide_rel _ _ _); [done|]. by injection He.
Qed.

(** Every held packet of a resolved flow gets the answer. *)
Lemma resolve_sim e key h : sim (resolve e key h) e [].
Proof.
  unfold resolve. destruct (_conns e !! key) as [c|] eqn:Hc; [|by apply sim_ok].
  destruct (state c) eqn:Hs; [|by apply sim_ok].
  destruct (_decide h (_policy e)) as [v d] eqn:Hd.
  intros t a e' Hr He'. pose proof (rf_flows _ _ _ Hr key) as Hk. rewrite Hc in Hk.
  destruct (a_flows a !! key) as [[ls|]|] eqn:Ha; simpl in Hk; [|congruence|done].
  destruct Hk as [_ Hls]. pose proof Hr as [F P O].
  assert (astep a [] (MkAState
    (match v with BLOCK => <[key := ABlock]> (a_flows a) | ALLOW => delete key (a_flows a) end)
    d (a_out a ++ map (λ l, (l, v)) ls))) as Hstep.
  { eapply a_resolve; [done|]. rewrite P. exact Hd. }
  assert (map (λ x, (l_id x.1, x.2)) (a_out a ++ map (λ l, (l, v)) ls) =
    map answer (t ++ _decided e ++ map (λ p, MkDecided p v) (held c))) as Hout.
  { rewrite map_app, O, app_assoc, (map_app answer (t ++ _)). f_equal. rewrite !map_map.
    unfold answer. simpl. rewrite <- (map_map l_id (λ i, (i, v))), Hls. by rewrite map_map. }
  destruct v; cbn [mbind outcome_bind] in He'.
  - rewrite decide_all_decided in He'. injection He' as <-.
    eexists. split; [by apply asteps_one|].
    destruct (_ && _); (split; simpl; [by apply flow_rel_delete|done|done]).
  - set (cb := MkConn Block [] [] (pcpp_key c) (pcpp_closed c) (last c)) in *.
    set (e0 := set_conns (set_policy e d) (<[key := cb]> (_conns (set_policy e d)))) in *.
    destruct (remember_blocked e0 key) as [e1|] eqn:Hm; [|done].
    apply remember_blocked_forgets in Hm. cbn [mbind outcome_bind] in He'.
    rewrite decide_all_decided in He'. injection He' as <-.
    set (e2 := set_decided e0 (_decided e ++ map (λ p, MkDecided p BLOCK) (held c))).
    assert (refines t e2 (MkAState (<[key := ABlock]> (a_flows a)) d
      (a_out a ++ map (λ l, (l, BLOCK)) ls))) as R2.
    { split; [|done|exact Hout]. by apply flow_rel_insert. }
    match goal with |- context[refines t ?x _] => set (e3 := x) end.
    assert (may_forget e2 e3) as Hf.
    { destruct Hm as (Dd & Pp & C). unfold may_forget, e3. simpl in *.
      destruct (_ && _); simpl; rewrite Dd; by split_and!. }
    destruct (sim_may_forget e2 e3 Hf t _ _ R2 eq_refl) as (a' & S1 & R1).
    exists a'. split; [|done]. change (@nil label) with (@nil label ++ []).
    by eapply asteps_cons.
Qed.

(** A resolved flow no longer waits. *)
Lemma resolve_settles e key h e' c : resolve e key h = Ok e' -> _conns e' !! key = Some c ->
  state c = Block.
Proof.
  unfold resolve. destruct (_conns e !! key) as [c0|] eqn:Hc; [|by intros [= <-]; rewrite Hc].
  destruct (state c0) eqn:Hs; [|by intros [= <-]; rewrite Hc; intros [= <-]].
  destruct (_decide h (_policy e)) as [[] d]; cbn [mbind outcome_bind].
  - rewrite decide_all_decided. intros [= <-]. simpl.
    destruct (_ && _); simpl; by rewrite lookup_delete_eq.
  - set (e0 := set_conns _ _). destruct (remember_blocked e0 key) as [e1|] eqn:Hm; [|done].
    apply remember_blocked_forgets in Hm as (_ & _ & C). cbn [mbind outcome_bind].
    rewrite decide_all_decided. intros [= <-]. simpl. intros Hk.
    assert (_conns e1 !! key = Some c) as Hk1 by (by destruct (_ && _)). clear Hk.
    destruct C as [C|(k & ck & _ & _ & C)]; rewrite C in Hk1; simpl in Hk1.
    + rewrite lookup_insert_eq in Hk1. by injection Hk1 as <-.
    + apply lookup_delete_Some in Hk1 as [_ Hk1]. rewrite lookup_insert_eq in Hk1.
      by injection Hk1 as <-.
Qed.

Lemma resolve_updated_sim e key c c' h : _conns e !! key = Some c -> state c' = state c ->
  held c' = held c -> sim (resolve (set_conns e (<[key := c']> (_conns e))) key h) e [].
Proof.
  intros Hc Hs Hh. apply (sim_bind_silent (Ok (set_conns e (<[key := c']> (_conns e))))
    (λ e, resolve e key h)).
  - apply (sim_update e key c); [done|done|]. by rewrite Hh.
  - intros e1 [= <-]. apply resolve_sim.
Qed.

Lemma callback_sim e cb : sim (callback e cb) e [].
Proof.
  destruct cb as [k|side data k|]; simpl.
  - unfold onConnectionStart. destruct (negb _); [by apply sim_ok|].
    destruct (_conns e !! _current_key e) as [c|] eqn:Hc; [|by apply sim_ok].
    by apply (sim_update e (_current_key e) c).
  - unfold onMessageReady. destruct (negb _); [by apply sim_ok|].
    destruct (negb _); [by apply sim_ok|].
    destruct (_conns e !! _current_key e) as [c|] eqn:Hc; [|by apply sim_ok].
    destruct (state c) eqn:Hs; [|by apply sim_ok]. cbv zeta.
    apply sim_bind_read. intros [r sc] _. cbn [fst snd].
    set (c1 := set_stream _ _).
    assert (forall h, sim (resolve (set_scratch (set_conns e (<[_current_key e := c1]> (_conns e))) sc)
      (_current_key e) h) e []) as Hres.
    { intros h. set (e0 := set_scratch e sc).
      change (set_scratch _ sc) with (set_conns e0 (<[_current_key e0 := c1]> (_conns e0))).
      apply (sim_from e e0); [by split_and!|]. by apply (resolve_updated_sim e0 _ c). }
    destruct r as [host| |]; [|apply Hres|].
    + apply sim_bind_read. intros h _. apply Hres.
    + destruct (_ <? _); [apply Hres|].
      eapply sim_then_silent; [by apply (sim_update e (_current_key e) c c1)|].
      by apply sim_ok.
  - unfold onConnectionEnd. destruct (negb _); [by apply sim_ok|].
    destruct (_conns e !! _current_key e) as [c|] eqn:Hc; [|by apply sim_ok].
    by apply (resolve_updated_sim e _ c).
Qed.

Lemma callbacks_sim e cbs : sim (callbacks e cbs) e [].
Proof.
  revert e. induction cbs as [|cb cbs IH]; intros e; simpl; [by apply sim_ok|].
  apply sim_bind_silent; [apply callback_sim|]. auto.
Qed.

Lemma run_pcpp_sim e rc : sim (run_pcpp e rc) e [].
Proof. unfold run_pcpp. eapply sim_from; [|apply callbacks_sim]. by split_and!. Qed.

Lemma drain_closes_sim e : sim (drain_closes e) e [].
Proof.
  unfold drain_closes. apply sim_bind_silent.
  - generalize (_to_close e) as l. intros l. revert e.
    induction l as [|t l IH]; intros e; simpl; [by apply sim_ok|].
    apply sim_bind_silent; [apply run_pcpp_sim|]. auto.
  - intros e1 _. by apply sim_ok.
Qed.

Lemma expire_all_sim e keys : sim (expire_all e keys) e [].
Proof.
  revert e. induction keys as [|key keys IH]; intros e; simpl; [by apply sim_ok|].
  apply sim_bind_silent; [|auto]. unfold expire.
  destruct (_conns e !! key) as [c|] eqn:Hc; [|by apply sim_ok].
  destruct (state c) eqn:Hs; [apply resolve_sim|]. by apply (sim_forget e key c).
Qed.

Lemma sweep_sim e now : sim (sweep e now) e [].
Proof.
  unfold sweep. cbv zeta. apply sim_bind_silent.
  { eapply sim_from; [|apply expire_all_sim]. by split_and!. }
  intros e1 _. apply sim_bind_silent; [apply run_pcpp_sim|].
  intros e2 _. apply sim_bind_silent; [apply drain_closes_sim|].
  intros e3 _. by apply sim_ok.
Qed.

Lemma tick_sim e now : sim (tick e now) e [].
Proof.
  unfold tick. destruct (_ <? _); [by apply sim_ok|].
  eapply sim_from; [|apply sweep_sim]. by split_and!.
Qed.

Lemma make_room_sim e now : sim (make_room e now) e [].
Proof.
  unfold make_room. destruct (_ <=? _)%nat; [|by apply sim_ok]. apply sim_bind_silent.
  { destruct (_ <=? _); [|by apply sim_ok]. eapply sim_from; [|apply sweep_sim]. by split_and!. }
  intros e1 _. destruct (_ <=? _)%nat; [|by apply sim_ok].
  destruct (evict_oldest_blocked e1) as [[b e2]|] eqn:He; [|by intros t a e']. cbn [mbind outcome_bind snd].
  apply sim_may_forget. by eapply evict_loop_forgets.
Qed.

(** *** One packet *)

Lemma map_id_release_back l : map _id (release_back l) = map _id l.
Proof.
  assert (forall x, map _id (map release_bytes x) = map _id x) as Hx
    by (intros x; by rewrite map_map).
  by rewrite <- (Hx (release_back l)), map_release_back, Hx.
Qed.

Lemma reassemble_hold_sim e k c p : _conns e !! k = Some c -> state c = Wait ->
  l_flow (label_of p) = Some k -> sim (reassemble e k p true) e [label_of p].
Proof.
  intros Hc Hs Hl. unfold reassemble. apply sim_bind_read. intros raw _. rewrite Hc. cbv zeta.
  set (e1 := set_conns e _).
  apply (sim_then _ e e1 [label_of p] []).
  - apply sim_step. intros t a [F P O]. pose proof (F k) as Fk. rewrite Hc in Fk.
    destruct (a_flows a !! k) as [[ls|]|] eqn:Ha; simpl in Fk; [|congruence|done].
    destruct Fk as [_ Hls]. eexists. split; [by eapply (a_withhold a k ls (label_of p))|].
    split; [|done|done]. apply flow_rel_insert; [done|]. simpl.
    rewrite !map_app, Hls. by split.
  - apply sim_bind_silent.
    { eapply sim_from; [|apply run_pcpp_sim]. by split_and!. }
    intros e3 _. apply sim_bind_silent.
    { eapply sim_from; [|apply drain_closes_sim]. by split_and!. }
    intros e4 _. destruct (_conns e4 !! k) as [c4|] eqn:H4; [|by apply sim_ok].
    apply (sim_update e4 k c4); [done|done|]. apply map_id_release_back.
Qed.

Lemma reassemble_pass_sim e k p : l_flow (label_of p) = None ->
  sim (reassemble e k p false) e [label_of p].
Proof.
  intros Hl. unfold reassemble. apply sim_bind_read. intros raw _. cbv zeta. apply sim_bind_silent.
  { eapply sim_from; [|apply run_pcpp_sim]. by split_and!. }
  intros e3 _. apply sim_bind_silent.
  { eapply sim_from; [|apply drain_closes_sim]. by split_and!. }
  intros e4 _. apply sim_pass. intros ??. by rewrite Hl.
Qed.

Lemma label_flow p f : flow_view p = Ok (true, f) -> has_bytes p = true ->
  ip_proto f = kProtoTcp ->
  l_flow (label_of p) = if 0 <? payload_len f then Some (key f) else None.
Proof. intros Hf Hb Hp. unfold label_of. simpl. by rewrite Hf, Hb, Hp. Qed.

Lemma feed_tracked_sim e now c f p : flow_view p = Ok (true, f) -> has_bytes p = true ->
  ip_proto f = kProtoTcp -> _conns e !! key f = Some c -> state c = Wait ->
  sim (feed_tracked e now (key f) c f p) e [label_of p].
Proof.
  intros Hf Hb Hp Hc Hs. pose proof (label_flow p f Hf Hb Hp) as Hl.
  unfold feed_tracked. set (c1 := set_last c now). cbv zeta. set (e1 := set_conns e _).
  apply (sim_then_silent _ e e1); [by apply (sim_update e (key f) c)|].
  destruct (_ <=? _)%nat.
  - apply sim_bind_silent; [apply resolve_sim|]. intros e2 He2. apply sim_pass.
    intros k c2. rewrite Hl. destruct (0 <? payload_len f); [|done]. intros [= <-].
    by apply (resolve_settles _ _ _ _ _ He2).
  - destruct (0 <? payload_len f); simpl negb; cbn [andb].
    + apply (reassemble_hold_sim e1 (key f) c1); [|done|done]. simpl. by rewrite lookup_insert_eq.
    + destruct (_ =? _); [|by apply reassemble_pass_sim]. apply sim_pass. intros ??. by rewrite Hl.
Qed.

Lemma feed_untracked_sim e now f p : Inv e -> quiet e -> now - _lastSweep e < kSweepInterval ->
  flow_view p = Ok (true, f) -> has_bytes p = true ->
  ip_proto f = kProtoTcp -> _conns e !! key f = None ->
  sim (feed_untracked e now (key f) f p) e [label_of p].
Proof.
  intros Hi Hq Hnow Hf Hb Hp Hc. pose proof (label_flow p f Hf Hb Hp) as Hl.
  assert (forall e1, _conns e1 !! key f = None -> sim (Ok (decide e1 p ALLOW)) e1 [label_of p])
    as Hpass.
  { intros e1 Hc1. apply sim_pass. intros k c. rewrite Hl. destruct (_ <? _); [|done].
    intros [= <-]. by rewrite Hc1. }
  unfold feed_untracked. apply sim_bind_read. intros opens _.
  destruct opens; simpl negb; cbv iota; [|by apply Hpass].
  apply sim_bind_silent; [apply make_room_sim|]. intros e1 H1.
  assert (_conns e1 !! key f = None) as Hc1.
  { destruct (make_room_spec e now Hi Hq Hnow) as (e1' & H1' & _ & _ & _ & _ & Hsub & _).
    rewrite H1 in H1'. injection H1' as <-. by eapply lookup_weaken_None. }
  destruct (_ <=? _)%nat.
  { eapply sim_from; [|by apply Hpass]. by split_and!. }
  set (e2 := set_conns e1 (<[key f := Conn_default]> (_conns e1))).
  assert (feed_tracked e1 now (key f) Conn_default f p =
          feed_tracked e2 now (key f) Conn_default f p) as ->.
  { unfold feed_tracked, e2. simpl _conns. rewrite insert_insert_eq. done. }
  apply (sim_then_silent _ e1 e2).
  - apply sim_step. intros t a [F P O]. pose proof (F (key f)) as Fk. rewrite Hc1 in Fk.
    destruct (a_flows a !! key f) as [[ls|]|] eqn:Ha; simpl in Fk; [done|done|].
    eexists. split; [by apply a_open|]. split; [|done|done]. by apply flow_rel_insert.
  - apply feed_tracked_sim; try done. unfold e2. simpl. by rewrite lookup_insert_eq.
Qed.

Lemma feed_flow_sim e now f p : Inv e -> quiet e -> now - _lastSweep e < kSweepInterval ->
  flow_view p = Ok (true, f) -> has_bytes p = true -> ip_proto f = kProtoTcp ->
  sim (feed_flow e now f p) e [label_of p].
Proof.
  intros Hi Hq Hnow Hf Hb Hp. unfold feed_flow.
  destruct (_conns e !! key f) as [c|] eqn:Hc; [|by apply feed_untracked_sim].
  destruct (state c) eqn:Hs; [by apply feed_tracked_sim|].
  set (e1 := set_conns e _).
  apply (sim_then_silent _ e e1); [by apply (sim_update e (key f) c)|].
  apply (sim_drop e1 (key f) (set_last c now)); [|done|].
  - unfold e1. simpl. by rewrite lookup_insert_eq.
  - intros k. rewrite (label_flow p f) by done. destruct (_ <? _); [|done]. by intros [= <-].
Qed.

Lemma feed_sim e now p : Inv e -> quiet e -> sim (feed e now p) e [label_of p].
Proof.
  intros Hi Hq. unfold feed. apply sim_bind_silent; [apply tick_sim|]. intros e1 Ht.
  destruct (tick_spec e now Hi Hq) as (e1' & Ht' & I1 & Q1 & _ & Hcase).
  rewrite Ht in Ht'. injection Ht' as <-.
  assert (now - _lastSweep e1 < kSweepInterval) as Hnow.
  { eapply lastSweep_after_tick; [exact Ht|]. naive_solver. }
  set (m := if negb (has_bytes p) then _ else _).
  assert (sim m e1 [label_of p]) as Hm.
  { subst m. destruct (has_bytes p) eqn:Hb; simpl negb; cbv iota.
    - apply sim_bind_read. intros [b f] Hf. cbn [fst snd].
      destruct b; simpl negb; cbn [orb].
      + destruct (Z.eqb_spec (ip_proto f) kProtoTcp) as [Hp|Hp]; simpl negb; cbv iota.
        * by apply feed_flow_sim.
        * apply sim_pass. intros ??. unfold label_of. simpl. rewrite Hf, Hb.
          by rewrite (proj2 (Z.eqb_neq _ _) Hp).
      + apply sim_pass. intros ??. unfold label_of. simpl. by rewrite Hf.
    - apply sim_pass. intros ??. unfold label_of. simpl.
      destruct (flow_view p) as [[[] f]|]; [by rewrite Hb|done|done]. }
  intros t a e' Hr. destruct m as [e2|] eqn:E; [|done]. simpl. intros [= <-].
  destruct (Hm t a e2 Hr eq_refl) as (a' & S1 & R1). exists a'. split; [done|].
  by eapply refines_view; [|exact R1].
Qed.

(** *** Shutdown *)

Lemma sim_clear e : (forall k c, _conns e !! k = Some c -> state c = Block) ->
  sim (Ok (set_conns e ∅)) e [].
Proof.
  remember (_conns e) as m eqn:Hm. revert e Hm.
  induction m as [|k c m Hk IH] using map_ind; intros e Hm Hb.
  { apply sim_ok. by split_and!. }
  eapply sim_then_silent.
  { apply (sim_forget e k c); [by rewrite <- Hm, lookup_insert_eq|].
    apply (Hb k). by rewrite lookup_insert_eq. }
  assert (delete k (_conns e) = m) as Hd by (by rewrite <- Hm, delete_insert_id).
  change (set_conns e ∅) with (set_conns (set_conns e (delete k (_conns e))) ∅).
  apply IH; [done|]. intros k' c' Hk'. apply (Hb k'). rewrite lookup_insert_ne; [done|].
  intros <-. congruence.
Qed.

Lemma flush_sim e : Inv e -> quiet e -> sim (flush e) e [].
Proof.
  intros Hi Hq. unfold flush. set (keys := map fst _). apply sim_bind_silent.
  { generalize keys as l. clear Hi Hq keys. intros l. revert e.
    induction l as [|k l IH]; intros e; simpl; [by apply sim_ok|].
    apply sim_bind_silent; [apply resolve_sim|]. auto. }
  intros e1 H1. destruct (resolve_all_spec e keys Hi Hq) as (e1' & H1' & _ & _ & _ & W1).
  rewrite H1 in H1'. injection H1' as <-.
  eapply sim_then_silent.
  - apply (sim_clear e1). intros k c Hk. destruct (state c) eqn:Hs; [|done].
    destruct (W1 k c Hk Hs) as [Hn Hk0]. destruct Hn. unfold keys.
    apply list_elem_of_fmap. exists (k, c). split; [done|].
    apply list_elem_of_In, filter_In. split; [|unfold is_blocked; simpl; by rewrite Hs].
    apply list_elem_of_In. by rewrite iter_perm, elem_of_map_to_list.
  - apply sim_bind_silent; [apply drain_closes_sim|]. intros e2 _. by apply sim_ok.
Qed.

(** *** Runs *)

Lemma run_op_sim t e o a e' out : Good e -> refines t e a -> run_op e o = Ok (e', out) ->
  exists a', asteps a (map label_of (fed_by o)) a' /\ refines (t ++ out) e' a'.
Proof.
  intros [Hi Hq _ _] Hr. destruct o as [now p|now| |]; simpl.
  - destruct (feed e now p) as [e1|] eqn:E; [|done]. cbn [mbind outcome_bind]. intros [= <- <-].
    rewrite app_nil_r. by apply (feed_sim e now p Hi Hq t a e1).
  - destruct (tick e now) as [e1|] eqn:E; [|done]. cbn [mbind outcome_bind]. intros [= <- <-].
    rewrite app_nil_r. by apply (tick_sim e now t a e1).
  - destruct (flush e) as [e1|] eqn:E; [|done]. cbn [mbind outcome_bind]. intros [= <- <-].
    rewrite app_nil_r. by apply (flush_sim e Hi Hq t a e1).
  - intros [= <- <-]. exists a. split; [apply asteps_refl|]. destruct Hr as [F P O].
    split; [done|done|]. simpl. by rewrite app_nil_r.
Qed.

Lemma run_sim t e ops a e' out : Good e -> Forall op_ok ops -> refines t e a ->
  run e ops = Ok (e', out) ->
  exists a', asteps a (map label_of (fed ops)) a' /\ refines (t ++ out) e' a'.
Proof.
  revert t e a out. induction ops as [|o ops IH]; intros t e a out Hg Hops Hr; simpl.
  { intros [= <- <-]. exists a. rewrite app_nil_r. split; [apply asteps_refl|done]. }
  destruct (Forall_cons_1 _ _ _ Hops) as [Ho Hops'].
  destruct (run_op_good e o Hg Ho) as (e1 & out1 & H1 & G1 & _). rewrite H1.
  cbn [mbind outcome_bind fst snd]. destruct (run e1 ops) as [[e2 out2]|] eqn:E2; [|done].
  cbn [mbind outcome_bind fst snd]. intros [= <- <-].
  destruct (run_op_sim t e o a e1 out1 Hg Hr H1) as (a1 & S1 & R1).
  destruct (IH (t ++ out1) e1 a1 out2 G1 Hops' R1 E2) as (a2 & S2 & R2).
  exists a2. rewrite app_assoc. split; [|done].
  change (fed (o :: ops)) with (fed_by o ++ fed ops). rewrite map_app. by eapply asteps_app.
Qed.

Definition a_init (d : D) : AState D := MkAState ∅ d [].

Lemma ctor_refines d r mf mb : refines [] (Extractor_ctor (D := D) (R := R) d r mf mb) (a_init d).
Proof. split; [|done|done]. intros k. simpl. by rewrite !lookup_empty. Qed.

End simulation.

(** ** What the machine satisfies *)

Section order.
  Context {D : Type} `{!Policy D}.
  Implicit Types a : AState D.

Definition of_flow (k : Z) (ls : list label) : list label := filter (λ l, l_flow l = Some k) ls.

Definition pending a (k : Z) : list label :=
  match a_flows a !! k with Some (AWait ls) => ls | _ => [] end.

(** After taking in [L]: what was answered of a flow, then what is withheld of
    it, is what arrived of it, in order. *)
Record Ordered (L : list label) a : Prop := {
  od_own k : Forall (λ l, l_flow l = Some k) (pending a k);
  od_sub l : l ∈ map fst (a_out a) -> l ∈ L;
  od_order k : of_flow k (map fst (a_out a)) ++ pending a k = of_flow k L
}.

Lemma of_flow_app k l1 l2 : of_flow k (l1 ++ l2) = of_flow k l1 ++ of_flow k l2.
Proof. unfold of_flow. apply list.filter_app. Qed.

Lemma of_flow_cons k l ls :
  of_flow k (l :: ls) = if base.decide (l_flow l = Some k) then l :: of_flow k ls else of_flow k ls.
Proof. unfold of_flow. by rewrite filter_cons. Qed.

Lemma of_flow_one k l : of_flow k [l] = if base.decide (l_flow l = Some k) then [l] else [].
Proof. unfold of_flow. by rewrite filter_cons, filter_nil. Qed.

Lemma of_flow_own k ls : Forall (λ l, l_flow l = Some k) ls -> of_flow k ls = ls.
Proof.
  unfold of_flow. induction 1 as [|l ls Hl _ IH]; [done|]. rewrite filter_cons, decide_True by done.
  by rewrite IH.
Qed.

Lemma of_flow_other k k' ls : k <> k' -> Forall (λ l, l_flow l = Some k') ls -> of_flow k ls = [].
Proof.
  intros Hne. unfold of_flow. induction 1 as [|l ls Hl _ IH]; [done|].
  rewrite filter_cons, decide_False by congruence. done.
Qed.

Lemma map_fst_pairs (ls : list label) (v : Verdict) : map fst (map (λ l, (l, v)) ls) = ls.
Proof. rewrite map_map. simpl. apply map_id. Qed.

(** A packet answered on arrival, while nothing of its flow is withheld. *)
Lemma answered_ordered L a l v : Ordered L a -> (forall k, l_flow l = Some k -> pending a k = []) ->
  Ordered (L ++ [l]) (MkAState (a_flows a) (a_policy a) (a_out a ++ [(l, v)])).
Proof.
  intros [Ow Su Or] Hl. split; simpl.
  - done.
  - intros x. rewrite map_app, !elem_of_app. intros [?|?]; [left; by apply Su|by right].
  - intros k. change (pending _ k) with (pending a k). rewrite map_app, !of_flow_app, <- Or.
    simpl. rewrite of_flow_one. destruct (base.decide _) as [Hk|]; [|by rewrite !app_nil_r].
    by rewrite (Hl k Hk), !app_nil_r.
Qed.

(** A change of the flow table that withholds nothing and lets nothing go. *)
Lemma unmoved_ordered L a fl :
  (forall k, pending (MkAState fl (a_policy a) (a_out a)) k = pending a k) ->
  Ordered L a -> Ordered L (MkAState fl (a_policy a) (a_out a)).
Proof. intros Hp [Ow Su Or]. split; [|done|]; intros k; rewrite Hp; auto. Qed.

(** What was withheld of flow [k] is answered. *)
Lemma settled_ordered L a fl d k ls v : Ordered L a -> pending a k = ls ->
  (forall k', pending (MkAState fl d (a_out a)) k' = if base.decide (k = k') then [] else pending a k') ->
  Ordered L (MkAState fl d (a_out a ++ map (λ l, (l, v)) ls)).
Proof.
  intros [Ow Su Or] Hls Hp. pose proof (Ow k) as Hok. rewrite Hls in Hok. split; simpl.
  - intros k'. change (pending _ k') with (pending (MkAState fl d (a_out a)) k'). rewrite Hp.
    destruct (base.decide _); [constructor|done].
  - intros x. rewrite map_app, map_fst_pairs, elem_of_app. intros [?|Hx]; [by apply Su|].
    assert (x ∈ of_flow k L) as Hin; [|by apply list_elem_of_filter in Hin as [_ ?]].
    rewrite <- Or, Hls. apply elem_of_app. by right.
  - intros k'. change (pending _ k') with (pending (MkAState fl d (a_out a)) k').
    rewrite Hp, map_app, map_fst_pairs, of_flow_app, <- Or. destruct (base.decide (k = k')) as [<-|Hne].
    + by rewrite (of_flow_own k ls Hok), app_nil_r, Hls.
    + rewrite (of_flow_other k' k ls) by (done || congruence). by rewrite app_nil_r.
Qed.

Lemma astep_ordered L a l a' : astep a l a' -> Ordered L a -> Ordered (L ++ l) a'.
Proof.
  intros Hstep Ho. destruct Hstep as [l Hw|k Hk|k ls l Hk Hl|k ls h v d Hk Hd|k l Hk Hl|k Hk].
  - apply answered_ordered; [done|]. intros k Hk. unfold pending.
    destruct (a_flows a !! k) as [[ls|]|] eqn:E; [|done|done]. destruct Hw. by exists k, ls.
  - rewrite app_nil_r. apply unmoved_ordered; [|done]. intros k'. unfold pending. simpl.
    destruct (base.decide (k = k')) as [<-|]; [by rewrite lookup_insert_eq, Hk|by rewrite lookup_insert_ne].
  - destruct Ho as [Ow Su Or].
    assert (forall k', pending (MkAState (<[k := AWait (ls ++ [l])]> (a_flows a)) (a_policy a) (a_out a)) k'
              = pending a k' ++ of_flow k' [l]) as Hp.
    { intros k'. rewrite of_flow_one, Hl. unfold pending. simpl.
      destruct (base.decide (k = k')) as [<-|Hne].
      - by rewrite lookup_insert_eq, Hk, decide_True.
      - rewrite lookup_insert_ne, decide_False by (done || congruence). by rewrite app_nil_r. }
    split; simpl.
    + intros k'. rewrite Hp. apply Forall_app. split; [done|]. rewrite of_flow_one.
      destruct (base.decide _); by repeat constructor.
    + intros x Hx. apply elem_of_app. left. by apply Su.
    + intros k'. by rewrite Hp, of_flow_app, app_assoc, Or.
  - rewrite app_nil_r. apply (settled_ordered L a _ d k); [done|unfold pending; by rewrite Hk|].
    intros k'. unfold pending. simpl. destruct (base.decide (k = k')) as [<-|].
    + destruct v; [by rewrite lookup_delete_eq|by rewrite lookup_insert_eq].
    + destruct v; [by rewrite lookup_delete_ne|by rewrite lookup_insert_ne].
  - apply answered_ordered; [done|]. intros k' Hk'. rewrite (Hl k' Hk'). unfold pending. by rewrite Hk.
  - rewrite app_nil_r. apply unmoved_ordered; [|done]. intros k'. unfold pending. simpl.
    destruct (base.decide (k = k')) as [<-|]; [by rewrite lookup_delete_eq, Hk|by rewrite lookup_delete_ne].
Qed.

Lemma asteps_ordered L a ls a' : asteps a ls a' -> Ordered L a -> Ordered (L ++ ls) a'.
Proof.
  intros Hs. revert L. induction Hs as [a|a l1 a1 l2 a2 H1 _ IH]; intros L Ho.
  - by rewrite app_nil_r.
  - rewrite app_assoc. apply IH. by eapply astep_ordered.
Qed.

Lemma init_ordered (d : D) : Ordered [] (a_init d).
Proof. split; simpl; [|set_solver|]; intros k; unfold pending; simpl; by rewrite lookup_empty. Qed.

End order.

(** ** Back to packets *)

(** The ids of the packets that carry data of flow [k]. *)
Definition segments (k : Z) (ps : list Packet) : list Z :=
  map _id (filter (λ p, l_flow (label_of p) = Some k) ps).

Lemma segments_labels k ps : segments k ps = map l_id (of_flow k (map label_of ps)).
Proof.
  unfold segments, of_flow. induction ps as [|p ps IH]; [done|].
  change (map label_of (p :: ps)) with (label_of p :: map label_of ps).
  rewrite !filter_cons. destruct (base.decide _); [|done]. exact (f_equal (cons (_id p)) IH).
Qed.

Lemma filter_segments k L ls : NoDup (map l_id L) -> (forall l, l ∈ ls -> l ∈ L) ->
  filter (.∈ map l_id (of_flow k L)) (map l_id ls) = map l_id (of_flow k ls).
Proof.
  intros Hnd. induction ls as [|x ls IH]; intros Hls; [done|].
  change (map l_id (x :: ls)) with (l_id x :: map l_id ls). rewrite of_flow_cons, filter_cons.
  assert (l_id x ∈ map l_id (of_flow k L) <-> l_flow x = Some k) as Hiff.
  { split.
    - intros (y & E & [Hy HyL]%list_elem_of_filter)%list_elem_of_fmap.
      assert (x = y) as ->; [|done]. apply (NoDup_map_inj l_id L); [done| |done|done].
      apply Hls. by left.
    - intros Hx. apply list_elem_of_fmap_2, list_elem_of_filter. split; [done|]. apply Hls. by left. }
  assert (filter (.∈ map l_id (of_flow k L)) (map l_id ls) = map l_id (of_flow k ls)) as E.
  { apply IH. intros l Hl. apply Hls. by right. }
  destruct (base.decide (l_flow x = Some k)) as [Hx|Hx].
  - rewrite decide_True by (by apply Hiff). exact (f_equal (cons (l_id x)) E).
  - rewrite decide_False by (by rewrite Hiff). exact E.
Qed.

(** * Properties *)

Section properties.
  Context {D R : Type} `{!Policy D} `{!Pcpp R} `{!MapOrder}.

(** C8: the extractor implements the machine of flows.  Every run, with any
    policy, reassembler and clock, returns and is a run of the machine that takes
    in the packets fed, in order: its flows are the entries of the table, in the
    same state and withholding the same packets, its policy is in the state that
    one question per resolved flow leaves it in, and the answers handed out are
    the machine's, in order. *)
Theorem extractor_refines_flow_machine d r mf mb ops : Forall op_ok ops ->
  exists e' out a, run (Extractor_ctor (D := D) (R := R) d r mf mb) ops = Ok (e', out) /\
    asteps (a_init d) (map label_of (fed ops)) a /\ refines out e' a.
Proof.
  intros Hops. destruct (run_good _ ops (Good_ctor d r mf mb) Hops) as (e' & out & Hrun & _).
  destruct (run_sim [] _ ops (a_init d) e' out (Good_ctor d r mf mb) Hops (ctor_refines d r mf mb) Hrun)
    as (a & Hs & Hr).
  by exists e', out, a.
Qed.

(** C10: the segments of a connection are never reordered.  When the packets fed
    have distinct ids, the segments that carry data of a flow come back in the
    order in which they were fed, and those not yet back are the ones its entry
    holds, in order; only packets without data may overtake them. *)
Theorem data_segments_in_order d r mf mb ops e' out k : Forall op_ok ops ->
  run (Extractor_ctor (D := D) (R := R) d r mf mb) ops = Ok (e', out) ->
  NoDup (map _id (fed ops)) ->
  filter (.∈ segments k (fed ops)) (map (λ x, _id (pkt x)) (out ++ _decided e')) ++
    default [] (map _id ∘ held <$> _conns e' !! k) = segments k (fed ops).
Proof.
  intros Hops Hrun Hnd.
  destruct (run_good _ ops (Good_ctor d r mf mb) Hops) as (e1 & o1 & H1 & [Hi _ _ _] & _).
  rewrite Hrun in H1. injection H1 as <- <-.
  destruct (run_sim [] _ ops (a_init d) e' out (Good_ctor d r mf mb) Hops (ctor_refines d r mf mb) Hrun)
    as (a & Hs & [F P O]).
  destruct (asteps_ordered [] _ _ _ Hs (init_ordered d)) as [_ Su Or]. simpl in Su, Or.
  assert (map (λ x, _id (pkt x)) (out ++ _decided e') = map l_id (map fst (a_out a))) as ->.
  { apply (f_equal (map fst)) in O. rewrite !map_map in O. simpl in O. by rewrite map_map, O. }
  rewrite segments_labels, filter_segments; [| |exact Su].
  2: { rewrite map_map. exact Hnd. }
  rewrite <- (Or k), map_app. f_equal. unfold pending. specialize (F k).
  destruct (a_flows a !! k) as [[ls|]|], (_conns e' !! k) as [c|] eqn:Hc; simpl in F |- *; try done.
  - by destruct F.
  - pose proof (inv_conn _ _ Hi k c Hc) as Hok. unfold Conn_ok in Hok. rewrite F in Hok.
    by destruct Hok as [-> _].
Qed.

End properties.

Lemma extractor_refines_flow_machine_witness :
  exists e' out a, run (demo_extractor 4 1) demo_ops = Ok (e', out) /\
    asteps (a_init 0%nat) (map label_of (fed demo_ops)) a /\ refines out e' a.
Proof.
  refine (extractor_refines_flow_machine 0%nat [] 4 1 demo_ops _). concrete.
Defined.

(** The blocked connection's segments 2, 3 and 4 are back in order; of the
    waiting one, segment 5 is held. *)
Lemma data_segments_in_order_witness :
  filter (.∈ [2; 3; 4]) (map (λ x, _id (pkt x)) (demo_out ++ _decided demo_state)) = [2; 3; 4] /\
  filter (.∈ [5]) (map (λ x, _id (pkt x)) (demo_out ++ _decided demo_state)) ++ [5] = [5].
Proof.
  assert (Forall op_ok demo_ops) as Hops by concrete.
  assert (run (demo_extractor 4 1) demo_ops = Ok (demo_state, demo_out)) as Hrun by concrete.
  assert (NoDup (map _id (fed demo_ops))) as Hnd by concrete.
  pose proof (λ k, data_segments_in_order 0%nat [] 4 1 demo_ops demo_state demo_out k Hops Hrun Hnd)
    as Ho.
  pose proof (Ho demo_blocked_key) as H1. pose proof (Ho demo_waiting_key) as H2.
  assert (segments demo_blocked_key (fed demo_ops) = [2; 3; 4]) as E1 by concrete.
  assert (segments demo_waiting_key (fed demo_ops) = [5]) as E2 by concrete.
  assert (default [] (map _id ∘ held <$> _conns demo_state !! demo_blocked_key) = []) as E3 by concrete.
  assert (default [] (map _id ∘ held <$> _conns demo_state !! demo_waiting_key) = [5]) as E4 by concrete.
  rewrite E1, E3, app_nil_r in H1. rewrite E2, E4 in H2. exact (conj H1 H2).
Defined.
