(* ===== verification/ExtractorCloses.v ===== *)
(** * When the reassembler's connections are closed

    [resolve] runs inside a callback of the reassembler and so only queues the
    close of its connection; [drain_closes] carries it out at a safe point.
    This file says which packets leave a close queued when [feed] returns, those
    that find their flow flooded, and how long it can stay there. *)
From S2P Require Import ClientHello ClientHelloSpec Packet PacketSpec Extractor ExtractorInv ExtractorSpec.

Section closes.
  Context {D R : Type} `{!Policy D} `{!Pcpp R} `{!MapOrder}.
  Abbreviation Ext := (Extractor D R).
  Implicit Types e : Ext.










(** * Properties *)


End closes.

(** ** A flooded flow *)











