(* ===== verification/ExtractorDecision.v ===== *)
(** * What a flow is decided on

    The stream of a flow is decided by [extractHostname] alone: how the
    reassembler cuts it into messages does not matter.  [feed_waits],
    [feed_decides] and [feed_passes] say what [feed] does with one packet of a
    flow that waits or is about to be tracked: with its segments, whether they
    leave the decision open or complete it, and with bare acknowledgements. *)
From S2P Require Import ClientHello ClientHelloSpec Packet PacketSpec Extractor ExtractorInv ExtractorSpec.

(** ** The decision on a stream *)

(** [None] while more bytes are needed, otherwise what the policy is asked. *)
Definition decision (s : bytes) : option (option bytes) :=
  match extractHostname s (zlen s) [] with
  | Ok (Found h, _) => Some (Some (span_bytes h))
  | Ok (NotFound, _) => Some None
  | _ => None
  end.

Lemma decision_stable s t d : zlen (s ++ t) < 4294967296 -> decision s = Some d ->
  decision (s ++ t) = Some d.
Proof.
  intros Hl. unfold decision.
  destruct (extractHostname s (zlen s) []) as [[r sc]|] eqn:E; [|done].
  intros Hd. destruct (extractHostname_stable_aux s t [] r sc Hl) as (r' & -> & Hr);
    [by destruct r|done|].
  destruct r as [h| |], r' as [h'| |]; try done. unfold result_bytes in Hr. simpl in Hr. congruence.
Qed.

Lemma decision_scratch s sc : zlen s < 4294967296 ->
  exists r sc', extractHostname s (zlen s) sc = Ok (r, sc') /\ on_found span_ok r /\
    decision s = match r with
                 | Found h => Some (Some (span_bytes h)) | NotFound => Some None | NeedMore => None
                 end.
Proof.
  intros Hl. destruct (extractHostname_ok s sc Hl) as (r & sc' & H1 & Hok).
  exists r, sc'. split_and!; [done|done|]. unfold decision.
  pose proof (extractHostname_scratch s (zlen s) sc []) as E. rewrite H1 in E.
  destruct (extractHostname s (zlen s) []) as [[r0 s0]|]; [|done]. simpl in E.
  injection E as <-. by destruct r.
Qed.

Lemma decision_hello h rs rest : wf_hello h -> zlen (enc_body h) <= 65535 ->
  payloads rs = enc_hello h -> Forall wf_record rs -> zlen (frames rs ++ rest) < 4294967296 ->
  decision (frames rs ++ rest) = Some (sni h).
Proof.
  intros Hwf Hb Hp Hrs Hl. unfold decision.
  destruct (extractHostname_framed h rs rest [] Hwf Hb Hp Hrs Hl) as (r & s & H1 & Hr).
  rewrite H1. unfold result_bytes, sni_result in Hr.
  destruct r, (sni h); simpl in Hr; congruence.
Qed.

Lemma decision_waits h rs p t : wf_hello h -> zlen (enc_body h) <= 65535 ->
  payloads rs = enc_hello h -> Forall wf_record rs -> p ++ t = frames rs -> t <> [] ->
  zlen (frames rs) < 4294967296 -> decision p = None.
Proof.
  intros Hwf Hb Hp Hrs Hpt Ht Hl.
  assert (34 <= zlen (enc_body h)).
  { pose proof (zlen_enc_hello h Hwf) as E. unfold enc_hello in E.
    rewrite zlen_hello_message in E. zlen_pose. lia. }
  destruct (collectHandshake_waits rs p t [] (enc_body h)) as (s & E); try done.
  { rewrite <- Hpt, zlen_app in Hl. zlen_pose. lia. }
  unfold decision, extractHostname. by rewrite E.
Qed.

Section decision.
  Context {D R : Type} `{!Policy D} `{!Pcpp R} `{!MapOrder}.
  Abbreviation Ext := (Extractor D R).
  Implicit Types e : Ext.

Lemma set_feeding_inv e key b : Inv e -> Inv (set_feeding (set_current_key e key) b).
Proof. by intros []. Qed.

(** The reassembler after the connections of [tokens] are closed. *)
Definition closed (r : R) (tokens : list Z) : R :=
  fold_left (λ r t, (closeConnection r t).1) tokens r.

(** When no callback is listened to, closing only moves the reassembler on. *)
Lemma drain_closes_closed e : _feeding e = false -> drain_closes e =
  Ok (set_to_close (set_reassembly e (closed (_reassembly e) (_to_close e))) []).
Proof.
  intros Hf. unfold drain_closes.
  assert (forall l e, _feeding e = false ->
    close_all e l = Ok (set_reassembly e (closed (_reassembly e) l))) as Hall.
  { intros l. induction l as [|t l IH]; intros e1 H1; simpl; [by destruct e1|].
    rewrite run_pcpp_idle by done. cbn [mbind outcome_bind]. rewrite IH by done. done. }
  by rewrite Hall.
Qed.

(** ** One message *)

(** The state in which a message of the flow is resolved: the entry has learnt
    the reassembler's key. *)
Definition learnt e (c : Conn) (k : Z) (sc : bytes) : Ext :=
  set_scratch (set_conns e (<[ _current_key e := set_pcpp_key c k ]> (_conns e))) sc.

Lemma onMessageReady_decision e c data k : _feeding e = true ->
  _conns e !! _current_key e = Some c -> state c = Wait ->
  zlen (stream c ++ data) < 4294967296 ->
  exists sc, onMessageReady e kClientSide data k =
    match decision (stream c ++ data) with
    | Some h => resolve (learnt e c k sc) (_current_key e) h
    | None =>
        if kMaxStreamBytes <? zlen (stream c ++ data)
        then resolve (learnt e c k sc) (_current_key e) None
        else Ok (set_scratch (set_conns e (<[ _current_key e :=
               set_stream (set_pcpp_key c k) (stream c ++ data) ]> (_conns e))) sc)
    end.
Proof.
  intros Hf Hc Hs Hl. unfold onMessageReady. rewrite Hf, Hc, Hs. cbn [negb]. simpl.
  set (s := stream c ++ data) in *. zlen_pose. unwrap.
  destruct (decision_scratch s (_hs_scratch e) Hl) as (r & sc & -> & Hok & ->).
  exists sc. cbn [mbind outcome_bind fst snd].
  assert (forall h, resolve (set_scratch (set_conns e (<[_current_key e :=
            set_stream (set_pcpp_key c k) s]> (_conns e))) sc) (_current_key e) h =
          resolve (learnt e c k sc) (_current_key e) h) as Hres.
  { intros h. unfold learnt.
    change (set_scratch (set_conns e ?m) sc) with (set_conns (set_scratch e sc) m).
    by apply (resolve_insert (set_scratch e sc)). }
  destruct r as [h| |]; simpl.
  - destruct Hok. rewrite rd_range_ok by lia. cbn [mbind outcome_bind]. apply Hres.
  - apply Hres.
  - by rewrite Hres.
Qed.

Lemma learnt_inv e c k sc : Inv e -> _conns e !! _current_key e = Some c ->
  Inv (learnt e c k sc) /\ _conns (learnt e c k sc) !! _current_key e = Some (set_pcpp_key c k).
Proof.
  intros Hi Hc. pose proof (inv_conn _ _ Hi _ _ Hc) as Hok.
  destruct (update_runs e (_current_key e) c (set_pcpp_key c k)) as [I1 _]; try done.
  split; [by destruct I1|]. simpl. apply lookup_insert_eq.
Qed.

(** ** The callbacks of one connection *)

(** A callback of the connection [k], which goes on: its start, or a message in
    either direction. *)
Definition own_callback (k : Z) (cb : Callback) : Prop :=
  match cb with ConnectionStart j | MessageReady _ _ j => j = k | ConnectionEnd => False end.

(** The bytes of the client that they deliver. *)
Definition client_bytes (cb : Callback) : bytes :=
  match cb with MessageReady side data _ => if side =? kClientSide then data else [] | _ => [] end.
Definition client_data (cbs : list Callback) : bytes := concat (map client_bytes cbs).

(** Whether a waiting flow learns the connection's key from them. *)
Definition tells_key (cb : Callback) : bool :=
  match cb with ConnectionStart _ => true | MessageReady side _ _ => side =? kClientSide | ConnectionEnd => false end.
Definition key_after (k : Z) (c : Conn) (cbs : list Callback) : Z :=
  if existsb tells_key cbs then k else pcpp_key c.

(** A flow that waits and has been given [data] waits on. *)
Definition given (c : Conn) (k : Z) (data : bytes) : Conn :=
  MkConn Wait (held c) (stream c ++ data) k (pcpp_closed c) (last c).

Lemma decision_prefix (s t : bytes) : zlen (s ++ t) <= kMaxStreamBytes -> decision (s ++ t) = None -> decision s = None.
Proof.
  intros Hl Hn. destruct (decision s) as [d|] eqn:E; [|done].
  rewrite (decision_stable s t d) in Hn; [done|unfold kMaxStreamBytes in *; lia|done].
Qed.

Lemma stream_prefix (s t : bytes) : zlen (s ++ t) <= kMaxStreamBytes -> zlen s <= kMaxStreamBytes.
Proof. rewrite zlen_app. zlen_pose. lia. Qed.

Lemma message_ignored e side data k : side <> kClientSide -> onMessageReady e side data k = Ok e.
Proof. intros Hs. unfold onMessageReady. rewrite (proj2 (Z.eqb_neq _ _) Hs). by destruct (_feeding e). Qed.

Lemma start_told e c k : _feeding e = true -> _conns e !! _current_key e = Some c ->
  onConnectionStart e k = Ok (set_conns e (<[ _current_key e := set_pcpp_key c k ]> (_conns e))).
Proof. intros Hf Hc. unfold onConnectionStart. by rewrite Hf, Hc. Qed.

(** As long as the stream is undecided they are only taken in. *)
Lemma callbacks_wait k cbs : forall e c, _feeding e = true ->
  _conns e !! _current_key e = Some c -> state c = Wait -> Forall (own_callback k) cbs ->
  zlen (stream c ++ client_data cbs) <= kMaxStreamBytes -> decision (stream c ++ client_data cbs) = None ->
  exists sc, callbacks e cbs = Ok (set_scratch (set_conns e
    (<[ _current_key e := given c (key_after k c cbs) (client_data cbs) ]> (_conns e))) sc).
Proof.
  induction cbs as [|cb cbs IH]; intros e c Hf Hc Hs Ho Hl Hd.
  { exists (_hs_scratch e). unfold given, key_after. simpl. rewrite app_nil_r, <- Hs.
    rewrite insert_id by (rewrite Hc; by destruct c). by destruct e. }
  apply Forall_cons_1 in Ho as [Ho1 Ho].
  change (client_data (cb :: cbs)) with (client_bytes cb ++ client_data cbs) in *.
  rewrite app_assoc in Hl, Hd. pose proof (stream_prefix _ _ Hl) as Hl1. pose proof (decision_prefix _ _ Hl Hd) as Hd1.
  assert (forall sc1 k1, callback e cb = Ok (set_scratch (set_conns e
      (<[ _current_key e := given c k1 (client_bytes cb) ]> (_conns e))) sc1) ->
    key_after k (given c k1 (client_bytes cb)) cbs = key_after k c (cb :: cbs) ->
    exists sc, callbacks e (cb :: cbs) = Ok (set_scratch (set_conns e
      (<[ _current_key e := given c (key_after k c (cb :: cbs)) (client_bytes cb ++ client_data cbs) ]> (_conns e))) sc))
    as Hnext.
  { intros sc1 k1 H1 Hk. set (e1 := set_scratch _ sc1) in H1.
    destruct (IH e1 (given c k1 (client_bytes cb))) as (sc & H2); try done; [apply lookup_insert_eq|].
    exists sc. cbn [callbacks]. rewrite H1. cbn [mbind outcome_bind]. rewrite H2, Hk.
    unfold e1, set_scratch, set_conns. simpl. rewrite insert_insert_eq. unfold given. simpl. by rewrite <- app_assoc. }
  destruct cb as [j|side data j|]; [| |done]; simpl in Ho1; subst j.
  - apply (Hnext (_hs_scratch e) k); [|unfold key_after; simpl; by destruct (existsb _ _)].
    simpl. rewrite (start_told e c k Hf Hc). unfold given, set_pcpp_key. simpl. by rewrite app_nil_r, Hs.
  - simpl in Hl1, Hd1. destruct (Z.eqb_spec side kClientSide) as [->|Hside].
    + destruct (onMessageReady_decision e c data k Hf Hc Hs) as (sc & Hm); [unfold kMaxStreamBytes in *; lia|].
      rewrite Hd1, (proj2 (Z.ltb_ge kMaxStreamBytes _)) in Hm by done.
      apply (Hnext sc k); [|unfold key_after; simpl; by destruct (existsb _ _)].
      simpl. rewrite Hm. unfold given, set_pcpp_key, set_stream. simpl. by rewrite Hs.
    + rewrite app_nil_r in *.
      apply (Hnext (_hs_scratch e) (pcpp_key c)); simpl.
      * rewrite message_ignored by done. rewrite (proj2 (Z.eqb_neq _ _) Hside). unfold given.
        rewrite app_nil_r, <- Hs, insert_id by (rewrite Hc; by destruct c). by destruct e.
      * unfold key_after. simpl. by rewrite (proj2 (Z.eqb_neq _ _) Hside).
Qed.

(** Once the flow is decided they are ignored. *)
Lemma callbacks_ignored k cbs e : (forall c, _conns e !! _current_key e = Some c -> state c = Block /\ pcpp_key c = k) ->
  Forall (own_callback k) cbs -> callbacks e cbs = Ok e.
Proof.
  intros Hb. induction 1 as [|cb cbs Ho _ IH]; [done|]. cbn [callbacks].
  assert (callback e cb = Ok e) as ->; [|done].
  destruct cb as [j|side data j|]; [| |done]; simpl in *; subst j.
  - unfold onConnectionStart. destruct (negb _); [done|].
    destruct (_conns e !! _current_key e) as [c|] eqn:Hc; [|done]. destruct (Hb c eq_refl) as [_ <-].
    rewrite insert_id by (rewrite Hc; by destruct c). by destruct e.
  - unfold onMessageReady. destruct (negb _); [done|]. destruct (negb _); [done|].
    destruct (_conns e !! _current_key e) as [c|]; [|done]. by destruct (Hb c eq_refl) as [-> _].
Qed.

(** When they complete the decision it is taken once, and the rest is ignored. *)
Lemma callbacks_decide k cbs : forall e c h v d, Inv e -> _feeding e = true ->
  _conns e !! _current_key e = Some c -> state c = Wait -> Forall (own_callback k) cbs ->
  zlen (stream c ++ client_data cbs) <= kMaxStreamBytes -> decision (stream c) = None ->
  decision (stream c ++ client_data cbs) = Some h -> _decide h (_policy e) = (v, d) ->
  exists e', callbacks e cbs = Ok e' /\ Inv e' /\ _policy e' = d /\
    _decided e' = _decided e ++ map (λ p, MkDecided p v) (held c) /\
    _conns e' !! _current_key e =
      (if base.decide (v = BLOCK)
       then Some (MkConn Block [] [] k (pcpp_closed c) (last c)) else None).
Proof.
  induction cbs as [|cb cbs IH]; intros e c h v d Hi Hf Hc Hs Ho Hl Hn Hd Hv.
  { simpl in Hd. rewrite app_nil_r in Hd. congruence. }
  apply Forall_cons_1 in Ho as [Ho1 Ho].
  change (client_data (cb :: cbs)) with (client_bytes cb ++ client_data cbs) in *.
  rewrite app_assoc in Hl, Hd. pose proof (stream_prefix _ _ Hl) as Hl1.
  assert (kMaxStreamBytes < 4294967296) by done. cbn [callbacks].
  destruct cb as [j|side data j|]; [| |done]; simpl in Ho1; subst j; cbn [callback client_bytes] in *.
  - rewrite (start_told e c k Hf Hc). cbn [mbind outcome_bind].
    destruct (learnt_inv e c k (_hs_scratch e) Hi Hc) as [I1 L1]. rewrite app_nil_r in Hl, Hd.
    destruct (IH (set_conns e (<[_current_key e := set_pcpp_key c k]> (_conns e))) (set_pcpp_key c k) h v d)
      as (e2 & -> & I2 & P2 & D2 & E2); try done. by exists e2.
  - destruct (Z.eqb_spec side kClientSide) as [->|Hside].
    2: { rewrite message_ignored by done. cbn [mbind outcome_bind]. rewrite app_nil_r in Hl, Hd. by apply (IH e c h). }
    destruct (onMessageReady_decision e c data k Hf Hc Hs) as (sc & Hm); [lia|]. rewrite Hm.
    destruct (decision (stream c ++ data)) as [h'|] eqn:Hdx.
    + assert (h' = h) as -> by (apply (decision_stable _ (client_data cbs)) in Hdx; [congruence|lia]).
      destruct (learnt_inv e c k sc Hi Hc) as [I1 L1].
      destruct (resolve_wait (learnt e c k sc) (_current_key e) (set_pcpp_key c k) h v d I1 L1 Hs Hv)
        as (e1 & -> & [I2 [_ _ _ _ [_ Hk1] _] D2 P2 E2 _ _ _ _]). cbn [mbind outcome_bind].
      simpl in Hk1. rewrite (callbacks_ignored k); [|intros c1; rewrite Hk1, E2; destruct v; [done|by intros [= <-]]|done].
      exists e1. split_and!; try done. rewrite E2. by destruct v.
    + rewrite (proj2 (Z.ltb_ge kMaxStreamBytes _)) by done. cbn [mbind outcome_bind].
      set (c1 := set_stream (set_pcpp_key c k) (stream c ++ data)). set (e1 := set_scratch _ sc).
      pose proof (inv_conn _ _ Hi _ _ Hc) as Hok.
      destruct (update_runs e (_current_key e) c c1) as [I1 _]; try done.
      { unfold Conn_ok in *. simpl. rewrite Hs in *. destruct Hok. by split. }
      destruct (IH e1 c1 h v d) as (e2 & -> & I2 & P2 & D2 & E2); try done; [by destruct I1| |by exists e2].
      simpl. apply lookup_insert_eq.
Qed.

(** ** One fed packet *)

(** A TCP packet of the flow [key], with its view. *)
Definition own_packet (key : Z) (f : FlowView) (p : Packet) : Prop :=
  readable p /\ has_bytes p = true /\ flow_view p = Ok (true, f) /\ ip_proto f = kProtoTcp /\ Packet.key f = key.

(** It is held, and it is given to the reassembler. *)
Definition carries (f : FlowView) : bool := 0 <? payload_len f.
Definition enters (f : FlowView) : bool :=
  carries f || negb (Z.land (tcp_flags f) (Z.lor kTcpSyn (Z.lor kTcpFin kTcpRst)) =? 0).

(** It starts the tracking of its flow. *)
Definition opening (f : FlowView) : Prop :=
  (if isClientSyn f then Ok true else opensTlsHandshake (payload f) (payload_len f)) = Ok true.

(** No sweep is due at [now]. *)
Definition soon e (now : Z) : Prop := now - _lastSweep e < kSweepInterval.

(** [c] is the entry of the flow, or the new one that it gets. *)
Definition entry_for e (key : Z) (f : FlowView) (c : Conn) : Prop := state c = Wait /\
  (_conns e !! key = Some c \/
   (_conns e !! key = None /\ c = Conn_default /\ (size (_conns e) < _max_flows e)%nat) /\ opening f).

Lemma feed_own e now key f c p : own_packet key f p -> soon e now -> entry_for e key f c ->
  feed e now p = publish <$> feed_tracked e now key c f p.
Proof.
  intros (Hr & Hb & Hf & Hp & <-) Hnow [Hs Hc]. unfold feed, tick. rewrite (proj2 (Z.ltb_lt _ _) Hnow).
  cbn [mbind outcome_bind]. rewrite Hb, Hf. cbn [mbind outcome_bind negb fst snd]. rewrite Hp.
  cbn [Z.eqb Pos.eqb kProtoTcp negb orb]. unfold feed_flow.
  destruct Hc as [Hc|[(Hc & -> & Hsz) Ho]]; rewrite Hc; [by rewrite Hs|].
  unfold feed_untracked. rewrite Ho. cbn [mbind outcome_bind negb].
  unfold make_room. rewrite (proj2 (Nat.leb_gt _ _) Hsz). cbn [mbind outcome_bind].
  by rewrite (proj2 (Nat.leb_gt _ _) Hsz).
Qed.

(** What the flow holds of it, and what is decided at once. *)
Definition held_of (f : FlowView) (p : Packet) : list Packet := if carries f then [p] else [].
Definition passed_of (f : FlowView) (p : Packet) : list Decided := if carries f then [] else [MkDecided p ALLOW].

(** The state in which the reassembler's callbacks for it run. *)
Definition entered e (now key : Z) (c : Conn) (f : FlowView) (p : Packet) (r : R) : Ext :=
  set_reassembly (set_feeding (set_current_key
    (set_conns e (<[key := set_held (set_last c now) (held c ++ held_of f p)]> (_conns e))) key) true) r.

Lemma entered_inv e now key f c p r : Inv e -> quiet e -> entry_for e key f c ->
  (length (held c) < kMaxPacketsPerConn)%nat -> Inv (entered e now key c f p r).
Proof.
  intros Hi Hq [Hs Hc] Hh.
  destruct (touch_keep e key c now Hi Hq Hs) as (I1 & _ & _ & L1); [by destruct Hc as [?|[??]]; [left|right]|].
  assert (Inv (set_conns e (<[key := set_held (set_last c now) (held c ++ held_of f p)]> (_conns e)))) as I2.
  { apply (set_held_inv _ key (set_last c now) (held c ++ held_of f p)) in I1; [|done| |simpl; congruence].
    - simpl in I1. by rewrite insert_insert_eq in I1.
    - intros _. rewrite length_app. unfold held_of. destruct (carries f); simpl; lia. }
  by destruct I2.
Qed.

Lemma feed_entered e now key f c p raw r cbs : own_packet key f p -> soon e now -> entry_for e key f c ->
  enters f = true -> (length (held c) < kMaxPacketsPerConn)%nat -> raw_packet p = Ok raw ->
  reassemblePacket (_reassembly e) raw = (r, cbs) ->
  feed e now p = publish <$>
    (e1 ← callbacks (entered e now key c f p r) cbs;
     e2 ← drain_closes (set_feeding e1 false);
     if carries f then
       match _conns e2 !! key with
       | Some c => Ok (set_conns e2 (<[key := set_held c (release_back (held c))]> (_conns e2)))
       | None => Ok e2
       end
     else Ok (decide e2 p ALLOW)).
Proof.
  intros Hp Hnow Hc He Hh Hraw Hre. rewrite (feed_own e now key f c p) by done.
  unfold feed_tracked. cbn [held set_last]. rewrite (proj2 (Nat.leb_gt _ _)) by done.
  unfold enters in He. change (0 <? payload_len f) with (carries f).
  assert (negb (carries f) && (Z.land (tcp_flags f) (Z.lor kTcpSyn (Z.lor kTcpFin kTcpRst)) =? 0) = false) as ->
    by (destruct (carries f), (_ =? 0); done).
  unfold reassemble. rewrite Hraw. cbn [mbind outcome_bind]. unfold entered, held_of.
  destruct (carries f); simpl; rewrite ?lookup_insert_eq; simpl; rewrite Hre; unfold run_pcpp; simpl;
    rewrite ?insert_insert_eq, ?app_nil_r; [done|].
  by destruct c.
Qed.

(** It leaves the decision open: what it carries is held, as a shell. *)
Lemma feed_waits e now key f c p raw r k cbs : Inv e -> quiet e -> own_packet key f p -> soon e now ->
  entry_for e key f c -> enters f = true -> (length (held c) < kMaxPacketsPerConn)%nat ->
  raw_packet p = Ok raw -> reassemblePacket (_reassembly e) raw = (r, cbs) ->
  Forall (own_callback k) cbs -> zlen (stream c ++ client_data cbs) <= kMaxStreamBytes ->
  decision (stream c ++ client_data cbs) = None ->
  exists e', feed e now p = Ok e' /\ _to_close e' = [] /\ _reassembly e' = closed r (_to_close e) /\
    _feeding e' = false /\ _decided e' = _decided e ++ passed_of f p /\
    _conns e' = <[key := MkConn Wait (held c ++ map release_bytes (held_of f p)) (stream c ++ client_data cbs)
                           (key_after k c cbs) (pcpp_closed c) now]> (_conns e).
Proof.
  intros Hi Hq Hp Hnow Hc He Hh Hraw Hre Ho Hl Hd.
  rewrite (feed_entered e now key f c p raw r cbs) by done.
  set (en := entered e now key c f p r). set (c1 := set_held (set_last c now) (held c ++ held_of f p)).
  destruct (callbacks_wait k cbs en c1) as (sc & H1); try done; [apply lookup_insert_eq|apply Hc|].
  rewrite H1. cbn [mbind outcome_bind]. rewrite drain_closes_closed by done. simpl.
  unfold passed_of, held_of in *. destruct (carries f); simpl; rewrite ?lookup_insert_eq; simpl.
  - eexists; split; [done|]. simpl. rewrite !insert_insert_eq, release_back_snoc, app_nil_r. by split_and!.
  - eexists; split; [done|]. simpl. rewrite !insert_insert_eq. unfold given, key_after. simpl. by rewrite app_nil_r.
Qed.

(** It completes the decision: what it carries gets the verdict with the held
    ones. *)
Lemma feed_decides e now key f c p raw r k cbs h v d : Inv e -> quiet e -> own_packet key f p -> soon e now ->
  entry_for e key f c -> enters f = true -> (length (held c) < kMaxPacketsPerConn)%nat ->
  raw_packet p = Ok raw -> reassemblePacket (_reassembly e) raw = (r, cbs) ->
  Forall (own_callback k) cbs -> zlen (stream c ++ client_data cbs) <= kMaxStreamBytes ->
  decision (stream c) = None -> decision (stream c ++ client_data cbs) = Some h ->
  _decide h (_policy e) = (v, d) ->
  exists e', feed e now p = Ok e' /\
    _decided e' = _decided e ++ map (λ p, MkDecided p v) (held c ++ held_of f p) ++ passed_of f p.
Proof.
  intros Hi Hq Hp Hnow Hc He Hh Hraw Hre Ho Hl Hn Hd Hv.
  rewrite (feed_entered e now key f c p raw r cbs) by done.
  set (en := entered e now key c f p r). set (c1 := set_held (set_last c now) (held c ++ held_of f p)).
  destruct (callbacks_decide k cbs en c1 h v d) as (e1 & -> & I1 & _ & D1 & E1); try done;
    [by apply entered_inv|apply lookup_insert_eq|apply Hc|]. cbn [mbind outcome_bind].
  rewrite drain_closes_closed by done. simpl. simpl in D1. change (_current_key en) with key in E1.
  unfold passed_of, held_of in *. destruct (carries f).
  - rewrite E1, app_nil_r. destruct (base.decide (v = BLOCK)); (eexists; split; [done|exact D1]).
  - rewrite app_nil_r in *. eexists; split; [done|]. simpl. by rewrite D1, <- app_assoc.
Qed.

(** A bare acknowledgement: it is let through, and the flow is not idle. *)
Lemma feed_passes e now key f c p : own_packet key f p -> soon e now -> _conns e !! key = Some c ->
  state c = Wait -> enters f = false -> (length (held c) < kMaxPacketsPerConn)%nat ->
  feed e now p = Ok (publish (decide (set_conns e (<[key := set_last c now]> (_conns e))) p ALLOW)).
Proof.
  intros Hp Hnow Hc Hs He Hh. rewrite (feed_own e now key f c p) by (try done; by split; [|left]).
  unfold feed_tracked. cbn [held set_last]. rewrite (proj2 (Nat.leb_gt _ _)) by done.
  apply orb_false_elim in He as [He1 He2]. change (0 <? payload_len f) with (carries f).
  rewrite He1. apply negb_false_iff in He2. by rewrite He2.
Qed.

End decision.

(** * Properties *)

Section properties.
  Context {D R : Type} `{!Policy D} `{!Pcpp R} `{!MapOrder}.
  Abbreviation Ext := (Extractor D R).
  Implicit Types e : Ext.

(** C15: the decision does not depend on how a stream of at most 32 KiB is cut.
    However the reassembler splits the client's bytes into messages, and whatever it
    reports of the other direction in between, a flow not decided so far and whose
    whole stream is decided with the name [h] is resolved with the policy's answer
    for [h], which is asked exactly once; everything held gets that verdict.  (A
    longer stream may be given up at a cut that leaves it undecided above
    [kMaxStreamBytes].) *)
Theorem decision_chunk_independent e c k cbs h v d : Inv e -> _feeding e = true ->
  _conns e !! _current_key e = Some c -> state c = Wait -> Forall (own_callback k) cbs ->
  zlen (stream c ++ client_data cbs) <= kMaxStreamBytes -> decision (stream c) = None ->
  decision (stream c ++ client_data cbs) = Some h -> _decide h (_policy e) = (v, d) ->
  exists e', callbacks e cbs = Ok e' /\ Inv e' /\ _policy e' = d /\
    _decided e' = _decided e ++ map (λ p, MkDecided p v) (held c) /\
    _conns e' !! _current_key e =
      (if base.decide (v = BLOCK)
       then Some (MkConn Block [] [] k (pcpp_closed c) (last c)) else None).
Proof. apply callbacks_decide. Qed.

End properties.

(** ** Witness *)

Definition demo_feeding : Extractor nat (list Z) :=
  set_feeding (set_current_key demo_state demo_waiting_key) true.

Lemma decision_chunk_independent_witness :
  exists e', callbacks demo_feeding
      [MessageReady 0 (take 3 (drop 30 demo_blocked_hello)) 9; MessageReady 1 (str "reply") 9;
       MessageReady 0 (drop 33 demo_blocked_hello) 9] = Ok e' /\
    Inv e' /\ _policy e' = 2%nat.
Proof.
  destruct (decision_chunk_independent demo_feeding (demo_conn demo_waiting_key) 9
    [MessageReady 0 (take 3 (drop 30 demo_blocked_hello)) 9; MessageReady 1 (str "reply") 9;
     MessageReady 0 (drop 33 demo_blocked_hello) 9]
    (Some (str "blocked.example")) BLOCK 2%nat) as (e' & H1 & I1 & P1 & _);
    [| |concrete|concrete| |concrete..|].
  - exact (set_feeding_inv demo_state demo_waiting_key true (proj1 demo_state_good)).
  - concrete.
  - repeat (apply Forall_cons; [concrete|]). apply Forall_nil.
  - exists e'. exact (conj H1 (conj I1 P1)).
Defined.
