(* ===== verification/ExtractorTypes.v ===== *)
(** * Types of the extractor's state

    The integers of the model are unbounded; the members of the class are not.
    [Typed] says that each member holds a value of its C++ type, and every
    operation keeps it, for any policy and for any reassembler whose flow keys
    are 32-bit values, as PcapPlusPlus' are. *)
From S2P Require Import Prelude ClientHello Packet PacketSpec Extractor ExtractorInv ExtractorSpec.

Definition uint32 (x : Z) : Prop := 0 <= x < 4294967296.
Definition uint64 (x : Z) : Prop := 0 <= x < 18446744073709551616.

(** A reading of the steady clock: 63 bits of nanoseconds since its epoch. *)
Definition time_point (t : Z) : Prop := 0 <= t < 9223372036854775808.

(** A difference of two, as [std::chrono] computes it. *)
Definition int64 (x : Z) : Prop := -9223372036854775808 <= x < 9223372036854775808.

#[export] Instance uint32_dec x : Decision (uint32 x).
Proof. unfold uint32. apply _. Defined.
#[export] Instance time_point_dec x : Decision (time_point x).
Proof. unfold time_point. apply _. Defined.

Definition Packet_typed (p : Packet) : Prop := uint32 (_len p) /\ uint32 (_id p).

#[export] Instance Packet_typed_dec p : Decision (Packet_typed p).
Proof. unfold Packet_typed. apply _. Defined.

Definition Conn_typed (c : Conn) : Prop :=
  Forall Packet_typed (held c) /\ uint32 (pcpp_key c) /\ time_point (last c).

Definition Table_typed (m : gmap Z Conn) : Prop := map_Forall (λ k c, uint32 k /\ Conn_typed c) m.

Definition callback_typed (cb : Callback) : Prop :=
  match cb with ConnectionStart k | MessageReady _ _ k => uint32 k | ConnectionEnd => True end.

Definition op_typed (o : op) : Prop :=
  match o with
  | Feed now p => time_point now /\ Packet_typed p
  | Tick now => time_point now
  | Flush | Drain => True
  end.

#[export] Instance op_typed_dec o : Decision (op_typed o).
Proof. destruct o; simpl; apply _. Defined.

Lemma time_difference t1 t2 : time_point t1 -> time_point t2 -> int64 (t1 - t2).
Proof. unfold time_point, int64. lia. Qed.

Section types.
  Context {D R : Type} `{!Policy D} `{!Pcpp R} `{!MapOrder}.
  Abbreviation Ext := (Extractor D R).
  Implicit Types e : Ext.

Record Typed e : Prop := {
  ty_decided : Forall (λ d, Packet_typed (pkt d)) (_decided e);
  ty_to_close : Forall uint32 (_to_close e);
  ty_conns : Table_typed (_conns e);
  ty_current : uint32 (_current_key e);
  ty_ring : Forall uint32 (_block_ring e);
  ty_sweep : time_point (_lastSweep e);
  ty_dropped : uint64 (_dropped_at_cap e)
}.

(** What an operation returns, if it does. *)
Definition yields (m : outcome Ext) : Prop := match m with Ok e => Typed e | Fault _ => True end.

Lemma yields_bind (m : outcome Ext) (k : Ext -> outcome Ext) :
  yields m -> (forall e, Typed e -> yields (k e)) -> yields (m ≫= k).
Proof. destruct m as [e|f]; simpl; auto. Qed.

(** ** Updates *)

(** A state that differs from a typed one in members that are typed. *)
Ltac typed Ht := destruct Ht; split; simpl; auto.

Lemma set_conns_typed e m : Typed e -> Table_typed m -> Typed (set_conns e m).
Proof. intros Ht Hm. typed Ht. Qed.

Lemma insert_typed e k c : Typed e -> uint32 k -> Conn_typed c ->
  Typed (set_conns e (<[k := c]> (_conns e))).
Proof. intros Ht Hk Hc. apply set_conns_typed; [done|]. apply map_Forall_insert_2; [done|apply Ht]. Qed.

Lemma delete_typed e k : Typed e -> Typed (set_conns e (delete k (_conns e))).
Proof. intros Ht. apply set_conns_typed; [done|]. apply map_Forall_delete, Ht. Qed.

Lemma decide_typed e p v : Typed e -> Packet_typed p -> Typed (decide e p v).
Proof. intros Ht Hp. typed Ht. apply Forall_app. auto. Qed.

Lemma set_current_typed e k b : Typed e -> uint32 k -> Typed (set_feeding (set_current_key e k) b).
Proof. intros Ht Hk. typed Ht. Qed.

Lemma same_typed e e' : Typed e -> (_decided e', _to_close e', _conns e', _current_key e', _block_ring e',
    _lastSweep e', _dropped_at_cap e') =
  (_decided e, _to_close e, _conns e, _current_key e, _block_ring e, _lastSweep e, _dropped_at_cap e) ->
  Typed e'.
Proof.
  intros Ht [= E1 E2 E3 E4 E5 E6 E7]. destruct Ht. split; by rewrite ?E1, ?E2, ?E3, ?E4, ?E5, ?E6, ?E7.
Qed.

Lemma entry_typed e k c : Typed e -> _conns e !! k = Some c -> uint32 k /\ Conn_typed c.
Proof. intros Ht Hk. exact (ty_conns e Ht k c Hk). Qed.

Lemma decide_all_typed e l v : Typed e -> Forall Packet_typed l ->
  Typed (fold_left (λ e p, decide e p v) l e).
Proof.
  intros Ht Hl. rewrite decide_all_decided. typed Ht. apply Forall_app. split; [done|].
  by rewrite List.Forall_map.
Qed.

(** ** The ring *)

Lemma ring_put_typed e k : Typed e -> uint32 k -> Typed (ring_put e k).
Proof. intros Ht Hk. typed Ht. by apply Forall_insert. Qed.

Lemma erase_blocked_typed e v : Typed e -> Typed (erase_blocked e v).2.
Proof.
  intros Ht. unfold erase_blocked. destruct (_conns e !! v) as [c|]; [|done].
  destruct (decide_rel _ _ _); [|done]. simpl. eapply same_typed; [by apply (delete_typed e v)|done].
Qed.

Lemma remember_blocked_typed e k : Typed e -> uint32 k -> yields (remember_blocked e k).
Proof.
  intros Ht Hk. unfold remember_blocked. destruct (ring_head e) as [v|]; [|done]. cbn [mbind outcome_bind yields].
  apply ring_put_typed; [|done]. destruct (_ && _); [by apply erase_blocked_typed|done].
Qed.

Lemma evict_loop_typed n e : Typed e -> match evict_loop n e with Ok r => Typed r.2 | Fault _ => True end.
Proof.
  revert e. induction n as [|n IH]; intros e Ht; simpl; [done|].
  destruct (ring_head e) as [v|]; [|done]. cbn [mbind outcome_bind].
  assert (Typed (ring_put e 0)) as H1 by (apply ring_put_typed; done).
  destruct (v =? 0); [by apply IH|]. pose proof (erase_blocked_typed (ring_put e 0) v H1) as H2.
  destruct (erase_blocked _ v) as [[] e2]; [exact H2|by apply IH].
Qed.

(** ** Resolution and callbacks *)

Lemma resolve_typed e k h : Typed e -> yields (resolve e k h).
Proof.
  intros Ht. unfold resolve. destruct (_conns e !! k) as [c|] eqn:Hc; [|done].
  destruct (entry_typed e k c Ht Hc) as (Hk & Hh & Hp & Hl).
  destruct (state c); [|done]. destruct (_decide h (_policy e)) as [v d].
  apply yields_bind.
  - assert (Typed (set_policy e d)) as H1 by (eapply same_typed; [eassumption|reflexivity]).
    destruct v; [by apply (delete_typed (set_policy e d))|]. apply remember_blocked_typed; [|done].
    by apply (insert_typed (set_policy e d)).
  - intros e1 H1. simpl. apply decide_all_typed; [|done]. destruct (_ && _); [|done].
    typed H1. apply Forall_app. auto.
Qed.

Lemma callback_keeps e cb : Typed e -> callback_typed cb -> yields (callback e cb).
Proof.
  intros Ht Hcb. destruct cb as [k|side data k|]; simpl.
  - unfold onConnectionStart. destruct (negb _); [done|].
    destruct (_conns e !! _) as [c|] eqn:Hc; [|done].
    destruct (entry_typed e _ c Ht Hc) as (Hk & Hh & Hp & Hl). by apply insert_typed.
  - unfold onMessageReady. destruct (negb _); [done|]. destruct (negb _); [done|].
    destruct (_conns e !! _) as [c|] eqn:Hc; [|done].
    destruct (entry_typed e _ c Ht Hc) as (Hk & Hh & Hp & Hl). destruct (state c); [|done].
    set (e1 := set_conns e _). assert (Typed e1) as H1 by (by apply insert_typed).
    destruct (extractHostname _ _ _) as [[res sc]|]; [|done]. cbn [mbind outcome_bind fst snd].
    assert (Typed (set_scratch e1 sc)) as H2 by (eapply same_typed; [eassumption|reflexivity]).
    destruct res as [host| |].
    + destruct (rd_range _ _ _); [by apply resolve_typed|done].
    + by apply resolve_typed.
    + destruct (_ <? _); [by apply resolve_typed|done].
  - unfold onConnectionEnd. destruct (negb _); [done|].
    destruct (_conns e !! _) as [c|] eqn:Hc; [|done].
    destruct (entry_typed e _ c Ht Hc) as (Hk & Hh & Hp & Hl). by apply resolve_typed, insert_typed.
Qed.

Lemma run_pcpp_typed e rc : Typed e -> Forall callback_typed rc.2 -> yields (run_pcpp e rc).
Proof.
  intros Ht. unfold run_pcpp. assert (Typed (set_reassembly e rc.1)) as H1 by (eapply same_typed; [eassumption|reflexivity]).
  revert H1. generalize (set_reassembly e rc.1). induction (rc.2) as [|cb cbs IH]; intros e1 H1 Hcbs; [done|].
  destruct (Forall_cons_1 _ _ _ Hcbs). simpl. apply yields_bind; [by apply callback_keeps|auto].
Qed.

(** ** Calls into the reassembler *)

Section calls.
  Hypothesis packet_keys : forall r raw, Forall callback_typed (reassemblePacket (R := R) r raw).2.
  Hypothesis close_keys : forall r k, Forall callback_typed (closeConnection (R := R) r k).2.
  Hypothesis purge_keys : forall r, Forall callback_typed (purgeClosedConnections (R := R) r).2.
  #[local] Set Default Proof Using "Type*".

Lemma drain_closes_typed e : Typed e -> yields (drain_closes e).
Proof.
  intros Ht. unfold drain_closes. apply yields_bind.
  - generalize (_to_close e). intros l. revert e Ht. induction l as [|t l IH]; intros e1 H1; [done|]. simpl.
    apply yields_bind; [by apply run_pcpp_typed|auto].
  - intros e1 H1. simpl. typed H1.
Qed.

Lemma expire_all_typed e l : Typed e -> yields (expire_all e l).
Proof.
  revert e. induction l as [|k l IH]; intros e Ht; [done|]. simpl. apply yields_bind; [|auto].
  unfold expire. destruct (_conns e !! k) as [c|]; [|done].
  destruct (state c); [by apply resolve_typed|by apply delete_typed].
Qed.

Lemma sweep_typed e now : Typed e -> yields (sweep e now).
Proof.
  intros Ht. unfold sweep. apply yields_bind; [apply expire_all_typed; eapply same_typed; [eassumption|reflexivity]|].
  intros e1 H1. apply yields_bind; [by apply run_pcpp_typed|].
  intros e2 H2. apply yields_bind; [by apply drain_closes_typed|]. intros e3 H3. eapply same_typed; [eassumption|reflexivity].
Qed.

Lemma sweep_now_typed e now : Typed e -> time_point now -> yields (sweep (set_lastSweep e now) now).
Proof. intros Ht Hn. apply sweep_typed. typed Ht. Qed.

Lemma tick_typed e now : Typed e -> time_point now -> yields (tick e now).
Proof. intros Ht Hn. unfold tick. destruct (_ <? _); [done|by apply sweep_now_typed]. Qed.

Lemma resolve_all_typed e l : Typed e -> yields (resolve_all e l).
Proof.
  revert e. induction l as [|k l IH]; intros e Ht; [done|]. simpl.
  apply yields_bind; [by apply resolve_typed|auto].
Qed.

Lemma flush_typed e : Typed e -> yields (flush e).
Proof.
  intros Ht. unfold flush. apply yields_bind.
  - by apply resolve_all_typed.
  - intros e1 H1. apply yields_bind; [apply drain_closes_typed, set_conns_typed; done|].
    intros e2 H2. eapply same_typed; [eassumption|reflexivity].
Qed.

(** ** One packet *)

Lemma make_room_typed e now : Typed e -> time_point now -> yields (make_room e now).
Proof.
  intros Ht Hn. unfold make_room. destruct (_ <=? _)%nat; [|done]. apply yields_bind.
  - destruct (_ <=? _); [by apply sweep_now_typed|done].
  - intros e1 H1. destruct (_ <=? _)%nat; [|done].
    pose proof (evict_loop_typed (_max_blocked e1) e1 H1) as H2.
    unfold evict_oldest_blocked. by destruct (evict_loop _ e1).
Qed.

Lemma release_back_typed l : Forall Packet_typed l -> Forall Packet_typed (release_back l).
Proof.
  intros Hl. unfold release_back. apply List.Forall_rev in Hl. destruct (List.rev l) as [|p l']; [done|].
  apply Forall_cons_1 in Hl as [Hp Hl]. apply Forall_app. split; [by apply List.Forall_rev|]. by constructor.
Qed.

Lemma reassemble_typed e k p hold : Typed e -> uint32 k -> Packet_typed p -> yields (reassemble e k p hold).
Proof.
  intros Ht Hk Hp. unfold reassemble. destruct (raw_packet p) as [raw|]; [|done]. cbn [mbind outcome_bind].
  set (e1 := if hold then _ else e).
  assert (Typed e1) as H1.
  { unfold e1. destruct hold; [|done]. destruct (_conns e !! k) as [c|] eqn:Hc; [|done].
    destruct (entry_typed e k c Ht Hc) as (_ & Hh & Hpk & Hl). apply insert_typed; [done|done|].
    split_and!; [|done|done]. apply Forall_app. auto. }
  apply yields_bind; [by apply run_pcpp_typed; [apply set_current_typed|]|]. intros e2 H2.
  apply yields_bind; [apply drain_closes_typed; eapply same_typed; [eassumption|reflexivity]|]. intros e3 H3.
  destruct hold; [|by apply decide_typed].
  destruct (_conns e3 !! k) as [c|] eqn:Hc; [|done].
  destruct (entry_typed e3 k c H3 Hc) as (_ & Hh & Hpk & Hl). apply insert_typed; [done|done|].
  split_and!; [by apply release_back_typed|done|done].
Qed.

Lemma feed_tracked_typed e now k c f p : Typed e -> time_point now -> uint32 k -> Conn_typed c ->
  Packet_typed p -> yields (feed_tracked e now k c f p).
Proof.
  intros Ht Hn Hk (Hh & Hpk & Hl) Hp. unfold feed_tracked.
  assert (Typed (set_conns e (<[k := set_last c now]> (_conns e)))) as H1 by (by apply insert_typed).
  destruct (_ <=? _)%nat.
  - apply yields_bind; [by apply resolve_typed|]. intros e1 H2. by apply decide_typed.
  - destruct (_ && _); [by apply decide_typed|by apply reassemble_typed].
Qed.

Lemma feed_untracked_typed e now k f p : Typed e -> time_point now -> uint32 k -> Packet_typed p ->
  yields (feed_untracked e now k f p).
Proof.
  intros Ht Hn Hk Hp. unfold feed_untracked.
  destruct (if isClientSyn f then _ else _) as [b|]; [|done]. cbn [mbind outcome_bind].
  destruct (negb b); [by apply decide_typed|].
  apply yields_bind; [by apply make_room_typed|]. intros e1 H1.
  destruct (_ <=? _)%nat; [|by apply feed_tracked_typed; [..|split_and!; [done|done|]|]].
  simpl. apply decide_typed; [|done]. typed H1. apply u64_range.
Qed.

Lemma flow_view_key p f : flow_view p = Ok (true, f) -> uint32 (key f).
Proof.
  unfold flow_view. destruct (parseFlow _ _ _) as [[[b g] pl]|]; [|done]. cbn [mbind outcome_bind].
  destruct b; [|done]. intros [= <-]. simpl. apply routeKey_range.
Qed.

Lemma feed_typed e now p : Typed e -> time_point now -> Packet_typed p -> yields (feed e now p).
Proof.
  intros Ht Hn Hp. unfold feed. apply yields_bind; [by apply tick_typed|]. intros e1 H1.
  assert (forall m, yields m -> yields (publish <$> m)) as Hpub.
  { intros [e2|] H2; [|done]. eapply same_typed; [eassumption|reflexivity]. }
  apply Hpub. destruct (negb (has_bytes p)); [by apply decide_typed|].
  destruct (flow_view p) as [[b f]|] eqn:Hf; [|done]. cbn [mbind outcome_bind fst snd].
  destruct b; [|by apply decide_typed]. pose proof (flow_view_key p f Hf) as Hk. simpl.
  destruct (negb _); [by apply decide_typed|]. unfold feed_flow.
  destruct (_conns e1 !! key f) as [c|] eqn:Hc; [|by apply feed_untracked_typed].
  destruct (entry_typed e1 _ c H1 Hc) as (_ & Hh & Hpk & Hl).
  destruct (state c); [by apply feed_tracked_typed|]. apply decide_typed; [|done]. by apply insert_typed.
Qed.

(** ** Runs *)

Lemma run_op_typed e o : Typed e -> op_typed o -> match run_op e o with
  | Ok r => Typed r.1 /\ Forall (λ d, Packet_typed (pkt d)) r.2
  | Fault _ => True
  end.
Proof.
  intros Ht Ho. destruct o as [now p|now| |]; simpl in *.
  - pose proof (feed_typed e now p Ht (proj1 Ho) (proj2 Ho)) as H1. by destruct (feed e now p).
  - pose proof (tick_typed e now Ht Ho) as H1. by destruct (tick e now).
  - pose proof (flush_typed e Ht) as H1. by destruct (flush e).
  - split; [typed Ht|apply Ht].
Qed.

Lemma run_typed e ops e' out : Typed e -> Forall op_typed ops -> run e ops = Ok (e', out) ->
  Typed e' /\ Forall (λ d, Packet_typed (pkt d)) out.
Proof.
  revert e e' out. induction ops as [|o ops IH]; intros e e' out Ht Ho Hrun; simpl in Hrun.
  { by injection Hrun as <- <-. }
  destruct (Forall_cons_1 _ _ _ Ho) as [Ho1 Ho2]. pose proof (run_op_typed e o Ht Ho1) as H1.
  destruct (run_op e o) as [[e1 out1]|]; [|done]. cbn [mbind outcome_bind fst snd] in *.
  destruct (run e1 ops) as [[e2 out2]|] eqn:H2; [|done]. cbn [mbind outcome_bind fst snd] in *.
  injection Hrun as <- <-. destruct (IH e1 e2 out2 (proj1 H1) Ho2 H2) as [H3 H4].
  split; [done|]. apply Forall_app. split; [apply H1|done].
Qed.

End calls.

Lemma ctor_typed d r mf mb : Typed (Extractor_ctor (D := D) (R := R) d r mf mb).
Proof. split; simpl; try done. by apply Forall_replicate. Qed.

End types.

(** * Properties *)

Section properties.
  Context {D R : Type} `{!Policy D} `{!Pcpp R} `{!MapOrder}.

(** Every member keeps its type.  Over any sequence of calls on packets with
    32-bit lengths and ids, at times a 63-bit clock can read, the table's keys,
    the ring's slots, the reassembler's flow keys and the pending closes stay
    32-bit values, the drop counter a 64-bit one, the times readings of the clock,
    and the packets handed back keep their lengths and ids in range; so no
    difference of times the extractor forms can overflow. *)
Lemma extractor_keeps_types d r mf mb ops :
  (forall r raw, Forall callback_typed (reassemblePacket (R := R) r raw).2) ->
  (forall r k, Forall callback_typed (closeConnection (R := R) r k).2) ->
  (forall r, Forall callback_typed (purgeClosedConnections (R := R) r).2) ->
  Forall op_ok ops -> Forall op_typed ops ->
  exists e' out, run (Extractor_ctor (D := D) d r mf mb) ops = Ok (e', out) /\
    Typed e' /\ Forall (λ d, Packet_typed (pkt d)) out /\
    (forall now, time_point now -> int64 (now - _lastSweep e') /\
       forall k c, _conns e' !! k = Some c -> int64 (now - last c)).
Proof.
  intros H1 H2 H3 Hok Hops.
  destruct (run_good (Extractor_ctor d r mf mb) ops (Good_ctor d r mf mb) Hok) as (e' & out & Hrun & _).
  destruct (run_typed H1 H2 H3 _ ops e' out (ctor_typed d r mf mb) Hops Hrun) as [Ht Hout].
  exists e', out. split_and!; [done|done|done|]. intros now Hn. split.
  - apply time_difference; [done|]. by apply ty_sweep.
  - intros k c Hk. apply time_difference; [done|]. by apply (entry_typed e' k c Ht Hk).
Qed.

End properties.

(** ** Witness *)

Lemma demo_reassemble_typed raw : Forall callback_typed (demo_reassemble raw).
Proof.
  unfold demo_reassemble. destruct (flow_view _) as [[[] f]|]; [|done..].
  apply Forall_app. split; [by destruct (isClientSyn f); repeat constructor|].
  apply Forall_app. split; [by destruct (0 <? _); repeat constructor|].
  by destruct (_ =? 0); repeat constructor.
Qed.

Lemma extractor_keeps_types_witness :
  exists e' out, run (demo_extractor 4 1) demo_ops = Ok (e', out) /\ Typed e'.
Proof.
  destruct (extractor_keeps_types (R := list Z) 0%nat [] 4 1 demo_ops) as (e' & out & H1 & H2 & _).
  - intros r raw. apply demo_reassemble_typed.
  - intros r k. by repeat constructor.
  - intros r. constructor.
  - concrete.
  - concrete.
  - exists e', out. exact (conj H1 H2).
Defined.
