(* ===== verification/Streams.v ===== *)
(** * A reassembler that puts segments in order

    PcapPlusPlus is a parameter of the development.  Where a run needs one, in the
    witnesses and in the scenarios of the tests, this small reassembler stands in:
    it keeps each direction's next sequence number and what came too early, and
    drops what it has delivered already.  The packets are those that
    [tests/unit/packet_builders.hpp] makes. *)
From S2P Require Import ClientHello ClientHelloSpec Packet PacketSpec Extractor ExtractorSpec.

(** ** Packets *)

Definition test_l3 (src dst : bytes) (sport dport seq flags : Z) (payload : bytes) : bytes :=
  enc_ipv4 (MkIpv4 x00 [x00; x00] 0 x40 [x00; x00] src dst [])
    (Tcp sport dport (put16 (seq / 65536) ++ put16 (seq mod 65536) ++ replicate 4 x00) 0 flags
       (replicate 6 x00) [] payload).

Definition kClient : bytes := [x0a; x00; x00; x01].
Definition kServer : bytes := [x01; x02; x03; x04].

(** A SYN, a data segment (PSH and ACK), and any other segment of the client. *)
Definition test_syn (sport : Z) : bytes := test_l3 kClient kServer sport 443 1000 2 [].
Definition test_seg (sport seq : Z) (payload : bytes) : bytes := test_l3 kClient kServer sport 443 seq 24 payload.
Definition test_view (raw : bytes) (id : Z) : Packet := Packet_view (Some raw) (zlen raw) id.

(** A packet that owns its bytes. *)
Definition test_owned (raw : bytes) (id : Z) : Packet :=
  match materialize (test_view raw id) with Ok p => p | Fault _ => Packet_default end.

(** ** The reassembler *)

(** One direction: the next sequence number and the segments that came too early. *)
Definition Half : Type := Z * list (Z * bytes).
Abbreviation Streams := (gmap Z (gmap Z Half)).

Fixpoint in_order (fuel : nat) (next : Z) (early : list (Z * bytes)) : Half * list bytes :=
  match fuel with
  | O => (next, early, [])
  | S fuel =>
      match List.filter (λ s, s.1 =? next) early with
      | [] => (next, List.filter (λ s, next <? s.1) early, [])
      | s :: _ =>
          let r := in_order fuel (next + zlen s.2) early in
          (r.1, s.2 :: r.2)
      end
  end.

(** The sequence number, in a packet without IP options or extension headers. *)
Definition tcp_seq (raw : bytes) : Z :=
  let header := match raw with b :: _ => if b2z b / 16 =? 4 then 20%nat else 40%nat | [] => 0%nat end in
  fold_left (λ n b, n * 256 + b2z b) (take 4 (drop (header + 4) raw)) 0.

(** The connection of a packet, the same in both directions, with its view. *)
Definition stream_token (f : FlowView) : Z :=
  1 + src_port f + dst_port f + fold_right Z.add 0 (map (λ b, b2z b * b2z b) (src_ip f ++ dst_ip f)).
Definition stream_view (raw : bytes) : FlowView :=
  match flow_view (test_view raw 0) with Ok (true, f) => f | _ => FlowView_default end.
Definition token_of (raw : bytes) : Z := stream_token (stream_view raw).

(** The new segment goes into its direction, and what is in order comes out.  A RST
    ends the connection; a FIN alone does not. *)
Definition stream_step (raw : bytes) (conn : option (gmap Z Half)) : option (gmap Z Half) * list Callback :=
  let f := stream_view raw in
  let k := token_of raw in
  let side := if dst_port f =? 443 then 0 else 1 in
  let syn := if Z.land (tcp_flags f) kTcpSyn =? 0 then 0 else 1 in
  let half := default (tcp_seq raw + syn, []) (default ∅ conn !! side) in
  let early := if 0 <? payload_len f
               then (tcp_seq raw, take (Z.to_nat (payload_len f)) (payload f)) :: half.2 else half.2 in
  let r := in_order (S (length early)) half.1 early in
  let cbs := match conn with None => [ConnectionStart k] | Some _ => [] end ++
             map (λ d, MessageReady side d k) r.2 in
  if Z.land (tcp_flags f) kTcpRst =? 0
  then (Some (<[side := r.1]> (default ∅ conn)), cbs)
  else (None, cbs ++ [ConnectionEnd]).

Definition streams_reassemble (r : Streams) (raw : bytes) : Streams * list Callback :=
  let s := stream_step raw (r !! token_of raw) in
  (partial_alter (λ _, s.1) (token_of raw) r, s.2).

#[export] Instance streams_pcpp : Pcpp Streams := {|
  reassemblePacket := streams_reassemble;
  closeConnection r k := (delete k r, [ConnectionEnd]);
  purgeClosedConnections r := (r, [])
|}.
