(* ===== verification/ExtractorTraffic.v ===== *)
(** * A connection among others

    A connection as TCP has it: its opening packet, acknowledgements without
    data, segments in any order, some of them sent twice, and what the other side
    answers, mixed with any other traffic and with ticks and drains at any point.
    [Frame] is what the rest of the traffic leaves alone: the entry of the
    connection's flow and what the reassembler is about to deliver for it. *)
From S2P Require Import ClientHello ClientHelloSpec Packet PacketSpec Extractor ExtractorInv ExtractorSpec ExtractorDecision Streams.

Section traffic.
  Context {D R : Type} `{!Policy D} `{!Pcpp R} `{!MapOrder}.
  Abbreviation Ext := (Extractor D R).
  Implicit Types e : Ext.

(** The flow's key, and the key the reassembler has for the connection. *)
  Context (key k : Z).

(** A packet that is not of this flow, or not TCP, or cannot be dissected. *)
Definition foreign (p : Packet) : Prop :=
  forall f, flow_view p = Ok (true, f) -> ip_proto f = kProtoTcp -> Packet.key f <> key.

(** The packets of the rest of the traffic. *)
  Context (theirs : Packet -> Prop) (theirs_foreign : forall p, theirs p -> foreign p).

Definition reports_other (cb : Callback) : Prop :=
  match cb with ConnectionStart j | MessageReady _ _ j => j <> k | ConnectionEnd => True end.

(** What the reassembler promises for the connection: [expects l r] says that in
    state [r] it will answer the connection's next packets, in this order, with
    these callbacks: none for a segment that leaves a gap or repeats another,
    several for one that fills a gap.  Other packets, closing other connections and
    purging do not change that, and other packets are reported under other keys. *)
Record Reassembles (expects : list (Packet * list Callback) -> R -> Prop) : Prop := {
  re_own : forall p cbs l r raw, expects ((p, cbs) :: l) r -> raw_packet p = Ok raw ->
    exists r', reassemblePacket r raw = (r', cbs) /\ expects l r';
  re_foreign : forall l r p raw, expects l r -> theirs p -> raw_packet p = Ok raw ->
    expects l (reassemblePacket r raw).1 /\ Forall reports_other (reassemblePacket r raw).2;
  re_close : forall l r j, expects l r -> j <> k -> expects l (closeConnection r j).1;
  re_purge : forall l r, expects l r -> expects l (purgeClosedConnections r).1
}.

Section frame.
  Context (expects : list (Packet * list Callback) -> R -> Prop) (reassembles : Reassembles expects).
  Context (k_used : k <> 0).
  Context (entry : option Conn) (entry_waits : forall c, entry = Some c -> state c = Wait).
  Context (l : list (Packet * list Callback)).
  #[local] Set Default Proof Using "Type*".

(** [feeding] is whether callbacks are listened to, then for another flow. *)
Record Frame (feeding : bool) e : Prop := {
  fr_entry : _conns e !! key = entry;
  fr_others : forall j c, j <> key -> _conns e !! j = Some c -> pcpp_key c <> k;
  fr_closes : Forall (λ j, j <> k) (_to_close e);
  fr_expects : expects l (_reassembly e);
  fr_feeding : _feeding e = feeding;
  fr_current : feeding = true -> _current_key e <> key
}.

Definition keeps (b : bool) (m : outcome Ext) : Prop :=
  match m with Ok e => Frame b e | Fault _ => True end.

Lemma keeps_bind b b' (m : outcome Ext) (f : Ext -> outcome Ext) :
  keeps b m -> (forall e, Frame b e -> keeps b' (f e)) -> keeps b' (m ≫= f).
Proof. destruct m as [e|]; simpl; auto. Qed.

(** ** Updates *)

Lemma frame_same b e e' : Frame b e ->
  (_conns e', _to_close e', _reassembly e', _feeding e', _current_key e') =
  (_conns e, _to_close e, _reassembly e, _feeding e, _current_key e) -> Frame b e'.
Proof. intros [] [= E1 E2 E3 E4 E5]. split; by rewrite ?E1, ?E2, ?E3, ?E4, ?E5. Qed.

Lemma frame_insert b e j c : Frame b e -> j <> key -> pcpp_key c <> k ->
  Frame b (set_conns e (<[j := c]> (_conns e))).
Proof.
  intros [H1 H2 H3 H4 H5 H6] Hj Hc. split; simpl; try done.
  - by rewrite lookup_insert_ne.
  - intros i c' Hi. rewrite lookup_insert_Some. intros [[<- <-]|[_ Hi']]; [done|by apply (H2 i)].
Qed.

Lemma frame_delete b e j : Frame b e -> j <> key -> Frame b (set_conns e (delete j (_conns e))).
Proof.
  intros [H1 H2 H3 H4 H5 H6] Hj. split; simpl; try done.
  - by rewrite lookup_delete_ne.
  - intros i c' Hi [_ Hi']%lookup_delete_Some. by apply (H2 i).
Qed.

Lemma frame_decide b e p v : Frame b e -> Frame b (decide e p v).
Proof. intros []. by split. Qed.

Lemma frame_decide_all b e ps v : Frame b e -> Frame b (fold_left (λ e p, decide e p v) ps e).
Proof. intros Hf. rewrite decide_all_decided. by destruct Hf. Qed.

(** ** The ring *)

Lemma frame_erase b e v : Frame b e -> Frame b (erase_blocked e v).2.
Proof.
  intros Hf. unfold erase_blocked. destruct (_conns e !! v) as [c|] eqn:Hc; [|done].
  destruct (decide_rel _ _ _) as [Hs|]; [|done]. simpl. eapply frame_same; [apply (frame_delete b e v)|done]; [done|].
  intros ->. rewrite (fr_entry b e Hf) in Hc. by rewrite (entry_waits c Hc) in Hs.
Qed.

Lemma frame_remember b e j : Frame b e -> keeps b (remember_blocked e j).
Proof.
  intros Hf. unfold remember_blocked. destruct (ring_head e) as [v|]; [|done]. cbn [mbind outcome_bind keeps].
  set (e1 := if _ && _ then _ else e).
  assert (Frame b e1) as H1 by (unfold e1; destruct (_ && _); [by apply frame_erase|done]).
  eapply frame_same; [exact H1|done].
Qed.

Lemma frame_evict m : forall e b, Frame b e ->
  match evict_loop m e with Ok r => Frame b r.2 | Fault _ => True end.
Proof.
  induction m as [|m IH]; intros e b Hf; simpl; [done|].
  destruct (ring_head e) as [v|]; [|done]. cbn [mbind outcome_bind].
  assert (Frame b (ring_put e 0)) as H1 by (eapply frame_same; [exact Hf|done]).
  destruct (v =? 0); [by apply IH|]. pose proof (frame_erase b (ring_put e 0) v H1) as H2.
  destruct (erase_blocked _ v) as [[] e2]; [exact H2|by apply IH].
Qed.

(** ** Resolution of other flows, and their callbacks *)

Lemma frame_resolve b e j h : Frame b e -> j <> key -> keeps b (resolve e j h).
Proof.
  intros Hf Hj. unfold resolve. destruct (_conns e !! j) as [c|] eqn:Hc; [|done].
  pose proof (fr_others b e Hf j c Hj Hc) as Hk. destruct (state c); [|done].
  destruct (_decide h (_policy e)) as [v d].
  assert (Frame b (set_policy e d)) as H1 by (eapply frame_same; [exact Hf|done]).
  apply (keeps_bind b).
  - destruct v; [by apply (frame_delete b (set_policy e d))|]. apply frame_remember.
    by apply (frame_insert b (set_policy e d)).
  - intros e1 H2. simpl. apply frame_decide_all. destruct (_ && _); [|done].
    destruct H2. split; simpl; try done. apply Forall_app. auto.
Qed.

Lemma frame_callback e cb : Frame true e -> reports_other cb -> keeps true (callback e cb).
Proof.
  intros Hf Hcb. pose proof (fr_current true e Hf eq_refl) as Hcur.
  destruct cb as [j|side data j|]; simpl in *.
  - unfold onConnectionStart. destruct (negb _); [done|].
    destruct (_conns e !! _) as [c|]; [|done]. by apply frame_insert.
  - unfold onMessageReady. destruct (negb _); [done|]. destruct (negb _); [done|].
    destruct (_conns e !! _) as [c|]; [|done]. destruct (state c); [|done].
    set (e1 := set_conns e _). assert (Frame true e1) as H1 by (by apply frame_insert).
    destruct (extractHostname _ _ _) as [[res sc]|]; [|done]. cbn [mbind outcome_bind fst snd].
    assert (Frame true (set_scratch e1 sc)) as H2 by (eapply frame_same; [exact H1|done]).
    destruct res as [host| |].
    + destruct (rd_range _ _ _); [by apply frame_resolve|done].
    + by apply frame_resolve.
    + destruct (_ <? _); [by apply frame_resolve|done].
  - unfold onConnectionEnd. destruct (negb _); [done|].
    destruct (_conns e !! _) as [c|] eqn:Hc; [|done]. apply frame_resolve; [|done].
    apply frame_insert; [done|done|]. exact (fr_others true e Hf _ c Hcur Hc).
Qed.

Lemma frame_callbacks e cbs : Frame true e -> Forall reports_other cbs -> keeps true (callbacks e cbs).
Proof.
  revert e. induction cbs as [|cb cbs IH]; intros e Hf Hcbs; [done|].
  destruct (Forall_cons_1 _ _ _ Hcbs). simpl. apply (keeps_bind true); [by apply frame_callback|auto].
Qed.

(** ** Calls into the reassembler *)

Lemma frame_reassembly b e r : Frame b e -> expects l r -> Frame b (set_reassembly e r).
Proof. intros [] Hr. by split. Qed.

Lemma closed_expects r tokens : expects l r -> Forall (λ j, j <> k) tokens -> expects l (closed r tokens).
Proof.
  revert r. induction tokens as [|t ts IH]; intros r Hr Ht; [done|].
  destruct (Forall_cons_1 _ _ _ Ht). simpl. apply IH; [|done]. by apply (re_close _ reassembles).
Qed.

Lemma frame_drain e : Frame false e -> keeps false (drain_closes e).
Proof.
  intros Hf. rewrite drain_closes_closed by apply Hf. simpl.
  pose proof (closed_expects _ _ (fr_expects _ _ Hf) (fr_closes _ _ Hf)). destruct Hf. by split.
Qed.

Lemma frame_purge e : Frame false e -> keeps false (run_pcpp e (purgeClosedConnections (_reassembly e))).
Proof.
  intros Hf. rewrite run_pcpp_idle by apply Hf. simpl. apply frame_reassembly; [done|].
  apply (re_purge _ reassembles), Hf.
Qed.

(** ** The sweep *)

(** The entry is not idle for too long at [now]. *)
Definition in_time (now : Z) : Prop := forall c, entry = Some c -> is_expired now c = false.

Lemma frame_expire_all b ks : forall e, Frame b e -> key ∉ ks -> keeps b (expire_all e ks).
Proof.
  induction ks as [|j ks IH]; intros e Hf Hks; [done|].
  apply not_elem_of_cons in Hks as [Hj Hks]. simpl. apply (keeps_bind b); [|intros; by apply IH].
  unfold expire. destruct (_conns e !! j) as [c|]; [|done].
  destruct (state c); [by apply frame_resolve|by apply frame_delete].
Qed.

Lemma frame_sweep e now : Frame false e -> in_time now -> keeps false (sweep e now).
Proof.
  intros Hf Hnow. unfold sweep. apply (keeps_bind false).
  - apply frame_expire_all; [by eapply frame_same|].
    intros (c & Hc & Hx)%elem_of_filtered_keys. rewrite (fr_entry _ _ Hf) in Hc. by rewrite Hnow in Hx.
  - intros e1 H1. apply (keeps_bind false); [by apply frame_purge|].
    intros e2 H2. apply (keeps_bind false); [by apply frame_drain|]. intros e3 H3. by eapply frame_same.
Qed.

Lemma frame_tick e now : Frame false e -> in_time now -> keeps false (tick e now).
Proof.
  intros Hf Hnow. unfold tick. destruct (_ <? _); [done|]. apply frame_sweep; [|done]. by eapply frame_same.
Qed.

(** ** A packet of another flow *)

Lemma frame_make_room e now : Frame false e -> in_time now -> keeps false (make_room e now).
Proof.
  intros Hf Hnow. unfold make_room. destruct (_ <=? _)%nat; [|done]. apply (keeps_bind false).
  - destruct (_ <=? _); [|done]. apply frame_sweep; [|done]. by eapply frame_same.
  - intros e1 H1. destruct (_ <=? _)%nat; [|done]. pose proof (frame_evict (_max_blocked e1) e1 _ H1) as H2.
    unfold evict_oldest_blocked. by destruct (evict_loop _ e1).
Qed.

Lemma frame_reassemble e j p hold : Frame false e -> j <> key -> theirs p ->
  keeps false (reassemble e j p hold).
Proof.
  intros Hf Hj Hp. unfold reassemble. destruct (raw_packet p) as [raw|] eqn:Hraw; [|done].
  cbn [mbind outcome_bind]. set (e1 := if hold then _ else e).
  assert (Frame false e1 /\ _reassembly e1 = _reassembly e) as [H1 Er].
  { unfold e1. destruct hold; [|done]. destruct (_conns e !! j) as [c|] eqn:Hc; [|done].
    split; [|done]. apply frame_insert; [done|done|]. exact (fr_others _ e Hf j c Hj Hc). }
  apply (keeps_bind true).
  - cbn [_reassembly set_feeding set_current_key].
    destruct (re_foreign _ reassembles l (_reassembly e1) p raw (fr_expects _ _ H1) Hp Hraw) as [Hx Hcb].
    apply frame_callbacks; [|done]. apply frame_reassembly; [|done].
    destruct H1. by split.
  - intros e2 H2. apply (keeps_bind false); [apply frame_drain; destruct H2; by split|].
    intros e3 H3. destruct hold; [|by apply frame_decide].
    destruct (_conns e3 !! j) as [c|] eqn:Hc; [|done].
    apply frame_insert; [done|done|]. exact (fr_others _ e3 H3 j c Hj Hc).
Qed.

Lemma frame_tracked e now j c f p : Frame false e -> j <> key -> pcpp_key c <> k -> theirs p ->
  keeps false (feed_tracked e now j c f p).
Proof.
  intros Hf Hj Hc Hp. unfold feed_tracked.
  assert (Frame false (set_conns e (<[j := set_last c now]> (_conns e)))) as H1 by (by apply frame_insert).
  destruct (_ <=? _)%nat.
  - apply (keeps_bind false); [by apply frame_resolve|]. intros e1 H2. by apply frame_decide.
  - destruct (_ && _); [by apply frame_decide|by apply frame_reassemble].
Qed.

Lemma frame_untracked e now j f p : Frame false e -> in_time now -> j <> key -> theirs p ->
  keeps false (feed_untracked e now j f p).
Proof.
  intros Hf Hnow Hj Hp. unfold feed_untracked.
  destruct (if isClientSyn f then _ else _) as [b|]; [|done]. cbn [mbind outcome_bind].
  destruct (negb b); [by apply frame_decide|].
  apply (keeps_bind false); [by apply frame_make_room|]. intros e1 H1.
  destruct (_ <=? _)%nat; [|apply frame_tracked; [done|done|by apply not_eq_sym|done]].
  simpl. eapply frame_same; [exact H1|done].
Qed.

Lemma frame_feed e now p : Frame false e -> in_time now -> theirs p -> keeps false (feed e now p).
Proof.
  intros Hf Hnow Hp. unfold feed. apply (keeps_bind false); [by apply frame_tick|]. intros e1 H1.
  assert (forall m, keeps false m -> keeps false (publish <$> m)) as Hpub.
  { intros [e2|] H2; [|done]. by eapply frame_same. }
  apply Hpub. destruct (negb (has_bytes p)); [by apply frame_decide|].
  destruct (flow_view p) as [[b f]|] eqn:Hv; [|done]. cbn [mbind outcome_bind fst snd].
  destruct b; [|by apply frame_decide]. simpl.
  destruct (Z.eqb_spec (ip_proto f) kProtoTcp) as [Htcp|]; [|by apply frame_decide]. simpl.
  pose proof (theirs_foreign p Hp f Hv Htcp) as Hj. unfold feed_flow.
  destruct (_conns e1 !! Packet.key f) as [c|] eqn:Hc; [|by apply frame_untracked].
  pose proof (fr_others _ e1 H1 _ c Hj Hc) as Hk.
  destruct (state c); [by apply frame_tracked|]. apply frame_decide. by apply frame_insert.
Qed.

(** ** Any operation of the others *)

Definition other_op (o : op) : Prop :=
  match o with
  | Feed now p => in_time now /\ theirs p
  | Tick now => in_time now
  | Flush => entry = None
  | Drain => True
  end.

Lemma frame_flush e : Frame false e -> entry = None -> keeps false (flush e).
Proof.
  intros Hf Hnone. unfold flush.
  assert (forall ks e, Frame false e -> key ∉ ks -> keeps false (resolve_all e ks)) as Hall.
  { intros ks. induction ks as [|j ks IH]; intros e1 H1 Hks; [done|].
    apply not_elem_of_cons in Hks as [Hj Hks]. simpl.
    apply (keeps_bind false); [by apply frame_resolve|intros; by apply IH]. }
  apply (keeps_bind false).
  - apply Hall; [done|].
    intros (c & Hc & _)%(elem_of_filtered_keys (_conns e) (λ c, negb (is_blocked c))).
    rewrite (fr_entry _ _ Hf) in Hc. congruence.
  - intros e1 H1. apply (keeps_bind false).
    + apply frame_drain. destruct H1. by split.
    + intros e2 H2. by eapply frame_same.
Qed.

Lemma frame_op e o e' out : Frame false e -> other_op o -> run_op e o = Ok (e', out) -> Frame false e'.
Proof.
  intros Hf Ho Hrun. destruct o as [now p|now| |]; simpl in *.
  - pose proof (frame_feed e now p Hf (proj1 Ho) (proj2 Ho)) as H1.
    destruct (feed e now p); [|done]. by injection Hrun as <- <-.
  - pose proof (frame_tick e now Hf Ho) as H1. destruct (tick e now); [|done]. by injection Hrun as <- <-.
  - pose proof (frame_flush e Hf Ho) as H1. destruct (flush e); [|done]. by injection Hrun as <- <-.
  - injection Hrun as <- <-. by eapply frame_same.
Qed.

End frame.

(** ** The connection's own packets *)

Definition view_of (p : Packet) : FlowView :=
  match flow_view p with Ok r => r.2 | Fault _ => FlowView_default end.
Definition carrying (p : Packet) : bool := carries (view_of p).
Definition entering (p : Packet) : bool := enters (view_of p).

(** One of them, with what the reassembler reports for it: nothing for a bare
    acknowledgement, which it is not given. *)
Definition own_item (x : Packet * list Callback) : Prop :=
  own_packet key (view_of x.1) x.1 /\ Forall (own_callback k) x.2 /\ (entering x.1 = false -> x.2 = []).

(** What the reassembler is to deliver, and the client's stream in it. *)
Definition deliveries (own : list (Packet * list Callback)) : list (Packet * list Callback) :=
  List.filter (λ x, entering x.1) own.
Definition stream_of (own : list (Packet * list Callback)) : bytes := concat (map (λ x, client_data x.2) own).

(** [now], after [before], completes a ClientHello, in any framing; more may follow. *)
Definition completes (hl : Hello) (before now : bytes) : Prop :=
  wf_hello hl /\ zlen (enc_body hl) <= 65535 /\ exists rs rest, payloads rs = enc_hello hl /\
    Forall wf_record rs /\ before ++ now = frames rs ++ rest /\ zlen before < zlen (frames rs) /\
    zlen (before ++ now) <= kMaxStreamBytes.

(** The packets of a connection up to the one that completes the ClientHello. *)
Record Sends_hello (own : list (Packet * list Callback)) (hl : Hello) : Prop := {
  sh_items : Forall own_item own;
  sh_opens : exists x own', own = x :: own' /\ opening (view_of x.1);
  sh_last : exists own' x, own = own' ++ [x] /\ carrying x.1 = true /\
    completes hl (stream_of own') (client_data x.2);
  sh_held : (length (List.filter carrying (map fst own)) <= kMaxPacketsPerConn)%nat
}.

(** Their verdicts: [v] for the packets with data, and the others are let through. *)
Definition answer (v : Verdict) (p : Packet) : Z * Verdict := (_id p, if carrying p then v else ALLOW).
Definition outcome_of (d : Decided) : Z * Verdict := (_id (pkt d), verdict d).

Lemma decision_completed hl before now : completes hl before now ->
  decision before = None /\ decision (before ++ now) = Some (sni hl) /\ zlen (before ++ now) <= kMaxStreamBytes.
Proof.
  intros (Hwf & Hb & rs & rest & Hp & Hrs & Hcat & Hlt & Hl).
  assert (kMaxStreamBytes < 4294967296) by done.
  assert (exists t, before ++ t = frames rs /\ t <> []) as (t & Ht & Hne).
  { destruct (app_eq_inv before now (frames rs) rest Hcat) as [(t & E & _)|(t & E & _)].
    - rewrite E, zlen_app in Hlt. zlen_pose. lia.
    - exists t. split; [done|]. intros ->. rewrite app_nil_r in E. rewrite E in Hlt. lia. }
  assert (zlen (frames rs) <= zlen (before ++ now)) by (rewrite Hcat, zlen_app; zlen_pose; lia).
  split_and!; [|rewrite Hcat; apply decision_hello; try done; rewrite <- Hcat; lia|done].
  apply (decision_waits hl rs before t); try done. lia.
Qed.

Lemma opening_enters f : opening f -> enters f = true.
Proof.
  unfold opening, enters, carries. destruct (isClientSyn f) eqn:Hs.
  - intros _. unfold isClientSyn in Hs. apply andb_prop in Hs as [Hs _]. apply orb_true_iff. right.
    apply negb_true_iff, Z.eqb_neq. intros H0. apply negb_true_iff, Z.eqb_neq in Hs. apply Hs.
    change kTcpSyn with (Z.land (Z.lor kTcpSyn (Z.lor kTcpFin kTcpRst)) kTcpSyn).
    by rewrite Z.land_assoc, H0.
  - unfold opensTlsHandshake. case_cmp; [|done]. intros _. by rewrite (proj2 (Z.ltb_lt 0 _)) by lia.
Qed.

Section connection.
  Context (expects : list (Packet * list Callback) -> R -> Prop) (reassembles : Reassembles expects).
  Context (k_used : k <> 0).
  #[local] Set Default Proof Using "Type*".

  Abbreviation Waiting entry l := (Frame expects entry l false).

Lemma feed_after_tick e now p e1 : tick e now = Ok e1 -> soon e1 now -> feed e now p = feed e1 now p.
Proof.
  intros Ht Hs. unfold feed. rewrite Ht. unfold tick at 1. by rewrite (proj2 (Z.ltb_lt _ _) Hs).
Qed.

(** The tick that a packet of the flow brings with it. *)
Lemma tick_frame e now p entry l : Inv e -> quiet e -> readable p -> Waiting entry l e ->
  (forall c, entry = Some c -> state c = Wait) -> in_time entry now ->
  exists e1, feed e now p = feed e1 now p /\ Inv e1 /\ quiet e1 /\ soon e1 now /\ Waiting entry l e1 /\
    (size (_conns e1) <= size (_conns e))%nat /\ _max_flows e1 = _max_flows e.
Proof.
  intros Hi Hq Hr Hf Hw Hnow.
  destruct (feed_spec e now p Hi Hq Hr) as (e1 & e' & Ht & _ & I1 & Q1 & Hs & S1 & _ & _ & _).
  exists e1. pose proof (frame_tick expects reassembles k_used entry Hw l e now Hf Hnow) as H1.
  rewrite Ht in H1. destruct S1 as [_ D1 F1 [C1 _] _ _].
  split_and!; [by apply feed_after_tick|done|done|done|done| |done].
  rewrite <- !size_dom. apply subseteq_size. intros j. rewrite !elem_of_dom. intros [c Hc].
  destruct (F1 j c Hc) as (c0 & Hc0 & _). by exists c0.
Qed.

(** A packet of the flow can be fed: its entry [c] waits and is not idle, or it is
    new and there is room. *)
Definition fed_next (entry : option Conn) (c : Conn) e (now : Z) (p : Packet) : Prop :=
  state c = Wait /\ pcpp_closed c = false /\ in_time entry now /\
  (entry = Some c \/
   (entry = None /\ c = Conn_default /\ (size (_conns e) < _max_flows e)%nat) /\ opening (view_of p)).

Lemma frame_entered entry c e now p l : Inv e -> quiet e -> own_packet key (view_of p) p ->
  fed_next entry c e now p -> Waiting entry l e ->
  exists e1, feed e now p = feed e1 now p /\ Inv e1 /\ quiet e1 /\ soon e1 now /\ Waiting entry l e1 /\
    entry_for e1 key (view_of p) c.
Proof.
  intros Hi Hq Hp (Hs & _ & Ht & Hc) Hf.
  destruct (tick_frame e now p entry l Hi Hq (proj1 Hp) Hf) as (e1 & E & I1 & Q1 & S1 & F1 & Z1 & M1);
    [intros c0 ->; destruct Hc as [[= ->]|[[? _] _]]; done|done|].
  exists e1. split_and!; try done. split; [done|]. pose proof (fr_entry _ _ _ _ _ F1) as He.
  destruct Hc as [->|[(-> & -> & Hsz) Ho]]; [by left|right]. split; [|done]. split_and!; [done|done|lia].
Qed.

(** After a packet that leaves the decision open. *)
Lemma own_waits entry c e now p cbs l : Inv e -> quiet e -> own_item (p, cbs) ->
  fed_next entry c e now p -> Waiting entry (deliveries ((p, cbs) :: l)) e ->
  (length (held c) < kMaxPacketsPerConn)%nat -> zlen (stream c ++ client_data cbs) <= kMaxStreamBytes ->
  decision (stream c ++ client_data cbs) = None ->
  exists e' pk, feed e now p = Ok e' /\ (carrying p = false -> MkDecided p ALLOW ∈ _decided e') /\
    Waiting (Some (MkConn Wait (held c ++ map release_bytes (held_of (view_of p) p))
      (stream c ++ client_data cbs) pk false now)) (deliveries l) e'.
Proof.
  intros Hi Hq (Hp & Ho & Hnil) Hnext Hf Hh Hl Hd. simpl in Hp, Ho, Hnil.
  destruct (frame_entered entry c e now p _ Hi Hq Hp Hnext Hf) as (e1 & -> & I1 & Q1 & S1 & F1 & Hc).
  destruct Hnext as (Hs & Hcl & _ & Hentry). unfold deliveries in F1. simpl in F1.
  destruct (entering p) eqn:He.
  - destruct (raw_packet_ok p (proj1 Hp) (proj1 (proj2 Hp))) as (raw & Hraw).
    destruct (re_own _ reassembles _ _ _ _ raw (fr_expects _ _ _ _ _ F1) Hraw) as (r' & Hre & Hx).
    destruct (feed_waits e1 now key (view_of p) c p raw r' k cbs I1 Q1 Hp S1 Hc He Hh Hraw Hre Ho Hl Hd)
      as (e2 & H2 & T2 & R2 & Q2 & D2 & C2).
    exists e2, (key_after k c cbs). split; [done|]. split.
    + intros Hcar. unfold passed_of in D2. unfold carrying in Hcar. rewrite Hcar in D2. rewrite D2. set_solver.
    + split; try done.
      * by rewrite C2, lookup_insert_eq, Hcl.
      * intros j c' Hj. rewrite C2, lookup_insert_ne by done. by apply (fr_others _ _ _ _ _ F1).
      * by rewrite T2.
      * rewrite R2. apply (closed_expects expects reassembles); [done|done|apply F1].
  - rewrite (Hnil eq_refl) in *. destruct Hentry as [->|[_ Hop]].
    2: { apply opening_enters in Hop. unfold entering in He. congruence. }
    rewrite (feed_passes e1 now key (view_of p) c p Hp S1 (fr_entry _ _ _ _ _ F1) Hs He Hh).
    eexists _, (pcpp_key c). split; [done|]. simpl.
    assert (carries (view_of p) = false) as Hcar by (by apply orb_false_elim in He as [? _]).
    split; [intros _; set_solver|]. unfold held_of. rewrite Hcar. simpl. rewrite !app_nil_r.
    destruct F1. split; try done; simpl.
    + rewrite lookup_insert_eq. unfold set_last. by rewrite Hs, Hcl.
    + intros j c' Hj. rewrite lookup_insert_ne by done. by apply fr_others0.
Qed.

(** After the packet that completes it. *)
Lemma own_decides entry c e now p cbs l host v : Inv e -> quiet e -> own_item (p, cbs) ->
  fed_next entry c e now p -> Waiting entry (deliveries ((p, cbs) :: l)) e -> carrying p = true ->
  (length (held c) < kMaxPacketsPerConn)%nat -> zlen (stream c ++ client_data cbs) <= kMaxStreamBytes ->
  decision (stream c) = None -> decision (stream c ++ client_data cbs) = Some host ->
  (forall d, (_decide host d).1 = v) ->
  exists e', feed e now p = Ok e' /\ forall q, q ∈ held c ++ [p] -> MkDecided q v ∈ _decided e'.
Proof.
  intros Hi Hq (Hp & Ho & _) Hnext Hf Hcar Hh Hl Hn Hd Hv. simpl in Hp, Ho.
  destruct (frame_entered entry c e now p _ Hi Hq Hp Hnext Hf) as (e1 & -> & I1 & Q1 & S1 & F1 & Hc).
  assert (entering p = true) as He by (unfold entering, enters; unfold carrying in Hcar; by rewrite Hcar).
  unfold deliveries in F1. simpl in F1. rewrite He in F1.
  destruct (raw_packet_ok p (proj1 Hp) (proj1 (proj2 Hp))) as (raw & Hraw).
  destruct (re_own _ reassembles _ _ _ _ raw (fr_expects _ _ _ _ _ F1) Hraw) as (r' & Hre & Hx).
  destruct (_decide host (_policy e1)) as [v' d'] eqn:Hdec.
  assert (v' = v) as -> by (pose proof (Hv (_policy e1)) as E; by rewrite Hdec in E).
  destruct (feed_decides e1 now key (view_of p) c p raw r' k cbs host v d' I1 Q1 Hp S1 Hc He Hh Hraw Hre Ho Hl Hn Hd Hdec)
    as (e2 & H2 & D2).
  exists e2. split; [done|]. intros q Hin. rewrite D2. apply elem_of_app. right. apply elem_of_app. left.
  unfold held_of. unfold carrying in Hcar. rewrite Hcar. by apply (list_elem_of_fmap_2 (λ p, MkDecided p v)).
Qed.

(** Verdicts given stay given. *)
Lemma run_op_answers e o e' out x : Good e -> op_ok o -> run_op e o = Ok (e', out) ->
  x ∈ _decided e -> x ∈ out ++ _decided e'.
Proof.
  intros [Hi Hq _ _] Ho Hrun Hx. apply elem_of_app. destruct o as [now p|now| |]; simpl in *.
  - destruct (feed_spec e now p Hi Hq Ho) as (e1 & e2 & _ & H2 & _ & _ & _ & [_ [ds D1] _ _ _ _] & [_ _ _ [ds' D2] _ _ _ _] & _).
    rewrite H2 in Hrun. injection Hrun as <- <-. right. rewrite D2, D1. set_solver.
  - destruct (tick_spec e now Hi Hq) as (e1 & H1 & _ & _ & [_ [ds D1] _ _ _ _] & _).
    rewrite H1 in Hrun. injection Hrun as <- <-. right. rewrite D1. set_solver.
  - destruct (flush_spec e Hi Hq) as (e1 & H1 & _ & _ & _ & _ & [ds D1] & _).
    rewrite H1 in Hrun. injection Hrun as <- <-. right. rewrite D1. set_solver.
  - injection Hrun as <- <-. by left.
Qed.

Lemma run_answers ops : forall e e' out x, Good e -> Forall op_ok ops -> run e ops = Ok (e', out) ->
  x ∈ _decided e -> x ∈ out ++ _decided e'.
Proof.
  induction ops as [|o ops IH]; intros e e' out x Hg Hok Hrun Hx; simpl in Hrun.
  { by injection Hrun as <- <-. }
  destruct (Forall_cons_1 _ _ _ Hok) as [Ho Hops].
  destruct (run_op_good e o Hg Ho) as (e1 & out1 & H1 & G1 & _). rewrite H1 in Hrun.
  pose proof (run_op_answers e o e1 out1 x Hg Ho H1 Hx) as Hx1.
  cbn [mbind outcome_bind fst snd] in Hrun.
  destruct (run e1 ops) as [[e2 out2]|] eqn:H2; [|done]. injection Hrun as <- <-. rewrite <- app_assoc. apply elem_of_app in Hx1 as [Hx1|Hx1].
  - apply elem_of_app. by left.
  - apply elem_of_app. right. by apply (IH e1).
Qed.

(** A time at which a flow heard of since [t] is not idle for too long. *)
Definition window (t now : Z) : Prop := t <= now < t + kWaitIdleTimeout.

(** The packets [ps] of the flow are fed in this order, with less than ten seconds
    between one and the next, the first within ten seconds from [t]; until the last
    of them there may be anything else in between but a shutdown, and anything after
    it. *)
Inductive among : Z -> list Packet -> list op -> Prop :=
| among_done t ops : among t [] ops
| among_feed t now p ps ops : window t now -> theirs p -> among t ps ops ->
    among t ps (Feed now p :: ops)
| among_tick t now ps ops : window t now -> among t ps ops -> among t ps (Tick now :: ops)
| among_drain t ps ops : among t ps ops -> among t ps (Drain :: ops)
| among_own t now p ps ops : window t now -> among now ps ops -> among t (p :: ps) (Feed now p :: ops).

(** Running [ops] from [e] gives these ids these verdicts, among others. *)
Definition gives e (ops : list op) (X : list (Z * Verdict)) : Prop :=
  exists e' out, run e ops = Ok (e', out) /\ forall x, x ∈ X -> x ∈ map outcome_of (out ++ _decided e').

Lemma gives_step e o ops e1 out1 X : run_op e o = Ok (e1, out1) -> gives e1 ops X -> gives e (o :: ops) X.
Proof.
  intros H1 (e2 & out2 & H2 & HX). exists e2, (out1 ++ out2). cbn [run]. rewrite H1.
  cbn [mbind outcome_bind fst snd]. rewrite H2. split; [done|]. intros x Hx.
  rewrite <- app_assoc, map_app. apply elem_of_app. right. auto.
Qed.

(** What has been decided already need not be shown again. *)
Lemma gives_decided e ops X Y : Good e -> Forall op_ok ops -> gives e ops X ->
  (forall y, y ∈ Y -> y ∈ X \/ y ∈ map outcome_of (_decided e)) -> gives e ops Y.
Proof.
  intros Hg Hok (e' & out & Hrun & HX) HY. exists e', out. split; [done|]. intros y Hy.
  destruct (HY y Hy) as [Hyx|(d & -> & Hd)%list_elem_of_fmap]; [auto|].
  by apply list_elem_of_fmap_2, (run_answers ops e).
Qed.

Lemma gives_nothing e ops : Good e -> Forall op_ok ops -> gives e ops [].
Proof.
  intros Hg Hok. destruct (run_good e ops Hg Hok) as (e' & out & Hrun & _).
  exists e', out. split; [done|]. intros x Hx. by apply elem_of_nil in Hx.
Qed.

(** A step of the others. *)
Lemma gives_other e o ops c l X : Good e -> op_ok o -> Waiting (Some c) l e -> state c = Wait ->
  other_op (Some c) o ->
  (forall e1, Good e1 -> Waiting (Some c) l e1 -> gives e1 ops X) -> gives e (o :: ops) X.
Proof.
  intros Hg Ho Hf Hc Hoth Hnext. destruct (run_op_good e o Hg Ho) as (e1 & out1 & H1 & G1 & _).
  eapply gives_step; [exact H1|]. apply Hnext; [done|].
  eapply (frame_op expects reassembles k_used (Some c)); [|exact Hf|exact Hoth|exact H1].
  by intros c' [= <-].
Qed.

Lemma window_in_time t now h st pk : window t now -> in_time (Some (MkConn Wait h st pk false t)) now.
Proof.
  intros [Hn1 Hn2] c [= <-]. unfold is_expired, idle_limit. cbn [state last]. apply Z.leb_gt. lia.
Qed.

(** What is promised to the packets that are held and to those to come. *)
Definition promises (v : Verdict) (h : list Packet) (own : list (Packet * list Callback)) : list (Z * Verdict) :=
  map (λ p, (_id p, v)) h ++ map (λ x, answer v x.1) own.

(** One step of the connection: its packet leaves the decision open and the rest
    keeps the promise, or it is the last one and completes it. *)
Lemma gives_own entry c e now p cbs own ops host v : Good e -> op_ok (Feed now p) -> Forall op_ok ops ->
  own_item (p, cbs) -> fed_next entry c e now p -> Waiting entry (deliveries ((p, cbs) :: own)) e ->
  (length (held c) < kMaxPacketsPerConn)%nat -> zlen (stream c ++ client_data cbs) <= kMaxStreamBytes ->
  (forall d, (_decide host d).1 = v) ->
  (own = [] -> carrying p = true /\ decision (stream c) = None /\ decision (stream c ++ client_data cbs) = Some host) ->
  (own <> [] -> decision (stream c ++ client_data cbs) = None /\ forall e1 pk, Good e1 ->
     Waiting (Some (MkConn Wait (held c ++ map release_bytes (held_of (view_of p) p))
       (stream c ++ client_data cbs) pk false now)) (deliveries own) e1 ->
     gives e1 ops (promises v (held c ++ map release_bytes (held_of (view_of p) p)) own)) ->
  gives e (Feed now p :: ops) (promises v (held c) ((p, cbs) :: own)).
Proof.
  intros Hg Ho Hok Hitem Hnext Hf Hh Hl Hv Hlast Hmore. pose proof Hg as [Hi Hq _ _].
  destruct (run_op_good e (Feed now p) Hg Ho) as (e1 & out1 & H1 & G1 & _).
  assert (forall e2, feed e now p = Ok e2 -> e2 = e1) as Hfeed.
  { intros e2 H2. simpl in H1. rewrite H2 in H1. by injection H1 as <- <-. }
  eapply gives_step; [exact H1|]. destruct own as [|x own].
  - destruct (Hlast eq_refl) as (Hcar & Hn & Hd).
    destruct (own_decides entry c e now p cbs [] host v Hi Hq Hitem Hnext Hf Hcar Hh Hl Hn Hd Hv) as (e2 & H2 & HX).
    rewrite (Hfeed e2 H2) in HX. apply (gives_decided e1 ops []); [done|done|by apply gives_nothing|].
    intros y Hy. right. unfold promises, answer in Hy. simpl in Hy. rewrite Hcar in Hy.
    change [(_id p, v)] with (map (λ p, (_id p, v)) [p]) in Hy. rewrite <- map_app in Hy.
    apply list_elem_of_fmap in Hy as (q & -> & Hq'). by apply (list_elem_of_fmap_2 outcome_of _ (MkDecided q v)), HX.
  - destruct (Hmore ltac:(done)) as (Hd & Hrest).
    destruct (own_waits entry c e now p cbs (x :: own) Hi Hq Hitem Hnext Hf Hh Hl Hd) as (e2 & pk & H2 & Ha & F2).
    rewrite (Hfeed e2 H2) in *. apply (gives_decided e1 ops _ _ G1 Hok (Hrest e1 pk G1 F2)).
    intros y. unfold promises. rewrite map_app, !elem_of_app. cbn [map]. rewrite elem_of_cons.
    intros [Hy|[->|Hy]]; [by left; left; left| |by left; right].
    unfold answer, held_of. cbn [fst]. change (carries (view_of p)) with (carrying p).
    destruct (carrying p) eqn:Hcar.
    + left. left. right. by apply list_elem_of_singleton.
    + right. by apply (list_elem_of_fmap_2 outcome_of _ (MkDecided p ALLOW)), Ha.
Qed.

(** The rest [own] of the connection, after the stream [st], completes the decision
    with its last packet. *)
Definition ends_with (host : option bytes) (st : bytes) (own : list (Packet * list Callback)) : Prop :=
  exists l x, own = l ++ [x] /\ carrying x.1 = true /\ decision (st ++ stream_of l) = None /\
    decision (st ++ stream_of own) = Some host /\ zlen (st ++ stream_of own) <= kMaxStreamBytes.

Lemma ends_step host st x own : ends_with host st (x :: own) ->
  zlen (st ++ client_data x.2) <= kMaxStreamBytes /\
  (own = [] -> carrying x.1 = true /\ decision st = None /\ decision (st ++ client_data x.2) = Some host) /\
  (own <> [] -> decision (st ++ client_data x.2) = None /\ ends_with host (st ++ client_data x.2) own /\
     (0 < length (List.filter carrying (map fst own)))%nat).
Proof.
  intros (l & y & E & Hcar & Hn & Hd & Hl).
  change (stream_of (x :: own)) with (client_data x.2 ++ stream_of own) in *. rewrite app_assoc in Hd, Hl.
  split; [by eapply stream_prefix|]. split.
  - intros ->. destruct l as [|z l]; [|by destruct l]. injection E as <-. simpl in Hn, Hd. by rewrite app_nil_r in Hn, Hd.
  - intros Hne. destruct l as [|z l]; [injection E as -> ->; done|]. injection E as <- ->.
    change (stream_of (x :: l)) with (client_data x.2 ++ stream_of l) in Hn. rewrite app_assoc in Hn.
    assert (zlen ((st ++ client_data x.2) ++ stream_of l) <= kMaxStreamBytes) as Hl'.
    { unfold stream_of in Hl. rewrite map_app, concat_app, app_assoc in Hl. by eapply stream_prefix. }
    split; [by eapply decision_prefix|]. split; [by exists l, y|].
    rewrite map_app, filter_app, length_app. simpl. rewrite Hcar. simpl. lia.
Qed.

Lemma pending_decided v host : (forall d, (_decide host d).1 = v) ->
  forall t ps ops, among t ps ops -> forall own e h st pk, ps = map fst own -> own <> [] ->
  Forall op_ok ops -> Good e -> Forall own_item own ->
  Waiting (Some (MkConn Wait h st pk false t)) (deliveries own) e ->
  (length h + length (List.filter carrying (map fst own)) <= kMaxPacketsPerConn)%nat ->
  ends_with host st own -> gives e ops (promises v h own).
Proof.
  intros Hv t ps ops Ham. induction Ham as [t ops|t now p ps ops Hw Hp Ham IH|t now ps ops Hw Ham IH|t ps ops Ham IH
    |t now p ps ops Hw Ham IH]; intros own e h st pk Hps Hne Hok Hg Hitems Hf Hn Hend;
    [by destruct own|..]; destruct (Forall_cons_1 _ _ _ Hok) as [Ho Hops].
  1-3: apply (gives_other e _ ops _ _ _ Hg Ho Hf eq_refl);
    [simpl; eauto using window_in_time|intros e1 G1 F1; by apply (IH own e1 h st pk)].
  destruct own as [|[p' cbs] own]; [done|]. injection Hps as -> Hps.
  destruct (Forall_cons_1 _ _ _ Hitems) as [Hitem Hitems'].
  destruct (ends_step host st _ own Hend) as (Hl & Hlast & Hmore). cbn [fst snd] in Hl, Hlast, Hmore.
  assert ((if carrying p' then 1 else 0) + length (List.filter carrying (map fst own)) =
    length (List.filter carrying (map fst ((p', cbs) :: own))))%nat as Hlen
    by (simpl; by destruct (carrying p')).
  apply (gives_own (Some (MkConn Wait h st pk false t)) (MkConn Wait h st pk false t) e now p' cbs own ops host v);
    try done.
  - split_and!; [done|done|by apply window_in_time|by left].
  - simpl. destruct own as [|y own]; [|destruct (Hmore ltac:(done)) as (_ & _ & Hpos); destruct (carrying p'); lia].
    destruct (Hlast eq_refl) as (Hcar & _). rewrite Hcar in Hlen. lia.
  - intros Hne'. destruct (Hmore Hne') as (Hd & Hend' & _). split; [done|]. intros e1 pk' G1 F1.
    apply (IH own e1 (h ++ map release_bytes (held_of (view_of p') p')) (st ++ client_data cbs) pk'); try done.
     rewrite length_app, length_map. unfold held_of.
    change (carries (view_of p')) with (carrying p'). simpl. destruct (carrying p'); simpl; lia.
Qed.

(** ** From the constructor on *)

Lemma frame_run entry l ops : (forall c, entry = Some c -> state c = Wait) ->
  forall e e' out, Waiting entry l e -> Forall (other_op entry) ops -> run e ops = Ok (e', out) ->
  Waiting entry l e'.
Proof.
  intros Hw. induction ops as [|o ops IH]; intros e e' out Hf Ho Hrun; simpl in Hrun.
  { by injection Hrun as <- <-. }
  destruct (Forall_cons_1 _ _ _ Ho) as [Ho1 Hops].
  destruct (run_op e o) as [[e1 out1]|] eqn:H1; [|done]. cbn [mbind outcome_bind fst snd] in Hrun.
  destruct (run e1 ops) as [[e2 out2]|] eqn:H2; [|done]. injection Hrun as <- <-.
  apply (IH e1 e2 out2); [|done|done]. by apply (frame_op expects reassembles k_used entry Hw l e o e1 out1).
Qed.

Lemma others_before ops : Forall theirs (fed ops) -> Forall (other_op None) ops.
Proof.
  intros Hf. apply List.Forall_forall. intros o Ho.
  assert (forall p, p ∈ fed_by o -> theirs p) as Hfed.
  { intros p Hp. rewrite list.Forall_forall in Hf. apply Hf, list_elem_of_bind.
    exists o. split; [done|]. by apply list_elem_of_In. }
  destruct o as [now p|now| |]; simpl; try done. split; [done|]. apply Hfed, list_elem_of_singleton. done.
Qed.

(** What one connection is promised, wherever it stands in the traffic. *)
Lemma connection_gives e t0 x own ops hl v : Good e -> op_ok (Feed t0 x.1) -> Forall op_ok ops ->
  Sends_hello (x :: own) hl -> Waiting None (deliveries (x :: own)) e -> (size (_conns e) < _max_flows e)%nat ->
  (forall d, (_decide (sni hl) d).1 = v) -> among t0 (map fst own) ops ->
  gives e (Feed t0 x.1 :: ops) (promises v [] (x :: own)).
Proof.
  intros Hg Hok0 Hok [Hitems (x' & own' & E & Hop) (l & y & Hly & Hcar & Hhl) Hn] Hf Hsz Hv Ham.
  injection E as <- <-. destruct x as [p cbs]. cbn [fst] in *.
  destruct (decision_completed hl _ _ Hhl) as (Hd0 & Hd1 & Hl1).
  assert (ends_with (sni hl) [] ((p, cbs) :: own)) as Hend.
  { exists l, y. rewrite Hly. unfold stream_of at 2 3. rewrite map_app, concat_app. simpl. by rewrite app_nil_r. }
  destruct (Forall_cons_1 _ _ _ Hitems) as [Hitem Hitems'].
  destruct (ends_step _ [] _ own Hend) as (Hl & Hlast & Hmore). cbn [fst snd] in Hl, Hlast, Hmore.
  apply (gives_own None Conn_default e t0 p cbs own ops (sni hl) v); try done.
  - split_and!; [done|done|done|by right].
  - unfold kMaxPacketsPerConn. simpl. lia.
  - intros Hne. destruct (Hmore Hne) as (Hd & Hend' & _). split; [done|]. intros e1 pk' G1 F1.
    apply (pending_decided v (sni hl) Hv t0 (map fst own) ops Ham own e1
      (map release_bytes (held_of (view_of p) p)) (client_data cbs) pk'); try done.
    rewrite length_map. unfold held_of. change (carries (view_of p)) with (carrying p).
    simpl in Hn |- *. destruct (carrying p); simpl in *; lia.
Qed.

(** The same from the start of the program: the verdicts handed out by a run in
    which the connection's packets are among others. *)
Lemma traffic_answers d r mf mb pre t0 x own ops hl v :
  Forall op_ok (pre ++ Feed t0 x.1 :: ops) -> Forall theirs (fed pre) ->
  expects (deliveries (x :: own)) r ->
  (forall e out, run (Extractor_ctor (D := D) d r mf mb) pre = Ok (e, out) ->
     (size (_conns e) < _max_flows e)%nat) ->
  Sends_hello (x :: own) hl -> (forall d, (_decide (sni hl) d).1 = v) -> among t0 (map fst own) ops ->
  exists e out, run (Extractor_ctor (D := D) d r mf mb) (pre ++ Feed t0 x.1 :: ops) = Ok (e, out) /\
    forall p, p ∈ map fst (x :: own) -> answer v p ∈ map outcome_of (out ++ _decided e).
Proof.
  intros [Hpre [Hok0 Hok]%Forall_cons_1]%Forall_app Hth Hx Hsz Hhl Hv Ham.
  destruct (run_good _ pre (Good_ctor d r mf mb) Hpre) as (e1 & out1 & H1 & G1 & _).
  assert (Waiting None (deliveries (x :: own)) e1) as F1.
  { refine (frame_run None _ pre _ _ e1 out1 _ (others_before pre Hth) H1); [done|]. split; simpl; try done. }
  destruct (connection_gives e1 t0 x own ops hl v) as (e2 & out2 & H2 & HX); try done; [by eapply Hsz|].
  exists e2, (out1 ++ out2). rewrite run_app, H1. cbn [mbind outcome_bind fst snd]. rewrite H2.
  split; [done|]. intros p (y & -> & Hy)%list_elem_of_fmap. rewrite <- app_assoc, map_app. apply elem_of_app. right.
  apply HX. unfold promises. simpl. by apply (list_elem_of_fmap_2 (λ y, answer v y.1) (x :: own)).
Qed.

End connection.

End traffic.

(** * Properties *)

Section properties.
  Context {D R : Type} `{!Policy D} `{!Pcpp R} `{!MapOrder}.

(** C5: the verdict of a TLS connection, whatever else goes on.  The first packet
    is a SYN, with or without data, or opens a TLS handshake; then come, in any
    order that the reassembler puts right, segments, repeated segments, bare
    acknowledgements and the other side's packets, until a segment completes a
    ClientHello, in any framing into TLS records; at most 32 of them carry data,
    and the stream is at most 32 KiB.  Before and in between there are any packets
    of other flows, ticks and drains; "other" is by the flow key, and by the
    reassembler's key, which is not 0 for this connection.  Each operation in
    between comes within ten seconds of the connection's last packet, and the table
    is not full when it opens.  Then every packet that carries data gets the
    policy's verdict for the host name in the hello and the others pass; if ids are
    not repeated, none gets any other. *)
Theorem tls_connection_in_traffic key k theirs expects d r mf mb pre t0 x own ops hl v :
  (forall p, theirs p -> foreign key p) -> Reassembles k theirs expects -> k <> 0 ->
  Sends_hello key k (x :: own) hl -> expects (deliveries (x :: own)) r ->
  Forall op_ok (pre ++ Feed t0 x.1 :: ops) -> Forall theirs (fed pre) ->
  (forall e out, run (Extractor_ctor (D := D) (R := R) d r mf mb) pre = Ok (e, out) ->
     (size (_conns e) < _max_flows e)%nat) ->
  among theirs t0 (map fst own) ops -> (forall d, (_decide (sni hl) d).1 = v) ->
  exists e out, run (Extractor_ctor (D := D) (R := R) d r mf mb) (pre ++ Feed t0 x.1 :: ops) = Ok (e, out) /\
    forall p, p ∈ map fst (x :: own) -> answer v p ∈ map outcome_of (out ++ _decided e) /\
      (NoDup (map _id (fed (pre ++ Feed t0 x.1 :: ops))) ->
       forall a, a ∈ map outcome_of (out ++ _decided e) -> a.1 = _id p -> a = answer v p).
Proof.
  intros Hth Hre Hk Hhl Hx Hok Hpre Hsz Ham Hv.
  destruct (traffic_answers key k theirs Hth expects Hre Hk d r mf mb pre t0 x own ops hl v)
    as (e & out & Hrun & HX); try done.
  exists e, out. split; [done|]. intros p Hp. split; [by apply HX|]. intros Hnd a Ha Hid.
  destruct (run_good _ _ (Good_ctor d r mf mb) Hok) as (e' & out' & Hrun' & _ & P1).
  rewrite Hrun in Hrun'. injection Hrun' as <- <-.
  apply released_ids in P1. unfold stored in P1. simpl in P1.
  rewrite held_in_empty, app_nil_r, app_assoc, <- map_app, map_app, map_map in P1.
  rewrite <- P1 in Hnd. apply list.NoDup_app in Hnd as [Hnd _].
  assert (map fst (map outcome_of (out ++ _decided e)) = map (λ d, _id (pkt d)) (out ++ _decided e)) as E
    by (by rewrite map_map).
  rewrite <- E in Hnd. by apply (NoDup_map_inj fst _ a (answer v p) Hnd Ha (HX p Hp)).
Qed.

End properties.

(** ** A reassembler that keeps the promise

    The stand-in of [Streams] does, for every connection and every other traffic
    of which no packet has the connection's key. *)

(** The connection in state [conn] answers its packets with these callbacks. *)
Fixpoint replays (k : Z) (l : list (Packet * list Callback)) (conn : option (gmap Z Half)) : Prop :=
  match l with
  | [] => True
  | (p, cbs) :: l =>
      match raw_packet p with
      | Ok raw => token_of raw = k /\ (stream_step raw conn).2 = cbs /\ replays k l (stream_step raw conn).1
      | Fault _ => False
      end
  end.

Definition streams_expect (k : Z) (l : list (Packet * list Callback)) (r : Streams) : Prop := replays k l (r !! k).

Lemma stream_step_reports raw conn : Forall (λ cb, match cb with
  | ConnectionStart j | MessageReady _ _ j => j = token_of raw | ConnectionEnd => True end) (stream_step raw conn).2.
Proof.
  unfold stream_step. cbv zeta.
  assert (forall side ds, Forall (λ cb, match cb with
    | ConnectionStart j | MessageReady _ _ j => j = token_of raw | ConnectionEnd => True end)
    (match conn with None => [ConnectionStart (token_of raw)] | Some _ => [] end ++
     map (λ d, MessageReady side d (token_of raw)) ds)) as Hcb.
  { intros side ds. apply Forall_app_2; [destruct conn; by repeat constructor|].
    apply List.Forall_map, List.Forall_forall. by intros. }
  destruct (_ =? 0); [apply Hcb|]. apply Forall_app_2; [apply Hcb|by repeat constructor].
Qed.

Lemma streams_reassembles k theirs :
  (forall p raw, theirs p -> raw_packet p = Ok raw -> token_of raw <> k) ->
  Reassembles (R := Streams) k theirs (streams_expect k).
Proof.
  intros Hth. split; unfold streams_expect; simpl.
  - intros p cbs l r raw Hx Hraw. rewrite Hraw in Hx. destruct Hx as (<- & <- & Hl).
    exists (streams_reassemble r raw).1. split; [done|].
    unfold streams_reassemble. cbv zeta. cbn [fst]. by rewrite lookup_partial_alter_eq.
  - intros l r p raw Hx Hp Hraw. specialize (Hth p raw Hp Hraw). split.
    + unfold streams_reassemble. cbv zeta. cbn [fst]. by rewrite lookup_partial_alter_ne.
    + change (Forall (reports_other k) (stream_step raw (r !! token_of raw)).2).
      eapply List.Forall_impl; [|apply (stream_step_reports raw)]. intros cb Hcb. by destruct cb; simpl in *; subst.
  - intros l r j Hx Hj. by rewrite lookup_delete_ne.
  - done.
Qed.

(** ** Witness

    A connection with acknowledgements, a segment that comes too early, one that
    comes twice and the other side's packets, among those of other connections. *)

Definition demo_pieces : list bytes :=
  [take 7 demo_stream; take 50 (drop 7 demo_stream); drop 57 demo_stream ++ str "early data"].
Definition demo_piece (i : nat) : bytes := nth i demo_pieces [].

Definition demo_server (flags : Z) (seq : Z) (body : bytes) : bytes :=
  test_l3 kServer kClient 443 54000 seq flags body.

(** Its packets in the order in which they come. *)
Definition demo_packets : list Packet :=
  [test_view (test_syn 54000) 10; test_view (demo_server 18 7000 []) 11;
   test_view (test_l3 kClient kServer 54000 443 1001 16 []) 12;
   test_view (test_seg 54000 1008 (demo_piece 1)) 13; test_view (test_seg 54000 1001 (demo_piece 0)) 14;
   test_view (test_seg 54000 1001 (demo_piece 0)) 15; test_view (demo_server 24 7001 (str "hi")) 16;
   test_view (test_seg 54000 1058 (demo_piece 2)) 17].

Definition demo_syn : Packet := test_view (test_syn 54000) 10.
Definition demo_key : Z := key_of demo_syn.
Definition demo_token : Z := token_of (packet_bytes demo_syn).

(** With what the reassembler says of each. *)
Definition demo_callbacks : list (list Callback) :=
  let client d := MessageReady 0 d demo_token in
  [[ConnectionStart demo_token]; []; []; []; [client (demo_piece 0); client (demo_piece 1)]; [];
   [MessageReady 1 (str "hi") demo_token]; [client (demo_piece 2)]].
Definition demo_own : list (Packet * list Callback) := zip demo_packets demo_callbacks.
Definition demo_p (i : nat) : Packet := nth i demo_packets Packet_default.

(** The others: a connection to a blocked host and one that only opens. *)
Definition demo_others : list Packet :=
  [test_view (test_syn 55000) 20; test_view (test_seg 55000 1001 (take 30 demo_blocked_hello)) 21;
   test_view (test_syn 56000) 22; test_view (test_seg 55000 1031 (drop 30 demo_blocked_hello)) 23;
   test_view (test_seg 55000 1111 (str "more")) 24].
Definition demo_other (i : nat) : Packet := nth i demo_others Packet_default.

Definition foreign_at (key : Z) (p : Packet) : bool :=
  match flow_view p with Ok (_, f) => negb (Packet.key f =? key) | Fault _ => false end.

Lemma demo_others_foreign p : p ∈ demo_others -> foreign demo_key p.
Proof.
  intros Hp%list_elem_of_In. assert (forallb (foreign_at demo_key) demo_others = true) as Hall by concrete.
  rewrite forallb_forall in Hall. specialize (Hall p Hp). unfold foreign_at in Hall.
  intros f Hf _. rewrite Hf in Hall. by apply negb_true_iff, Z.eqb_neq in Hall.
Qed.

Lemma demo_reassembles : Reassembles demo_token (λ p, p ∈ demo_others) (streams_expect demo_token).
Proof.
  apply streams_reassembles. intros p raw Hp%list_elem_of_In Hraw.
  assert (forallb (λ p, negb (token_of (packet_bytes p) =? demo_token)) demo_others = true) as Hall by concrete.
  rewrite forallb_forall in Hall. specialize (Hall p Hp). unfold packet_bytes in Hall. rewrite Hraw in Hall.
  by apply Z.eqb_neq, negb_true_iff.
Qed.

Definition demo_pre : list op := [Feed (seconds 4) (demo_other 0); Drain].

Definition demo_rest : list op :=
  [Feed (seconds 6) (demo_p 1); Feed (seconds 6) (demo_other 1); Feed (seconds 6) (demo_p 2); Tick (seconds 8); Drain;
   Feed (seconds 15) (demo_p 3); Feed (seconds 16) (demo_other 2); Feed (seconds 24) (demo_p 4);
   Feed (seconds 30) (demo_p 5); Feed (seconds 31) (demo_p 6); Feed (seconds 39) (demo_other 3);
   Feed (seconds 40) (demo_p 7); Feed (seconds 90) (demo_other 4); Flush; Drain].

Lemma demo_other_in i : (i < 5)%nat -> demo_other i ∈ demo_others.
Proof. intros Hi. apply list_elem_of_In, nth_In. exact Hi. Qed.

(** Each step of [among] for concrete packets. *)
Ltac among_concrete :=
  repeat first [ apply among_done | apply among_drain
               | apply among_feed; [split; concrete|apply demo_other_in; lia|] | apply among_own; [split; concrete|]
               | apply among_tick; [split; concrete|] ].

Lemma demo_among : among (λ p, p ∈ demo_others) (seconds 5) (tail demo_packets) demo_rest.
Proof.
  change (tail demo_packets) with [demo_p 1; demo_p 2; demo_p 3; demo_p 4; demo_p 5; demo_p 6; demo_p 7].
  unfold demo_rest. among_concrete.
Qed.

Lemma demo_sends : Sends_hello demo_key demo_token demo_own demo_hello.
Proof.
  split.
  - unfold demo_own, demo_packets, demo_callbacks. cbn [zip zip_with].
    repeat (apply Forall_cons; [split_and!; [split; [split; [|simpl]; concrete|]; split_and!; concrete
      |repeat (apply Forall_cons; [concrete|]); apply Forall_nil|concrete]|]). apply Forall_nil.
  - exists (demo_syn, [ConnectionStart demo_token]), (tail demo_own). split; concrete.
  - exists (take 7 demo_own), (demo_p 7, [MessageReady 0 (demo_piece 2) demo_token]).
    split; [reflexivity|]. split; [concrete|]. split; [concrete|]. split; [concrete|].
    exists demo_records, (str "early data"). split_and!; concrete.
  - concrete.
Qed.

Lemma tls_connection_in_traffic_witness :
  exists e out, run (Extractor_ctor 0%nat (∅ : Streams) 4 1) (demo_pre ++ Feed (seconds 5) demo_syn :: demo_rest) =
    Ok (e, out) /\ Forall (λ p, answer ALLOW p ∈ map outcome_of (out ++ _decided e)) demo_packets.
Proof.
  destruct (tls_connection_in_traffic demo_key demo_token (λ p, p ∈ demo_others) (streams_expect demo_token)
    0%nat ∅ 4 1 demo_pre (seconds 5) (demo_syn, [ConnectionStart demo_token]) (tail demo_own) demo_rest demo_hello ALLOW)
    as (e & out & Hrun & H1).
  - exact demo_others_foreign.
  - exact demo_reassembles.
  - concrete.
  - exact demo_sends.
  - unfold streams_expect. split_and!; concrete.
  - concrete.
  - apply Forall_cons; [apply demo_other_in; lia|apply Forall_nil].
  - intros e out Hrun. vm_compute in Hrun. injection Hrun as <- <-. concrete.
  - exact demo_among.
  - intros d. concrete.
  - exists e, out. split; [exact Hrun|]. apply list.Forall_forall. intros p Hp. exact (proj1 (H1 p Hp)).
Defined.
