(* ===== verification/ExtractorBlocked.v ===== *)
(** * Blocked flows

    How long a flow stays blocked.  With a policy that lets flows without a name
    pass, a sweep and a shutdown only ever allow packets ([Passed]), and a packet
    of another flow ends a block only through the ring: when the table is full, or
    when the ring's next slot is the blocked flow's ([feed_foreign]). *)
From S2P Require Import ClientHello ClientHelloSpec Packet PacketSpec Extractor ExtractorInv ExtractorSpec ExtractorDecision Streams ExtractorTraffic.

Definition allowed (d : Decided) : Prop := verdict d = ALLOW.

(** The policy lets a flow without a name pass. *)
Definition nameless_pass (D : Type) `{!Policy D} : Prop := forall d : D, (_decide None d).1 = ALLOW.

Section passed.
  Context {D R : Type} `{!Policy D} `{!Pcpp R} `{!MapOrder}.
  Abbreviation Ext := (Extractor D R).
  Implicit Types e : Ext.
(** What a sweep over the flows [ks] does: it allows packets, leaves the ring
    alone, and ends flows that wait or are in [ks]. *)
Record Passed (ks : list Z) e e' : Prop := {
  pa_entry : forall i, i ∉ ks -> (forall c, _conns e !! i = Some c -> state c = Block) ->
    _conns e' !! i = _conns e !! i;
  pa_ring : (_block_ring e', _block_next e') = (_block_ring e, _block_next e);
  pa_feeding : _feeding e' = _feeding e;
  pa_decided : exists ds, _decided e' = _decided e ++ ds /\ Forall allowed ds
}.

Lemma Passed_trans ks e1 e2 e3 : Passed ks e1 e2 -> Passed ks e2 e3 -> Passed ks e1 e3.
Proof.
  intros [E1 R1 F1 (ds1 & D1 & A1)] [E2 R2 F2 (ds2 & D2 & A2)]. split.
  - intros i Hi Hb. rewrite E2, E1; [done..| |]; [done|]. by rewrite E1.
  - by rewrite R2.
  - by rewrite F2.
  - exists (ds1 ++ ds2). rewrite D2, D1, app_assoc. split; [done|]. by apply Forall_app.
Qed.

Lemma Passed_same ks e e' :
  (_conns e', _block_ring e', _block_next e', _feeding e', _decided e') =
  (_conns e, _block_ring e, _block_next e, _feeding e, _decided e) -> Passed ks e e'.
Proof.
  intros [= E1 E2 E3 E4 E5]. split; rewrite ?E1, ?E2, ?E3, ?E4; try done.
  exists []. by rewrite E5, app_nil_r.
Qed.

Lemma Passed_weaken ks e e' : Passed [] e e' -> Passed ks e e'.
Proof. intros [E ? ? ?]. split; try done. intros i _. apply E. set_solver. Qed.

  Context (nameless : nameless_pass D).

Lemma resolve_passed e j : exists e', resolve e j None = Ok e' /\ Passed [] e e'.
Proof using nameless.
  unfold resolve. destruct (_conns e !! j) as [c|] eqn:Hc; [|exists e; split; [done|by apply Passed_same]].
  destruct (state c) eqn:Hs; [|exists e; split; [done|by apply Passed_same]].
  pose proof (nameless (_policy e)) as Hn. destruct (_decide None (_policy e)) as [v d].
  simpl in Hn. subst v. cbn [mbind outcome_bind]. rewrite decide_all_decided.
  eexists. split; [done|].
  assert (forall i, (forall c', _conns e !! i = Some c' -> state c' = Block) ->
    delete j (_conns e) !! i = _conns e !! i) as Hi.
  { intros i Hb. apply lookup_delete_ne. intros <-. rewrite (Hb c Hc) in Hs. done. }
  assert (Forall allowed (map (λ p, MkDecided p ALLOW) (held c))) as Ha by (apply Forall_fmap, Forall_true; done).
  destruct (_ && _); (split; [intros i _; exact (Hi i)|done|done|]); eexists; by split.
Qed.

Lemma expire_all_passed ks : forall e, exists e', expire_all e ks = Ok e' /\ Passed ks e e'.
Proof using nameless.
  assert (forall l1 l2 e e', l1 ⊆ l2 -> Passed l1 e e' -> Passed l2 e e') as Hsub.
  { intros l1 l2 e e' Hl [E ? ? ?]. split; try done. intros i Hi. apply E. set_solver. }
  induction ks as [|j ks IH]; intros e; [exists e; split; [done|by apply Passed_same]|].
  cbn [expire_all]. assert (exists e1, expire e j = Ok e1 /\ Passed [j] e e1) as (e1 & -> & P1).
  { unfold expire. destruct (_conns e !! j) as [c|]; [|exists e; split; [done|by apply Passed_same]].
    destruct (state c).
    - destruct (resolve_passed e j) as (e1 & H1 & P1). exists e1. split; [done|]. by apply Passed_weaken.
    - eexists. split; [done|]. split; try done; [|exists []; by rewrite app_nil_r].
      intros i Hi _. apply lookup_delete_ne. set_solver. }
  cbn [mbind outcome_bind]. destruct (IH e1) as (e2 & -> & P2). exists e2. split; [done|].
  apply (Passed_trans _ _ e1); [by eapply Hsub; [|exact P1]; set_solver|by eapply Hsub; [|exact P2]; set_solver].
Qed.

Lemma resolve_all_passed ks : forall e, exists e', resolve_all e ks = Ok e' /\ Passed [] e e'.
Proof using nameless.
  induction ks as [|j ks IH]; intros e; [exists e; split; [done|by apply Passed_same]|].
  cbn [resolve_all]. destruct (resolve_passed e j) as (e1 & -> & P1). cbn [mbind outcome_bind].
  destruct (IH e1) as (e2 & -> & P2). exists e2. split; [done|]. by eapply Passed_trans.
Qed.

Lemma sweep_passed e now : quiet e -> exists e', sweep e now = Ok e' /\ Passed (expired_keys e now) e e'.
Proof using nameless.
  intros Hq. unfold sweep. fold (expired_keys e now). set (e0 := set_blocked e _).
  destruct (expire_all_passed (expired_keys e now) e0) as (e1 & -> & P1). cbn [mbind outcome_bind].
  assert (_feeding e1 = false) as Hf by (rewrite (pa_feeding _ _ _ P1); exact Hq).
  rewrite run_pcpp_idle by done. cbn [mbind outcome_bind].
  match goal with |- context [drain_closes ?x] => destruct (drain_closes_idle x Hf) as (r & ->) end.
  cbn [mbind outcome_bind]. eexists. split; [done|].
  apply (Passed_trans _ _ e1); [|by apply Passed_same]. destruct P1. by split.
Qed.

Lemma tick_passed e now : quiet e -> exists e', tick e now = Ok e' /\ Passed (expired_keys e now) e e'.
Proof using nameless.
  intros Hq. unfold tick. destruct (_ <? _); [exists e; split; [done|by apply Passed_same]|].
  destruct (sweep_passed (set_lastSweep e now) now Hq) as (e' & H1 & []). exists e'. split; [done|by split].
Qed.

(** A shutdown allows what is still held. *)
Lemma flush_allows e : quiet e -> exists e' ds, flush e = Ok e' /\
  _decided e' = _decided e ++ ds /\ Forall allowed ds.
Proof using nameless.
  intros Hq. unfold flush. set (ks := map fst _).
  destruct (resolve_all_passed ks e) as (e1 & -> & [_ _ Hf (ds & Hd & Ha)]). cbn [mbind outcome_bind].
  destruct (drain_closes_idle (set_conns e1 ∅)) as (r & ->); [by rewrite <- Hq, <- Hf|].
  cbn [mbind outcome_bind]. exists (publish (set_to_close (set_reassembly (set_conns e1 ∅) r) [])), ds. by split.
Qed.

End passed.

(** ** The ring's slots *)

(** How many slots of the ring name the flow. *)
Definition slots {D R} (key : Z) (e : Extractor D R) : nat :=
  length (List.filter (λ x, x =? key) (_block_ring e)).

Lemma slots_put {D R} key (e : Extractor D R) v x : ring_head e = Ok v -> x <> key ->
  (v = key -> slots key (ring_put e x) < slots key e)%nat /\
  (v <> key -> slots key (ring_put e x) = slots key e).
Proof.
  unfold ring_head. destruct (_block_ring e !! _block_next e) as [w|] eqn:Hw; [|done].
  intros [= ->] Hx. unfold slots. simpl. rewrite (insert_take_drop _ _ _ (lookup_lt_Some _ _ _ Hw)).
  set (l := _block_ring e) in *. rewrite <- (take_drop_middle l _ _ Hw) at 3 6.
  rewrite !List.filter_app, !length_app. simpl. rewrite (proj2 (Z.eqb_neq x key) Hx).
  destruct (Z.eqb_spec v key); simpl; split; intros; first [done|lia].
Qed.

Section blocked.
  Context {D R : Type} `{!Policy D} `{!Pcpp R} `{!MapOrder}.
  Abbreviation Ext := (Extractor D R).
  Implicit Types e : Ext.

(** The blocked flow, its entry and the number of its slots; the flow [j] whose
    packet comes in; the ring at that point.  Where [full] holds the table may
    have been made room in. *)
  Context (key : Z) (c : Conn) (n : nat) (j : Z) (ring0 : list Z) (next0 : nat) (full : Prop).
  Context (key_used : key <> 0) (not_j : j <> key) (c_blocked : state c = Block).

(** What may end the block. *)
Definition cause : Prop := full \/ ring0 !! next0 = Some key.

(** The entry is as it was, and the ring too until [j] has been blocked; or the
    entry is gone for one of the causes. *)
Definition Kept e : Prop :=
  (_conns e !! key = Some c /\ slots key e = n /\
     (full \/ (_block_ring e, _block_next e) = (ring0, next0) \/
      forall c', _conns e !! j = Some c' -> state c' = Block)) \/
  (_conns e !! key = None /\ (slots key e < n)%nat /\ cause).

Definition turns (m : outcome Ext) : Prop :=
  match m with Ok e => Kept e /\ _current_key e = j | Fault _ => True end.

Lemma turn_bind (m : outcome Ext) (f : Ext -> outcome Ext) :
  turns m -> (forall e, Kept e -> _current_key e = j -> turns (f e)) -> turns (m ≫= f).
Proof. destruct m as [e|]; simpl; [|done]. intros []. auto. Qed.

Lemma Kept_same e e' : Kept e ->
  (_conns e', _block_ring e', _block_next e') = (_conns e, _block_ring e, _block_next e) -> Kept e'.
Proof. unfold Kept, slots. by intros HK [= -> -> ->]. Qed.

(** Storing an entry for [j]; a waiting one only if it has one already. *)
Lemma Kept_insert e c' : Kept e ->
  (state c' = Block \/ exists c0, _conns e !! j = Some c0 /\ state c0 = Wait) ->
  Kept (set_conns e (<[j := c']> (_conns e))).
Proof using not_j.
  unfold Kept, slots. simpl. rewrite (lookup_insert_ne (_conns e) j key) by done.
  intros [(H1 & H2 & H3)|H1] Hc; [left|by right]. split_and!; [done|done|].
  destruct H3 as [H3|[H3|H3]]; [by left|by right; left|right; right].
  intros c1. rewrite lookup_insert_eq. intros [= <-]. destruct Hc as [|(c0 & Hc0 & Hs)]; [done|].
  by rewrite (H3 c0 Hc0) in Hs.
Qed.

Lemma Kept_delete e : Kept e -> Kept (set_conns e (delete j (_conns e))).
Proof using not_j.
  unfold Kept, slots. simpl. rewrite (lookup_delete_ne (_conns e) j key) by done.
  intros [(H1 & H2 & H3)|H1]; [left|by right]. split_and!; [done|done|].
  destruct H3 as [H3|[H3|H3]]; [by left|by right; left|right; right]. by rewrite lookup_delete_eq.
Qed.

(** The same while [j] has not been blocked. *)
Definition Before e : Prop :=
  (_conns e !! key = Some c /\ slots key e = n /\
     (full \/ (_block_ring e, _block_next e) = (ring0, next0))) \/
  (_conns e !! key = None /\ (slots key e < n)%nat /\ cause).

Lemma Before_kept e : Before e -> Kept e.
Proof. unfold Before, Kept. naive_solver. Qed.

Lemma Kept_before e c0 : Kept e -> _conns e !! j = Some c0 -> state c0 = Wait -> Before e.
Proof.
  intros [(H1 & H2 & H3)|H1] Hc Hs; [left|by right]. split_and!; [done|done|].
  destruct H3 as [H3|[H3|H3]]; [by left|by right|]. by rewrite (H3 c0 Hc) in Hs.
Qed.

Lemma Before_same e e' : Before e ->
  (_conns e' !! key, _block_ring e', _block_next e') = (_conns e !! key, _block_ring e, _block_next e) ->
  Before e'.
Proof. unfold Before, slots. by intros HB [= -> -> ->]. Qed.

(** Erasing the flow that the ring's head names. *)
Lemma erase_head e v b e' : erase_blocked e v = (b, e') ->
  (_block_ring e', _block_next e') = (_block_ring e, _block_next e) /\
  _current_key e' = _current_key e /\
  (_conns e !! key = None -> _conns e' !! key = None) /\
  (_conns e !! key = Some c -> _conns e' !! key = if base.decide (v = key) then None else Some c) /\
  (forall c', _conns e !! j = Some c' -> v <> j -> _conns e' !! j = Some c').
Proof using c_blocked.
  unfold erase_blocked. intros He. destruct (_conns e !! v) as [cv|] eqn:Hv.
  - destruct (decide_rel _ _ _) as [Hs|Hs]; injection He as <- <-; simpl.
    + split_and!; try done.
      * intros Hk. by apply lookup_delete_None; right.
      * intros Hk. destruct (base.decide (v = key)) as [->|Hne]; [apply lookup_delete_eq|by rewrite lookup_delete_ne].
      * intros c' Hc Hne. by rewrite lookup_delete_ne.
    + split_and!; try done. intros Hk. destruct (base.decide (v = key)) as [->|]; [|done].
      rewrite Hk in Hv. injection Hv as ->. done.
  - injection He as <- <-. split_and!; try done. intros Hk.
    destruct (base.decide (v = key)) as [->|]; [congruence|done].
Qed.

(** The first half of [remember_blocked]. *)
Lemma head_dropped e v cj : _conns e !! j = Some cj ->
  let e1 := if negb (v =? 0) && negb (v =? j) then (erase_blocked e v).2 else e in
  (_block_ring e1, _block_next e1) = (_block_ring e, _block_next e) /\ _current_key e1 = _current_key e /\
  (_conns e !! key = None -> _conns e1 !! key = None) /\
  (_conns e !! key = Some c -> _conns e1 !! key = if base.decide (v = key) then None else Some c) /\
  _conns e1 !! j = Some cj.
Proof using key_used not_j c_blocked.
  intros Hj. destruct (Z.eqb_spec v 0) as [->|Hv0]; simpl.
  { split_and!; try done. intros. by rewrite decide_False. }
  destruct (Z.eqb_spec v j) as [->|Hvj]; simpl.
  { split_and!; try done. intros. by rewrite decide_False. }
  destruct (erase_blocked e v) as [b e1] eqn:He.
  destruct (erase_head e v b e1 He) as (H1 & H2 & H3 & H4 & H5). simpl. split_and!; try done. by apply H5.
Qed.

(** Overwriting the head with something else, once its flow is erased. *)
Lemma put_keeps e e1 v x : Before e -> ring_head e = Ok v -> x <> key ->
  (_block_ring e1, _block_next e1) = (_block_ring e, _block_next e) ->
  (_conns e !! key = None -> _conns e1 !! key = None) ->
  (_conns e !! key = Some c -> _conns e1 !! key = if base.decide (v = key) then None else Some c) ->
  full \/ (forall c', _conns e1 !! j = Some c' -> state c' = Block) -> Kept (ring_put e1 x).
Proof.
  intros HB Hv Hx [= Hr Hn] HN HS Hj.
  assert (ring_head e1 = Ok v) as Hv1 by (unfold ring_head in *; by rewrite Hr, Hn).
  destruct (slots_put key e1 v x Hv1 Hx) as [Heq Hne].
  assert (slots key e1 = slots key e) as Hsl by (unfold slots; by rewrite Hr).
  destruct HB as [(H1 & H2 & H3)|(H1 & H2 & H3)].
  - specialize (HS H1). destruct (base.decide (v = key)) as [->|Hvk].
    + right. simpl. split_and!; [done|specialize (Heq eq_refl); lia|].
      destruct H3 as [|[= HR HN0]]; [by left|right]. unfold ring_head in Hv. rewrite HR, HN0 in Hv.
      destruct (ring0 !! next0); [|done]. by injection Hv as ->.
    + left. simpl. split_and!; [done|rewrite (Hne Hvk); lia|]. destruct Hj as [|Hj]; [by left|right; right; exact Hj].
  - right. simpl. split_and!; [by apply HN| |done].
    destruct (base.decide (v = key)) as [Hvk|Hvk]; [specialize (Heq Hvk)|specialize (Hne Hvk)]; lia.
Qed.

Lemma remember_keeps e cj : Before e -> _conns e !! j = Some cj -> state cj = Block ->
  _current_key e = j -> turns (remember_blocked e j).
Proof using key_used not_j c_blocked.
  intros HB Hj Hs Hcur. unfold remember_blocked. destruct (ring_head e) as [v|] eqn:Hv; [|done].
  cbn [mbind outcome_bind turns]. destruct (head_dropped e v cj Hj) as (H1 & H2 & H3 & H4 & H5).
  split; [|by etrans; [exact H2|]]. eapply put_keeps; [exact HB|exact Hv|done|exact H1|done|exact H4|].
  right. rewrite H5. by intros c' [= <-].
Qed.

Lemma evict_keeps m : full -> forall e, Before e ->
  match evict_loop m e with Ok r => Before r.2 | Fault _ => True end.
Proof using key_used j c_blocked.
  intros Hfull. assert (forall e, Kept e -> Before e) as HKB.
  { intros e [(H1 & H2 & _)|H1]; [left|by right]. split_and!; [done|done|by left]. }
  induction m as [|m IH]; intros e HB; simpl; [done|].
  destruct (ring_head e) as [v|] eqn:Hv; [|done]. cbn [mbind outcome_bind].
  destruct (Z.eqb_spec v 0) as [->|Hv0].
  { apply IH, HKB. eapply put_keeps; [exact HB|exact Hv|by apply not_eq_sym|done|done| |by left].
    intros Hk. by rewrite decide_False by done. }
  destruct (erase_blocked (ring_put e 0) v) as [b e1] eqn:He.
  destruct (erase_blocked e v) as [b' e2] eqn:He2.
  assert (e1 = ring_put e2 0 /\ b = b') as [-> ->].
  { unfold erase_blocked in *. simpl in He. destruct (_conns e !! v) as [cv|]; [|by injection He as <- <-; injection He2 as <- <-].
    destruct (decide_rel _ _ _); by injection He as <- <-; injection He2 as <- <-. }
  destruct (erase_head e v b' e2 He2) as (H1 & H2 & H3 & H4 & _).
  assert (Before (ring_put e2 0)) as HB2.
  { apply HKB. eapply put_keeps; [exact HB|exact Hv|by apply not_eq_sym|done|done|done|by left]. }
  destruct b'; [exact HB2|by apply IH].
Qed.

(** ** Resolution of [j] and its callbacks *)

Lemma resolve_keeps e h : Kept e -> _current_key e = j -> turns (resolve e j h).
Proof using key_used not_j c_blocked.
  intros HK Hcur. unfold resolve. destruct (_conns e !! j) as [cj|] eqn:Hc; [|done].
  destruct (state cj) eqn:Hs; [|done]. pose proof (Kept_before e cj HK Hc Hs) as HB.
  destruct (_decide h (_policy e)) as [v d]. apply turn_bind.
  - destruct v.
    + split; [|done]. apply (Kept_delete (set_policy e d)). by eapply Kept_same.
    + eapply remember_keeps; [|simpl; apply lookup_insert_eq|done|done].
      eapply Before_same; [exact HB|]. simpl. by rewrite lookup_insert_ne.
  - intros e1 H1 Hcur1. simpl. rewrite decide_all_decided. destruct (_ && _); (split; [by eapply Kept_same|done]).
Qed.

Lemma callback_turns e cb : Kept e -> _current_key e = j -> turns (callback e cb).
Proof using key_used not_j c_blocked.
  intros HK Hcur. destruct cb as [t|side data t|]; simpl.
  - unfold onConnectionStart. destruct (negb _); [done|]. rewrite Hcur.
    destruct (_conns e !! j) as [cj|] eqn:Hc; [|done]. split; [|done]. apply Kept_insert; [done|].
    destruct (state cj) eqn:Hs; [right; by exists cj|by left].
  - unfold onMessageReady. destruct (negb _); [done|]. destruct (negb _); [done|]. rewrite Hcur.
    destruct (_conns e !! j) as [cj|] eqn:Hc; [|done]. destruct (state cj) eqn:Hs; [|done].
    set (e1 := set_conns e _). assert (Kept e1) as H1 by (apply Kept_insert; [done|right; by exists cj]).
    destruct (extractHostname _ _ _) as [[res sc]|]; [|done]. cbn [mbind outcome_bind fst snd].
    assert (Kept (set_scratch e1 sc)) as H2 by by eapply Kept_same. simpl. rewrite Hcur.
    destruct res as [host| |].
    + destruct (rd_range _ _ _); [by apply resolve_keeps|done].
    + by apply resolve_keeps.
    + destruct (_ <? _); [by apply resolve_keeps|done].
  - unfold onConnectionEnd. destruct (negb _); [done|]. rewrite Hcur.
    destruct (_conns e !! j) as [cj|] eqn:Hc; [|done]. simpl. rewrite Hcur. apply resolve_keeps; [|done].
    apply Kept_insert; [done|]. destruct (state cj) eqn:Hs; [right; by exists cj|by left].
Qed.

Lemma callbacks_keep cbs : forall e, Kept e -> _current_key e = j -> turns (callbacks e cbs).
Proof using key_used not_j c_blocked.
  induction cbs as [|cb cbs IH]; intros e HK Hcur; [done|]. simpl.
  apply turn_bind; [by apply callback_turns|auto].
Qed.

(** ** A packet of [j] *)

Lemma Before_insert e c' : Before e -> Before (set_conns e (<[j := c']> (_conns e))).
Proof using not_j. intros HB. eapply Before_same; [exact HB|]. simpl. by rewrite lookup_insert_ne. Qed.

Definition ends_kept (m : outcome Ext) : Prop := match m with Ok e => Kept e | Fault _ => True end.

Lemma ends_kept_fmap m : ends_kept m -> ends_kept (publish <$> m).
Proof. destruct m as [e|]; [|done]. intros HK. by eapply Kept_same. Qed.

Lemma reassemble_keeps e p hold : Before e -> ends_kept (reassemble e j p hold).
Proof using key_used not_j c_blocked.
  intros HB. unfold reassemble. destruct (raw_packet p) as [raw|]; [|done]. cbn [mbind outcome_bind].
  set (e1 := if hold then _ else e). assert (Before e1) as H1.
  { unfold e1. destruct hold; [|done]. destruct (_conns e !! j); [by apply Before_insert|done]. }
  pose proof (callbacks_keep (reassemblePacket (_reassembly e1) raw).2
    (set_reassembly (set_feeding (set_current_key e1 j) true) (reassemblePacket (_reassembly e1) raw).1)) as H2.
  unfold run_pcpp. cbn [_reassembly set_feeding set_current_key].
  destruct (callbacks _ _) as [e2|]; [|done]. cbn [mbind outcome_bind].
  destruct H2 as [H2 _]; [by eapply Kept_same; [apply Before_kept, H1|]|done|].
  destruct (drain_closes_idle (set_feeding e2 false) eq_refl) as (r & ->). cbn [mbind outcome_bind].
  set (e3 := set_to_close _ _). assert (Kept e3) as H3 by by eapply Kept_same.
  destruct hold; [|by eapply Kept_same]. destruct (_conns e3 !! j) as [cj|] eqn:Hc; [|done].
  apply Kept_insert; [done|]. destruct (state cj) eqn:Hs; [right; by exists cj|by left].
Qed.

Lemma tracked_keeps e now cj f p : nameless_pass D -> Before e -> ends_kept (feed_tracked e now j cj f p).
Proof using key_used not_j c_blocked.
  intros Hn HB. unfold feed_tracked. set (e1 := set_conns e _).
  assert (Before e1) as H1 by by apply Before_insert. destruct (_ <=? _)%nat.
  - destruct (resolve_passed Hn e1 j) as (e2 & -> & [E2 R2 _ _]). cbn [mbind outcome_bind].
    eapply Kept_same; [apply Before_kept, (Before_same e1 e2); [done|]|done].
    injection R2 as -> ->. f_equal; f_equal. apply E2; [set_solver|]. intros c' Hk.
    destruct H1 as [(Hk1 & _)|(Hk1 & _)]; rewrite Hk1 in Hk; [|done]. by injection Hk as <-.
  - destruct (_ && _); [|by apply reassemble_keeps]. eapply Kept_same; [by apply Before_kept|done].
Qed.

Lemma Before_passed ks e e' : key ∉ ks -> Passed ks e e' -> Before e -> Before e'.
Proof using c_blocked.
  intros Hks [E2 R2 _ _] HB. eapply Before_same; [exact HB|]. injection R2 as -> ->. f_equal; f_equal.
  apply E2; [done|]. intros c' Hk. destruct HB as [(Hk1 & _)|(Hk1 & _)]; rewrite Hk1 in Hk; [|done].
  by injection Hk as <-.
Qed.

Lemma not_expired now e : is_expired now c = false -> Before e -> key ∉ expired_keys e now.
Proof.
  intros Hx HB (c' & Hc & Hx')%elem_of_filtered_keys.
  destruct HB as [(Hk & _)|(Hk & _)]; rewrite Hk in Hc; [|done]. injection Hc as <-. by rewrite Hx in Hx'.
Qed.

Lemma make_room_keeps e now : nameless_pass D -> quiet e -> is_expired now c = false -> Before e ->
  ((_max_flows e <= size (_conns e))%nat -> full) ->
  match make_room e now with Ok e' => Before e' | Fault _ => True end.
Proof using key_used j c_blocked.
  intros Hn Hq Hx HB Hfull. unfold make_room. destruct (Nat.leb_spec (_max_flows e) (size (_conns e))); [|done].
  specialize (Hfull ltac:(done)).
  assert (exists e1, (if kSweepInterval <=? now - _lastSweep e then sweep (set_lastSweep e now) now else Ok e) = Ok e1 /\
    Before e1) as (e1 & -> & H1).
  { destruct (_ <=? _); [|by exists e].
    destruct (sweep_passed Hn (set_lastSweep e now) now Hq) as (e1 & -> & P1). exists e1. split; [done|].
    eapply Before_passed; [|exact P1|]; [|by eapply Before_same].
    apply not_expired; [done|]. by eapply Before_same. }
  cbn [mbind outcome_bind]. destruct (_ <=? _)%nat; [|done]. unfold evict_oldest_blocked.
  pose proof (evict_keeps (_max_blocked e1) Hfull e1 H1). by destruct (evict_loop _ e1).
Qed.

Lemma flow_keeps e now f p : nameless_pass D -> quiet e -> is_expired now c = false -> Before e ->
  ((_max_flows e <= size (_conns e))%nat -> full) -> Packet.key f = j -> ends_kept (feed_flow e now f p).
Proof using key_used not_j c_blocked.
  intros Hn Hq Hx HB Hfull Hj. unfold feed_flow. rewrite Hj. destruct (_conns e !! j) as [cj|] eqn:Hc.
  - destruct (state cj); [by apply tracked_keeps|].
    eapply Kept_same; [apply Before_kept, (Before_insert e (set_last cj now) HB)|done].
  - unfold feed_untracked. destruct (if isClientSyn f then _ else _) as [b|]; [|done].
    cbn [mbind outcome_bind]. destruct (negb b); [eapply Kept_same; [by apply Before_kept|done]|].
    pose proof (make_room_keeps e now Hn Hq Hx HB Hfull) as H1.
    destruct (make_room e now) as [e1|]; [|done]. cbn [mbind outcome_bind].
    destruct (_ <=? _)%nat; [|by apply tracked_keeps]. eapply Kept_same; [by apply Before_kept|done].
Qed.

End blocked.

(** ** Runs *)

Section runs.
  Context {D R : Type} `{!Policy D} `{!Pcpp R} `{!MapOrder}.
  Abbreviation Ext := (Extractor D R).
  Implicit Types e : Ext.
  Context (key : Z).

(** A packet of the flow. *)
Definition owned (p : Packet) : Prop :=
  exists f, own_packet key f p.

(** Operations none of which comes a minute or more after the flow's last packet,
    the first being at [t], and no shutdown. *)
Fixpoint within (t : Z) (ops : list op) : Prop :=
  match ops with
  | [] => True
  | Feed now p :: ops => now - t < kBlockIdleTimeout /\
      ((owned p /\ within now ops) \/ (foreign key p /\ within t ops))
  | Tick now :: ops => now - t < kBlockIdleTimeout /\ within t ops
  | Flush :: _ => False
  | Drain :: ops => within t ops
  end.

(** [key] is a blocked flow. *)
Definition blocks e (c : Conn) : Prop := _conns e !! key = Some c /\ state c = Block.

(** The table is full, or the ring's next slot is the flow's. *)
Definition under_pressure e : Prop :=
  (_max_flows e <= size (_conns e))%nat \/ _block_ring e !! _block_next e = Some key.

Lemma in_minute c now : state c = Block -> now - last c < kBlockIdleTimeout -> is_expired now c = false.
Proof. intros Hs Hnow. unfold is_expired, idle_limit. rewrite Hs. by apply Z.leb_gt. Qed.

Lemma tick_blocked e now c : nameless_pass D -> Good e -> blocks e c -> now - last c < kBlockIdleTimeout ->
  exists e1, tick e now = Ok e1 /\ blocks e1 c /\ Inv e1 /\ quiet e1 /\
    (_block_ring e1, _block_next e1) = (_block_ring e, _block_next e) /\
    (_max_flows e1 = _max_flows e /\ size (_conns e1) <= size (_conns e))%nat.
Proof.
  intros Hn [Hi Hq _ _] [Hc Hs] Hnow. destruct (tick_passed Hn e now Hq) as (e1 & Ht & [E1 R1 _ _]).
  destruct (tick_spec e now Hi Hq) as (e1' & Ht' & I1 & Q1 & [_ _ F1 [C1 _] _ _] & _).
  rewrite Ht in Ht'. injection Ht' as <-. exists e1. split_and!; try done.
  - split; [|done]. rewrite E1; [done| |by rewrite Hc; intros c' [= <-]].
    intros (c' & Hc' & Hx)%elem_of_filtered_keys. rewrite Hc in Hc'. injection Hc' as <-. by rewrite in_minute in Hx.
  - assert (dom (_conns e1) ⊆ dom (_conns e)) as Hd.
    { intros i [c' Hi']%elem_of_dom. destruct (F1 i c' Hi') as (c0 & Hc0 & _). apply elem_of_dom. by exists c0. }
    apply subseteq_size in Hd. by rewrite !size_dom in Hd.
Qed.

Lemma feed_owned e now p c : nameless_pass D -> Good e -> blocks e c -> now - last c < kBlockIdleTimeout ->
  owned p -> exists e', feed e now p = Ok e' /\ blocks e' (set_last c now) /\ slots key e' = slots key e /\
    MkDecided p BLOCK ∈ _decided e'.
Proof.
  intros Hn Hg Hb Hnow (f & _ & Hbytes & Hv & Htcp & Hk).
  destruct (tick_blocked e now c Hn Hg Hb Hnow) as (e1 & Ht & [Hc Hs] & _ & _ & [= Hr _] & _).
  exists (publish (decide (set_conns e1 (<[key := set_last c now]> (_conns e1))) p BLOCK)).
  split_and!.
  - unfold feed. rewrite Ht. cbn [mbind outcome_bind]. rewrite Hbytes, Hv. simpl.
    rewrite (proj2 (Z.eqb_eq _ _) Htcp). simpl. unfold feed_flow. by rewrite Hk, Hc, Hs.
  - split; [|done]. simpl. by rewrite lookup_insert_eq.
  - unfold slots. simpl. by rewrite Hr.
  - simpl. set_solver.
Qed.

Lemma feed_foreign e now p c : nameless_pass D -> key <> 0 -> Good e -> blocks e c ->
  now - last c < kBlockIdleTimeout -> readable p -> foreign key p -> exists e', feed e now p = Ok e' /\
    ((blocks e' c /\ slots key e' = slots key e) \/
     (_conns e' !! key = None /\ (slots key e' < slots key e)%nat /\ under_pressure e)).
Proof.
  intros Hn Hk0 Hg Hb Hnow Hp Hf. pose proof Hb as [_ Hs]. pose proof Hg as [Hi Hq _ _].
  destruct (tick_blocked e now c Hn Hg Hb Hnow) as (e1 & Ht & [Hc _] & I1 & Q1 & [= Hr Hx] & Hmf & Hsz).
  destruct (feed_spec e now p Hi Hq Hp) as (_ & e' & _ & Hfeed & _). exists e'. split; [done|].
  assert (slots key e1 = slots key e) as Hsl by (unfold slots; by rewrite Hr).
  assert (forall m e2, publish <$> m = Ok e2 -> (exists e3, m = Ok e3 /\ _conns e3 = _conns e1 /\
    _block_ring e3 = _block_ring e1) -> blocks e2 c /\ slots key e2 = slots key e) as Hsame.
  { intros m e2 Hm (e3 & -> & H1 & H2). injection Hm as <-. unfold blocks, slots. simpl.
    by rewrite H1, H2, Hr. }
  unfold feed in Hfeed. rewrite Ht in Hfeed. cbn [mbind outcome_bind] in Hfeed.
  destruct (negb (has_bytes p)); [left; eapply Hsame; [exact Hfeed|eexists; by split]|].
  destruct (flow_view p) as [[b f]|] eqn:Hv; [|done]. cbn [mbind outcome_bind fst snd] in Hfeed.
  destruct b; [|left; eapply Hsame; [exact Hfeed|eexists; by split]]. simpl in Hfeed.
  destruct (Z.eqb_spec (ip_proto f) kProtoTcp) as [Htcp|]; [|left; eapply Hsame; [exact Hfeed|eexists; by split]].
  simpl in Hfeed. pose proof (Hf f Hv Htcp) as Hj.
  pose proof (ends_kept_fmap key c (slots key e) (Packet.key f) (_block_ring e1) (_block_next e1)
    (_max_flows e1 <= size (_conns e1))%nat (feed_flow e1 now f p)) as HK.
  rewrite Hfeed in HK. destruct HK as [(H1 & H2 & _)|(H1 & H2 & H3)].
  - apply flow_keeps; try done; [by apply in_minute|]. left. split_and!; [done|done|by right].
  - left. by split_and!.
  - right. split_and!; [done|done|]. unfold under_pressure. rewrite <- Hr, <- Hx, <- Hmf.
    destruct H3 as [H3|H3]; [left; lia|by right].
Qed.

(** What is decided stays decided until it is taken, and is then handed out. *)
Lemma run_op_decided e o e' out x : Good e -> op_ok o -> run_op e o = Ok (e', out) ->
  x ∈ _decided e -> x ∈ out ++ _decided e'.
Proof.
  intros [Hi Hq _ _] Ho Hrun Hx. destruct o as [now p|now| |]; simpl in Hrun.
  - destruct (feed_spec e now p Hi Hq Ho) as (e1 & e2 & _ & Hf & _ & _ & _ & [_ [l1 D1] _ _ _ _] & [_ _ _ [l2 D2] _ _ _ _] & _).
    rewrite Hf in Hrun. injection Hrun as <- <-. rewrite D2, D1. simpl. set_solver.
  - destruct (tick_spec e now Hi Hq) as (e1 & Ht & _ & _ & [_ [l D1] _ _ _ _] & _).
    rewrite Ht in Hrun. injection Hrun as <- <-. rewrite D1. simpl. set_solver.
  - destruct (flush_spec e Hi Hq) as (e1 & Hf & _ & _ & _ & _ & [l D1] & _).
    rewrite Hf in Hrun. injection Hrun as <- <-. rewrite D1. set_solver.
  - injection Hrun as <- <-. set_solver.
Qed.

(** One operation within a flow's time. *)
Lemma blocked_op e c o ops : nameless_pass D -> key <> 0 -> Good e -> blocks e c -> op_ok o ->
  within (last c) (o :: ops) -> exists e' out, run_op e o = Ok (e', out) /\ Good e' /\
    (forall x, x ∈ _decided e -> x ∈ out ++ _decided e') /\
    ((exists c', blocks e' c' /\ within (last c') ops /\ slots key e' = slots key e /\
        forall p, p ∈ fed_by o -> owned p -> MkDecided p BLOCK ∈ _decided e') \/
     (exists now p, o = Feed now p /\ foreign key p /\ _conns e' !! key = None /\
        (slots key e' < slots key e)%nat /\ under_pressure e)).
Proof.
  intros Hn Hk0 Hg Hb Ho Hw. destruct (run_op_good e o Hg Ho) as (e' & out & Hrun & Hg' & _).
  exists e', out. split_and!; [done|done|intros x; by eapply run_op_decided|].
  assert (forall p, foreign key p -> ~ owned p) as Hno.
  { intros p Hf (f & _ & _ & Hv & Htcp & Hk). exact (Hf f Hv Htcp Hk). }
  destruct o as [now p|now| |]; simpl in Hrun, Hw.
  - destruct Hw as [Hnow [[Hown Hw]|[Hf Hw]]].
    + destruct (feed_owned e now p c Hn Hg Hb Hnow Hown) as (e1 & Hfeed & Hb1 & Hs1 & Hd).
      rewrite Hfeed in Hrun. injection Hrun as <- <-. left. exists (set_last c now). split_and!; try done.
      intros q Hq _. by assert (q = p) as -> by (simpl in Hq; set_solver).
    + destruct (feed_foreign e now p c Hn Hk0 Hg Hb Hnow Ho Hf) as (e1 & Hfeed & [[Hb1 Hs1]|(H1 & H2 & H3)]);
        rewrite Hfeed in Hrun; injection Hrun as <- <-; [left; exists c|right; by exists now, p].
      split_and!; try done. intros q Hq Hown. assert (q = p) as -> by (simpl in Hq; set_solver). by destruct (Hno p).
  - destruct Hw as [Hnow Hw]. destruct (tick_blocked e now c Hn Hg Hb Hnow) as (e1 & Ht & Hb1 & _ & _ & [= Hr _] & _).
    rewrite Ht in Hrun. injection Hrun as <- <-. left. exists c. unfold slots. rewrite Hr. split_and!; try done. set_solver.
  - done.
  - injection Hrun as <- <-. left. exists c. split_and!; try done. set_solver.
Qed.

Lemma run_decided ops : forall e e' out x, Good e -> Forall op_ok ops -> run e ops = Ok (e', out) ->
  x ∈ _decided e -> x ∈ out ++ _decided e'.
Proof.
  induction ops as [|o ops IH]; intros e e' out x Hg Ho Hrun Hx; [by injection Hrun as <- <-|].
  destruct (Forall_cons_1 _ _ _ Ho) as [Ho1 Ho2]. destruct (run_op_good e o Hg Ho1) as (e1 & out1 & H1 & G1 & _).
  simpl in Hrun. rewrite H1 in Hrun. cbn [mbind outcome_bind fst snd] in Hrun.
  destruct (run e1 ops) as [[e2 out2]|] eqn:H2; [|done]. injection Hrun as <- <-.
  rewrite <- app_assoc. pose proof (run_op_decided e o e1 out1 x Hg Ho1 H1 Hx) as [Hx1|Hx1]%elem_of_app; [set_solver|].
  pose proof (IH e1 e2 out2 x G1 Ho2 H2 Hx1). set_solver.
Qed.

End runs.

(** * Properties *)

Section properties.
  Context {D R : Type} `{!Policy D} `{!Pcpp R} `{!MapOrder}.
  Abbreviation Ext := (Extractor D R).
  Implicit Types e : Ext.

(** C23: a blocked flow stays blocked.  With a policy that lets flows without a
    name pass, from any state between two calls, and whatever is fed, ticked and
    drained, as long as each operation comes within a minute of the flow's last
    packet: every packet of the flow gets the verdict BLOCK, until, if ever, a
    packet of another flow takes the flow's slot of the ring, which happens only
    when the table is full or the ring has come round to that slot.  (A flow key
    of 0 is excluded: the ring cannot name it.) *)
Theorem blocked_flow_dropped key e c ops : nameless_pass D -> Good e -> key <> 0 ->
  blocks key e c -> Forall op_ok ops -> within key (last c) ops ->
  exists pre post e1 out, ops = pre ++ post /\ run e pre = Ok (e1, out) /\
    (exists c1, blocks key e1 c1) /\ slots key e1 = slots key e /\
    (forall p, p ∈ fed pre -> owned key p -> MkDecided p BLOCK ∈ out ++ _decided e1) /\
    (post = [] \/
     exists now p post' e2, post = Feed now p :: post' /\ foreign key p /\ feed e1 now p = Ok e2 /\
       _conns e2 !! key = None /\ (slots key e2 < slots key e1)%nat /\ under_pressure key e1).
Proof.
  intros Hn Hg Hk0. revert e c Hg. induction ops as [|o ops IH]; intros e c Hg Hb Ho Hw.
  { exists [], [], e, []. split_and!; try done; [by exists c|set_solver|by left]. }
  destruct (Forall_cons_1 _ _ _ Ho) as [Ho1 Ho2].
  destruct (blocked_op key e c o ops Hn Hk0 Hg Hb Ho1 Hw)
    as (e1 & out1 & H1 & G1 & D1 & [(c1 & Hb1 & Hw1 & Hs1 & Hd1)|(now & p & -> & Hlost)]).
  - destruct (IH e1 c1 G1 Hb1 Ho2 Hw1) as (pre & post & e2 & out2 & -> & H2 & Hb2 & Hs2 & Hd2 & Hpost).
    exists (o :: pre), post, e2, (out1 ++ out2). split_and!; try done.
    + simpl. rewrite H1. cbn [mbind outcome_bind fst snd]. by rewrite H2.
    + by rewrite Hs2.
    + intros q Hq Hown. change (fed (o :: pre)) with (fed_by o ++ fed pre) in Hq. rewrite <- app_assoc.
      apply elem_of_app in Hq as [Hq|Hq]; [|pose proof (Hd2 q Hq Hown); set_solver].
      apply Forall_app in Ho2 as [Ho2 _]. pose proof (run_decided pre e1 e2 out2 _ G1 Ho2 H2 (Hd1 q Hq Hown)). set_solver.
  - exists [], (Feed now p :: ops), e, []. split_and!; try done; [by exists c|set_solver|]. right.
    exists now, p, ops, e1. split_and!; try done; try apply Hlost. simpl in H1.
    destruct (feed e now p); [|done]. by injection H1 as <- <-.
Qed.

End properties.

(** ** At a concrete input *)

Lemma demo_state_between_calls : Good demo_state.
Proof.
  destruct (run_good (demo_extractor 4 1) demo_ops (Good_ctor 0%nat [] 4 1)) as (e' & out & H1 & Hg & _); [concrete|].
  assert (demo_state = e') as ->; [|done]. unfold demo_state. by rewrite H1.
Qed.

Lemma demo_nameless : nameless_pass nat.
Proof. by intros d. Qed.

(** Two packets of the blocked connection of [demo_state], with another
    connection's first packet, a tick and a drain in between. *)
Definition demo_later : list op :=
  [Feed (seconds 5 + 50) (demo_segment 51000 16 (str "x") 6);
   Feed (seconds 30) (demo_segment 54000 2 [] 7);
   Tick (seconds 64); Drain;
   Feed (seconds 65) (demo_segment 51000 16 (str "y") 8)].

Lemma demo_owned id body now : (id, body, now) = (6, str "x", 0) \/ (id, body, now) = (8, str "y", 0) ->
  owned demo_blocked_key (demo_segment 51000 16 body id).
Proof.
  intros [[= -> -> ->]|[= -> -> ->]].
  - exists (view_of (demo_segment 51000 16 (str "x") 6)). split_and!; concrete.
  - exists (view_of (demo_segment 51000 16 (str "y") 8)). split_and!; concrete.
Qed.

Lemma demo_foreign : foreign demo_blocked_key (demo_segment 54000 2 [] 7).
Proof. intros f Hf _. vm_compute in Hf. injection Hf as <-. vm_compute. discriminate. Qed.

Lemma blocked_flow_dropped_witness :
  exists pre post e1 out, demo_later = pre ++ post /\ run demo_state pre = Ok (e1, out) /\
    slots demo_blocked_key e1 = 1%nat.
Proof.
  destruct (blocked_flow_dropped demo_blocked_key demo_state (demo_conn demo_blocked_key) demo_later
    demo_nameless demo_state_between_calls) as (pre & post & e1 & out & H1 & H2 & _ & H3 & _).
  - concrete.
  - split; concrete.
  - concrete.
  - split; [concrete|]. left. split; [apply (demo_owned 6 (str "x") 0); by left|]. split; [concrete|].
    right. split; [exact demo_foreign|]. split; [concrete|]. split; [concrete|].
    left. split; [apply (demo_owned 8 (str "y") 0); by right|exact I].
  - exists pre, post, e1, out. split; [exact H1|]. split; [exact H2|]. rewrite H3. concrete.
Defined.

Definition verdicts_of (r : outcome (Extractor nat (list Z) * list Decided)) : outcome (list (Z * Verdict)) :=
  r ← r; Ok (map (λ d, (_id (pkt d), verdict d)) (r.2 ++ _decided r.1)).

(** Both packets are dropped; the other connection's passes, and so does what the
    waiting flow held. *)
Example demo_later_verdicts :
  verdicts_of (run demo_state demo_later) = Ok [(6, BLOCK); (5, ALLOW); (7, ALLOW); (8, BLOCK)].
Proof. vm_compute. reflexivity. Qed.

(** In a ring of one slot, blocking the waiting connection too ends the block. *)
Example demo_displaced :
  verdicts_of (run demo_state
    [Feed (seconds 6) (demo_segment 51000 16 (str "x") 6);
     Feed (seconds 6 + 1) (demo_segment 52000 24 (drop 30 demo_blocked_hello) 7);
     Feed (seconds 6 + 2) (demo_segment 51000 16 (str "y") 8)]) =
  Ok [(6, BLOCK); (5, BLOCK); (7, BLOCK); (8, ALLOW)].
Proof. vm_compute. reflexivity. Qed.
