(* ===== verification/ExtractorLeaks.v ===== *)
(** * The reassembler's connections are all given back

    PcapPlusPlus keeps a connection until it ends or is closed by its key, and
    reclaims only what was closed.  The extractor learns the key from the
    callbacks and owes a close for each connection it caused to be opened.  This
    file shows that the debt is always covered: every connection the reassembler
    has open either belongs to a flow that still waits, which will close it when
    it is resolved, or has its close queued. *)
From S2P Require Import ClientHello Packet PacketSpec Extractor ExtractorInv ExtractorSpec ExtractorDecision Streams.

(** A callback that reports the connection [t]. *)
Definition reports (t : Z) (cb : Callback) : Prop :=
  match cb with ConnectionStart j | MessageReady _ _ j => j = t | ConnectionEnd => True end.

Lemma size_list_to_set_le (l : list Z) : (size (list_to_set l : gset Z) <= length l)%nat.
Proof.
  induction l as [|x l IH]; simpl; [exact (Nat.eq_le_incl _ _ (size_empty (C := gset Z)))|].
  rewrite size_union_alt, size_singleton. assert (list_to_set l ∖ {[x]} ⊆ (list_to_set l : gset Z)) as H by set_solver.
  apply subseteq_size in H. lia.
Qed.

#[local] Instance Callback_eq_dec : EqDecision Callback.
Proof. solve_decision. Defined.

Section leaks.
  Context {D R : Type} `{!Policy D} `{!Pcpp R} `{!MapOrder}.
  Abbreviation Ext := (Extractor D R).
  Implicit Types e : Ext.

(** The connections the reassembler has open, and the one a packet belongs to. *)
  Context (opens : R -> gset Z) (tok : bytes -> Z).

(** What the reassembler promises of them: a packet opens its own connection at
    most, and reports that; a connection that is reported as ended, or that the
    caller closes, is not open any more; and nothing else opens one. *)
Record Tracks : Prop := {
  tr_packet : forall r raw, opens (reassemblePacket r raw).1 ⊆ opens r ∪ {[tok raw]};
  tr_start : forall r raw, tok raw ∈ opens (reassemblePacket r raw).1 ->
    tok raw ∈ opens r \/ ConnectionStart (tok raw) ∈ (reassemblePacket r raw).2;
  tr_keys : forall r raw, Forall (reports (tok raw)) (reassemblePacket r raw).2;
  tr_end : forall r raw, ConnectionEnd ∈ (reassemblePacket r raw).2 ->
    tok raw ∉ opens (reassemblePacket r raw).1;
  tr_close : forall r k, opens (closeConnection r k).1 ⊆ opens r ∖ {[k]};
  tr_purge : forall r, opens (purgeClosedConnections r).1 ⊆ opens r
}.

(** Flows do not share a key: all packets of a flow belong to one connection. *)
  Context (T : Z -> Z).

Definition one_connection (p : Packet) : Prop := forall f raw,
  flow_view p = Ok (true, f) -> ip_proto f = kProtoTcp -> raw_packet p = Ok raw ->
  tok raw = T (Packet.key f).

(** The connection [k] will be closed: its close is queued, or its flow waits. *)
Definition owned e (k : Z) : Prop :=
  k ∈ _to_close e \/ exists j c, _conns e !! j = Some c /\ state c = Wait /\
    pcpp_key c = k /\ pcpp_closed c = false.

(** An entry as the operations leave it. *)
Definition Conn_keyed (j : Z) (c : Conn) : Prop :=
  state c = Wait -> (pcpp_key c = 0 \/ pcpp_key c = T j) /\ pcpp_closed c = false.

(** The members that only [feed] changes, around a call into the reassembler. *)
Definition at_call e : R * bool * Z := (_reassembly e, _feeding e, _current_key e).

(** The connections [due] are all owned. *)
Record Owns (due : Z -> Prop) (x : R * bool * Z) e : Prop := {
  ow_due : forall k, due k -> k <> 0 /\ owned e k;
  ow_conns : map_Forall Conn_keyed (_conns e);
  ow_call : at_call e = x
}.

Definition covers due x (m : outcome Ext) : Prop :=
  match m with Ok e => Owns due x e | Fault _ => True end.

Section covers.
  Context (due : Z -> Prop).

Lemma covers_bind x due' x' (m : outcome Ext) (f : Ext -> outcome Ext) :
  covers due x m -> (forall e, Owns due x e -> covers due' x' (f e)) ->
  covers due' x' (m ≫= f).
Proof. destruct m as [e|]; simpl; auto. Qed.

(** ** Updates *)

Lemma owns_same x e e' : Owns due x e ->
  (_conns e', _to_close e', at_call e') = (_conns e, _to_close e, at_call e) -> Owns due x e'.
Proof. intros [H1 H2 H3] E. injection E as E1 E2 E3 E4 E5. split; unfold owned, at_call in *; by rewrite ?E1, ?E2, ?E3, ?E4, ?E5. Qed.

(** What an update of an entry may do: the connections that are due stay owned. *)
Lemma owns_update x e j c m :
  Owns due x e -> m = <[j := c]> (_conns e) \/ m = delete j (_conns e) ->
  (m = <[j := c]> (_conns e) -> Conn_keyed j c) ->
  (forall c0, _conns e !! j = Some c0 -> state c0 = Wait -> due (pcpp_key c0) ->
     m = <[j := c]> (_conns e) /\ state c = Wait /\ pcpp_key c = pcpp_key c0 /\ pcpp_closed c = false) ->
  Owns due x (set_conns e m).
Proof.
  intros [H1 H2 H3] Hm Hc Hkeep. split; simpl; try done.
  - intros k Hk. destruct (H1 k Hk) as [Hk0 [Hq|(i & c0 & Hi & Hs & He & Hcl)]]; split; try done; [by left|].
    right. destruct (base.decide (i = j)) as [->|Hij].
    + rewrite <- He in Hk. destruct (Hkeep c0 Hi Hs Hk) as (-> & Hs' & He' & Hcl').
      exists j, c. simpl. rewrite lookup_insert_eq. split_and!; congruence.
    + exists i, c0. simpl. split_and!; try done. destruct Hm as [->| ->].
      * by rewrite lookup_insert_ne.
      * by rewrite lookup_delete_ne.
  - destruct Hm as [->| ->]; [apply map_Forall_insert_2; auto|by apply map_Forall_delete].
Qed.

Lemma owns_insert x e j c : Owns due x e -> Conn_keyed j c ->
  (forall c0, _conns e !! j = Some c0 -> state c0 = Wait -> due (pcpp_key c0) ->
     state c = Wait /\ pcpp_key c = pcpp_key c0 /\ pcpp_closed c = false) ->
  Owns due x (set_conns e (<[j := c]> (_conns e))).
Proof.
  intros Ho Hc Hkeep. apply (owns_update x e j c); [done|by left|done|].
  intros c0 Hc0 Hs Hd. by destruct (Hkeep c0 Hc0 Hs Hd).
Qed.

(** Replacing an entry by one of the same connection. *)
Lemma owns_replace x e j c c' : Owns due x e -> _conns e !! j = Some c ->
  (state c', pcpp_key c', pcpp_closed c') = (state c, pcpp_key c, pcpp_closed c) ->
  Owns due x (set_conns e (<[j := c']> (_conns e))).
Proof.
  intros Ho Hc [= E1 E2 E3]. pose proof (ow_conns _ _ _ Ho j c Hc) as Hk. apply owns_insert; [done| |].
  - unfold Conn_keyed. by rewrite E1, E2, E3.
  - intros c0 Hc0 Hs _. rewrite Hc in Hc0. injection Hc0 as <-. rewrite E1, E2, E3. by destruct (Hk Hs).
Qed.

Lemma owns_delete_block x e j c : Owns due x e -> _conns e !! j = Some c -> state c = Block ->
  Owns due x (set_conns e (delete j (_conns e))).
Proof.
  intros Ho Hc Hs. apply (owns_update x e j c); [done|by right|..].
  - intros _. unfold Conn_keyed. by rewrite Hs.
  - intros c0 Hc0 Hs'. congruence.
Qed.

Lemma owns_decide x e p v : Owns due x e -> Owns due x (decide e p v).
Proof. intros Ho. by eapply owns_same. Qed.

Lemma owns_decide_all x e ps v : Owns due x e -> Owns due x (fold_left (λ e p, decide e p v) ps e).
Proof. intros Ho. rewrite decide_all_decided. by eapply owns_same. Qed.

(** ** The ring *)

Lemma owns_erase x e v : Owns due x e -> Owns due x (erase_blocked e v).2.
Proof.
  intros Ho. unfold erase_blocked. destruct (_conns e !! v) as [c|] eqn:Hc; [|done].
  destruct (decide_rel _ _ _) as [Hs|]; [|done]. simpl.
  eapply owns_same; [by apply (owns_delete_block x e v c)|done].
Qed.

Lemma owns_remember x e j : Owns due x e -> covers due x (remember_blocked e j).
Proof.
  intros Ho. unfold remember_blocked. destruct (ring_head e) as [v|]; [|done].
  cbn [mbind outcome_bind covers]. set (e1 := if _ && _ then _ else e).
  assert (Owns due x e1) as H1 by (unfold e1; destruct (_ && _); [by apply owns_erase|done]).
  by eapply owns_same.
Qed.

Lemma owns_evict x m : forall e, Owns due x e ->
  match evict_loop m e with Ok r => Owns due x r.2 | Fault _ => True end.
Proof.
  induction m as [|m IH]; intros e Ho; simpl; [done|].
  destruct (ring_head e) as [v|]; [|done]. cbn [mbind outcome_bind].
  assert (Owns due x (ring_put e 0)) as H1 by (by eapply owns_same).
  destruct (v =? 0); [by apply IH|]. pose proof (owns_erase x (ring_put e 0) v H1) as H2.
  destruct (erase_blocked _ v) as [[] e2]; [exact H2|by apply IH].
Qed.

End covers.

(** ** Resolution *)

Lemma owns_weaken (due due' : Z -> Prop) x e : Owns due x e -> (forall k, due' k -> due k) ->
  Owns due' x e.
Proof. intros [] Hw. split; auto. Qed.

(** All that is due but the connection [t]. *)
Definition but (t : Z) (due : Z -> Prop) (k : Z) : Prop := due k /\ k <> t.

Lemma owns_push due x e t : t <> 0 -> Owns (but t due) x e ->
  Owns due x (set_to_close e (_to_close e ++ [t])).
Proof.
  intros Ht [H1 H2 H3]. split; try done. intros k Hk. destruct (base.decide (k = t)) as [->|Hkt].
  - split; [done|]. left. simpl. apply elem_of_app. right. by apply list_elem_of_singleton.
  - destruct (H1 k (conj Hk Hkt)) as [Hk0 [Hq|Hc]]; (split; [done|]).
    + left. simpl. apply elem_of_app. by left.
    + by right.
Qed.

(** The entry of a resolved flow is erased, or turned into a blocked one. *)
Lemma owns_settle due x e key c d v closed : Owns due x e -> _conns e !! key = Some c ->
  covers (but (pcpp_key c) due) x
    (match v with
     | BLOCK => remember_blocked (set_conns (set_policy e d)
         (<[ key := MkConn Block [] [] (pcpp_key c) closed (last c) ]> (_conns e))) key
     | ALLOW => Ok (set_conns (set_policy e d) (delete key (_conns e)))
     end).
Proof.
  intros Ho Hc. assert (Owns (but (pcpp_key c) due) x (set_policy e d)) as H1.
  { apply (owns_weaken due); [by eapply owns_same|by intros k []]. }
  assert (forall c0, _conns e !! key = Some c0 -> ~ but (pcpp_key c) due (pcpp_key c0)) as Hnot.
  { intros c0 Hc0 [_ Hne]. congruence. }
  destruct v; simpl.
  - apply (owns_update _ x (set_policy e d) key c); [done|by right| |].
    + intros _. exact (ow_conns _ _ _ Ho key c Hc).
    + intros c0 Hc0 _ Hd. by destruct (Hnot c0).
  - apply owns_remember. apply (owns_insert _ x (set_policy e d)); [done|done|].
    intros c0 Hc0 _ Hd. by destruct (Hnot c0).
Qed.

Lemma owns_resolve due x e j h : Owns due x e -> covers due x (resolve e j h).
Proof.
  intros Ho. unfold resolve. destruct (_conns e !! j) as [c|] eqn:Hc; [|done].
  destruct (state c) eqn:Hs; [|done]. destruct (_decide h (_policy e)) as [v d].
  destruct (ow_conns _ _ _ Ho j c Hc Hs) as [_ Hcl].
  apply (covers_bind (but (pcpp_key c) due) x); [exact (owns_settle due x e j c d v (pcpp_closed c) Ho Hc)|].
  intros e1 H1. simpl. apply owns_decide_all. rewrite Hcl, andb_true_r.
  destruct (Z.eqb_spec (pcpp_key c) 0) as [Hz|Hz]; simpl negb; cbv iota; [|by apply owns_push].
  apply (owns_weaken (but (pcpp_key c) due)); [done|]. intros k Hk. split; [done|].
  rewrite Hz. by destruct (ow_due _ _ _ Ho k Hk).
Qed.

(** ** Callbacks, for a packet of the connection [T cur] *)

Section call.
  Context (r : R) (cur : Z).
  #[local] Set Default Proof Using "Type*".

Definition also (due : Z -> Prop) (k : Z) : Prop := due k \/ (k = T cur /\ T cur <> 0).

(** The packet's connection is owned, unless its key is 0. *)
Definition safe e : Prop := T cur <> 0 -> owned e (T cur).

Lemma owns_also due x e : Owns due x e -> safe e -> Owns (also due) x e.
Proof. intros [H1 H2 H3] Ht. split; try done. intros k [Hk|[-> Hz]]; auto. Qed.

Lemma call_eq due e : Owns due (r, true, cur) e -> _feeding e = true /\ _current_key e = cur.
Proof. intros [_ _ [= _ E1 E2]]. auto. Qed.

Lemma owns_rekey due e c c' : Owns due (r, true, cur) e -> _conns e !! cur = Some c -> state c = Wait ->
  state c' = Wait -> pcpp_key c' = T cur -> pcpp_closed c' = pcpp_closed c ->
  Owns (also due) (r, true, cur) (set_conns e (<[cur := c']> (_conns e))).
Proof.
  intros Ho Hc Hs Hs' He Hcl. destruct (ow_conns _ _ _ Ho cur c Hc Hs) as [Hk Hf].
  apply owns_also; [apply owns_insert; [done| |]|].
  - intros _. rewrite Hcl. auto.
  - intros c0 Hc0 _ Hd. rewrite Hc in Hc0. injection Hc0 as <-. destruct Hk as [Hz|Hz].
    + rewrite Hz in Hd. by destruct (ow_due _ _ _ Ho 0 Hd).
    + split_and!; congruence.
  - intros _. right. exists cur, c'. simpl. rewrite lookup_insert_eq. split_and!; congruence.
Qed.

Lemma owns_also_inv due x e : Owns (also due) x e -> Owns due x e /\ safe e.
Proof.
  intros Ho. split; [apply (owns_weaken (also due)); [done|by left]|].
  intros Hz. apply (ow_due _ _ _ Ho). by right.
Qed.

(** Once opened, the connection is owned, or its flow still waits to learn its key. *)
Definition ready e : Prop := safe e \/ exists c, _conns e !! cur = Some c /\ state c = Wait.

Lemma ready_block e c : _conns e !! cur = Some c -> state c = Block -> ready e -> safe e.
Proof. intros Hc Hs [Hw|(c0 & Hc0 & Hs0)]; [done|congruence]. Qed.

Lemma ready_none e : _conns e !! cur = None -> ready e -> safe e.
Proof. intros Hc [Hw|(c0 & Hc0 & Hs0)]; [done|congruence]. Qed.

Lemma owns_start due e e' : Owns due (r, true, cur) e -> onConnectionStart e (T cur) = Ok e' ->
  Owns due (r, true, cur) e' /\ (ready e -> safe e').
Proof.
  intros Ho. unfold onConnectionStart.
  rewrite (proj1 (call_eq due e Ho)), (proj2 (call_eq due e Ho)). simpl negb. cbv iota.
  destruct (_conns e !! cur) as [c|] eqn:Hc; intros [= <-]; [|by split; [|apply ready_none]].
  destruct (state c) eqn:Hs.
  - destruct (owns_also_inv due (r, true, cur) _ (owns_rekey due e c (set_pcpp_key c (T cur)) Ho Hc Hs Hs eq_refl eq_refl)).
    by split.
  - split.
    + apply owns_insert; [done|by unfold Conn_keyed; simpl; rewrite Hs|]. intros c0 Hc0 Hs0. congruence.
    + intros Hr Hz. destruct (ready_block e c Hc Hs Hr Hz) as [Hq|(j & c0 & Hj & Hs0 & Hk)]; [by left|].
      right. exists j, c0. simpl. rewrite lookup_insert_ne; [done|]. intros <-. congruence.
Qed.

Lemma owns_message due e side data e' : Owns due (r, true, cur) e ->
  onMessageReady e side data (T cur) = Ok e' -> Owns due (r, true, cur) e' /\ (ready e -> ready e').
Proof.
  intros Ho. unfold onMessageReady.
  rewrite (proj1 (call_eq due e Ho)), (proj2 (call_eq due e Ho)). simpl negb. cbv iota.
  destruct (negb _); [by intros [= <-]|].
  destruct (_conns e !! cur) as [c|] eqn:Hc; [|by intros [= <-]].
  destruct (state c) eqn:Hs; [|by intros [= <-]]. set (e1 := set_conns e _).
  assert (Owns (also due) (r, true, cur) e1) as H1 by (by apply (owns_rekey due e c)).
  destruct (extractHostname _ _ _) as [[res sc]|]; [|done]. cbn [mbind outcome_bind fst snd].
  assert (Owns (also due) (r, true, cur) (set_scratch e1 sc)) as H2 by (by eapply owns_same).
  assert (forall m, covers (also due) (r, true, cur) m -> m = Ok e' ->
    Owns due (r, true, cur) e' /\ (ready e -> ready e')) as Hdone.
  { intros m H3 ->. destruct (owns_also_inv due (r, true, cur) e' H3). split; [done|]. by left. }
  destruct res as [host| |].
  - destruct (rd_range _ _ _) as [h|]; [|done]. cbn [mbind outcome_bind]. by apply Hdone, owns_resolve.
  - by apply Hdone, owns_resolve.
  - destruct (_ <? _); [by apply Hdone, owns_resolve|]. by apply (Hdone (Ok _)).
Qed.

(** An ended connection needs no close. *)
Lemma owns_end due e : Owns due (r, true, cur) e -> covers (but (T cur) due) (r, true, cur) (onConnectionEnd e).
Proof.
  intros Ho. destruct (call_eq due e Ho) as [Hfeed Hcur]. unfold onConnectionEnd.
  rewrite Hfeed. simpl. rewrite Hcur.
  assert (Owns (but (T cur) due) (r, true, cur) e) as H1 by (apply (owns_weaken due); [done|by intros k []]).
  destruct (_conns e !! cur) as [c|] eqn:Hc; [|done]. destruct (state c) eqn:Hs.
  - unfold resolve. simpl. rewrite lookup_insert_eq. simpl. rewrite Hs, delete_insert_eq, insert_insert_eq, andb_false_r.
    destruct (_decide None (_policy e)) as [v d].
    apply (covers_bind (but (pcpp_key c) (but (T cur) due)) (r, true, cur)).
    { exact (owns_settle _ (r, true, cur) e cur c d v true H1 Hc). }
    intros e1 H2. apply owns_decide_all, (owns_weaken (but (pcpp_key c) (but (T cur) due))); [done|].
    intros k [Hk Hkt]. split; [done|]. destruct (ow_conns _ _ _ Ho cur c Hc Hs) as [[->| ->] _]; [|done].
    by destruct (ow_due _ _ _ Ho k Hk).
  - rewrite resolve_idle by (simpl; rewrite lookup_insert_eq; by intros c' [= <-]).
    change (covers (but (T cur) due) (r, true, cur) (Ok (set_conns e (<[cur := set_pcpp_closed c true]> (_conns e))))).
    simpl. apply owns_insert; [done|by unfold Conn_keyed; simpl; rewrite Hs|]. intros c0 Hc0 Hs0. congruence.
Qed.

(** A call that ends no connection: what is due stays owned, and the packet's
    connection too, if it was opened. *)
Lemma owns_callbacks cbs : forall due e e', Owns due (r, true, cur) e -> Forall (reports (T cur)) cbs ->
  ConnectionEnd ∉ cbs -> callbacks e cbs = Ok e' ->
  Owns due (r, true, cur) e' /\ (ready e -> ConnectionStart (T cur) ∈ cbs -> safe e').
Proof.
  induction cbs as [|cb cbs IH]; intros due e e' Ho Hr Hne Hrun.
  { injection Hrun as <-. split; [done|]. intros _ Hin. by apply not_elem_of_nil in Hin. }
  destruct (Forall_cons_1 _ _ _ Hr) as [Hcb Hcbs]. apply not_elem_of_cons in Hne as [Hne1 Hne].
  simpl in Hrun. destruct (callback e cb) as [e1|] eqn:H1; [|done]. cbn [mbind outcome_bind] in Hrun.
  assert (forall cb', cb = cb' -> ready e -> (ready e -> safe e1) -> Owns due (r, true, cur) e1 -> safe e') as Hopen.
  { intros cb' _ Hrd Hown O1. destruct (IH (also due) e1 e') as [O2 _]; try done; [by apply owns_also; auto|].
    by destruct (owns_also_inv due _ e' O2). }
  destruct cb as [j|side data j|]; [| |done]; simpl in Hcb; subst j; simpl in H1.
  - destruct (owns_start due e e1 Ho H1) as [O1 Hown]. destruct (IH due e1 e' O1 Hcbs Hne Hrun) as [O2 _].
    split; [done|]. intros Hrd _. by apply (Hopen _ eq_refl).
  - destruct (owns_message due e side data e1 Ho H1) as [O1 Hrd]. destruct (IH due e1 e' O1 Hcbs Hne Hrun) as [O2 H2].
    split; [done|]. intros Hr1 Hin. apply elem_of_cons in Hin as [?|Hin]; [done|]. auto.
Qed.

(** Any call: the other connections stay owned. *)
Lemma owns_callbacks_but cbs : forall due e, Owns (but (T cur) due) (r, true, cur) e ->
  Forall (reports (T cur)) cbs -> covers (but (T cur) due) (r, true, cur) (callbacks e cbs).
Proof.
  induction cbs as [|cb cbs IH]; intros due e Ho Hr; [done|].
  destruct (Forall_cons_1 _ _ _ Hr) as [Hcb Hcbs]. simpl.
  apply (covers_bind (but (T cur) due) (r, true, cur)); [|intros; by apply IH].
  destruct cb as [j|side data j|]; simpl in Hcb |- *; try subst j.
  - destruct (onConnectionStart e (T cur)) as [e1|] eqn:H1; [|done]. by destruct (owns_start _ e e1 Ho H1).
  - destruct (onMessageReady _ _ _ _) as [e1|] eqn:H1; [|done]. by destruct (owns_message _ e side data e1 Ho H1).
  - pose proof (owns_end _ e Ho) as H1. destruct (onConnectionEnd e) as [e1|]; [|done].
    apply (owns_weaken (but (T cur) (but (T cur) due))); [done|]. by intros k [Hk Hne].
Qed.

End call.

(** ** Calls into the reassembler *)

Section calls.
  Context (tracks : Tracks).
  #[local] Set Default Proof Using "Type*".

(** What the extractor can give back: the guard of [resolve] takes the key 0 for
    no connection. *)
Definition closable (x : R) (k : Z) : Prop := k ∈ opens x /\ k <> 0.

(** Between two operations: all that is open and can be closed is owned. *)
Definition Covered e : Prop :=
  Owns (closable (_reassembly e)) (_reassembly e, false, _current_key e) e.

Definition covered (m : outcome Ext) : Prop := match m with Ok e => Covered e | Fault _ => True end.

Lemma covered_bind (m : outcome Ext) (f : Ext -> outcome Ext) :
  covered m -> (forall e, Covered e -> covered (f e)) -> covered (m ≫= f).
Proof. destruct m as [e|]; simpl; auto. Qed.

Lemma covers_covered e m : covers (closable (_reassembly e)) (_reassembly e, false, _current_key e) m ->
  covered m.
Proof.
  destruct m as [e'|]; [|done]. intros Ho. pose proof (ow_call _ _ _ Ho) as E. injection E as E1 E2 E3.
  simpl. unfold Covered. by rewrite E1, E3.
Qed.

Lemma covered_same e e' : Covered e ->
  (_conns e', _to_close e', at_call e') = (_conns e, _to_close e, at_call e) -> Covered e'.
Proof.
  intros Ho E. apply (covers_covered e (Ok e')). by apply (owns_same _ _ e).
Qed.

(** The reassembler closed something. *)
Lemma covered_fewer e r tc : Covered e ->
  (forall k, k ∈ opens r -> k ∈ opens (_reassembly e) /\ (k ∈ _to_close e -> k ∈ tc)) ->
  Covered (set_to_close (set_reassembly e r) tc).
Proof.
  intros [H1 H2 H3] Hr. injection H3 as E2. split; [|done|].
  - intros k [Hk Hz]. simpl in Hk. destruct (Hr k Hk) as [Hk' Htc]. destruct (H1 k (conj Hk' Hz)) as [Hk0 [Hq|Hc]].
    + split; [done|]. left. simpl. auto.
    + split; [done|by right].
  - unfold at_call. simpl. by rewrite E2.
Qed.

Lemma closed_opens tokens : forall r k, k ∈ opens (closed r tokens) -> k ∈ opens r /\ k ∉ tokens.
Proof.
  induction tokens as [|t ts IH]; intros r k Hk; [split; [done|apply not_elem_of_nil]|].
  destruct (IH _ _ Hk) as [Hk1 Hts]. pose proof (tr_close tracks r t k Hk1) as Hc.
  apply elem_of_difference in Hc as [Hc Hne%not_elem_of_singleton]. split; [done|]. by apply not_elem_of_cons.
Qed.

Lemma covered_drain e : Covered e -> covered (drain_closes e).
Proof.
  intros Ho. rewrite drain_closes_closed by (by pose proof (ow_call _ _ _ Ho) as [= ?]).
  apply covered_fewer; [done|]. intros k [Hk Hts]%closed_opens. split; [done|]. by intros Hq.
Qed.

Lemma covered_purge e : Covered e -> covered (run_pcpp e (purgeClosedConnections (_reassembly e))).
Proof.
  intros Ho. rewrite run_pcpp_idle by (by pose proof (ow_call _ _ _ Ho) as [= ?]).
  eapply covered_same; [apply (covered_fewer e (purgeClosedConnections (_reassembly e)).1 (_to_close e)); [done|]|done].
  intros k Hk. split; [by apply (tr_purge tracks)|done].
Qed.

Lemma covered_resolve e j h : Covered e -> covered (resolve e j h).
Proof. intros Ho. apply (covers_covered e). by apply owns_resolve. Qed.

(** ** The operations *)

Lemma covered_expire_all ks : forall e, Covered e -> covered (expire_all e ks).
Proof.
  induction ks as [|j ks IH]; intros e Ho; [done|]. simpl. apply covered_bind; [|auto].
  unfold expire. destruct (_conns e !! j) as [c|] eqn:Hc; [|done].
  destruct (state c) eqn:Hs; [by apply covered_resolve|].
  apply (covers_covered e). by apply (owns_delete_block _ _ e j c).
Qed.

Lemma covered_sweep e now : Covered e -> covered (sweep e now).
Proof.
  intros Ho. unfold sweep. apply covered_bind; [apply covered_expire_all; by eapply covered_same|].
  intros e1 H1. apply covered_bind; [by apply covered_purge|].
  intros e2 H2. apply covered_bind; [by apply covered_drain|]. intros e3 H3. by eapply covered_same.
Qed.

Lemma covered_tick e now : Covered e -> covered (tick e now).
Proof.
  intros Ho. unfold tick. destruct (_ <? _); [done|]. apply covered_sweep. by eapply covered_same.
Qed.

Lemma covered_make_room e now : Covered e -> covered (make_room e now).
Proof.
  intros Ho. unfold make_room. destruct (_ <=? _)%nat; [|done]. apply covered_bind.
  - destruct (_ <=? _); [|done]. apply covered_sweep. by eapply covered_same.
  - intros e1 H1. destruct (_ <=? _)%nat; [|done].
    pose proof (owns_evict _ _ (_max_blocked e1) e1 H1) as H2. unfold evict_oldest_blocked.
    destruct (evict_loop _ e1) as [x|]; [|done]. by apply (covers_covered e1 (Ok x.2)).
Qed.

Lemma covered_resolve_all ks : forall e, Covered e -> covered (resolve_all e ks).
Proof.
  induction ks as [|j ks IH]; intros e Ho; [done|]. simpl.
  apply covered_bind; [by apply covered_resolve|auto].
Qed.

(** The call that hands a packet of the flow [j] to the reassembler. *)
Lemma covered_call e j c raw e' : Covered e -> _conns e !! j = Some c -> state c = Wait -> tok raw = T j ->
  run_pcpp (set_feeding (set_current_key e j) true) (reassemblePacket (_reassembly e) raw) = Ok e' ->
  let r := (reassemblePacket (_reassembly e) raw).1 in
  Owns (closable r) (r, true, j) e'.
Proof.
  intros Ho Hc Hs Ht Hrun r. unfold run_pcpp in Hrun. fold r in Hrun.
  pose proof (tr_packet tracks (_reassembly e) raw) as Hp. pose proof (tr_start tracks (_reassembly e) raw) as Hst.
  pose proof (tr_keys tracks (_reassembly e) raw) as Hk. pose proof (tr_end tracks (_reassembly e) raw) as He.
  fold r in Hp, Hst, He. rewrite Ht in Hp, Hst, Hk, He.
  set (e1 := set_reassembly _ r) in Hrun. pose proof Ho as [H1 H2 H3].
  assert (forall due : Z -> Prop, (forall k, due k -> closable (_reassembly e) k) -> Owns due (r, true, j) e1) as Hstart.
  { intros due Hd. split; [|done|done]. intros k Hdk. apply H1. auto. }
  assert (Owns (but (T j) (closable r)) (r, true, j) e1) as O1.
  { apply Hstart. intros k [[Hk1 Hz] Hk2]. split; [|done]. apply Hp in Hk1. apply elem_of_union in Hk1 as [?|?%elem_of_singleton]; done. }
  assert (ready j e1) as Hrd by (right; by exists c).
  destruct (base.decide (ConnectionEnd ∈ (reassemblePacket (_reassembly e) raw).2)) as [Hend|Hend].
  - pose proof (owns_callbacks_but r j _ _ _ O1 Hk) as O2. rewrite Hrun in O2.
    apply (owns_weaken (but (T j) (closable r))); [done|]. intros k Hk1. split; [done|].
    intros ->. by apply (He Hend), Hk1.
  - destruct (owns_callbacks r j _ _ e1 e' O1 Hk Hend Hrun) as [O2 Hown].
    assert (closable r (T j) -> owned e' (T j)) as Hj.
    { intros [Hin Hz]. destruct (Hst Hin) as [Hold|Hnew]; [|by apply Hown].
      destruct (owns_callbacks r j (reassemblePacket (_reassembly e) raw).2 (λ k, k = T j) e1 e') as [O3 _]; try done.
      - apply Hstart. by intros k ->.
      - by apply (ow_due _ _ _ O3). }
    destruct O2 as [D2 C2 X2]. split; [|done|done]. intros k Hk1. destruct (base.decide (k = T j)) as [->|Hne].
    + split; [by apply Hk1|auto].
    + by apply D2.
Qed.

Lemma covered_reassemble e j c p hold : Covered e -> _conns e !! j = Some c -> state c = Wait ->
  (forall raw, raw_packet p = Ok raw -> tok raw = T j) -> covered (reassemble e j p hold).
Proof.
  intros Ho Hc Hs Ht. unfold reassemble. destruct (raw_packet p) as [raw|]; [|done].
  cbn [mbind outcome_bind]. set (e1 := if hold then _ else e).
  assert (Covered e1 /\ exists c1, _conns e1 !! j = Some c1 /\ state c1 = Wait) as (H1 & c1 & Hc1 & Hs1).
  { unfold e1. destruct hold; [|eauto]. rewrite Hc. split.
    - apply (covers_covered e (Ok _)). by apply (owns_replace _ _ e j c).
    - eexists. simpl. rewrite lookup_insert_eq. done. }
  change (_reassembly (set_feeding (set_current_key e1 j) true)) with (_reassembly e1).
  destruct (run_pcpp _ _) as [e2|] eqn:Hrun; [|done]. cbn [mbind outcome_bind].
  pose proof (covered_call e1 j c1 raw e2 H1 Hc1 Hs1 (Ht raw eq_refl) Hrun) as [O1 O2 [= O3 O4 O5]].
  assert (Covered (set_feeding e2 false)) as H2.
  { split; [|done|done]. simpl. by rewrite O3. }
  apply covered_bind; [by apply covered_drain|]. intros e3 H3. destruct hold; [|by eapply covered_same].
  destruct (_conns e3 !! j) as [c3|] eqn:Hc3; [|done].
  apply (covers_covered e3 (Ok _)). by apply (owns_replace _ _ e3 j c3).
Qed.

(** ** One packet *)

Lemma covered_insert e j c : Covered e -> Conn_keyed j c ->
  (_conns e !! j = None \/ exists c0, _conns e !! j = Some c0 /\
     (state c, pcpp_key c, pcpp_closed c) = (state c0, pcpp_key c0, pcpp_closed c0)) ->
  Covered (set_conns e (<[j := c]> (_conns e))).
Proof.
  intros Ho Hk [Hn|(c0 & Hc0 & E)]; apply (covers_covered e (Ok _)).
  - apply owns_insert; [done|done|]. intros c0 Hc0. congruence.
  - by apply (owns_replace _ _ e j c0).
Qed.

Lemma covered_tracked e now j c f p : Covered e -> state c = Wait -> Conn_keyed j c ->
  (_conns e !! j = None \/ _conns e !! j = Some c) ->
  (forall raw, raw_packet p = Ok raw -> tok raw = T j) -> covered (feed_tracked e now j c f p).
Proof.
  intros Ho Hs Hk Hc Ht. unfold feed_tracked. set (e1 := set_conns e _).
  assert (Covered e1) as H1 by (apply covered_insert; [done|exact Hk|destruct Hc as [?|?]; eauto]).
  destruct (_ <=? _)%nat.
  - apply covered_bind; [by apply covered_resolve|]. intros e2 H2. by eapply covered_same.
  - destruct (_ && _); [by eapply covered_same|].
    apply (covered_reassemble e1 j (set_last c now)); [done| |done|done]. apply lookup_insert_eq.
Qed.

Lemma covered_untracked e now j f p : Inv e -> quiet e -> now - _lastSweep e < kSweepInterval ->
  Covered e -> _conns e !! j = None ->
  (forall raw, raw_packet p = Ok raw -> tok raw = T j) -> covered (feed_untracked e now j f p).
Proof.
  intros Hi Hq Hnow Ho Hc Ht. unfold feed_untracked.
  destruct (if isClientSyn f then _ else _) as [b|]; [|done].
  cbn [mbind outcome_bind]. destruct (negb b); [by eapply covered_same|].
  pose proof (covered_make_room e now Ho) as H1.
  destruct (make_room_spec e now Hi Hq Hnow) as (e1 & Hm & _ & _ & _ & _ & Hsub & _).
  rewrite Hm in *. cbn [mbind outcome_bind]. destruct (_ <=? _)%nat; [by eapply covered_same|].
  apply covered_tracked; [done|done|intros _; split; [by left|done]| |done].
  left. by apply (lookup_weaken_None _ _ _ Hc).
Qed.

Lemma covered_feed e now p : Good e -> Covered e -> one_connection p -> covered (feed e now p).
Proof.
  intros [Hi Hq _ _] Ho Hp. unfold feed. pose proof (covered_tick e now Ho) as H1.
  destruct (tick_spec e now Hi Hq) as (e1 & Ht & I1 & Q1 & _ & Hcase). rewrite Ht in *.
  assert (now - _lastSweep e1 < kSweepInterval) as Hnow.
  { eapply lastSweep_after_tick; [exact Ht|]. naive_solver. }
  cbn [mbind outcome_bind].
  assert (forall m, covered m -> covered (publish <$> m)) as Hpub.
  { intros [e2|] H2; [|done]. by eapply covered_same. }
  apply Hpub. destruct (negb (has_bytes p)); [by eapply covered_same|].
  destruct (flow_view p) as [[b f]|] eqn:Hv; [|done]. cbn [mbind outcome_bind fst snd].
  destruct b; [|by eapply covered_same]. simpl.
  destruct (Z.eqb_spec (ip_proto f) kProtoTcp) as [Htcp|]; [|by eapply covered_same]. simpl.
  assert (forall raw, raw_packet p = Ok raw -> tok raw = T (Packet.key f)) as Htok by (intros; by apply Hp).
  unfold feed_flow. destruct (_conns e1 !! Packet.key f) as [c|] eqn:Hc; [|by apply covered_untracked].
  pose proof (ow_conns _ _ _ H1 _ c Hc) as Hk. destruct (state c) eqn:Hs; [apply covered_tracked; auto|].
  eapply covered_same; [apply (covered_insert e1 (Packet.key f) (set_last c now)); [done|exact Hk|eauto]|done].
Qed.

(** ** Shutdown *)

Lemma covered_flush e : Inv e -> quiet e -> Covered e -> covered (flush e).
Proof.
  intros Hi Hq Ho. unfold flush. set (ks := map fst _).
  pose proof (covered_resolve_all ks e Ho) as H1.
  destruct (resolve_all_spec e ks Hi Hq) as (e1 & Hr & _ & _ & _ & W1). rewrite Hr in *.
  cbn [mbind outcome_bind]. apply covered_bind; [|intros e2 H2; by eapply covered_same].
  apply covered_drain. destruct H1 as [H1 H2 H3]. split; [|apply map_Forall_empty|done].
  intros k Hk. destruct (H1 k Hk) as [Hk0 [Hin|(j & c & Hj & Hs & _)]]; [by split; [|left]|].
  destruct (W1 j c Hj Hs) as [Hn Hj0]. destruct Hn. unfold ks.
  apply (elem_of_filtered_keys _ (λ c, negb (is_blocked c))). exists c. split; [done|].
  unfold is_blocked. by destruct (decide_rel _ _ _); [congruence|].
Qed.

(** Nothing that can be closed is open once the extractor has shut down. *)
Lemma flush_closes e : Inv e -> quiet e -> Covered e ->
  exists e', flush e = Ok e' /\ opens (_reassembly e') ⊆ {[0]}.
Proof.
  intros Hi Hq Ho. pose proof (covered_flush e Hi Hq Ho) as H1.
  destruct (flush_spec e Hi Hq) as (e' & H2 & _ & _ & Hc & Ht & _). rewrite H2 in H1.
  exists e'. split; [done|]. intros k Hk. apply elem_of_singleton.
  destruct (base.decide (k = 0)) as [|Hz]; [done|]. exfalso.
  destruct (ow_due _ _ _ H1 k (conj Hk Hz)) as [_ [Hq'|(j & c & Hj & _)]].
  - rewrite Ht in Hq'. by apply not_elem_of_nil in Hq'.
  - by rewrite Hc, lookup_empty in Hj.
Qed.

(** ** Runs *)

Lemma covered_op e o e' out : Good e -> Covered e -> Forall one_connection (fed_by o) ->
  run_op e o = Ok (e', out) -> Covered e'.
Proof.
  intros Hg Ho Hp Hrun. pose proof Hg as [Hi Hq _ _]. destruct o as [now p|now| |]; simpl in *.
  - pose proof (covered_feed e now p Hg Ho (Forall_inv Hp)) as H1.
    destruct (feed e now p); [|done]. by injection Hrun as <- <-.
  - pose proof (covered_tick e now Ho) as H1. destruct (tick e now); [|done]. by injection Hrun as <- <-.
  - pose proof (covered_flush e Hi Hq Ho) as H1. destruct (flush e); [|done]. by injection Hrun as <- <-.
  - injection Hrun as <- <-. by eapply covered_same.
Qed.

Lemma covered_run ops : forall e e' out, Good e -> Covered e -> Forall op_ok ops ->
  Forall one_connection (fed ops) -> run e ops = Ok (e', out) -> Covered e'.
Proof.
  induction ops as [|o ops IH]; intros e e' out Hg Ho Hok Hp Hrun; simpl in Hrun.
  { by injection Hrun as <- <-. }
  destruct (Forall_cons_1 _ _ _ Hok) as [Hok1 Hops]. change (fed (o :: ops)) with (fed_by o ++ fed ops) in Hp.
  apply Forall_app in Hp as [Hp1 Hps].
  destruct (run_op_good e o Hg Hok1) as (e1 & out1 & H1 & G1 & _). rewrite H1 in Hrun.
  cbn [mbind outcome_bind fst snd] in Hrun.
  destruct (run e1 ops) as [[e2 out2]|] eqn:H2; [|done]. injection Hrun as <- <-.
  apply (IH e1 e2 out2); try done. by apply (covered_op e o e1 out1).
Qed.

Lemma covered_ctor d r mf mb : opens r = ∅ -> Covered (Extractor_ctor (D := D) d r mf mb).
Proof.
  intros Hr. split; [|apply map_Forall_empty|done]. simpl. intros k [Hk _]. rewrite Hr in Hk. set_solver.
Qed.

(** The open connections, counted. *)
Definition waiting_flows e : nat := size (filter (λ kc, state kc.2 = Wait) (_conns e)).

Lemma covered_size e : Covered e ->
  (size (opens (_reassembly e) ∖ {[0%Z]}) <= waiting_flows e + length (_to_close e))%nat.
Proof.
  intros Ho. set (ws := map_to_list (filter (λ kc, state kc.2 = Wait) (_conns e))).
  assert (opens (_reassembly e) ∖ {[0%Z]} ⊆ list_to_set (map (λ kc, pcpp_key kc.2) ws ++ _to_close e)) as Hsub.
  { intros k [Hk Hz%not_elem_of_singleton]%elem_of_difference. apply elem_of_list_to_set, elem_of_app.
    destruct (ow_due _ _ _ Ho k (conj Hk Hz)) as [_ [Hq|(j & c & Hj & Hs & <- & _)]]; [by right|left].
    apply list_elem_of_fmap. exists (j, c). split; [done|]. apply elem_of_map_to_list.
    by apply map_lookup_filter_Some. }
  apply subseteq_size in Hsub. etrans; [exact Hsub|].
  etrans; [apply size_list_to_set_le|]. unfold waiting_flows, ws.
  by rewrite length_app, length_map, length_map_to_list.
Qed.

End calls.

End leaks.

(** * Properties *)

Section properties.
  Context {D R : Type} `{!Policy D} `{!Pcpp R} `{!MapOrder}.
  Context (opens : R -> gset Z) (tok : bytes -> Z) (T : Z -> Z).

(** C22: no connection of the reassembler is leaked, if its key is not 0.  As
    long as two flows never share a flow key, whatever is fed, ticked, drained and
    shut down, every connection the reassembler has open under a key other than 0
    has its close queued or belongs to a flow that waits and knows its key; so
    there are never more of them than waiting flows and queued closes, and a
    shutdown leaves none.  The key 0 is what [resolve] takes for no connection. *)
Theorem no_connection_leaks d r mf mb ops :
  Tracks opens tok -> opens r = ∅ ->
  Forall op_ok ops -> Forall (one_connection tok T) (fed ops) ->
  exists e out, run (Extractor_ctor (D := D) d r mf mb) ops = Ok (e, out) /\
    (forall k, k ∈ opens (_reassembly e) -> k <> 0 -> owned e k) /\
    (size (opens (_reassembly e) ∖ {[0%Z]}) <= waiting_flows e + length (_to_close e))%nat /\
    exists e', flush e = Ok e' /\ opens (_reassembly e') ⊆ {[0]}.
Proof.
  intros Htr Hr Hok Hp.
  destruct (run_good _ ops (Good_ctor d r mf mb) Hok) as (e & out & Hrun & Hg & _).
  assert (Covered opens T e) as Ho.
  { eapply (covered_run opens tok T Htr ops); [apply Good_ctor| |done|done|done]. by apply (covered_ctor opens tok). }
  exists e, out. split; [done|]. destruct Hg as [Hi Hq _ _]. split_and!.
  - intros k Hk Hz. by apply (ow_due _ _ _ _ Ho).
  - by apply (covered_size opens tok T).
  - by apply (flush_closes opens tok T).
Qed.

End properties.

(** ** The stand-in of [Streams] keeps the promise *)

Lemma step_tracks raw conn :
  (is_Some (stream_step raw conn).1 -> is_Some conn \/ ConnectionStart (token_of raw) ∈ (stream_step raw conn).2) /\
  Forall (reports (token_of raw)) (stream_step raw conn).2 /\
  (ConnectionEnd ∈ (stream_step raw conn).2 -> (stream_step raw conn).1 = None).
Proof.
  unfold stream_step. cbv zeta. set (start := match conn with None => _ | Some _ => _ end).
  match goal with |- context [map ?f ?l] => set (msgs := map f l) end.
  assert (Forall (λ cb, reports (token_of raw) cb /\ cb <> ConnectionEnd) (start ++ msgs)) as Hcb.
  { apply Forall_app_2; [unfold start; destruct conn; by repeat constructor|].
    apply List.Forall_map, List.Forall_forall. by intros. }
  assert (is_Some conn \/ ConnectionStart (token_of raw) ∈ start) as Hs
    by (unfold start; destruct conn; [left; by eexists|right; by left]).
  assert (Forall (reports (token_of raw)) (start ++ msgs)) as Hr
    by (eapply List.Forall_impl; [|exact Hcb]; by intros cb []).
  destruct (Z.land _ kTcpRst =? 0); simpl; split_and!; [intros _|done| | | |done].
  - destruct Hs as [|Hs]; [by left|right]. apply elem_of_app. by left.
  - intros Hin. rewrite list.Forall_forall in Hcb. by destruct (Hcb _ Hin).
  - by intros [].
  - apply Forall_app_2; [done|]. by repeat constructor.
Qed.

Lemma streams_track : Tracks (R := Streams) dom token_of.
Proof.
  split; unfold reassemblePacket, streams_pcpp, streams_reassemble; cbv zeta; cbn [fst snd closeConnection purgeClosedConnections].
  - intros r raw k. rewrite elem_of_union, elem_of_singleton, !elem_of_dom, lookup_partial_alter.
    case_decide; [by right|by left].
  - intros r raw. rewrite !elem_of_dom, lookup_partial_alter_eq. apply step_tracks.
  - intros r raw. apply step_tracks.
  - intros r raw Hin. rewrite elem_of_dom, lookup_partial_alter_eq. destruct (step_tracks raw (r !! token_of raw)) as (_ & _ & H).
    rewrite (H Hin). by intros [].
  - intros r k. by rewrite dom_delete_L.
  - done.
Qed.

Definition streaming_extractor (mf mb : nat) : Extractor nat Streams := Extractor_ctor 0%nat ∅ mf mb.

(** The connections of the client's ports 51000 and 52000. *)
Definition blocked_syn : Packet := test_view (test_syn 51000) 1.
Definition waiting_syn : Packet := test_view (test_syn 52000) 9.
Definition demo_T (k : Z) : Z :=
  if k =? key_of blocked_syn then token_of (packet_bytes blocked_syn)
  else if k =? key_of waiting_syn then token_of (packet_bytes waiting_syn) else 1.

(** Packets whose views are computed. *)
Definition token_agrees (p : Packet) : bool :=
  match flow_view p, raw_packet p with
  | Ok r, Ok raw => negb r.1 || (token_of raw =? demo_T (key r.2))
  | _, _ => true
  end.

Lemma tokens_agree ps : forallb token_agrees ps = true -> Forall (one_connection token_of demo_T) ps.
Proof.
  intros Hp. apply List.Forall_forall. intros p Hin. rewrite forallb_forall in Hp.
  specialize (Hp p Hin). intros f raw Hf _ Hr. unfold token_agrees in Hp. rewrite Hf, Hr in Hp.
  by apply Z.eqb_eq.
Qed.

Definition streaming_state (mf mb : nat) (ops : list op) : Extractor nat Streams :=
  match run (streaming_extractor mf mb) ops with Ok r => r.1 | Fault _ => streaming_extractor mf mb end.

(** A blocked connection and a half-open one. *)
Definition leak_ops : list op :=
  [Feed (seconds 5) waiting_syn; Feed (seconds 5) blocked_syn;
   Feed (seconds 5) (test_view (test_seg 51000 1001 (take 30 demo_blocked_hello)) 2); Drain;
   Feed (seconds 6) (test_view (test_seg 51000 1031 (drop 30 demo_blocked_hello)) 3); Tick (seconds 7)].

Lemma no_connection_leaks_witness :
  exists e out, run (streaming_extractor 4 1) leak_ops = Ok (e, out) /\
    (size (dom (_reassembly e) ∖ {[0%Z]}) <= waiting_flows e + length (_to_close e))%nat /\
    elements (dom (_reassembly e)) = [token_of (packet_bytes waiting_syn)] /\
    exists e', flush e = Ok e' /\ dom (_reassembly e') ⊆ {[0]}.
Proof.
  destruct (no_connection_leaks (R := Streams) dom token_of demo_T 0%nat ∅ 4 1 leak_ops streams_track)
    as (e & out & H1 & _ & H2 & e' & H3 & H4); [reflexivity|concrete|apply tokens_agree; concrete|].
  exists e, out. split; [exact H1|]. split; [exact H2|]. split; [|exact (ex_intro _ e' (conj H3 H4))].
  assert (e = streaming_state 4 1 leak_ops) as -> by (unfold streaming_state, streaming_extractor; by rewrite H1).
  vm_compute. reflexivity.
Defined.

(** ** A connection whose key is 0 *)

(** A reassembler with one connection, whose key is 0; the state is whether it is
    open. *)
#[local] Instance zero_pcpp : Pcpp bool := {|
  reassemblePacket r raw := (true, if (r : bool) then [] else [ConnectionStart 0]);
  closeConnection r k := (if k =? 0 then false else r, [ConnectionEnd]);
  purgeClosedConnections r := (r, [])
|}.

(** Its flow has timed out and the extractor has shut down: it is still open. *)
Lemma zero_key_leaks_connection :
  (λ r, (_reassembly r.1, map_to_list (_conns r.1), _to_close r.1)) <$>
    run (Extractor_ctor 0%nat false 4 1) [Feed (seconds 5) waiting_syn; Tick (seconds 30); Flush] = Ok (true, [], []).
Proof. vm_compute. reflexivity. Qed.

(** ** When two flows do share a key *)

(** The connections of 10.0.0.200 and 10.0.1.69 have one flow key. *)
Definition twin_syn (c d : byte) (id : Z) : Packet :=
  test_view (test_l3 [x0a; x00; c; d] kServer 51000 443 1000 2 []) id.

(** Both open; the second one's key replaces the first one's in the entry they
    share, and the first connection is never closed, not even by the shutdown. *)
Definition twin_ops : list op :=
  [Feed (seconds 5) (twin_syn x00 xc8 1); Feed (seconds 5 + 1) (twin_syn x01 x45 2); Flush].

Lemma shared_key_leaks_connection :
  elements (dom (_reassembly (streaming_state 4 1 twin_ops))) = [token_of (packet_bytes (twin_syn x00 xc8 1))] /\
  _conns (streaming_state 4 1 twin_ops) = ∅ /\ _to_close (streaming_state 4 1 twin_ops) = [].
Proof. split_and!; concrete. Qed.

(** ** A decision and an end in one call *)

(** A hello with FIN: the decision queues the close before the end is reported,
    and the connection is closed although the reassembler has ended it. *)
Lemma ended_connection_closed_again :
  (λ r, _reassembly r.1) <$> run (demo_extractor 4 1)
    [Feed (seconds 5) (demo_segment 51000 25 demo_blocked_hello 1)] = Ok [9] /\
  demo_reassemble (match raw_packet (demo_segment 51000 25 demo_blocked_hello 1) with
    Ok raw => raw | Fault _ => [] end) = [MessageReady 0 demo_blocked_hello 9; ConnectionEnd].
Proof. split; concrete. Qed.
