(* ===== verification/Interface.v ===== *)
(** * The interface of a hostname extractor ([include/hostname_extractor.hpp])

    The abstract class [HostnameExtractor] as a type class of operations, what it
    promises its caller as laws, a caller proved against the laws alone, and
    [TcpTlsHostnameExtractor] as an instance that keeps them. *)
From S2P Require Import Packet Extractor ExtractorInv ExtractorSpec ExtractorBlocked.

(** The virtual members, [decided()], and its being cleared by the caller; the
    clock that [feed] reads is an argument. *)
Class HostnameExtractor (X : Type) := {
  hx_feed : X -> Z -> Packet -> outcome X;
  hx_tick : X -> Z -> outcome X;
  hx_flush : X -> outcome X;
  hx_decided : X -> list Decided;
  hx_clear : X -> X
}.

(** From [x] to [x'] the packets [ps] came in: what is decided, with verdicts [ok],
    is appended to what was decided before, and each packet that came in or was
    held is decided or held, once. *)
Definition accounts {X} `{!HostnameExtractor X} (holds : X -> list Packet) (ok : Decided -> Prop)
    (x : X) (ps : list Packet) (x' : X) : Prop :=
  exists ds, hx_decided x' = hx_decided x ++ ds /\ Forall ok ds /\
    map release_bytes (map pkt ds ++ holds x') ≡ₚ map release_bytes (ps ++ holds x).

Definition any_verdict (d : Decided) : Prop := True.

(** The contract, for the states [usable] and the packets they hold: [feed] may
    decide either way, [tick] and [flush] allow what they let go of, and [flush]
    lets go of everything. *)
Record Contract (X : Type) `{!HostnameExtractor X} (usable : X -> Prop) (holds : X -> list Packet) : Prop := {
  feed_law : forall x now p, usable x -> readable p ->
    exists x', hx_feed x now p = Ok x' /\ usable x' /\ accounts holds any_verdict x [p] x';
  tick_law : forall x now, usable x ->
    exists x', hx_tick x now = Ok x' /\ usable x' /\ accounts holds allowed x [] x';
  flush_law : forall x, usable x ->
    exists x', hx_flush x = Ok x' /\ usable x' /\ accounts holds allowed x [] x' /\ holds x' = [];
  clear_law : forall x, usable x ->
    usable (hx_clear x) /\ hx_decided (hx_clear x) = [] /\ holds (hx_clear x) = holds x
}.

(** ** A caller *)

Section caller.
  Context {X : Type} `{!HostnameExtractor X} (usable : X -> Prop) (holds : X -> list Packet).
  Context (contract : Contract X usable holds).

Fixpoint feed_batch (x : X) (batch : list (Z * Packet)) : outcome X :=
  match batch with
  | [] => Ok x
  | (now, p) :: batch => x ← hx_feed x now p; feed_batch x batch
  end.

(** Turns of a batch and a tick, each followed by taking what is decided; then a
    flush. *)
Fixpoint serve (x : X) (turns : list (list (Z * Packet) * Z)) : outcome (X * list Decided) :=
  match turns with
  | [] => x ← hx_flush x; Ok (hx_clear x, hx_decided x)
  | (batch, now) :: turns =>
      x ← feed_batch x batch;
      x ← hx_tick x now;
      r ← serve (hx_clear x) turns;
      Ok (r.1, hx_decided x ++ r.2)
  end.

Lemma accounts_refl ok x : accounts holds ok x [] x.
Proof. exists []. by rewrite app_nil_r. Qed.

Lemma accounts_weaken (ok ok' : Decided -> Prop) x ps x' : (forall d, ok d -> ok' d) ->
  accounts holds ok x ps x' -> accounts holds ok' x ps x'.
Proof. intros Hok (ds & D1 & A1 & P1). exists ds. split_and!; [done| |done]. by eapply Forall_impl. Qed.

Lemma accounts_trans ok x ps x' qs x'' : accounts holds ok x ps x' -> accounts holds ok x' qs x'' ->
  accounts holds ok x (ps ++ qs) x''.
Proof.
  intros (ds & D1 & A1 & P1) (ds' & D2 & A2 & P2). exists (ds ++ ds').
  split_and!; [by rewrite D2, D1, app_assoc|by apply Forall_app|].
  rewrite !map_app in *. rewrite <- !app_assoc, P2, (Permutation_app_comm (map release_bytes qs)).
  rewrite (app_assoc _ _ (map release_bytes qs)), P1, <- app_assoc. apply Permutation_app_head.
  apply Permutation_app_comm.
Qed.

Lemma feed_batch_law batch : forall x, usable x -> Forall (λ tp, readable tp.2) batch ->
  exists x', feed_batch x batch = Ok x' /\ usable x' /\ accounts holds any_verdict x (map snd batch) x'.
Proof using contract.
  induction batch as [|[now p] batch IH]; intros x Hx Hb.
  { exists x. split_and!; [done|done|apply accounts_refl]. }
  destruct (Forall_cons_1 _ _ _ Hb) as [Hp Hb'].
  destruct (feed_law _ _ _ contract x now p Hx Hp) as (x1 & H1 & U1 & A1). cbn [feed_batch]. rewrite H1.
  cbn [mbind outcome_bind]. destruct (IH x1 U1 Hb') as (x2 & H2 & U2 & A2).
  exists x2. split_and!; [done|done|]. exact (accounts_trans _ x [p] x1 _ x2 A1 A2).
Qed.

Lemma serve_answers turns : forall x, usable x -> hx_decided x = [] ->
  Forall (λ t, Forall (λ tp, readable tp.2) t.1) turns ->
  exists x' ds, serve x turns = Ok (x', ds) /\ usable x' /\ holds x' = [] /\ hx_decided x' = [] /\
    map release_bytes (map pkt ds) ≡ₚ
      map release_bytes (concat (map (λ t, map snd t.1) turns) ++ holds x).
Proof using contract.
  induction turns as [|[batch now] turns IH]; intros x Hx Hd Hts; cbn [serve].
  - destruct (flush_law _ _ _ contract x Hx) as (x1 & -> & U1 & (ds & D1 & _ & P1) & H1).
    destruct (clear_law _ _ _ contract x1 U1) as (U2 & D2 & H2). cbn [mbind outcome_bind].
    exists (hx_clear x1), (hx_decided x1). rewrite H1, app_nil_r in P1. rewrite Hd in D1.
    split_and!; [done|done|congruence|done|]. by rewrite D1.
  - destruct (Forall_cons_1 _ _ _ Hts) as [Hb Hts'].
    destruct (feed_batch_law batch x Hx Hb) as (x1 & -> & U1 & A1). cbn [mbind outcome_bind].
    destruct (tick_law _ _ _ contract x1 now U1) as (x2 & -> & U2 & A2). cbn [mbind outcome_bind].
    apply (accounts_weaken allowed any_verdict) in A2; [|done].
    destruct (accounts_trans _ x _ x1 [] x2 A1 A2) as (ds & D2 & _ & P2). rewrite Hd in D2. simpl in D2.
    destruct (clear_law _ _ _ contract x2 U2) as (U3 & D3 & H3).
    destruct (IH (hx_clear x2) U3 D3 Hts') as (x4 & ds' & -> & U4 & H4 & D4 & P4). cbn [mbind outcome_bind].
    exists x4, (hx_decided x2 ++ ds'). split_and!; [done..|]. rewrite H3 in P4.
    cbn [map concat fst]. rewrite app_nil_r in P2. rewrite !map_app in *. rewrite D2, P4.
    rewrite (Permutation_app_comm (map release_bytes (concat _)) (map release_bytes (holds x2))), app_assoc, P2.
    rewrite <- !app_assoc. apply Permutation_app_head, Permutation_app_comm.
Qed.

End caller.

(** ** The implementation *)

Section implementation.
  Context {D R : Type} `{!Policy D} `{!Pcpp R} `{!MapOrder}.
  Abbreviation Ext := (Extractor D R).
  Implicit Types e : Ext.

#[export] Instance TcpTlsHostnameExtractor : HostnameExtractor Ext := {|
  hx_feed := feed; hx_tick := tick; hx_flush := flush;
  hx_decided := _decided; hx_clear := clear_decided
|}.

(** A call whose answers, all of them new, are appended accounts for its packet. *)
Lemma call_accounts ok e o e' : Good e -> op_ok o -> run_op e o = Ok (e', []) ->
  (exists ds, _decided e' = _decided e ++ ds /\ Forall ok ds) ->
  Good e' /\ accounts (λ e, held_in (_conns e)) ok e (fed_by o) e'.
Proof.
  intros Hg Ho Hrun (ds & Hd & Ha). destruct (run_op_good e o Hg Ho) as (e1 & out & H1 & G1 & P1).
  rewrite Hrun in H1. injection H1 as <- <-. split; [done|]. exists ds. split_and!; [exact Hd|exact Ha|].
  unfold stored in P1. rewrite Hd in P1. cbn [map app] in P1. rewrite !map_app, <- !app_assoc in P1.
  rewrite !map_app. apply (Permutation_app_inv_l (map release_bytes (map pkt (_decided e)))).
  rewrite P1. rewrite !app_assoc. apply Permutation_app_tail, Permutation_app_comm.
Qed.

Lemma TcpTls_contract : nameless_pass D -> Contract Ext Good (λ e, held_in (_conns e)).
Proof.
  intros Hn. split; simpl.
  - intros e now p Hg Hp. pose proof Hg as [Hi Hq _ _].
    destruct (feed_spec e now p Hi Hq Hp) as (e1 & e' & _ & Hf & _ & _ & _ & [_ [ds D1] _ _ _ _] & [_ _ _ [ds' D2] _ _ _ _] & _).
    exists e'. split; [done|]. apply (call_accounts _ e (Feed now p)); [done|done|simpl; by rewrite Hf|].
    exists (ds ++ ds'). rewrite D2, D1. split; [by rewrite app_assoc|by apply Forall_true].
  - intros e now Hg. destruct (tick_passed Hn e now (gd_quiet _ Hg)) as (e' & Ht & [_ _ _ Hds]).
    exists e'. split; [done|]. apply (call_accounts _ e (Tick now)); [done|done|simpl; by rewrite Ht|exact Hds].
  - intros e Hg. pose proof Hg as [Hi Hq _ _].
    destruct (flush_spec e Hi Hq) as (e1 & Hf1 & _ & _ & C1 & _).
    destruct (flush_allows Hn e Hq) as (e' & ds & Hf & Hd & Ha). rewrite Hf1 in Hf. injection Hf as ->.
    exists e'. split; [done|].
    destruct (call_accounts allowed e Flush e') as [G1 A1]; [done|done|simpl; by rewrite Hf1|by exists ds|].
    split_and!; [done|done|]. by rewrite C1, held_in_empty.
  - intros e Hg. split_and!; [|done|done]. destruct Hg as [Hi Hq Hs Hf]. split; try done.
    by apply clear_decided_inv.
Qed.

End implementation.

(** * Properties *)

Section properties.
  Context {D R : Type} `{!Policy D} `{!Pcpp R} `{!MapOrder}.

(** C12: [TcpTlsHostnameExtractor] keeps the contract of [HostnameExtractor] when
    its policy lets flows without a name pass (as the worker's does): from any
    state between two calls, every call returns; each packet fed is decided before
    [feed] returns or held and decided later, once; [tick] and [flush] only allow
    what they let go of; [flush] leaves nothing held.  Hence a caller that only
    knows the interface, and from the constructor on feeds batches, ticks, takes
    what is decided and flushes at the end, has every packet back with exactly one
    verdict. *)
Theorem extractor_implements_interface d r mf mb : nameless_pass D ->
  let e := Extractor_ctor (D := D) (R := R) d r mf mb in
  Contract (Extractor D R) Good (λ e, held_in (_conns e)) /\ Good e /\
  forall turns, Forall (λ t, Forall (λ tp, readable tp.2) t.1) turns ->
    exists e' ds, serve e turns = Ok (e', ds) /\
      map release_bytes (map pkt ds) ≡ₚ map release_bytes (concat (map (λ t, map snd t.1) turns)).
Proof.
  intros Hn e. pose proof (Good_ctor (D := D) (R := R) d r mf mb) as Hg. split_and!; [by apply TcpTls_contract|exact Hg|].
  intros turns Hts.
  destruct (serve_answers Good _ (TcpTls_contract Hn) turns e Hg eq_refl Hts) as (e' & ds & H1 & _ & _ & _ & P1).
  rewrite (held_in_empty : held_in (_conns e) = []), app_nil_r in P1.
  exists e', ds. by split.
Qed.

End properties.

(** ** At a concrete input *)

Definition demo_turns : list (list (Z * Packet) * Z) :=
  [([(seconds 5, demo_segment 51000 2 [] 1);
     (seconds 5, demo_segment 51000 24 (take 30 demo_blocked_hello) 2)], seconds 6);
   ([(seconds 7, demo_segment 51000 24 (drop 30 demo_blocked_hello) 3);
     (seconds 7, demo_segment 52000 24 (take 30 demo_blocked_hello) 4)], seconds 8)].

Lemma turns_readable (ts : list (list (Z * Packet) * Z)) :
  Forall op_ok (map (λ tp, Feed tp.1 tp.2) (concat (map fst ts))) ->
  Forall (λ t, Forall (λ tp, readable tp.2) t.1) ts.
Proof.
  induction ts as [|[batch now] ts IH]; [done|]. cbn [map concat fst]. rewrite map_app.
  intros [H1 H2]%Forall_app. constructor; [exact (proj1 (List.Forall_map _ _ _) H1)|by apply IH].
Qed.

Lemma extractor_implements_interface_witness :
  exists e' ds, serve (demo_extractor 4 1) demo_turns = Ok (e', ds) /\
    map _id (map pkt ds) ≡ₚ [1; 2; 3; 4].
Proof.
  destruct (extractor_implements_interface 0%nat [] 4 1 demo_nameless) as (_ & _ & Hserve).
  destruct (Hserve demo_turns) as (e' & ds & H1 & P1).
  - apply turns_readable. concrete.
  - exists e', ds. split; [exact H1|]. exact (released_ids _ _ P1).
Defined.

(** With a policy that blocks flows without a name, a shutdown blocks what is
    held, against the promise of [flush]. *)
Example flush_may_block :
  (e ← feed (Policy0 := λ (_ : option bytes) d, (BLOCK, d)) (demo_extractor 4 1) (seconds 5)
         (demo_segment 51000 24 (take 30 demo_blocked_hello) 1);
   e ← flush (Policy0 := λ (_ : option bytes) d, (BLOCK, d)) e;
   Ok (map (λ d, (_id (pkt d), verdict d)) (_decided e))) = Ok [(1, BLOCK)].
Proof. vm_compute. reflexivity. Qed.
