(* ===== verification/NFQueue.v ===== *)
(** * One netfilter queue ([include/NFQueue.hpp], [src/NFQueue.cpp])

    Setup with its error paths, one turn of the receive loop, the per-packet
    path with its fail-safe, and the verdict call with its counters.

    The kernel and libnetfilter_queue are the class [Netfilter]: [K] is their
    state, [sys] a set-up call (negative for failure or a null handle), [poll]
    and [recv] the system calls of a turn.  [poll] is given its timeout in
    milliseconds and is [None] when it waits for ever, which poll(2) rules out for
    a timeout that is not negative ([poll_returns]).  A successful [recv] fills the buffer;
    the packets [nfq_handle_packet] finds in it are listed with it.  [seen] and
    [sent] are ghost logs of the packets received and of the verdict calls, for
    the theorems to speak of. *)
From S2P Require Import Packet.

(** ** The environment *)

(** [nfq_data]: the four bytes of the packet id, and the payload with its
    length as [nfq_get_payload] returns them. *)
Record nfq_data := MkNfqData {
  packet_hdr : option bytes;
  nfq_payload : option bytes;
  nfq_len : Z
}.

Inductive Call :=
| nfq_open
| nfq_bind_pf
| nfq_create_queue (num : Z)
| nfq_set_mode
| nfq_set_queue_maxlen (len : Z)
| setsockopt_rcvbufforce (bytes : Z)
| setsockopt_rcvbuf (bytes : Z)
| setsockopt_no_enobufs
| nfq_destroy_queue
| nfq_close.

#[export] Instance Call_eq_dec : EqDecision Call.
Proof. solve_decision. Defined.

Class Netfilter (K : Type) := {
  sys : Call -> K -> Z * K;
  errno : K -> Z;
  poll : K -> Z -> option (Z * Z * Z * K);
  poll_returns : forall k t, 0 <= t -> is_Some (poll k t);
  recv : K -> Z * list nfq_data * K;
  nfq_set_verdict : K -> Z -> Z -> Z * K
}.

Definition EIO : Z := 5.
Definition EINTR : Z := 4.
Definition EAGAIN : Z := 11.
Definition EWOULDBLOCK : Z := 11.
Definition ENOBUFS : Z := 105.
Definition POLLIN : Z := 1.
Definition POLLERR : Z := 8.
Definition POLLHUP : Z := 16.
Definition POLLNVAL : Z := 32.
Definition NF_DROP : Z := 0.
Definition NF_ACCEPT : Z := 1.

(** ** State *)

Inductive Event := Packets | Idle | Stop | Error.

Record NFQueue := MkNFQueue {
  _h : bool;
  _qh : bool;
  _queue_num : Z;
  _stop_fd : Z;
  _received : Z;
  _verdicted : Z;
  _undecided : Z;
  _err_errno : Z;
  _err_what : option string
}.

Definition set_counters (q : NFQueue) r v u :=
  MkNFQueue (_h q) (_qh q) (_queue_num q) (_stop_fd q) r v u (_err_errno q) (_err_what q).

(** A queue with its kernel, the log of the packet ids received and the log of
    the verdicts sent. *)
Record Link (K : Type) := MkLink {
  queue : NFQueue;
  kernel : K;
  seen : list Z;
  sent : list (Z * Z)
}.
Arguments MkLink {K}.
Arguments queue {K}.
Arguments kernel {K}.
Arguments seen {K}.
Arguments sent {K}.

Definition set_kernel {K} (l : Link K) k : Link K := MkLink (queue l) k (seen l) (sent l).
Definition set_queue {K} (l : Link K) q : Link K := MkLink q (kernel l) (seen l) (sent l).

Section nfqueue.
  Context {K : Type} `{!Netfilter K}.

(** ** Setup *)

(** The constructor's result: the queue, or the exception with its [errno]. *)
Inductive Setup := Ready (q : NFQueue) | Throws (what : string) (err : Z).

(** A call, recorded in the trace with its result. *)
Definition call (c : Call) (kt : K * list (Call * Z)) : Z * (K * list (Call * Z)) :=
  let '(rc, k) := sys c kt.1 in (rc, (k, kt.2 ++ [(c, rc)])).

(** The lambda [bail]. *)
Definition bail (what : string) (qh : bool) (kt : K * list (Call * Z)) : Setup * (K * list (Call * Z)) :=
  let e := errno kt.1 in
  let kt := if qh then (call nfq_destroy_queue kt).2 else kt in
  let kt := (call nfq_close kt).2 in
  (Throws what e, kt).

Definition NFQueue_ctor (num stop_fd maxlen rcvbuf : Z) (k : K) : Setup * (K * list (Call * Z)) :=
  let '(h, kt) := call nfq_open (k, []) in
  if h <? 0 then (Throws "nfq_open" (errno kt.1), kt)
  else
    let '(rc, kt) := call nfq_bind_pf kt in
    if rc <? 0 then bail "nfq_bind_pf" false kt
    else
      let '(qh, kt) := call (nfq_create_queue num) kt in
      if qh <? 0 then bail "nfq_create_queue" false kt
      else
        let '(rc, kt) := call nfq_set_mode kt in
        if rc <? 0 then bail "nfq_set_mode" true kt
        else
          let kt := (call (nfq_set_queue_maxlen maxlen) kt).2 in
          let '(rc, kt) := call (setsockopt_rcvbufforce rcvbuf) kt in
          let kt := if rc <? 0 then (call (setsockopt_rcvbuf rcvbuf) kt).2 else kt in
          let kt := (call setsockopt_no_enobufs kt).2 in
          (Ready (MkNFQueue true true num stop_fd 0 0 0 0 None), kt).

Definition NFQueue_dtor (q : NFQueue) (kt : K * list (Call * Z)) : K * list (Call * Z) :=
  let kt := if _qh q then (call nfq_destroy_queue kt).2 else kt in
  if _h q then (call nfq_close kt).2 else kt.

(** ** Counters and errors *)

Definition packets_received (q : NFQueue) : Z := _received q.
Definition verdicts_issued (q : NFQueue) : Z := _verdicted q.
Definition outstanding (q : NFQueue) : Z := u64 (packets_received q - verdicts_issued q).
Definition packets_undecided (q : NFQueue) : Z := _undecided q.

Definition record_error (q : NFQueue) (what : string) (err : Z) : NFQueue :=
  MkNFQueue (_h q) (_qh q) (_queue_num q) (_stop_fd q) (_received q) (_verdicted q)
    (_undecided q) (if negb (err =? 0) then err else EIO) (Some what).

Definition failed (q : NFQueue) : bool := negb (_err_errno q =? 0).

(** [error()], given [std::strerror]. *)
Definition error (strerror : Z -> string) (q : NFQueue) : string :=
  let e := _err_errno q in
  if e =? 0 then EmptyString
  else (default "nfqueue" (_err_what q) ++ ": " ++ strerror e)%string.

(** ** Verdicts *)

(** [submit]: the link afterwards and what is left in [pkt]. *)
Definition submit (l : Link K) (pkt : Packet) (v : Verdict) : Link K * Packet :=
  if negb (pending_verdict pkt) then (l, pkt)
  else
    let pkt := set_verdict pkt v in
    let pkt := release_bytes pkt in
    let pkt := clear_pending pkt in
    let code := if base.decide (v = BLOCK) then NF_DROP else NF_ACCEPT in
    let '(rc, k) := nfq_set_verdict (kernel l) (_id pkt) code in
    let q := queue l in
    let q := if 0 <=? rc
             then set_counters q (_received q) (u64 (_verdicted q + 1)) (_undecided q) else q in
    (MkLink q k (seen l) (sent l ++ [(_id pkt, code)]), pkt).

(** ** One packet *)

(** [ntohl] of the four bytes in memory. *)
Definition ntohl (b : bytes) : Z := fold_left (λ a x, a * 256 + b2z x) b 0.

Definition packet_of (nfa : nfq_data) : Packet :=
  let id := match packet_hdr nfa with Some b => ntohl b | None => 0 end in
  match nfq_payload nfa with
  | Some d => if 0 <? nfq_len nfa then Packet_view (Some d) (u32 (nfq_len nfa)) id
              else Packet_view None 0 id
  | None => Packet_view None 0 id
  end.

End nfqueue.

(** The object around a queue: what the callback can reach. *)
Class HasLink (W K : Type) := {
  link : W -> Link K;
  set_link : W -> Link K -> W;
  link_set_link w l : link (set_link w l) = l
}.

Section handle.
  Context {W K : Type} `{!Netfilter K} `{!HasLink W K}.

(** The callback: the state it leaves, and what it leaves in the packet it was
    given by rvalue reference (also when it throws). *)
  Variable _cb : W -> Packet -> outcome (W * Packet).

Definition count_received (w : W) (id : Z) : W :=
  let l := link w in
  let q := queue l in
  set_link w (MkLink (set_counters q (u64 (_received q + 1)) (_verdicted q) (_undecided q))
                (kernel l) (seen l ++ [id]) (sent l)).

Definition count_undecided (w : W) : W :=
  let l := link w in
  let q := queue l in
  set_link w (set_queue l (set_counters q (_received q) (_verdicted q) (u64 (_undecided q + 1)))).

Definition handle (w : W) (nfa : nfq_data) : outcome W :=
  let pkt := packet_of nfa in
  let w := count_received w (_id pkt) in
  '(w, pkt) ← _cb w pkt;
  if pending_verdict pkt then
    let w := count_undecided w in
    Ok (set_link w (submit (link w) pkt ALLOW).1)
  else Ok w.

(** [nfq_handle_packet] over the buffer. *)
Fixpoint handle_all (w : W) (msgs : list nfq_data) : outcome W :=
  match msgs with
  | [] => Ok w
  | m :: msgs => w ← handle w m; handle_all w msgs
  end.

Definition fail (w : W) (what : string) (err : Z) : W :=
  set_link w (set_queue (link w) (record_error (queue (link w)) what err)).

Definition run_once (timeout : Z) (w : W) : outcome (Event * W) :=
  let stop_fd := _stop_fd (queue (link w)) in
  '(n, rev0, rev1, k) ← (match poll (kernel (link w)) (i32 timeout) with
                         | Some r => Ok r
                         | None => Fault NeverReturns
                         end);
  let w := set_link w (set_kernel (link w) k) in
  if n <? 0 then
    if errno k =? EINTR then Ok (Idle, w) else Ok (Error, fail w "poll" (errno k))
  else if n =? 0 then Ok (Idle, w)
  else if (0 <=? stop_fd) && negb (rev1 =? 0) then Ok (Stop, w)
  else if Z.land rev0 POLLIN =? 0 then
    if negb (Z.land rev0 (Z.lor POLLERR (Z.lor POLLHUP POLLNVAL)) =? 0)
    then Ok (Error, fail w "poll: netlink socket error" EIO)
    else Ok (Idle, w)
  else
    let '(rv, msgs, k) := recv (kernel (link w)) in
    let w := set_link w (set_kernel (link w) k) in
    if rv <? 0 then
      if (errno k =? ENOBUFS) || (errno k =? EINTR) || (errno k =? EAGAIN)
         || (errno k =? EWOULDBLOCK)
      then Ok (Idle, w)
      else Ok (Error, fail w "recv" (errno k))
    else if rv =? 0 then Ok (Idle, w)
    else w ← handle_all w msgs; Ok (Packets, w).

End handle.

(** ** Facts about setup *)

(** What a call acquires or gives back: netlink handles and queues. *)
Definition effect (c : Call) (rc : Z) : Z * Z :=
  match c with
  | nfq_open => if rc <? 0 then (0, 0) else (1, 0)
  | nfq_create_queue _ => if rc <? 0 then (0, 0) else (0, 1)
  | nfq_destroy_queue => (0, -1)
  | nfq_close => (-1, 0)
  | _ => (0, 0)
  end.

(** What a trace has acquired and not given back. *)
Fixpoint live (t : list (Call * Z)) : Z * Z :=
  match t with
  | [] => (0, 0)
  | (c, rc) :: t => ((live t).1 + (effect c rc).1, (live t).2 + (effect c rc).2)
  end.

Lemma live_snoc t c rc : live (t ++ [(c, rc)]) =
  ((live t).1 + (effect c rc).1, (live t).2 + (effect c rc).2).
Proof.
  induction t as [|[c' rc'] t IH]; [done|]. cbn [app live]. rewrite IH. cbn [fst snd].
  f_equal; lia.
Qed.

Section facts.
  Context {K : Type} `{!Netfilter K}.

Lemma call_live c (kt : K * list (Call * Z)) rc kt' : call c kt = (rc, kt') ->
  live kt'.2 = ((live kt.2).1 + (effect c rc).1, (live kt.2).2 + (effect c rc).2).
Proof.
  unfold call. destruct (sys c kt.1) as [rc0 k]. intros [= <- <-]. apply live_snoc.
Qed.

(** The result of a set-up path that owns nothing when it throws. *)
Definition no_leak (num fd : Z) (r : Setup * (K * list (Call * Z))) : Prop :=
  match r with
  | (Ready q, kt) => live kt.2 = (1, 1) /\ q = MkNFQueue true true num fd 0 0 0 0 None
  | (Throws _ _, kt) => live kt.2 = (0, 0)
  end.

Lemma bail_no_leak num fd what (qh : bool) (kt : K * list (Call * Z)) :
  live kt.2 = (1, if qh then 1 else 0) -> no_leak num fd (bail what qh kt).
Proof.
  intros Hl. unfold bail, no_leak. destruct qh.
  - destruct (call nfq_destroy_queue kt) as [rc1 kt1] eqn:H1. apply call_live in H1. cbn [snd].
    destruct (call nfq_close kt1) as [rc2 kt2] eqn:H2. apply call_live in H2. cbn [snd].
    by rewrite H2, H1, Hl.
  - destruct (call nfq_close kt) as [rc2 kt2] eqn:H2. apply call_live in H2. cbn [snd].
    by rewrite H2, Hl.
Qed.

(** Name the next call of the goal and what it does to the live handles; then
    split on whether it failed. *)
Ltac next_call Hl :=
  match goal with
  | |- context [call ?c ?kt0] =>
      let H := fresh "Hcall" in let rc := fresh "rc" in let kt := fresh "kt" in
      destruct (call c kt0) as [rc kt] eqn:H; apply call_live in H;
      rewrite Hl in H; clear Hl; rename H into Hl; cbn [snd];
      unfold effect in Hl;
      try (let E := fresh "E" in destruct (rc <? 0) eqn:E; cbn [snd]);
      cbn [fst snd Z.add Pos.add] in Hl
  end.

Lemma ctor_no_leak num fd maxlen rcvbuf (k : K) :
  no_leak num fd (NFQueue_ctor num fd maxlen rcvbuf k).
Proof.
  unfold NFQueue_ctor. assert (live (k, @nil (Call * Z)).2 = (0, 0)) as Hl by done.
  next_call Hl; [done|].
  next_call Hl; [by apply bail_no_leak|].
  next_call Hl; [by apply bail_no_leak|].
  next_call Hl; [by apply bail_no_leak|].
  repeat next_call Hl; by split_and!.
Qed.

(** ** Facts about verdicts *)

Definition nf_code (v : Verdict) : Z := if base.decide (v = BLOCK) then NF_DROP else NF_ACCEPT.

Lemma submit_pending (l : Link K) p v : _pending p = true ->
  exists q rc k, nfq_set_verdict (kernel l) (_id p) (nf_code v) = (rc, k) /\
    submit l p v = (MkLink q k (seen l) (sent l ++ [(_id p, nf_code v)]),
                    clear_pending (release_bytes (set_verdict p v))) /\
    _received q = _received (queue l) /\ _undecided q = _undecided (queue l) /\
    _verdicted q = (if 0 <=? rc then u64 (_verdicted (queue l) + 1) else _verdicted (queue l)) /\
    _err_errno q = _err_errno (queue l) /\ _stop_fd q = _stop_fd (queue l).
Proof.
  intros Hp. unfold submit, pending_verdict. rewrite Hp. cbn [negb].
  change (_id (clear_pending (release_bytes (set_verdict p v)))) with (_id p).
  fold (nf_code v). destruct (nfq_set_verdict (kernel l) (_id p) (nf_code v)) as [rc k].
  eexists _, rc, k. split; [done|]. split; [done|]. by destruct (0 <=? rc).
Qed.

Lemma submit_done (l : Link K) p v : _pending p = false -> submit l p v = (l, p).
Proof. intros Hp. unfold submit, pending_verdict. by rewrite Hp. Qed.

End facts.

(** ** Facts about a turn *)

(** The library hands over a payload of the length it announces. *)
Definition msg_ok (m : nfq_data) : Prop :=
  nfq_len m < 4294967296 /\ match nfq_payload m with Some d => nfq_len m <= zlen d | None => True end.

#[export] Instance msg_ok_dec m : Decision (msg_ok m).
Proof. unfold msg_ok. destruct (nfq_payload m); apply _. Defined.

Lemma packet_of_ok m : msg_ok m ->
  readable (packet_of m) /\ _pending (packet_of m) = true /\
  _id (packet_of m) = match packet_hdr m with Some b => ntohl b | None => 0 end.
Proof.
  intros [Hn Hp]. unfold packet_of. destruct (nfq_payload m) as [d|]; [|done].
  destruct (Z.ltb_spec 0 (nfq_len m)); [|done].
  split; [|done]. unfold readable. simpl. rewrite u32_id by lia. lia.
Qed.

Section turns.
  Context {W K : Type} `{!Netfilter K} `{!HasLink W K}.
  Variable _cb : W -> Packet -> outcome (W * Packet).

(** An invariant that taking a packet in and the bookkeeping of the loop keep. *)
  Variable P : W -> Prop.
  Hypothesis P_handle : forall w m, P w -> msg_ok m -> exists w', handle _cb w m = Ok w' /\ P w'.
  Hypothesis P_kernel : forall w k, P w -> P (set_link w (set_kernel (link w) k)).
  Hypothesis P_fail : forall w what err, P w -> P (fail w what err).
  Hypothesis recv_ok : forall k rv msgs k', recv k = (rv, msgs, k') -> Forall msg_ok msgs.

Lemma handle_all_keeps msgs w : P w -> Forall msg_ok msgs ->
  exists w', handle_all _cb w msgs = Ok w' /\ P w'.
Proof using All.
  revert w. induction msgs as [|m msgs IH]; intros w Hw Hm; simpl; [by exists w|].
  destruct (Forall_cons_1 _ _ _ Hm) as [Hm1 Hm2].
  destruct (P_handle w m Hw Hm1) as (w1 & -> & H1). cbn [mbind outcome_bind]. auto.
Qed.

Lemma run_once_keeps timeout w : 0 <= i32 timeout -> P w ->
  exists ev w', run_once _cb timeout w = Ok (ev, w') /\ P w'.
Proof using All.
  intros Ht Hw. unfold run_once.
  destruct (poll_returns (kernel (link w)) _ Ht) as [[[[n r0] r1] k] ->]. cbn [mbind outcome_bind].
  set (w1 := set_link w _). assert (P w1) as H1 by (by apply P_kernel).
  destruct (n <? 0); [destruct (_ =? _); eauto|].
  destruct (n =? 0); [eauto|]. destruct (_ && _); [eauto|].
  destruct (Z.land r0 POLLIN =? 0); [destruct (negb _); eauto|].
  destruct (recv (kernel (link w1))) as [[rv msgs] k1] eqn:Hr.
  set (w2 := set_link w1 _). assert (P w2) as H2 by (by apply P_kernel).
  destruct (rv <? 0); [destruct (_ || _); eauto|]. destruct (rv =? 0); [eauto|].
  destruct (handle_all_keeps msgs w2 H2) as (w3 & -> & H3); [by eapply recv_ok|].
  cbn [mbind outcome_bind]. eauto.
Qed.

End turns.

(** ** When a turn fails *)

Definition same_error (q q' : NFQueue) : Prop :=
  _err_errno q' = _err_errno q /\ _err_what q' = _err_what q.

Section failures.
  Context {W K : Type} `{!Netfilter K} `{!HasLink W K}.

(** What [poll] reports of the stop fd. *)
Definition told_to_stop (w : W) (n r1 : Z) : Prop := 0 < n /\ 0 <= _stop_fd (queue (link w)) /\ r1 <> 0.

(** The reasons for a turn to give up, with the call and its [errno]. *)
Inductive turn_fails (timeout : Z) (w : W) : string -> Z -> Prop :=
| poll_failed n r0 r1 k : poll (kernel (link w)) (i32 timeout) = Some (n, r0, r1, k) ->
    n < 0 -> errno k <> EINTR -> turn_fails timeout w "poll" (errno k)
| socket_failed n r0 r1 k : poll (kernel (link w)) (i32 timeout) = Some (n, r0, r1, k) ->
    0 < n -> ~ told_to_stop w n r1 -> Z.land r0 POLLIN = 0 ->
    Z.land r0 (Z.lor POLLERR (Z.lor POLLHUP POLLNVAL)) <> 0 ->
    turn_fails timeout w "poll: netlink socket error" EIO
| recv_failed n r0 r1 k rv msgs k' : poll (kernel (link w)) (i32 timeout) = Some (n, r0, r1, k) ->
    0 < n -> ~ told_to_stop w n r1 -> Z.land r0 POLLIN <> 0 -> recv k = (rv, msgs, k') -> rv < 0 ->
    errno k' ∉ [ENOBUFS; EINTR; EAGAIN; EWOULDBLOCK] -> turn_fails timeout w "recv" (errno k').

Lemma turn_fails_once timeout w what err what' err' :
  turn_fails timeout w what err -> turn_fails timeout w what' err' -> what' = what /\ err' = err.
Proof.
  intros [n r0 r1 k Hp Hn He|n r0 r1 k Hp Hn Hs H0 H1|n r0 r1 k rv ms k1 Hp Hn Hs H0 Hr Hrv He]
    [n' r0' r1' k' Hp' Hn' He'|n' r0' r1' k' Hp' Hn' Hs' H0' H1'|n' r0' r1' k' rv' ms' k1' Hp' Hn' Hs' H0' Hr' Hrv' He'];
    rewrite Hp in Hp'; injection Hp' as <- <- <- <-; try lia; try done.
  rewrite Hr in Hr'. by injection Hr' as <- <- <-.
Qed.

Lemma fail_records (w : W) what err : _err_what (queue (link (fail w what err))) = Some what /\
  _err_errno (queue (link (fail w what err))) = if err =? 0 then EIO else err.
Proof. unfold fail. rewrite link_set_link. simpl. by destruct (err =? 0). Qed.

  Variable _cb : W -> Packet -> outcome (W * Packet).
  Hypothesis cb_keeps : forall w m w', handle _cb w m = Ok w' -> same_error (queue (link w)) (queue (link w')).

Lemma handle_all_error msgs : forall w w', handle_all _cb w msgs = Ok w' ->
  same_error (queue (link w)) (queue (link w')).
Proof using cb_keeps.
  induction msgs as [|m msgs IH]; intros w w' Hh; simpl in Hh; [by injection Hh as <-|].
  destruct (handle _cb w m) as [w1|] eqn:Hm; [|done]. cbn [mbind outcome_bind] in Hh.
  destruct (cb_keeps _ _ _ Hm), (IH _ _ Hh). split; congruence.
Qed.

Lemma not_transient e : (e =? ENOBUFS) || (e =? EINTR) || (e =? EAGAIN) || (e =? EWOULDBLOCK) = false <->
  e ∉ [ENOBUFS; EINTR; EAGAIN; EWOULDBLOCK].
Proof. rewrite !orb_false_iff, !Z.eqb_neq, !not_elem_of_cons. pose proof (not_elem_of_nil e). tauto. Qed.

(** The two ways a turn ends. *)
Lemma run_once_outcome timeout w ev w' : run_once _cb timeout w = Ok (ev, w') ->
  (ev <> Error /\ same_error (queue (link w)) (queue (link w')) /\
     forall what err, ~ turn_fails timeout w what err) \/
  (ev = Error /\ exists what err, turn_fails timeout w what err /\
     _err_what (queue (link w')) = Some what /\
     _err_errno (queue (link w')) = if err =? 0 then EIO else err).
Proof using cb_keeps.
  unfold run_once. destruct (poll _ _) as [[[[n r0] r1] k]|] eqn:Hp; [|done]. cbn [mbind outcome_bind].
  set (w1 := set_link w _).
  assert (queue (link w1) = queue (link w) /\ kernel (link w1) = k) as [Hq1 Hk1]
    by (unfold w1; by rewrite link_set_link). clearbody w1. rewrite Hk1.
  destruct (Z.ltb_spec n 0) as [Hn|Hn].
  { destruct (Z.eqb_spec (errno k) EINTR) as [He|He]; intros [= <- <-].
    - left. split_and!; [done|by rewrite Hq1|]. intros what err Hf. destruct Hf; simplify_eq; try lia; done.
    - right. split; [done|]. exists "poll", (errno k). split; [exact (poll_failed timeout w n r0 r1 k Hp Hn He)|apply fail_records]. }
  destruct (Z.eqb_spec n 0) as [H0|H0].
  { intros [= <- <-]. left. split_and!; [done|by rewrite Hq1|]. intros what err Hf. destruct Hf; simplify_eq; lia. }
  assert (0 < n) as Hpos by lia. destruct (_ && _) eqn:Hstop.
  { apply andb_true_iff in Hstop as [H1%Z.leb_le H2%negb_true_iff%Z.eqb_neq]. intros [= <- <-]. left.
    split_and!; [done|by rewrite Hq1|].
    intros what err Hf. destruct Hf; simplify_eq; try lia; (assert (told_to_stop w n r1) by (by split_and!; [lia|..])); done. }
  assert (~ told_to_stop w n r1) as Hns.
  { intros (_ & H1 & H2). rewrite (proj2 (Z.leb_le 0 _) H1), (proj2 (Z.eqb_neq r1 0) H2) in Hstop. done. }
  destruct (Z.eqb_spec (Z.land r0 POLLIN) 0) as [Hin|Hin].
  { destruct (Z.eqb_spec (Z.land r0 (Z.lor POLLERR (Z.lor POLLHUP POLLNVAL))) 0) as [Hb|Hb];
      cbn [negb]; intros [= <- <-].
    - left. split_and!; [done|by rewrite Hq1|]. intros what err Hf. destruct Hf; simplify_eq; try lia; done.
    - right. split; [done|]. eexists _, _. split; [exact (socket_failed timeout w n r0 r1 k Hp Hpos Hns Hin Hb)|apply fail_records]. }
  destruct (recv k) as [[rv msgs] k1] eqn:Hr. set (w2 := set_link w1 _).
  assert (queue (link w2) = queue (link w)) as Hq2 by (unfold w2; by rewrite link_set_link). clearbody w2.
  assert (rv < 0 -> errno k1 ∉ [ENOBUFS; EINTR; EAGAIN; EWOULDBLOCK] <-> exists what err, turn_fails timeout w what err) as Hrf.
  { intros Hrv. split; [intros He; eexists _, _; exact (recv_failed timeout w n r0 r1 k rv msgs k1 Hp Hpos Hns Hin Hr Hrv He)|].
    intros (what & err & Hf). destruct Hf as [| |??????? ???? Hr2 ??]; simplify_eq; try lia; try done.
    rewrite Hr in Hr2. by injection Hr2 as <- <- <-. }
  destruct (Z.ltb_spec rv 0) as [Hrv|Hrv].
  { destruct (_ || _) eqn:He; intros [= <- <-].
    - left. split_and!; [done|by rewrite Hq2|]. intros what err Hf.
      assert (errno k1 ∉ [ENOBUFS; EINTR; EAGAIN; EWOULDBLOCK]) as Hn' by (apply Hrf; eauto).
      apply not_transient in Hn'. congruence.
    - right. apply not_transient in He. split; [done|]. eexists _, _.
      split; [exact (recv_failed timeout w n r0 r1 k rv msgs k1 Hp Hpos Hns Hin Hr Hrv He)|apply fail_records]. }
  assert (forall what err, ~ turn_fails timeout w what err) as Hno.
  { intros what err Hf. destruct Hf as [| |??????? ???? Hr2 ??]; simplify_eq; try lia; try done.
    rewrite Hr in Hr2. injection Hr2 as <- <- <-. lia. }
  destruct (rv =? 0); [intros [= <- <-]; left; by rewrite Hq2|].
  destruct (handle_all _cb w2 msgs) as [w3|] eqn:Hh; [|done]. intros [= <- <-]. left.
  split_and!; [done| |done]. rewrite <- Hq2. by eapply handle_all_error.
Qed.

End failures.

(** ** A concrete kernel: a number of turns before the stop fd becomes readable,
    and the buffers still to come, one packet id and its bytes per message.  With
    none to come [poll] times out, if it has a timeout. *)

Definition demo_msg (m : byte * bytes) : nfq_data :=
  let d := take 2000 m.2 in MkNfqData (Some [x00; x00; x00; m.1]) (Some d) (zlen d).

Definition DemoKernel : Type := nat * list (list (byte * bytes)).

Definition demo_poll (k : DemoKernel) (t : Z) : option (Z * Z * Z * DemoKernel) :=
  match k with
  | (O, _) => Some (1, 0, POLLIN, k)
  | (S n, []) => if t <? 0 then None else Some (0, 0, 0, (n, []))
  | (S n, bs) => Some (1, POLLIN, 0, (n, bs))
  end.

Lemma demo_poll_returns k t : 0 <= t -> is_Some (demo_poll k t).
Proof.
  intros Ht. destruct k as [[|n] [|b bs]]; simpl; rewrite ?(proj2 (Z.ltb_ge t 0) Ht); by eexists.
Qed.

#[export] Instance demo_netfilter : Netfilter DemoKernel := {|
  sys c k := (0, k);
  errno k := 0;
  poll := demo_poll;
  poll_returns := demo_poll_returns;
  recv k := match k.2 with
            | [] => (0, [], k)
            | b :: bs => (64, map demo_msg b, (k.1, bs))
            end;
  nfq_set_verdict k _ _ := (0, k)
|}.

(** * Properties *)

Section properties.
  Context {K : Type} `{!Netfilter K}.

(** C33: setting a queue up never leaks.  Whichever call fails, the exception
    path has closed the netlink handle and destroyed the queue it had made; when
    the constructor returns it owns exactly one of each, bound to the number
    asked for, and the destructor gives both back. *)
Theorem queue_setup_no_leak num fd maxlen rcvbuf (k : K) :
  match NFQueue_ctor num fd maxlen rcvbuf k with
  | (Ready q, kt) => live kt.2 = (1, 1) /\ _queue_num q = num /\ failed q = false /\
                     outstanding q = 0 /\ live (NFQueue_dtor q kt).2 = (0, 0)
  | (Throws _ _, kt) => live kt.2 = (0, 0)
  end.
Proof.
  pose proof (ctor_no_leak num fd maxlen rcvbuf k) as Hl. unfold no_leak in Hl.
  destruct (NFQueue_ctor num fd maxlen rcvbuf k) as [[q|what err] kt] eqn:E; [|done].
  destruct Hl as [Hl ->]. split_and!; [done..|]. unfold NFQueue_dtor. cbn [_h _qh].
  destruct (call nfq_destroy_queue kt) as [rc1 kt1] eqn:H1. apply call_live in H1. cbn [snd].
  destruct (call nfq_close kt1) as [rc2 kt2] eqn:H2. apply call_live in H2. cbn [snd].
  by rewrite H2, H1, Hl.
Qed.

(** C31: a packet is verdicted once.  Submitting a pending packet makes one
    verdict call, NF_DROP exactly for BLOCK, counts it only if the kernel took
    it, and leaves a shell that is no longer pending, so that submitting it again
    does nothing.  When the packet was moved away before, the packet it was moved
    to is answered in its place, and submitting the husk left behind, before or
    after that, does nothing: of the two objects exactly one can be verdicted. *)
Theorem submit_verdicts_once (l : Link K) p v v' : _pending p = true ->
  exists l' p', submit l p v = (l', p') /\
    sent l' = sent l ++ [(_id p, if base.decide (v = BLOCK) then NF_DROP else NF_ACCEPT)] /\
    _verdicted (queue l') =
      (if 0 <=? (nfq_set_verdict (kernel l) (_id p) (nf_code v)).1
       then u64 (_verdicted (queue l) + 1) else _verdicted (queue l)) /\
    _verdict p' = v /\ has_bytes p' = false /\ _pending p' = false /\
    submit l' p' v' = (l', p') /\
    let '(moved, husk) := Packet_move p in
    submit l husk v' = (l, husk) /\ submit l' husk v' = (l', husk) /\ submit l moved v = (l', p').
Proof.
  intros Hp. destruct (submit_pending l p v Hp) as (q & rc & k & Hk & Hs & _ & _ & Hv & _).
  eexists _, _. split; [exact Hs|]. rewrite Hk. destruct (Packet_move p) as [moved husk] eqn:Hm.
  unfold Packet_move in Hm. injection Hm as <- <-.
  split_and!; try done. rewrite <- Hs. by destruct p.
Qed.

End properties.

Section handle_properties.
  Context {W K : Type} `{!Netfilter K} `{!HasLink W K}.
  Variable _cb : W -> Packet -> outcome (W * Packet).

(** C32: no kernel slot is stranded.  If the callback leaves the packet pending
    (it dropped it, or threw), [handle] accepts the packet itself and counts it
    as undecided; if the callback verdicted or took the packet, [handle] adds
    nothing. *)
Theorem handle_fail_safe w m w1 p : _cb (count_received w (_id (packet_of m))) (packet_of m) = Ok (w1, p) ->
  exists w', handle _cb w m = Ok w' /\
    if _pending p
    then sent (link w') = sent (link w1) ++ [(_id p, NF_ACCEPT)] /\
         _undecided (queue (link w')) = u64 (_undecided (queue (link w1)) + 1)
    else w' = w1.
Proof.
  intros Hcb. unfold handle. rewrite Hcb. cbn [mbind outcome_bind].
  unfold pending_verdict. destruct (_pending p) eqn:Hp; [|by eexists].
  eexists; split; [done|].
  destruct (submit_pending (link (count_undecided w1)) p ALLOW Hp)
    as (q & rc & k & _ & -> & _ & Hu & _).
  rewrite link_set_link. simpl. rewrite Hu. unfold count_undecided. by rewrite link_set_link.
Qed.

(** C38: a turn ends in an error exactly when it recorded one, and for a reason.
    On a healthy queue, and provided the callback leaves the error alone,
    [run_once] reports Error if and only if [failed()] holds afterwards, and if
    and only if [poll] failed for another reason than a signal, the socket is
    broken, or [recv] failed for another reason than an overrun, a signal or
    nothing to read; the text and the number recorded are those of that call. *)
Theorem run_once_error_recorded timeout w ev w' :
  (forall w m w', handle _cb w m = Ok w' -> same_error (queue (link w)) (queue (link w'))) ->
  failed (queue (link w)) = false -> run_once _cb timeout w = Ok (ev, w') ->
  (ev = Error <-> failed (queue (link w')) = true) /\
  (ev = Error <-> exists what err, turn_fails timeout w what err) /\
  (forall what err, turn_fails timeout w what err ->
     _err_what (queue (link w')) = Some what /\
     _err_errno (queue (link w')) = if err =? 0 then EIO else err).
Proof.
  intros Hcb Hok Hrun. apply (run_once_outcome _cb Hcb) in Hrun.
  assert (forall what err what' err', turn_fails timeout w what err -> turn_fails timeout w what' err' ->
    what' = what /\ err' = err) as Hdet by (intros; by eapply turn_fails_once).
  destruct Hrun as [(Hev & Hsame & Hno)|(-> & what & err & Hf & Hw & He)].
  - assert (failed (queue (link w')) = false) as Hok' by (unfold failed in *; by rewrite (proj1 Hsame)).
    rewrite Hok'. split; [by split|]. split; [split; [done|intros (what & err & Hf); by destruct (Hno what err)]|].
    intros what err Hf. by destruct (Hno what err).
  - split; [split; [intros _|done]|split; [split; [intros _; by exists what, err|done]|]].
    + unfold failed. rewrite He. by destruct (Z.eqb_spec err 0) as [->|Hn]; [|rewrite (proj2 (Z.eqb_neq _ _) Hn)].
    + intros what' err' Hf'. by destruct (Hdet _ _ _ _ Hf Hf') as [-> ->].
Qed.

End handle_properties.

(** *** Witnesses *)

#[export] Instance demo_link K : HasLink (Link K) K := {|
  link l := l;
  set_link _ l := l;
  link_set_link _ _ := eq_refl
|}.

Definition demo_queue (k : DemoKernel) : Link DemoKernel :=
  MkLink (MkNFQueue true true 0 3 0 0 0 0 None) k [] [].

(** A callback that forgets the packet. *)
Definition forgetful {K} (l : Link K) (p : Packet) : outcome (Link K * Packet) := Ok (l, p).

Lemma submit_verdicts_once_witness :
  exists l p, submit (MkLink (MkNFQueue true true 0 3 1 0 0 0 None) ((0%nat, []) : DemoKernel) [7] [])
    (Packet_view (Some [x01]) 1 7) BLOCK = (l, p) /\ sent l = [(7, NF_DROP)].
Proof.
  destruct (submit_verdicts_once
    (MkLink (MkNFQueue true true 0 3 1 0 0 0 None) ((0%nat, []) : DemoKernel) [7] [])
    (Packet_view (Some [x01]) 1 7) BLOCK ALLOW eq_refl) as (l & p & H1 & H2 & _).
  exists l, p. exact (conj H1 H2).
Defined.

Lemma handle_fail_safe_witness :
  exists l, handle forgetful (demo_queue (0%nat, [])) (demo_msg (x09, [x45])) = Ok l /\
    sent l = [(9, NF_ACCEPT)] /\ _undecided (queue l) = 1.
Proof.
  destruct (handle_fail_safe forgetful (demo_queue (0%nat, [])) (demo_msg (x09, [x45])) _ _ eq_refl)
    as (l & H1 & H2 & H3).
  exists l. exact (conj H1 (conj H2 H3)).
Defined.

(** A kernel whose calls all fail, with the [errno] that is its state. *)
#[local] Instance failing_netfilter : Netfilter Z := {|
  sys c k := (-1, k);
  errno k := k;
  poll k t := Some (-1, 0, 0, k);
  poll_returns k t _ := ex_intro _ _ eq_refl;
  recv k := (-1, [], k);
  nfq_set_verdict k _ _ := (-1, k)
|}.

Lemma forgetful_keeps (l : Link Z) m l' : handle forgetful l m = Ok l' -> same_error (queue l) (queue l').
Proof.
  unfold handle, forgetful. cbn [mbind outcome_bind]. unfold packet_of.
  destruct (nfq_payload m); [destruct (0 <? nfq_len m)|]; cbn; intros [= <-]; by split.
Qed.

(** A signal is no error, anything else is. *)
Lemma run_once_error_recorded_witness :
  (exists l, run_once forgetful 100 (MkLink (MkNFQueue true true 0 3 0 0 0 0 None) 5 [] []) = Ok (Error, l) /\
     failed (queue l) = true) /\
  (exists l, run_once forgetful 100 (MkLink (MkNFQueue true true 0 3 0 0 0 0 None) EINTR [] []) = Ok (Idle, l) /\
     failed (queue l) = false).
Proof.
  split.
  - eexists. split; [reflexivity|].
    refine (proj1 (proj1 (run_once_error_recorded forgetful 100 (MkLink (MkNFQueue true true 0 3 0 0 0 0 None) 5 [] [])
      Error _ forgetful_keeps _ _)) _); reflexivity.
  - eexists. split; [reflexivity|].
    apply not_true_iff_false. intros Hf.
    assert (Idle = Error) as H; [|discriminate H].
    refine (proj2 (proj1 (run_once_error_recorded forgetful 100 (MkLink (MkNFQueue true true 0 3 0 0 0 0 None) EINTR [] [])
      Idle _ forgetful_keeps _ _)) Hf); reflexivity.
Defined.
