(* ===== verification/Worker.v ===== *)
(** * The worker ([include/worker.hpp], [src/worker.cpp])

    One queue, one extractor, one thread: the policy, the packet callback, the
    drain of the decided buffer and the loop with its shutdown.  The thread
    itself and CPU pinning are in [Program].  The steady clock is a parameter,
    [clock n] being its [n]-th reading. *)
From S2P Require Import ClientHello ClientHelloSpec Packet PacketSpec Extractor ExtractorInv ExtractorSpec ExtractorDecision Streams ExtractorTraffic ExtractorBlocked BlockList NFQueue.

(** What a verbose policy prints: the verdict and the name. *)
Definition Log : Type := list (Verdict * bytes).

Section policy.
  Context (bl : BlockList) (verbose : bool).

(** The condition of the policy.  [isHostnameBlocked] never faults on a list that
    the constructor has read ([BlockList.blocklist_decides]), so the last case does
    not arise. *)
Definition blocked_by (hostname : option bytes) : bool :=
  match hostname with
  | Some h => match isHostnameBlocked bl h with Ok b => b | Fault _ => false end
  | None => false
  end.

Definition worker_policy : Policy Log := λ hostname out,
  let v := if blocked_by hostname then BLOCK else ALLOW in
  (v, match hostname with
      | Some h => if verbose then out ++ [(v, h)] else out
      | None => out
      end).

End policy.

(** A flow without a name passes. *)
Lemma policy_nameless bl verbose : @nameless_pass Log (worker_policy bl verbose).
Proof. done. Qed.

(** What the policy of a worker blocks, from the lines of the list file. *)
Lemma blocked_by_lines lines blist hostname : Forall newline_free lines ->
  BlockList_ctor (Some (file_of lines)) = Some blist ->
  blocked_by blist hostname = true <-> exists name l, hostname = Some name /\ l ∈ lines /\
    entry_matches (parse_line l) name.
Proof.
  intros Hnl Hlist. unfold BlockList_ctor in Hlist. simpl in Hlist. rewrite getlines_file_of in Hlist by done.
  injection Hlist as <-. unfold blocked_by. destruct hostname as [name|].
  - destruct (isHostnameBlocked_spec (fold_left add_line lines (MkBlockList ∅ ∅)) name) as (b & -> & Hbl).
    rewrite blocks_fold in Hbl. unfold blocks in Hbl. rewrite Hbl. split.
    + intros [[?|(s & ? & _)]|(l & ? & ?)]; [set_solver..|]. by exists name, l.
    + intros (name' & l & [= <-] & Hin & Hm). right. by exists l.
  - split; [done|]. by intros (? & ? & ? & _).
Qed.

Section worker.
  Context {K R : Type} `{!Netfilter K} `{!Pcpp R} `{!MapOrder}.
  Context (blocklist : BlockList) (verbose passthrough : bool) (clock : nat -> Z).

#[local] Instance policy : Policy Log := worker_policy blocklist verbose.

Record Worker := MkWorker {
  _queue : Link K;
  _tls : Extractor Log R;
  _reads : nat
}.

#[local] Instance Worker_link : HasLink Worker K := {|
  link := _queue;
  set_link w l := MkWorker l (_tls w) (_reads w);
  link_set_link w l := eq_refl
|}.

Definition set_tls (w : Worker) e : Worker := MkWorker (_queue w) e (_reads w).

(** A reading of the clock. *)
Definition now (w : Worker) : Z := clock (_reads w).
Definition read_clock (w : Worker) : Worker := MkWorker (_queue w) (_tls w) (S (_reads w)).

(** The constructor, around a queue that is set up. *)
Definition Worker_ctor (q : NFQueue) (k : K) (r : R) (max_flows max_blocked : nat) : Worker :=
  MkWorker (MkLink q k [] []) (Extractor_ctor [] r max_flows max_blocked) 0.

(** The callback given to the queue.  [feed] takes the packet by value, so it is
    move-constructed and the husk is what stays behind. *)
Definition on_packet (w : Worker) (pkt : Packet) : outcome (Worker * Packet) :=
  if passthrough then
    let '(l, pkt) := submit (link w) pkt ALLOW in Ok (set_link w l, pkt)
  else
    let '(arg, husk) := Packet_move pkt in
    e ← feed (_tls w) (now w) arg;
    Ok (read_clock (set_tls w e), husk).

Definition drain_decided (w : Worker) : Worker :=
  let l := fold_left (λ l d, (submit l (pkt d) (verdict d)).1) (_decided (_tls w)) (_queue w) in
  MkWorker l (clear_decided (_tls w)) (_reads w).

(** After the loop: resolve what is still tracked and send the verdicts. *)
Definition finish (w : Worker) : outcome Worker :=
  e ← flush (_tls w);
  Ok (drain_decided (set_tls w e)).

(** The rest of a turn that goes on. *)
Definition after_turn (w : Worker) : outcome Worker :=
  e ← tick (_tls w) (now w);
  Ok (drain_decided (read_clock (set_tls w e))).

(** How long a turn waits in [poll], in milliseconds. *)
Definition kIdlePoll : Z := 100.

(** [loop], cut off after [fuel] turns. *)
Fixpoint loop (fuel : nat) (w : Worker) : outcome Worker :=
  match fuel with
  | O => Fault OutOfFuel
  | S fuel =>
      r ← run_once on_packet kIdlePoll w;
      match r.1 with
      | Stop | Error => finish r.2
      | Packets | Idle => w ← after_turn r.2; loop fuel w
      end
  end.

(** One pass through the body of [loop]: whether it left the loop, and the
    worker then, shut down if it did. *)
Definition turn (w : Worker) : outcome (bool * Worker) :=
  r ← run_once on_packet kIdlePoll w;
  match r.1 with
  | Stop | Error => w ← finish r.2; Ok (true, w)
  | Packets | Idle => w ← after_turn r.2; Ok (false, w)
  end.

Lemma loop_turns fuel w : loop (S fuel) w =
  (r ← turn w; if (r : bool * Worker).1 then Ok r.2 else loop fuel r.2).
Proof.
  cbn [loop]. unfold turn. destruct (run_once on_packet kIdlePoll w) as [[ev w1]|f]; [|done].
  cbn [mbind outcome_bind fst snd].
  destruct ev; [destruct (after_turn w1)|destruct (after_turn w1)|destruct (finish w1)|destruct (finish w1)]; done.
Qed.

(** ** The invariant: each packet received is answered or in the extractor *)

Definition accepts : Prop := forall k id code, 0 <= (nfq_set_verdict (K := K) k id code).1.

Record Account (w : Worker) : Prop := {
  ac_good : Good (_tls w);
  ac_ids : map fst (sent (_queue w)) ++ map _id (stored (_tls w)) ≡ₚ seen (_queue w);
  ac_pending : Forall (λ p, _pending p = true) (stored (_tls w));
  ac_received : _received (queue (_queue w)) = u64 (zlen (seen (_queue w)));
  ac_undecided : _undecided (queue (_queue w)) = 0;
  ac_verdicted : accepts -> _verdicted (queue (_queue w)) = u64 (zlen (sent (_queue w)))
}.

Lemma u64_succ n : u64 (u64 n + 1) = u64 (n + 1).
Proof. unfold u64. apply Zplus_mod_idemp_l. Qed.

(** Pending flags do not depend on the bytes a packet carries. *)
Lemma released_pending l1 l2 : map release_bytes l1 ≡ₚ map release_bytes l2 ->
  Forall (λ p, _pending p = true) l2 -> Forall (λ p, _pending p = true) l1.
Proof.
  intros Hp H2. assert (Forall (λ p, _pending p = true) (map release_bytes l2)) as H2'
    by (by rewrite List.Forall_map).
  rewrite <- Hp in H2'. by rewrite List.Forall_map in H2'.
Qed.

Lemma drain_link ds : forall l : Link K, Forall (λ d, _pending (pkt d) = true) ds ->
  exists q k, fold_left (λ l d, (submit l (pkt d) (verdict d)).1) ds l =
      MkLink q k (seen l) (sent l ++ map (λ d, (_id (pkt d), nf_code (verdict d))) ds) /\
    _received q = _received (queue l) /\ _undecided q = _undecided (queue l) /\
    _err_errno q = _err_errno (queue l) /\
    (accepts -> _verdicted (queue l) = u64 (zlen (sent l)) ->
       _verdicted q = u64 (zlen (sent l) + zlen ds)).
Proof.
  induction ds as [|d ds IH]; intros l Hp.
  { exists (queue l), (kernel l). simpl. rewrite app_nil_r, zlen_nil, Z.add_0_r. by destruct l. }
  destruct (Forall_cons_1 _ _ _ Hp) as [Hp1 Hp2].
  destruct (submit_pending l (pkt d) (verdict d) Hp1) as (q & rc & k & Hk & Hs & Hr & Hu & Hv & He & _).
  cbn [fold_left]. rewrite Hs. cbn [fst].
  destruct (IH (MkLink q k (seen l) (sent l ++ [(_id (pkt d), nf_code (verdict d))])) Hp2)
    as (q' & k' & -> & Hr' & Hu' & He' & Hv').
  exists q', k'. cbn [queue seen sent] in *. split_and!; [|congruence..|].
  - cbn [map]. by rewrite <- app_assoc.
  - intros Ha Hvl. rewrite zlen_cons, Hv'; [|done|].
    + rewrite zlen_app, zlen_cons, zlen_nil. f_equal; lia.
    + specialize (Ha (kernel l) (_id (pkt d)) (nf_code (verdict d))). rewrite Hk in Ha. simpl in Ha.
      rewrite Hv, (proj2 (Z.leb_le 0 rc) Ha), Hvl, u64_succ, zlen_app, zlen_cons, zlen_nil.
      f_equal; lia.
Qed.

Lemma drain_account w : Account w -> Account (drain_decided w) /\
  _decided (_tls (drain_decided w)) = [] /\ _conns (_tls (drain_decided w)) = _conns (_tls w) /\
  sent (_queue (drain_decided w)) = sent (_queue w) ++
    map (λ d, (_id (pkt d), nf_code (verdict d))) (_decided (_tls w)).
Proof.
  intros [Hg Hi Hp Hr Hu Hv]. unfold drain_decided.
  assert (Forall (λ d, _pending (pkt d) = true) (_decided (_tls w))) as Hpd.
  { unfold stored in Hp. apply Forall_app in Hp as [Hp _]. by rewrite List.Forall_map in Hp. }
  destruct (drain_link (_decided (_tls w)) (_queue w) Hpd) as (q & k & -> & Hr' & Hu' & _ & Hv').
  split_and!; try done. split; simpl.
  - destruct Hg as [I Q S F]. split; try done. by apply clear_decided_inv.
  - unfold stored in *. simpl. rewrite <- Hi, !map_app, !map_map, <- app_assoc. done.
  - unfold stored in *. simpl. by apply Forall_app in Hp as [_ Hp].
  - congruence.
  - congruence.
  - intros Ha. rewrite Hv' by auto. unfold zlen at 3. rewrite length_app, length_map.
    f_equal; unfold zlen; lia.
Qed.

(** Replace the extractor by one that accounts for [new] more packets. *)
Lemma tls_account w e' new n : Account w -> Good e' ->
  map release_bytes (stored e') ≡ₚ map release_bytes (new ++ stored (_tls w)) ->
  Forall (λ p, _pending p = true) new ->
  forall q, _received q = u64 (zlen (seen (_queue w) ++ map _id new)) ->
  _undecided q = 0 -> _verdicted q = _verdicted (queue (_queue w)) ->
  Account (MkWorker (MkLink q (kernel (_queue w)) (seen (_queue w) ++ map _id new)
                       (sent (_queue w))) e' n).
Proof.
  intros [Hg Hi Hp Hr Hu Hv] Hg' Hst Hnew q Hq1 Hq2 Hq3. split; simpl; try done.
  - apply released_ids in Hst. rewrite Hst, map_app, <- Hi.
    rewrite (Permutation_app_comm (map _id new)), app_assoc. done.
  - apply (released_pending _ _ Hst). by apply Forall_app.
  - intros Ha. rewrite Hq3. auto.
Qed.

Lemma Packet_move_fst o : (Packet_move o).1 = o.
Proof. by destruct o. Qed.

Lemma Packet_move_husk o : _pending (Packet_move o).2 = false.
Proof. done. Qed.

Lemma handle_account w m : Account w -> msg_ok m ->
  exists w', handle on_packet w m = Ok w' /\ Account w' /\
    _err_errno (queue (_queue w')) = _err_errno (queue (_queue w)).
Proof.
  intros Hacc Hm. destruct (packet_of_ok m Hm) as (Hr & Hp & _).
  unfold handle. set (p := packet_of m) in *. unfold on_packet. destruct passthrough.
  - unfold count_received. simpl.
    destruct (submit_pending (MkLink (set_counters (queue (_queue w))
        (u64 (_received (queue (_queue w)) + 1)) (_verdicted (queue (_queue w)))
        (_undecided (queue (_queue w)))) (kernel (_queue w)) (seen (_queue w) ++ [_id p])
        (sent (_queue w))) p ALLOW Hp) as (q & rc & k & Hk & -> & Hqr & Hqu & Hqv & Hqe & _).
    cbn [mbind outcome_bind]. simpl. eexists; split; [done|]. split; [|done].
    destruct Hacc as [Hg Hi Hpd Hrc Hu Hv]. split; simpl in *; try done.
    + rewrite map_app, <- app_assoc. simpl. rewrite <- Hi. solve_Permutation.
    + rewrite Hqr, Hrc, u64_succ, zlen_app. done.
    + congruence.
    + intros Ha. pose proof (Ha (kernel (_queue w)) (_id p) (nf_code ALLOW)) as Hrc0.
      rewrite Hk in Hrc0. rewrite Hqv, (proj2 (Z.leb_le 0 rc) Hrc0), Hv by done. by rewrite u64_succ, zlen_app.
  - destruct (run_op_good (_tls w) (Feed (now w) p)) as (e' & out & He & Hg' & Hperm);
      [by destruct Hacc|done|].
    cbn [run_op] in He. destruct (feed (_tls w) (now w) p) as [e1|] eqn:Hf; [|done].
    injection He as -> <-.
    pose proof (Packet_move_fst p) as Hmv. pose proof (Packet_move_husk p) as Hhusk. destruct (Packet_move p) as [arg husk] eqn:Ehusk.
    simpl in Hmv, Hhusk. subst arg.
    unfold count_received. simpl. unfold now in *. simpl. rewrite Hf. cbn [mbind outcome_bind].
    unfold pending_verdict. rewrite Hhusk.
    eexists; split; [done|]. split; [|done]. destruct Hacc as [Hg Hi Hpd Hrc Hu Hv] eqn:Eacc.
    unfold read_clock, set_tls. simpl.
    apply (tls_account w e' [p]); try done; simpl; [by repeat constructor|].
    by rewrite Hrc, u64_succ, zlen_app.
Qed.

Lemma kernel_account w k : Account w ->
  Account (set_link w (set_kernel (link w) k)).
Proof. by intros []. Qed.

Lemma fail_account w what err : Account w -> Account (fail w what err).
Proof. by intros []. Qed.

(** The extractor replaced by one that was given no packet. *)
Lemma set_tls_account w e' : Account w -> Good e' ->
  map release_bytes (stored e') ≡ₚ map release_bytes (stored (_tls w)) ->
  Account (set_tls w e') /\ Account (read_clock (set_tls w e')).
Proof.
  intros Hacc Hg' Hperm.
  assert (forall n, Account (MkWorker (_queue w) e' n)) as H1; [|split; apply H1].
  intros n. pose proof (tls_account w e' [] n Hacc Hg' Hperm) as H1. simpl in H1.
  rewrite app_nil_r in H1. destruct Hacc. destruct (_queue w) as [q k se sn] eqn:Eq.
  simpl in *. apply H1; done.
Qed.

Lemma ticked_account w : Account w ->
  exists e', tick (_tls w) (now w) = Ok e' /\ Account (read_clock (set_tls w e')).
Proof.
  intros Hacc. destruct (run_op_good (_tls w) (Tick (now w))) as (e' & out & He & Hg' & Hperm);
    [by destruct Hacc|done|].
  cbn [run_op] in He. destruct (tick (_tls w) (now w)) as [e1|]; [|done]. injection He as -> <-.
  exists e'. split; [done|]. by apply set_tls_account.
Qed.

Lemma flushed_account w : Account w ->
  exists e', flush (_tls w) = Ok e' /\ Account (set_tls w e') /\ _conns e' = ∅.
Proof.
  intros Hacc. destruct (run_op_good (_tls w) Flush) as (e' & out & He & Hg' & Hperm);
    [by destruct Hacc|done|].
  destruct (flush_spec (_tls w)) as (e1 & Hf & _ & _ & C1 & _); [apply Hacc|apply Hacc|].
  cbn [run_op] in He. rewrite Hf in He. injection He as -> <-.
  exists e'. split_and!; [done| |done]. by apply set_tls_account.
Qed.

Lemma after_turn_account w : Account w -> exists w', after_turn w = Ok w' /\ Account w' /\
  _decided (_tls w') = [].
Proof.
  intros Hacc. unfold after_turn. destruct (ticked_account w Hacc) as (e' & -> & H1).
  cbn [mbind outcome_bind]. eexists; split; [done|]. by destruct (drain_account _ H1) as (H2 & H3 & _).
Qed.

Lemma finish_account w : Account w -> exists w', finish w = Ok w' /\ Account w' /\
  stored (_tls w') = [] /\ _conns (_tls w') = ∅.
Proof.
  intros Hacc. unfold finish. destruct (flushed_account w Hacc) as (e' & -> & H1 & C1).
  cbn [mbind outcome_bind]. eexists; split; [done|]. destruct (drain_account _ H1) as (H2 & H3 & H4 & _).
  change (_conns (_tls (set_tls w e'))) with (_conns e') in H4. rewrite C1 in H4.
  split_and!; [done| |done]. unfold stored. by rewrite H3, H4, held_in_empty.
Qed.

Section running.
  Hypothesis recv_ok : forall k rv msgs k', recv (K := K) k = (rv, msgs, k') -> Forall msg_ok msgs.

Lemma run_once_account w : Account w ->
  exists ev w', run_once on_packet kIdlePoll w = Ok (ev, w') /\ Account w'.
Proof using All.
  intros Hw. apply (run_once_keeps on_packet Account); [|..|done|done].
  - intros w1 m H1 Hm. destruct (handle_account w1 m H1 Hm) as (w2 & ? & ? & _). eauto.
  - intros. by apply kernel_account.
  - intros. by apply fail_account.
  - exact recv_ok.
Qed.

(** [loop] either runs out of turns or ends with everything answered. *)
Lemma loop_account fuel w : Account w ->
  loop fuel w = Fault OutOfFuel \/
  exists w', loop fuel w = Ok w' /\ Account w' /\ stored (_tls w') = [] /\ _conns (_tls w') = ∅.
Proof using All.
  revert w. induction fuel as [|fuel IH]; intros w Hw; [by left|]. cbn [loop].
  destruct (run_once_account w Hw) as (ev & w1 & -> & H1). cbn [mbind outcome_bind fst snd].
  destruct ev.
  3-4: right; by apply finish_account.
  all: destruct (after_turn_account w1 H1) as (w2 & -> & H2 & _); cbn [mbind outcome_bind]; auto.
Qed.

End running.

Lemma ctor_account q k r mf mb : _received q = 0 -> _verdicted q = 0 -> _undecided q = 0 ->
  Account (Worker_ctor q k r mf mb).
Proof.
  intros Hr Hv Hu. split; simpl; try done. apply Good_ctor.
Qed.

(** ** What the calls of a turn do to the link

    A relation between links that verdict calls and counter updates respect is
    respected by everything a turn does between its system calls. *)

Section moving.
  Variable T : Link K -> Link K -> Prop.
  Context `{!PreOrder T}.
  Hypothesis T_submit : forall l p v, T l (submit l p v).1.
  Hypothesis T_counters : forall l r v u ids,
    T l (MkLink (set_counters (queue l) r v u) (kernel l) ids (sent l)).

Lemma handle_moves w m w' : handle on_packet w m = Ok w' -> T (link w) (link w').
Proof using All.
  unfold handle. set (w1 := count_received w _). intros Hh.
  assert (T (link w) (link w1)) as H1 by apply T_counters. etrans; [exact H1|]. clear H1.
  destruct (on_packet w1 (packet_of m)) as [[w2 p]|] eqn:Ho; [|done].
  assert (T (link w1) (link w2)) as H2.
  { unfold on_packet in Ho. destruct passthrough.
    - pose proof (T_submit (link w1) (packet_of m) ALLOW) as H2.
      destruct (submit (link w1) (packet_of m) ALLOW) as [l p']. by injection Ho as <- <-.
    - destruct (Packet_move _) as [a h]. destruct (feed _ _ _); [|done]. by injection Ho as <- <-. }
  etrans; [exact H2|]. clear H2. cbn [mbind outcome_bind] in Hh.
  destruct (pending_verdict p); injection Hh as <-; [|done].
  transitivity (link (count_undecided w2)); [apply T_counters|]. apply T_submit.
Qed.

Lemma handle_all_moves ms w w' : handle_all on_packet w ms = Ok w' -> T (link w) (link w').
Proof using All.
  revert w. induction ms as [|m ms IH]; intros w Hh; simpl in Hh; [by injection Hh as <-|].
  destruct (handle on_packet w m) as [w1|] eqn:H1; [|done]. cbn [mbind outcome_bind] in Hh.
  etrans; [by eapply handle_moves|]. by apply IH.
Qed.

Lemma drain_moves w : T (link w) (link (drain_decided w)).
Proof using All.
  unfold drain_decided. simpl. generalize (_queue w).
  induction (_decided (_tls w)) as [|d ds IH]; intros l; [done|]. simpl.
  etrans; [apply T_submit|]. apply IH.
Qed.

Lemma after_turn_moves w w' : after_turn w = Ok w' -> T (link w) (link w').
Proof using All.
  unfold after_turn. destruct (tick _ _) as [e|]; [|done]. cbn [mbind outcome_bind].
  intros [= <-]. apply (drain_moves (read_clock (set_tls w e))).
Qed.

Lemma finish_moves w w' : finish w = Ok w' -> T (link w) (link w').
Proof using All.
  unfold finish. destruct (flush _) as [e|]; [|done]. cbn [mbind outcome_bind].
  intros [= <-]. apply (drain_moves (set_tls w e)).
Qed.

End moving.

(** The stop fd and the recorded error: what a turn keeps, an error that
    [run_once] records apart. *)
Definition same_conf (l l' : Link K) : Prop :=
  _stop_fd (queue l') = _stop_fd (queue l) /\ _err_errno (queue l') = _err_errno (queue l).

#[local] Instance same_conf_preorder : PreOrder same_conf.
Proof. split; [by split|]. intros l1 l2 l3 [] []. split; congruence. Qed.

Lemma submit_conf l p v : same_conf l (submit l p v).1.
Proof.
  destruct (_pending p) eqn:Hp; [|by rewrite submit_done].
  destruct (submit_pending l p v Hp) as (q & rc & k & _ & -> & _ & _ & _ & He & Hs). by split.
Qed.

Lemma counters_conf l r v u ids :
  same_conf l (MkLink (set_counters (queue l) r v u) (kernel l) ids (sent l)).
Proof. done. Qed.

Lemma run_once_conf w ev w' : run_once on_packet kIdlePoll w = Ok (ev, w') ->
  _stop_fd (queue (link w')) = _stop_fd (queue (link w)) /\
  (ev <> Error -> _err_errno (queue (link w')) = _err_errno (queue (link w))) /\
  (ev = Error -> failed (queue (link w')) = true).
Proof.
  assert (forall w0 what err, _stop_fd (queue (link w0)) = _stop_fd (queue (link w)) ->
    Error = ev -> fail w0 what err = w' ->
    _stop_fd (queue (link w')) = _stop_fd (queue (link w)) /\
    (ev <> Error -> _err_errno (queue (link w')) = _err_errno (queue (link w))) /\
    (ev = Error -> failed (queue (link w')) = true)) as Hfail.
  { intros w0 what err H0 <- <-. split_and!; [done|done|]. intros _. unfold failed. simpl.
    destruct (Z.eqb_spec err 0) as [->|Herr]; [done|]. simpl. by rewrite (proj2 (Z.eqb_neq _ _) Herr). }
  unfold run_once. destruct (poll _ _) as [[[[n r0] r1] k]|]; [|done]. cbn [mbind outcome_bind]. set (w1 := set_link w _).
  destruct (n <? 0); [destruct (_ =? _); intros HE; injection HE as H1 H2; [by subst|exact (Hfail w1 _ _ eq_refl H1 H2)]|].
  destruct (n =? 0); [by intros [= <- <-]|].
  destruct (_ && _); [by intros [= <- <-]|].
  destruct (Z.land r0 POLLIN =? 0); [destruct (negb _); intros HE; injection HE as H1 H2; [exact (Hfail w1 _ _ eq_refl H1 H2)|by subst]|].
  destruct (recv (kernel (link w1))) as [[rv msgs] k1]. set (w2 := set_link w1 _).
  destruct (rv <? 0); [destruct (_ || _); intros HE; injection HE as H1 H2; [by subst|exact (Hfail w2 _ _ eq_refl H1 H2)]|].
  destruct (rv =? 0); [by intros [= <- <-]|].
  destruct (handle_all on_packet w2 msgs) as [w3|] eqn:Hh; [|done]. intros [= <- <-].
  apply (handle_all_moves same_conf submit_conf counters_conf) in Hh as [H1 H2].
  by split_and!.
Qed.

(** A worker with nothing left to answer. *)
Definition answered (w : Worker) : Prop := Account w /\ stored (_tls w) = [].

Lemma answered_ids w : answered w -> map fst (sent (_queue w)) ≡ₚ seen (_queue w).
Proof. intros [Hw Hs]. rewrite <- (ac_ids w Hw), Hs. by rewrite app_nil_r. Qed.

Lemma answered_balanced w : accepts -> answered w ->
  verdicts_issued (queue (_queue w)) = packets_received (queue (_queue w)) /\
  packets_undecided (queue (_queue w)) = 0 /\ outstanding (queue (_queue w)) = 0.
Proof.
  intros Ha Hw. pose proof (answered_ids w Hw) as Hi. destruct Hw as [[Hg _ Hp Hr Hu Hv] _].
  apply Permutation_length in Hi. rewrite length_map in Hi.
  unfold outstanding, verdicts_issued, packets_received, packets_undecided.
  rewrite Hv, Hr by done. unfold zlen. rewrite Hi. split_and!; [done|done|]. by rewrite Z.sub_diag.
Qed.

(** A turn never fails; it leaves the loop with everything answered, and only
    when it saw the stop fd or recorded an error. *)
Lemma turn_account w :
  (forall k rv msgs k', recv (K := K) k = (rv, msgs, k') -> Forall msg_ok msgs) -> Account w ->
  exists fin w', turn w = Ok (fin, w') /\ Account w' /\
    _stop_fd (queue (link w')) = _stop_fd (queue (link w)) /\
    if fin then answered w' /\
      (failed (queue (link w')) = true \/
       forall n r0 r1 k, poll (kernel (link w)) kIdlePoll = Some (n, r0, r1, k) -> 0 < n /\ r1 <> 0)
    else _err_errno (queue (link w')) = _err_errno (queue (link w)) /\
      (forall n r0 r1 k, poll (kernel (link w)) kIdlePoll = Some (n, r0, r1, k) -> 0 < n ->
         0 <= _stop_fd (queue (link w)) -> r1 = 0).
Proof.
  intros Hrecv Hw. unfold turn.
  destruct (run_once_account Hrecv w Hw) as (ev & w1 & Hrun & H1). rewrite Hrun.
  cbn [mbind outcome_bind fst snd]. destruct (run_once_conf w ev w1 Hrun) as (Hfd & Hsame & Hbad).
  assert (forall n r0 r1 k, poll (kernel (link w)) kIdlePoll = Some (n, r0, r1, k) ->
    (ev = Stop -> 0 < n /\ r1 <> 0) /\
    (ev = Packets \/ ev = Idle -> 0 < n -> 0 <= _stop_fd (queue (link w)) -> r1 = 0)) as Hpoll.
  { intros n r0 r1 k Hp. unfold run_once in Hrun. change (i32 kIdlePoll) with kIdlePoll in Hrun.
    rewrite Hp in Hrun. cbn [mbind outcome_bind] in Hrun.
    destruct (Z.ltb_spec n 0); [split; [|lia]; intros ->; by destruct (_ =? _)|].
    destruct (Z.eqb_spec n 0); [split; [by intros ->|lia]|].
    destruct (Z.eqb_spec r1 0) as [->|Hr1].
    - split; [|done]. intros ->. rewrite andb_false_r in Hrun.
      destruct (Z.land r0 POLLIN =? 0); [by destruct (negb _)|].
      destruct (recv _) as [[rv msgs] k1]. destruct (rv <? 0); [by destruct (_ || _)|].
      destruct (rv =? 0); [done|]. by destruct (handle_all _ _ _).
    - split; [lia|]. intros Hev _ Hs. rewrite (proj2 (Z.leb_le 0 _)) in Hrun by done.
      injection Hrun as <- _. by destruct Hev. }
  assert (ev = Stop \/ ev = Error \/ ev = Packets \/ ev = Idle) as Hev by (destruct ev; tauto).
  destruct Hev as [Hev|[Hev|Hev]].
  1-2: destruct (finish_account w1 H1) as (w2 & Hf & H2 & Hst & _);
    pose proof (finish_moves same_conf submit_conf counters_conf w1 w2 Hf) as [Hfd2 He2];
    exists true, w2; split; [subst ev; by rewrite Hf|split_and!; [done|congruence|by split|]].
  - right. intros n r0 r1 k Hp. by apply (Hpoll n r0 r1 k Hp).
  - left. unfold failed in *. rewrite He2. auto.
  - destruct (after_turn_account w1 H1) as (w2 & Hf & H2 & _).
    pose proof (after_turn_moves same_conf submit_conf counters_conf w1 w2 Hf) as [Hfd2 He2].
    exists false, w2. split_and!; [by destruct Hev; subst ev; rewrite Hf|done|congruence| |].
    + rewrite He2. apply Hsame. by destruct Hev as [-> | ->].
    + intros n r0 r1 k Hp Hn Hs. by eapply Hpoll.
Qed.

(** ** The loop stops when it is told to *)

Section stopping.
(** An environment in which someone writes the stop fd: [patience] bounds the
    turns until [poll] reports it. *)
  Variable patience : K -> nat.
  Hypothesis stop_seen : forall k, patience k = 0%nat ->
    exists n r0 r1 k', poll k kIdlePoll = Some (n, r0, r1, k') /\ 0 < n /\ r1 <> 0.
  Hypothesis poll_less : forall k n r0 r1 k', poll k kIdlePoll = Some (n, r0, r1, k') ->
    (0 < patience k)%nat -> (patience k' < patience k)%nat.
  Hypothesis recv_less : forall k rv ms k', recv k = (rv, ms, k') -> (patience k' <= patience k)%nat.
  Hypothesis verdict_less : forall k id c rc k', nfq_set_verdict k id c = (rc, k') ->
    (patience k' <= patience k)%nat.

Definition calmer (l l' : Link K) : Prop :=
  (patience (kernel l') <= patience (kernel l))%nat /\
  _stop_fd (queue l') = _stop_fd (queue l).

#[local] Instance calmer_preorder : PreOrder calmer.
Proof.
  split; [by split|]. intros l1 l2 l3 [H1 S1] [H2 S2]. split; [lia|congruence].
Qed.

Lemma submit_calmer l p v : calmer l (submit l p v).1.
Proof using verdict_less.
  destruct (_pending p) eqn:Hp; [|by rewrite submit_done].
  destruct (submit_pending l p v Hp) as (q & rc & k & Hk & -> & _ & _ & _ & _ & Hs).
  split; [|done]. by eapply verdict_less.
Qed.

Lemma counters_calmer l r v u ids :
  calmer l (MkLink (set_counters (queue l) r v u) (kernel l) ids (sent l)).
Proof. done. Qed.

(** A turn that does not end the loop uses up patience. *)
Lemma run_once_patience w ev w' : 0 <= _stop_fd (queue (link w)) ->
  run_once on_packet kIdlePoll w = Ok (ev, w') -> ev = Packets \/ ev = Idle ->
  (patience (kernel (link w')) < patience (kernel (link w)))%nat /\
  _stop_fd (queue (link w')) = _stop_fd (queue (link w)).
Proof using All.
  intros Hfd Hrun Hev. unfold run_once in Hrun. change (i32 kIdlePoll) with kIdlePoll in Hrun.
  destruct (poll _ _) as [[[[n r0] r1] k]|] eqn:Hp; [|done]. cbn [mbind outcome_bind] in Hrun.
  destruct (patience (kernel (link w))) as [|pn] eqn:E0.
  { destruct (stop_seen _ E0) as (n' & r0' & r1' & k' & Hp' & Hn & Hr1).
    rewrite Hp in Hp'. injection Hp' as <- <- <- <-.
    rewrite (proj2 (Z.ltb_ge n 0)), (proj2 (Z.eqb_neq n 0)) in Hrun by lia.
    rewrite (proj2 (Z.leb_le 0 _)), (proj2 (Z.eqb_neq r1 0)) in Hrun by done.
    injection Hrun as <- <-. by destruct Hev. }
  pose proof (poll_less _ _ _ _ _ Hp) as Hless. rewrite E0 in Hless.
  specialize (Hless ltac:(lia)). set (w1 := set_link w _) in Hrun.
  assert (forall w2, calmer (link w1) (link w2) ->
    (patience (kernel (link w2)) < S pn)%nat /\
    _stop_fd (queue (link w2)) = _stop_fd (queue (link w))) as Hc.
  { intros w2 [H1 H2]. split; [|done]. change (kernel (link w1)) with k in H1. lia. }
  destruct (n <? 0); [destruct (_ =? _); injection Hrun as <- <-; by apply Hc|].
  destruct (n =? 0); [injection Hrun as <- <-; by apply Hc|].
  destruct (_ && _); [injection Hrun as <- <-; by apply Hc|].
  destruct (Z.land r0 POLLIN =? 0);
    [destruct (negb _); injection Hrun as <- <-; by apply Hc|].
  destruct (recv (kernel (link w1))) as [[rv msgs] k1] eqn:Hr. apply recv_less in Hr.
  set (w2 := set_link w1 _) in Hrun. assert (calmer (link w1) (link w2)) as Hc2 by done.
  destruct (rv <? 0); [destruct (_ || _); injection Hrun as <- <-; by apply Hc|].
  destruct (rv =? 0); [injection Hrun as <- <-; by apply Hc|].
  destruct (handle_all on_packet w2 msgs) as [w3|] eqn:Hh; [|done]. injection Hrun as <- <-.
  apply Hc. etrans; [exact Hc2|].
  by apply (handle_all_moves calmer submit_calmer counters_calmer msgs).
Qed.

Hypothesis recv_ok' : forall k rv msgs k', recv (K := K) k = (rv, msgs, k') -> Forall msg_ok msgs.

Lemma loop_stops n w : Account w -> 0 <= _stop_fd (queue (link w)) ->
  (patience (kernel (link w)) <= n)%nat -> exists w', loop (S n) w = Ok w'.
Proof using All.
  revert w. induction n as [|n IH]; intros w Hw Hfd Hn;
    destruct (run_once_account recv_ok' w Hw) as (ev & w1 & Hrun & H1);
    cbn [loop]; rewrite Hrun; cbn [mbind outcome_bind fst snd];
    (assert (ev = Stop \/ ev = Error \/ ev = Packets \/ ev = Idle) as [->|[->|Hev]]
       by (destruct ev; tauto); [destruct (finish_account w1 H1) as (w2 & -> & _); eauto..|]);
    destruct (run_once_patience w ev w1 Hfd Hrun Hev) as [Hless Hfd1]; [lia|].
  destruct (after_turn_account w1 H1) as (w2 & Ht & H2 & _).
  destruct (after_turn_moves calmer submit_calmer counters_calmer w1 w2 Ht) as [Hc2 Hfd2].
  destruct (IH w2 H2) as (w3 & H3); [lia|lia|].
  destruct Hev as [-> | ->]; rewrite Ht; cbn [mbind outcome_bind]; by exists w3.
Qed.

End stopping.

End worker.

(** * Properties *)

Section properties.
  Context {K R : Type} `{!Netfilter K} `{!Pcpp R} `{!MapOrder}.
  Context (bl : BlockList) (verbose passthrough : bool) (clock : nat -> Z).

(** A worker answers every packet it received.  Whatever arrives, whatever
    the reassembler reports and however long the loop runs, when it ends (told to
    stop, or on a queue error) every packet received has been given a verdict
    exactly once, none was left undecided by the callback, nothing is held, and
    on a kernel that takes its verdicts the outstanding count is zero. *)
Lemma worker_answers_every_packet q k r mf mb fuel (w' : Worker (K := K) (R := R)) :
  (forall k rv msgs k', recv (K := K) k = (rv, msgs, k') -> Forall msg_ok msgs) ->
  _received q = 0 -> _verdicted q = 0 -> _undecided q = 0 ->
  loop bl verbose passthrough clock fuel (Worker_ctor q k r mf mb) = Ok w' ->
  map fst (sent (_queue w')) ≡ₚ seen (_queue w') /\
  packets_received (queue (_queue w')) = u64 (zlen (seen (_queue w'))) /\
  packets_undecided (queue (_queue w')) = 0 /\
  stored (_tls w') = [] /\ _conns (_tls w') = ∅ /\
  (accepts (K := K) -> outstanding (queue (_queue w')) = 0).
Proof.
  intros Hrecv Hr Hv Hu Hloop.
  destruct (loop_account bl verbose passthrough clock Hrecv fuel (Worker_ctor q k r mf mb))
    as [Hf|(w1 & H1 & [Hg Hi Hp Hrc Hun Hvd] & Hst & Hc)].
  - by apply ctor_account.
  - rewrite Hloop in Hf. done.
  - rewrite Hloop in H1. injection H1 as <-. rewrite Hst, app_nil_r in Hi.
    split_and!; try done. intros Ha. unfold outstanding, packets_received, verdicts_issued.
    rewrite Hrc, Hvd by done. apply Permutation_length in Hi. rewrite length_map in Hi.
    unfold zlen. rewrite Hi. by rewrite Z.sub_diag.
Qed.

(** C21: a worker stops.  When the stop fd becomes readable, after any number of
    turns, the loop ends: no call in it faults or waits for ever.  Every [poll] is
    given a finite timeout, so no turn depends on a packet arriving. *)
Theorem worker_stops q k r mf mb (patience : K -> nat) :
  (forall k rv msgs k', recv (K := K) k = (rv, msgs, k') -> Forall msg_ok msgs) ->
  (forall k, patience k = 0%nat ->
     exists n r0 r1 k', poll k kIdlePoll = Some (n, r0, r1, k') /\ 0 < n /\ r1 <> 0) ->
  (forall k n r0 r1 k', poll k kIdlePoll = Some (n, r0, r1, k') -> (0 < patience k)%nat ->
     (patience k' < patience k)%nat) ->
  (forall k rv ms k', recv k = (rv, ms, k') -> (patience k' <= patience k)%nat) ->
  (forall k id c rc k', nfq_set_verdict k id c = (rc, k') -> (patience k' <= patience k)%nat) ->
  _received q = 0 -> _verdicted q = 0 -> _undecided q = 0 -> 0 <= _stop_fd q ->
  exists w', loop bl verbose passthrough clock (S (patience k))
    (Worker_ctor (R := R) q k r mf mb) = Ok w'.
Proof.
  intros Hrecv H1 H2 H3 H4 Hr Hv Hu Hfd.
  apply (loop_stops bl verbose passthrough clock patience H1 H2 H3 H4 Hrecv); [|done|done].
  by apply ctor_account.
Qed.

(** The drain passes the extractor's verdicts on.  Every decided packet is
    submitted in order with its verdict, NF_DROP for BLOCK and NF_ACCEPT for
    ALLOW, and the buffer is left empty. *)
Lemma drain_sends_verdicts (w : Worker (K := K) (R := R)) : Account w ->
  sent (_queue (drain_decided w)) = sent (_queue w) ++
    map (λ d, (_id (pkt d), if base.decide (verdict d = BLOCK) then NF_DROP else NF_ACCEPT))
      (_decided (_tls w)) /\
  _decided (_tls (drain_decided w)) = [] /\ Account (drain_decided w).
Proof. intros Hw. destruct (drain_account w Hw) as (? & ? & _ & ?). by split_and!. Qed.

End properties.

(** ** Witnesses *)

Definition demo_list : BlockList := MkBlockList {[ str "blocked.example" ]} ∅.

Definition demo_clock (n : nat) : Z := seconds 5 + 1000 * Z.of_nat n.

Definition demo_wire (flags : Z) (body : bytes) : bytes := packet_bytes (demo_segment 51000 flags body 0).

(** Three turns with traffic: a SYN and half a hello, the other half, and half a
    hello that is never finished; then the stop. *)
Definition demo_kernel : DemoKernel :=
  (3%nat, [[(x01, demo_wire 2 []); (x02, demo_wire 24 (take 30 demo_blocked_hello))];
           [(x03, demo_wire 24 (drop 30 demo_blocked_hello))];
           [(x04, packet_bytes (demo_segment 52000 24 (take 30 demo_blocked_hello) 0))]]).

Definition demo_worker : Worker (K := DemoKernel) (R := list Z) :=
  Worker_ctor (MkNFQueue true true 0 3 0 0 0 0 None) demo_kernel [] 4 1.

Definition demo_final : Worker (K := DemoKernel) (R := list Z) :=
  match loop demo_list false false demo_clock 4 demo_worker with Ok w => w | Fault _ => demo_worker end.

Example demo_final_sent :
  sent (_queue demo_final) = [(1, NF_ACCEPT); (2, NF_DROP); (3, NF_DROP); (4, NF_ACCEPT)].
Proof. vm_compute. reflexivity. Qed.

Lemma demo_msgs_ok (k : DemoKernel) rv msgs k' : recv k = (rv, msgs, k') -> Forall msg_ok msgs.
Proof.
  destruct k as [n [|b bs]]; simpl; intros [= <- <- <-]; [done|].
  rewrite List.Forall_map. apply Forall_true. intros [i d]. split; simpl; [|done].
  unfold zlen. rewrite length_take. lia.
Qed.

Lemma demo_final_ok :
  loop demo_list false false demo_clock 4 demo_worker = Ok demo_final.
Proof. vm_compute. reflexivity. Qed.

Lemma worker_answers_every_packet_witness :
  map fst (sent (_queue demo_final)) ≡ₚ seen (_queue demo_final) /\
  outstanding (queue (_queue demo_final)) = 0.
Proof.
  destruct (worker_answers_every_packet demo_list false false demo_clock
    (MkNFQueue true true 0 3 0 0 0 0 None) demo_kernel [] 4 1 4 demo_final demo_msgs_ok
    eq_refl eq_refl eq_refl demo_final_ok) as (H1 & _ & _ & _ & _ & H2).
  split; [exact H1|]. apply H2. intros k id code. discriminate.
Defined.

Lemma worker_stops_witness :
  exists w, loop demo_list false false demo_clock 4 demo_worker = Ok w.
Proof.
  refine (worker_stops demo_list false false demo_clock (MkNFQueue true true 0 3 0 0 0 0 None)
    demo_kernel [] 4 1 fst demo_msgs_ok _ _ _ _ eq_refl eq_refl eq_refl _).
  - intros [n b] Hn. simpl in Hn. subst n. by exists 1, 0, POLLIN, (0%nat, b).
  - intros [[|n] [|b bs]] n0 r0 r1 k'; simpl; try lia; intros [= <- <- <- <-] _; simpl; lia.
  - intros [n [|b bs]] rv ms k'; simpl; intros [= <- <- <-]; simpl; lia.
  - intros k id c rc k'. simpl. intros [= <- <-]. lia.
  - discriminate.
Defined.

Lemma demo_worker_account : Account demo_worker.
Proof. by apply ctor_account. Qed.

Lemma drain_sends_verdicts_witness : Account (drain_decided demo_worker).
Proof. exact (proj2 (proj2 (drain_sends_verdicts demo_worker demo_worker_account))). Defined.
