(* ===== verification/WorkerTrace.v ===== *)
(** * The worker as a client of the extractor

    The calls that a run of [loop] makes on the extractor, as a list of
    operations: the worker's run is the extractor's run of that list, and the
    verdicts it issues are the ones the extractor hands out.  With it what holds
    of the extractor holds of the worker. *)
From S2P Require Import ClientHello ClientHelloSpec Packet PacketSpec Extractor ExtractorInv ExtractorSpec ExtractorDecision Streams ExtractorTraffic BlockList NFQueue Worker.

(** The verdict as the worker passes it on. *)
Definition passed_on (d : Decided) : Z * Z := (_id (pkt d), nf_code (verdict d)).

(** The times that the operations read, in order. *)
Definition times_of (o : op) : list Z := match o with Feed t _ | Tick t => [t] | _ => [] end.
Definition times (ops : list op) : list Z := ops ≫= times_of.

Section trace.
  Context {K R : Type} `{!Netfilter K} `{!Pcpp R} `{!MapOrder}.
  Context (bl : BlockList) (verbose : bool) (clock : nat -> Z).
  Abbreviation WorkerKR := (Worker (K := K) (R := R)).
  Implicit Types w : WorkerKR.
  #[local] Existing Instance Worker_link.
  #[local] Hint Extern 0 (Policy Log) => exact (policy bl verbose) : typeclass_instances.
  Abbreviation inspect := (on_packet bl verbose false clock).

(** ** The operations *)

(** One [feed] per packet, at the [n]-th reading of the clock and the next ones. *)
Fixpoint feeds (n : nat) (msgs : list nfq_data) : list op :=
  match msgs with
  | [] => []
  | m :: msgs => Feed (clock n) (packet_of m) :: feeds (S n) msgs
  end.

(** The packets of the buffer that the next turn receives, if it receives one. *)
Definition batch w : list nfq_data :=
  match poll (kernel (link w)) kIdlePoll with
  | Some (_, _, _, k) => let '(_, msgs, _) := recv k in msgs
  | None => []
  end.

Fixpoint loop_ops (fuel : nat) w : list op :=
  match fuel with
  | O => []
  | S fuel =>
      match run_once inspect kIdlePoll w with
      | Ok (Packets, w1) =>
          feeds (_reads w) (batch w) ++ Tick (clock (_reads w1)) :: Drain ::
            match after_turn bl verbose clock w1 with Ok w2 => loop_ops fuel w2 | Fault _ => [] end
      | Ok (Idle, w1) =>
          Tick (clock (_reads w1)) :: Drain ::
            match after_turn bl verbose clock w1 with Ok w2 => loop_ops fuel w2 | Fault _ => [] end
      | Ok (Stop, _) | Ok (Error, _) => [Flush; Drain]
      | Fault _ => []
      end
  end.

(** ** What they do *)

(** From [w] to [w'] the extractor ran [ops], and what it handed out was sent. *)
Definition Traced w (ops : list op) w' : Prop := exists out,
  run (_tls w) ops = Ok (_tls w', out) /\ Forall op_ok ops /\
  sent (_queue w') = sent (_queue w) ++ map passed_on out /\
  seen (_queue w') = seen (_queue w) ++ map _id (fed ops) /\
  times ops = map clock (seq (_reads w) (length (times ops))) /\
  _reads w' = (_reads w + length (times ops))%nat.

Lemma traced_same w w' : _tls w' = _tls w -> sent (_queue w') = sent (_queue w) ->
  seen (_queue w') = seen (_queue w) -> _reads w' = _reads w -> Traced w [] w'.
Proof.
  intros H1 H2 H3 H4. exists []. rewrite H1, H2, H3, H4. simpl. rewrite !app_nil_r.
  split_and!; done || lia.
Qed.

Lemma traced_app w1 w2 w3 ops1 ops2 : Traced w1 ops1 w2 -> Traced w2 ops2 w3 ->
  Traced w1 (ops1 ++ ops2) w3.
Proof.
  intros (out1 & R1 & O1 & S1 & I1 & T1 & N1) (out2 & R2 & O2 & S2 & I2 & T2 & N2).
  exists (out1 ++ out2). rewrite run_app, R1. cbn [mbind outcome_bind fst snd]. rewrite R2.
  unfold times, fed in *. rewrite !bind_app, length_app, seq_app, !map_app.
  split_and!; [done|by apply Forall_app| | |rewrite T1 at 1; rewrite T2 at 1; by rewrite N1|lia].
  - by rewrite S2, S1, app_assoc.
  - by rewrite I2, I1, app_assoc.
Qed.

Lemma traced_handle w m : Account w -> msg_ok m -> exists w', handle inspect w m = Ok w' /\
  Account w' /\ Traced w [Feed (clock (_reads w)) (packet_of m)] w'.
Proof.
  intros Hacc Hm. destruct (handle_account bl verbose false clock w m Hacc Hm) as (w' & Hh & Hacc' & _).
  exists w'. split; [done|]. split; [done|]. destruct (packet_of_ok m Hm) as (Hr & Hp & _).
  unfold handle in Hh. set (p := packet_of m) in *. unfold on_packet in Hh.
  destruct (Packet_move p) as [arg husk] eqn:Hmv.
  assert (arg = p) as -> by (pose proof (Packet_move_fst p) as E; by rewrite Hmv in E).
  assert (_pending husk = false) as Hhusk by (pose proof (Packet_move_husk p) as E; by rewrite Hmv in E).
  unfold count_received, now in Hh. simpl in Hh.
  destruct (feed (_tls w) (clock (_reads w)) p) as [e'|] eqn:Hf; [|done].
  cbn [mbind outcome_bind] in Hh. unfold pending_verdict in Hh. rewrite Hhusk in Hh.
  injection Hh as <-. exists []. simpl. rewrite Hf, app_nil_r. cbn [mbind outcome_bind].
  split_and!; [done|by constructor|done|done|done|lia].
Qed.

Lemma traced_handle_all ms : forall w, Account w -> Forall msg_ok ms -> exists w',
  handle_all inspect w ms = Ok w' /\ Account w' /\ Traced w (feeds (_reads w) ms) w'.
Proof.
  induction ms as [|m ms IH]; intros w Hw Hms.
  { exists w. split_and!; [done|done|by apply traced_same]. }
  destruct (Forall_cons_1 _ _ _ Hms) as [Hm Hms'].
  destruct (traced_handle w m Hw Hm) as (w1 & H1 & A1 & T1). cbn [handle_all]. rewrite H1.
  cbn [mbind outcome_bind]. destruct (IH w1 A1 Hms') as (w2 & H2 & A2 & T2).
  exists w2. split_and!; [done|done|].
  assert (_reads w1 = S (_reads w)) as E1.
  { destruct T1 as (_ & _ & _ & _ & _ & _ & ->). simpl. lia. }
  rewrite E1 in T2. exact (traced_app w w1 w2 [_] _ T1 T2).
Qed.

Lemma traced_drain w : Account w -> Traced w [Drain] (drain_decided w).
Proof.
  intros Hw. destruct (drain_account w Hw) as (_ & _ & _ & Hs). exists (_decided (_tls w)).
  rewrite Hs. cbn [run run_op mbind outcome_bind fst snd]. rewrite app_nil_r.
  split_and!; [done|by repeat constructor|done| |done|simpl; lia].
  simpl. rewrite app_nil_r. unfold drain_decided. simpl.
  clear Hs Hw. generalize (_queue w). induction (_decided (_tls w)) as [|d ds IH]; intros l; [done|].
  simpl. rewrite IH. destruct (_pending (pkt d)) eqn:Hp; [|by rewrite submit_done].
  by destruct (submit_pending l (pkt d) (verdict d) Hp) as (q & rc & k & _ & -> & _).
Qed.

Lemma traced_after_turn w w' : Account w -> after_turn bl verbose clock w = Ok w' ->
  Traced w [Tick (clock (_reads w)); Drain] w'.
Proof.
  intros Hw. unfold after_turn. destruct (ticked_account bl verbose clock w Hw) as (e' & Ht & H1).
  rewrite Ht. cbn [mbind outcome_bind]. intros [= <-].
  refine (traced_app w _ _ [_] [_] _ (traced_drain _ H1)).
  exists []. cbn [run run_op]. unfold now in Ht. rewrite Ht. simpl. rewrite !app_nil_r.
  split_and!; [done|by repeat constructor|done|done|done|lia].
Qed.

Lemma traced_finish w w' : Account w -> finish bl verbose w = Ok w' -> Traced w [Flush; Drain] w'.
Proof.
  intros Hw. unfold finish. destruct (flushed_account bl verbose w Hw) as (e' & Hf & H1 & _).
  rewrite Hf. cbn [mbind outcome_bind]. intros [= <-].
  refine (traced_app w _ _ [_] [_] _ (traced_drain _ H1)).
  exists []. cbn [run run_op]. rewrite Hf. simpl. rewrite !app_nil_r.
  split_and!; [done|by repeat constructor|done|done|done|lia].
Qed.

(** The worker is where the calls [ops] left an extractor of its own. *)
Definition Ran (r : R) (mf mb : nat) w (ops : list op) : Prop := exists out,
  run (Policy0 := policy bl verbose) (Extractor_ctor [] r mf mb) ops = Ok (_tls w, out) /\ Forall op_ok ops /\
  sent (_queue w) = map passed_on out /\ seen (_queue w) = map _id (fed ops) /\
  times ops = map clock (seq 0 (_reads w)).

Lemma Ran_ctor q k r mf mb : Ran r mf mb (Worker_ctor q k r mf mb) [].
Proof. by exists []. Qed.

Lemma Ran_traced r mf mb w ops w' ops' : Ran r mf mb w ops -> Traced w ops' w' -> Ran r mf mb w' (ops ++ ops').
Proof.
  intros (out1 & R1 & O1 & S1 & I1 & T1) (out2 & R2 & O2 & S2 & I2 & T2 & N2).
  exists (out1 ++ out2). rewrite run_app, R1. cbn [mbind outcome_bind fst snd]. rewrite R2.
  unfold times, fed in *. rewrite !bind_app, N2, seq_app, !map_app.
  split_and!; [done|by apply Forall_app| | |by rewrite T1 at 1; rewrite T2 at 1].
  - by rewrite S2, S1.
  - by rewrite I2, I1.
Qed.

(** A turn ends with a tick, or the shutdown, and the drain. *)
Definition turn_end w (fin : bool) : list op :=
  [if fin then Flush else Tick (clock (pred (_reads w))); Drain].

Section loop.
  Hypothesis recv_ok : forall k rv msgs k', recv (K := K) k = (rv, msgs, k') -> Forall msg_ok msgs.

Lemma traced_run_once w ev w' : Account w -> run_once inspect kIdlePoll w = Ok (ev, w') ->
  Traced w (match ev with Packets => feeds (_reads w) (batch w) | _ => [] end) w'.
Proof using recv_ok.
  intros Hw. unfold run_once, batch. change (i32 kIdlePoll) with kIdlePoll.
  destruct (poll _ _) as [[[[n r0] r1] k]|]; [|done]. cbn [mbind outcome_bind].
  set (w1 := set_link w _).
  destruct (n <? 0).
  { destruct (_ =? _); intros HE; injection HE as <- <-; by apply traced_same. }
  destruct (n =? 0); [intros [= <- <-]; by apply traced_same|].
  destruct (_ && _); [intros [= <- <-]; by apply traced_same|].
  destruct (Z.land r0 POLLIN =? 0).
  { destruct (negb _); intros [= <- <-]; by apply traced_same. }
  change (kernel (link w1)) with k. destruct (recv k) as [[rv msgs] k1] eqn:Hr.
  set (w2 := set_link w1 _).
  destruct (rv <? 0).
  { destruct (_ || _); intros [= <- <-]; by apply traced_same. }
  destruct (rv =? 0); [intros [= <- <-]; by apply traced_same|].
  assert (Account w2) as A2 by (apply (kernel_account w1), (kernel_account w); done).
  destruct (traced_handle_all msgs w2 A2 (recv_ok _ _ _ _ Hr)) as (w3 & -> & _ & T3).
  cbn [mbind outcome_bind]. intros [= <- <-]. exact T3.
Qed.

Lemma traced_turn w fin w' : Account w -> turn bl verbose false clock w = Ok (fin, w') ->
  exists ops, Traced w (ops ++ turn_end w' fin) w'.
Proof using recv_ok.
  intros Hw. unfold turn. destruct (run_once_account bl verbose false clock recv_ok w Hw) as (ev & w1 & H1 & A1).
  rewrite H1. cbn [mbind outcome_bind fst snd]. pose proof (traced_run_once w ev w1 Hw H1) as T1.
  assert (forall w2, after_turn bl verbose clock w1 = Ok w2 -> Traced w1 (turn_end w2 false) w2) as Hgo.
  { intros w2 H2. pose proof (traced_after_turn w1 w2 A1 H2) as T2. unfold turn_end.
    destruct T2 as (out & ? & ? & ? & ? & ? & Hn). rewrite Hn, Nat.add_1_r. by exists out. }
  assert (forall w2, finish bl verbose w1 = Ok w2 -> Traced w1 (turn_end w2 true) w2) as Hend
    by (intros w2 H2; by apply traced_finish).
  destruct ev.
  1-2: destruct (after_turn bl verbose clock w1) as [w2|]; [|done].
  3-4: destruct (finish bl verbose w1) as [w2|]; [|done].
  all: cbn [mbind outcome_bind]; intros [= <- <-]; eexists; apply (traced_app w w1 w2 _ _ T1); auto.
Qed.

(** A turn that receives a buffer. *)
Lemma packets_turn w n r0 k1 rv msgs k2 : Account w -> poll (kernel (link w)) kIdlePoll = Some (n, r0, 0, k1) -> 0 < n ->
  Z.land r0 POLLIN <> 0 -> recv k1 = (rv, msgs, k2) -> 0 < rv ->
  exists w', turn bl verbose false clock w = Ok (false, w') /\
    Traced w (feeds (_reads w) msgs ++ [Tick (clock (_reads w + length msgs)); Drain]) w'.
Proof using recv_ok.
  intros Hw Hp Hn Hr0 Hr Hrv. unfold turn, run_once. change (i32 kIdlePoll) with kIdlePoll. rewrite Hp.
  cbn [mbind outcome_bind]. cbv beta iota zeta.
  rewrite (proj2 (Z.ltb_ge n 0)), (proj2 (Z.eqb_neq n 0)), andb_false_r, (proj2 (Z.eqb_neq _ 0) Hr0) by lia.
  set (w1 := set_link w _). change (kernel (link w1)) with k1. rewrite Hr.
  rewrite (proj2 (Z.ltb_ge rv 0)), (proj2 (Z.eqb_neq rv 0)) by lia. set (w2 := set_link w1 _).
  assert (Account w2) as A2 by (apply (kernel_account w1), (kernel_account w); done).
  destruct (traced_handle_all msgs w2 A2 (recv_ok _ _ _ _ Hr)) as (w3 & H3 & A3 & T3). rewrite H3.
  cbn [mbind outcome_bind fst snd].
  destruct (after_turn_account bl verbose clock w3 A3) as (w4 & H4 & _). rewrite H4. exists w4. split; [done|].
  pose proof (traced_after_turn w3 w4 A3 H4) as T4.
  assert (_reads w3 = _reads w + length msgs)%nat as E3.
  { destruct T3 as (_ & _ & _ & _ & _ & _ & ->). f_equal. clear. change (_reads w2) with (_reads w).
    generalize (_reads w). induction msgs as [|m ms IH]; intros c; simpl; [done|]. f_equal. apply IH. }
  rewrite E3 in T4. exact (traced_app w w3 w4 _ _ T3 T4).
Qed.

Lemma traced_loop fuel : forall w w', Account w -> loop bl verbose false clock fuel w = Ok w' ->
  Traced w (loop_ops fuel w) w'.
Proof using recv_ok.
  induction fuel as [|fuel IH]; intros w w' Hw; [done|]. cbn [loop loop_ops].
  destruct (run_once_account bl verbose false clock recv_ok w Hw) as (ev & w1 & H1 & A1). rewrite H1.
  cbn [mbind outcome_bind fst snd]. pose proof (traced_run_once w ev w1 Hw H1) as T1.
  destruct (after_turn_account bl verbose clock w1 A1) as (w2 & H2 & A2 & _).
  pose proof (traced_after_turn w1 w2 A1 H2) as T2.
  destruct ev; rewrite ?H2; cbn [mbind outcome_bind] in *.
  - intros Hl. apply (traced_app w w1 w' _ _ T1).
    exact (traced_app w1 w2 w' [_; _] _ T2 (IH w2 w' A2 Hl)).
  - intros Hl. apply (traced_app w w1 w' [] _ T1).
    exact (traced_app w1 w2 w' [_; _] _ T2 (IH w2 w' A2 Hl)).
  - intros Hf. exact (traced_app w w1 w' [] _ T1 (traced_finish w1 w' A1 Hf)).
  - intros Hf. exact (traced_app w w1 w' [] _ T1 (traced_finish w1 w' A1 Hf)).
Qed.

End loop.

End trace.

(** ** Passing everything through *)

Section passthrough.
  Context {K R : Type} `{!Netfilter K} `{!Pcpp R} `{!MapOrder}.
  Context (bl : BlockList) (verbose : bool) (clock : nat -> Z).
  Context (recv_ok : forall k rv msgs k', recv (K := K) k = (rv, msgs, k') -> Forall msg_ok msgs).
  Implicit Types w : Worker (K := K) (R := R).
  #[local] Existing Instance Worker_link.
  Abbreviation pass := (on_packet bl verbose true clock).

(** Each packet received has been accepted, in order, and nothing is kept. *)
Definition passed w : Prop :=
  sent (_queue w) = map (λ id, (id, NF_ACCEPT)) (seen (_queue w)) /\
  _conns (_tls w) = ∅ /\ stored (_tls w) = [].

Lemma handle_passed w m : msg_ok m -> passed w -> exists w', handle pass w m = Ok w' /\ passed w'.
Proof using Type.
  intros Hm (Hs & Hc & Hst). destruct (packet_of_ok m Hm) as (_ & Hp & _).
  unfold handle, on_packet, count_received. cbv zeta. set (p := packet_of m) in *. simpl.
  match goal with |- context [submit ?l p ALLOW] =>
    destruct (submit_pending l p ALLOW Hp) as (q & rc & k & _ & -> & _) end.
  cbn [mbind outcome_bind]. simpl. eexists; split; [done|]. split_and!; [|done|done].
  simpl. by rewrite Hs, map_app.
Qed.

Lemma handle_all_passed ms : forall w, Forall msg_ok ms -> passed w ->
  exists w', handle_all pass w ms = Ok w' /\ passed w'.
Proof using Type.
  induction ms as [|m ms IH]; intros w Hms Hw; [by exists w|]. destruct (Forall_cons_1 _ _ _ Hms) as [Hm Hms'].
  cbn [handle_all]. destruct (handle_passed w m Hm Hw) as (w1 & -> & H1). by apply IH.
Qed.

Lemma run_once_passed w ev w' : run_once pass kIdlePoll w = Ok (ev, w') -> passed w -> passed w'.
Proof using recv_ok.
  intros Hr Hw. unfold run_once in Hr. destruct (poll _ _) as [[[[n r0] r1] k]|]; [|done]. cbn [mbind outcome_bind] in Hr.
  set (w1 := set_link w _) in Hr. assert (passed w1) as H1 by exact Hw.
  destruct (n <? 0); [destruct (_ =? _); by injection Hr as <- <-|].
  destruct (n =? 0); [by injection Hr as <- <-|].
  destruct (_ && _); [by injection Hr as <- <-|].
  destruct (Z.land r0 POLLIN =? 0); [destruct (negb _); by injection Hr as <- <-|].
  destruct (recv (kernel (link w1))) as [[rv msgs] k1] eqn:Hrecv.
  set (w2 := set_link w1 _) in Hr. assert (passed w2) as H2 by exact Hw.
  destruct (rv <? 0); [destruct (_ || _); by injection Hr as <- <-|].
  destruct (rv =? 0); [by injection Hr as <- <-|].
  destruct (handle_all_passed msgs w2 (recv_ok _ _ _ _ Hrecv) H2) as (w3 & H3 & P3). rewrite H3 in Hr.
  by injection Hr as <- <-.
Qed.

(** With nothing stored there is nothing to drain. *)
Lemma drain_passed w e n : passed w -> _conns e = ∅ -> stored e = [] ->
  passed (drain_decided (MkWorker (_queue w) e n)).
Proof using Type.
  intros (Hs & _ & _) Hc Hst. unfold passed, drain_decided. simpl. unfold stored in *.
  apply app_nil in Hst as [Hd%fmap_nil_inv Hh]. rewrite Hd. simpl. by split_and!.
Qed.

Lemma turn_passed w fin w' : Account w -> turn bl verbose true clock w = Ok (fin, w') -> passed w -> passed w'.
Proof using recv_ok.
  intros Hw. unfold turn. destruct (run_once_account bl verbose true clock recv_ok w Hw) as (ev & w1 & H1 & A1).
  rewrite H1. cbn [mbind outcome_bind fst snd]. intros Ht Hp.
  pose proof (run_once_passed w ev w1 H1 Hp) as P1. pose proof P1 as (_ & Hc & Hst).
  destruct (ac_good w1 A1) as [Hi Hq _ _].
  assert (forall w2, after_turn bl verbose clock w1 = Ok w2 -> passed w2) as Hgo.
  { intros w2. unfold after_turn.
    destruct (tick_spec (Policy0 := policy bl verbose) (_tls w1) (now clock w1) Hi Hq) as (e & -> & _ & _ & [Hs1 _ Hf1 _ _ _] & _).
    cbn [mbind outcome_bind]. intros [= <-]. apply (drain_passed w1 e); [done| |].
    - apply map_empty. intros k. destruct (_conns e !! k) as [c|] eqn:E; [|done].
      destruct (Hf1 k c E) as (c0 & E0 & _). simpl in E0. by rewrite Hc in E0.
    - change (stored (set_lastSweep (_tls w1) (_lastSweep e))) with (stored (_tls w1)) in Hs1.
      rewrite Hst in Hs1. by apply Permutation_nil_r in Hs1. }
  assert (forall w2, finish bl verbose w1 = Ok w2 -> passed w2) as Hend.
  { intros w2. unfold finish.
    destruct (flush_spec (Policy0 := policy bl verbose) (_tls w1) Hi Hq) as (e & -> & _ & _ & Hc' & _ & _ & Hd & _).
    cbn [mbind outcome_bind]. intros [= <-]. apply (drain_passed w1 e); [done|done|].
    rewrite Hst in Hd. unfold stored. rewrite Hc'. apply Permutation_nil_r in Hd. by rewrite Hd. }
  destruct ev.
  1-2: destruct (after_turn bl verbose clock w1) as [w2|]; [|done].
  3-4: destruct (finish bl verbose w1) as [w2|]; [|done].
  all: cbn [mbind outcome_bind] in Ht; injection Ht as <- <-; auto.
Qed.

End passthrough.

(** * What a worker promises *)

Section properties.
  Context {K R : Type} `{!Netfilter K} `{!Pcpp R} `{!MapOrder}.
  Context (bl : BlockList) (verbose : bool) (clock : nat -> Z).
  Context (recv_ok : forall k rv msgs k', recv (K := K) k = (rv, msgs, k') -> Forall msg_ok msgs).

(** What a worker promises a connection, wherever it stands in the traffic. *)
Lemma ran_listed_host lines key k theirs expects r mf mb (w : Worker (K := K) (R := R)) pre t0 x own ops hl :
  Forall newline_free lines -> BlockList_ctor (Some (file_of lines)) = Some bl ->
  Account w -> _decided (_tls w) = [] -> Ran bl verbose clock r mf mb w (pre ++ Feed t0 x.1 :: ops) ->
  (forall p, theirs p -> foreign key p) -> Reassembles k theirs expects -> k <> 0 ->
  Sends_hello key k (x :: own) hl -> expects (deliveries (x :: own)) r -> Forall theirs (fed pre) ->
  (forall e out, run (Policy0 := policy bl verbose) (Extractor_ctor [] r mf mb) pre = Ok (e, out) ->
     (size (_conns e) < _max_flows e)%nat) ->
  among theirs t0 (map fst own) ops ->
  exists v, (v = BLOCK <-> exists name l, sni hl = Some name /\ l ∈ lines /\ entry_matches (parse_line l) name) /\
    forall p, p ∈ map fst (x :: own) ->
      let code := if carrying p then nf_code v else NF_ACCEPT in
      (_id p, code) ∈ sent (_queue w) /\
      (NoDup (seen (_queue w)) -> forall c, (_id p, c) ∈ sent (_queue w) -> c = code).
Proof.
  intros Hnl Hlist Hacc Hd (out & Hrun & Hok & Hs & _ & _) Hth Hre Hk Hhl Hx Hpre Hsz Ham.
  set (v := if blocked_by bl (sni hl) then BLOCK else ALLOW).
  destruct (traffic_answers (Policy0 := policy bl verbose) key k theirs Hth expects Hre Hk [] r mf mb
    pre t0 x own ops hl v) as (e & out' & Hrun' & HX); try done.
  pose proof (eq_trans (eq_sym Hrun) Hrun') as [= <- <-]. rewrite Hd, app_nil_r in HX.
  exists v. split.
  - rewrite <- (blocked_by_lines lines bl (sni hl) Hnl Hlist). unfold v. by destruct (blocked_by _ _).
  - intros p Hp code.
    assert ((_id p, code) ∈ sent (_queue w)) as Hsv.
    { apply HX in Hp. apply list_elem_of_fmap in Hp as (d & E & Hin). injection E as Eid Ev.
      rewrite Hs. replace (_id p, code) with (passed_on d); [by apply list_elem_of_fmap_2|].
      unfold passed_on, code. rewrite <- Eid, <- Ev. by destruct (carrying p). }
    split; [done|]. intros Hnd c Hc. rewrite <- (ac_ids w Hacc) in Hnd. apply list.NoDup_app in Hnd as [Hnd _].
    by pose proof (NoDup_map_inj fst _ (_id p, c) (_id p, code) Hnd Hc Hsv eq_refl) as [= E].
Qed.

(** The worker refines its extractor.  A run of [loop] is the extractor's run
    of the calls [loop_ops]: the packets received are those fed, in order, each
    call reads the clock once and in order, and the verdicts issued are exactly
    the ones the extractor hands out, in order. *)
Lemma worker_refines_extractor q k r mf mb fuel (w' : Worker (K := K) (R := R)) :
  _received q = 0 -> _verdicted q = 0 -> _undecided q = 0 ->
  loop bl verbose false clock fuel (Worker_ctor q k r mf mb) = Ok w' ->
  Ran bl verbose clock r mf mb w' (loop_ops bl verbose clock fuel (Worker_ctor q k r mf mb)).
Proof using recv_ok.
  intros Hr Hv Hu Hloop. apply (Ran_traced bl verbose clock r mf mb _ [] w' _ (Ran_ctor bl verbose clock q k r mf mb)).
  apply (traced_loop bl verbose clock recv_ok); [by apply ctor_account|done].
Qed.

End properties.

(** ** Witness: the connection of [ExtractorTraffic] in a worker whose list file
    has a wildcard over its host name *)

Definition demo_lines : list bytes := [str "# hosts"; str "*.example.com"].
Definition demo_wildcards : BlockList := MkBlockList ∅ {[ str "example.com" ]}.

Definition demo_wires : DemoKernel :=
  let own i := packet_bytes (demo_p i) in let other i := packet_bytes (demo_other i) in
  (3%nat, [[(x14, other 0%nat); (x0a, own 0%nat); (x0b, own 1%nat); (x0c, own 2%nat)];
           [(x15, other 1%nat); (x0d, own 3%nat); (x16, other 2%nat); (x0e, own 4%nat)];
           [(x0f, own 5%nat); (x10, own 6%nat); (x17, other 3%nat); (x11, own 7%nat)]]).

Definition demo_inspector : Worker (K := DemoKernel) (R := Streams) :=
  Worker_ctor (MkNFQueue true true 0 3 0 0 0 0 None) demo_wires ∅ 4 1.

Definition demo_inspected : Worker (K := DemoKernel) (R := Streams) :=
  match loop demo_wildcards false false demo_clock 4 demo_inspector with Ok w => w | Fault _ => demo_inspector end.

Definition demo_calls : list op := loop_ops demo_wildcards false demo_clock 4 demo_inspector.

Example demo_inspected_sent :
  sent (_queue demo_inspected) = [(20, NF_ACCEPT); (10, NF_ACCEPT); (11, NF_ACCEPT); (12, NF_ACCEPT);
    (22, NF_ACCEPT); (21, NF_ACCEPT); (23, NF_ACCEPT);
    (13, NF_DROP); (14, NF_DROP); (15, NF_DROP); (16, NF_DROP); (17, NF_DROP)].
Proof. vm_compute. reflexivity. Qed.

Lemma demo_inspected_ok : loop demo_wildcards false false demo_clock 4 demo_inspector = Ok demo_inspected.
Proof. vm_compute. reflexivity. Qed.

Lemma demo_inspected_ran : Ran demo_wildcards false demo_clock ∅ 4 1 demo_inspected demo_calls.
Proof.
  exact (worker_refines_extractor demo_wildcards false demo_clock demo_msgs_ok
    (MkNFQueue true true 0 3 0 0 0 0 None) demo_wires ∅ 4 1 4 demo_inspected
    eq_refl eq_refl eq_refl demo_inspected_ok).
Qed.
