(* ===== verification/Cli.v ===== *)
(** * Configuration and command line ([include/config.hpp], [src/cli.cpp])

    [Config] with its derived quantities, [parse_uint] on a model of the C
    library's [strtoull], and the argument loop of [cli::parse]: its result and
    the exit code.  [Text] has what it prints. *)
From S2P Require Import Prelude BlockList.

(** ** Configuration *)

Record Config := MkConfig {
  blocklist_path : bytes;
  queue_num : Z;
  queue_maxlen : Z;
  jobs : Z;
  recv_buf_bytes : Z;
  max_blocked_flows : Z;
  pin_first_cpu : Z;
  pin_stride : Z;
  verbose : bool;
  passthrough : bool;
  stats_interval_s : Z
}.

Definition Config_default : Config :=
  MkConfig (str "blocklist.txt") 0 8192 4 (256 * 1024 * 1024) 0 (-1) 1 false false 0.

Definition worker_count (c : Config) : Z := if 0 <? jobs c then jobs c else 1.

Definition last_queue_num (c : Config) : Z := u16 (u64 (queue_num c + worker_count c - 1)).

Definition recv_buf_per_worker (c : Config) : Z :=
  let share := u64 (recv_buf_bytes c) / worker_count c in
  let kFloor := 1024 * 1024 in
  if share <? kFloor then kFloor else share.

Definition set_path (c : Config) p := MkConfig p (queue_num c) (queue_maxlen c) (jobs c)
  (recv_buf_bytes c) (max_blocked_flows c) (pin_first_cpu c) (pin_stride c) (verbose c)
  (passthrough c) (stats_interval_s c).
Definition set_queue_num (c : Config) n := MkConfig (blocklist_path c) (u16 n) (queue_maxlen c)
  (jobs c) (recv_buf_bytes c) (max_blocked_flows c) (pin_first_cpu c) (pin_stride c) (verbose c)
  (passthrough c) (stats_interval_s c).
Definition set_queue_maxlen (c : Config) n := MkConfig (blocklist_path c) (queue_num c) (u32 n)
  (jobs c) (recv_buf_bytes c) (max_blocked_flows c) (pin_first_cpu c) (pin_stride c) (verbose c)
  (passthrough c) (stats_interval_s c).
Definition set_jobs (c : Config) n := MkConfig (blocklist_path c) (queue_num c) (queue_maxlen c)
  (u64 n) (recv_buf_bytes c) (max_blocked_flows c) (pin_first_cpu c) (pin_stride c) (verbose c)
  (passthrough c) (stats_interval_s c).
Definition set_recv_buf (c : Config) n := MkConfig (blocklist_path c) (queue_num c)
  (queue_maxlen c) (jobs c) n (max_blocked_flows c) (pin_first_cpu c) (pin_stride c) (verbose c)
  (passthrough c) (stats_interval_s c).
Definition set_max_blocked (c : Config) n := MkConfig (blocklist_path c) (queue_num c)
  (queue_maxlen c) (jobs c) (recv_buf_bytes c) (u64 n) (pin_first_cpu c) (pin_stride c) (verbose c)
  (passthrough c) (stats_interval_s c).
Definition set_pin (c : Config) n := MkConfig (blocklist_path c) (queue_num c)
  (queue_maxlen c) (jobs c) (recv_buf_bytes c) (max_blocked_flows c) n (pin_stride c) (verbose c)
  (passthrough c) (stats_interval_s c).
Definition set_pin_stride (c : Config) n := MkConfig (blocklist_path c) (queue_num c)
  (queue_maxlen c) (jobs c) (recv_buf_bytes c) (max_blocked_flows c) (pin_first_cpu c) n (verbose c)
  (passthrough c) (stats_interval_s c).
Definition set_verbose (c : Config) := MkConfig (blocklist_path c) (queue_num c)
  (queue_maxlen c) (jobs c) (recv_buf_bytes c) (max_blocked_flows c) (pin_first_cpu c) (pin_stride c)
  true (passthrough c) (stats_interval_s c).
Definition set_passthrough (c : Config) := MkConfig (blocklist_path c) (queue_num c)
  (queue_maxlen c) (jobs c) (recv_buf_bytes c) (max_blocked_flows c) (pin_first_cpu c) (pin_stride c)
  (verbose c) true (stats_interval_s c).
Definition set_stats (c : Config) n := MkConfig (blocklist_path c) (queue_num c)
  (queue_maxlen c) (jobs c) (recv_buf_bytes c) (max_blocked_flows c) (pin_first_cpu c) (pin_stride c)
  (verbose c) (passthrough c) (u32 n).

(** ** Numbers *)

Definition is_digit (b : byte) : bool := (48 <=? b2z b) && (b2z b <=? 57).

Definition ULLONG_MAX : Z := 18446744073709551615.
Definition UINT32_MAX : Z := 4294967295.
Definition INT_MAX : Z := 2147483647.

(** The value of a run of decimal digits. *)
Definition digits_value (ds : bytes) : Z := fold_left (λ v b, v * 10 + (b2z b - 48)) ds 0.

Fixpoint span_while (f : byte -> bool) (s : bytes) : bytes * bytes :=
  match s with
  | b :: s' => if f b then let '(x, y) := span_while f s' in (b :: x, y) else ([], s)
  | [] => ([], [])
  end.

(** [std::strtoull(s, &end, 10)]: the value, the bytes from [*end] on, and
    whether [errno] is set; [None] when no digit was found ([end == s]). *)
Definition strtoull (s : bytes) : option (Z * bytes * bool) :=
  let s := (span_while isspace s).2 in
  let '(neg, s) := match s with
                   | b :: s' => if decide (b = x2d) then (true, s')
                                else if decide (b = x2b) then (false, s') else (false, s)
                   | [] => (false, s)
                   end in
  let '(ds, rest) := span_while is_digit s in
  match ds with
  | [] => None
  | _ =>
      let v := digits_value ds in
      if ULLONG_MAX <? v then Some (ULLONG_MAX, rest, true)
      else Some (if neg then u64 (- v) else v, rest, false)
  end.

Definition parse_uint (s : bytes) (lo hi : Z) : option Z :=
  match s with
  | [] => None
  | _ =>
    match strtoull s with
    | None => None
    | Some (v, rest, erange) =>
        match erange, rest with
        | false, [] => if (v <? lo) || (hi <? v) then None else Some v
        | _, _ => None
        end
    end
  end.

(** ** The argument loop *)

Record ParseResult := MkParseResult { config : Config; should_exit : bool; exit_code : Z }.

(** What an argument is: the branches of the loop. *)
Inductive Arg :=
| Help
| Number (lo hi : Z) (store : Config -> Z -> Config)
| Path
| Flag (store : Config -> Config)
| Unknown
| Positional.

Definition is_opt (arg : bytes) (s : string) : bool := bool_decide (arg = str s).

Definition classify (arg : bytes) : Arg :=
  if is_opt arg "-h" || is_opt arg "--help" then Help
  else if is_opt arg "-j" then Number 1 4096 set_jobs
  else if is_opt arg "-nfq" then Number 0 65535 set_queue_num
  else if is_opt arg "-nfq-size" then Number 1 UINT32_MAX set_queue_maxlen
  else if is_opt arg "-max-blocked" then Number 1 UINT32_MAX set_max_blocked
  else if is_opt arg "-pin" then Number 0 4095 set_pin
  else if is_opt arg "-pin-stride" then Number 1 64 set_pin_stride
  else if is_opt arg "-rcvbuf" then Number 1 INT_MAX set_recv_buf
  else if is_opt arg "-b" then Path
  else if is_opt arg "-v" || is_opt arg "--verbose" then Flag set_verbose
  else if is_opt arg "--passthrough" then Flag set_passthrough
  else if is_opt arg "--stats" then Number 0 86400 set_stats
  else if bool_decide (head arg = Some x2d) then Unknown
  else Positional.

Definition parse_fail (c : Config) : ParseResult := MkParseResult c true 2.

(** After the loop: the whole range of queues must exist. *)
Definition check_range (c : Config) : ParseResult :=
  if 65535 <? u64 (queue_num c + worker_count c - 1) then parse_fail c
  else MkParseResult c false 0.

Fixpoint parse_args (c : Config) (args : list bytes) : ParseResult :=
  match args with
  | [] => check_range c
  | arg :: args =>
    match classify arg with
    | Help => MkParseResult c true 0
    | Number lo hi store =>
        match args with
        | [] => parse_fail c
        | val :: args =>
            match parse_uint val lo hi with
            | None => parse_fail c
            | Some n => parse_args (store c n) args
            end
        end
    | Path =>
        match args with
        | [] => parse_fail c
        | val :: args => parse_args (set_path c val) args
        end
    | Flag store => parse_args (store c) args
    | Unknown => parse_fail c
    | Positional => parse_args (set_path c arg) args
    end
  end.

(** [cli::parse]; [args] is [argv + 1]. *)
Definition parse (args : list bytes) : ParseResult := parse_args Config_default args.

(** ** Decimal notation *)

Definition digit (d : Z) : byte := z2b (48 + d).

Fixpoint dec_digits (fuel : nat) (n : Z) : bytes :=
  match fuel with
  | O => []
  | S fuel => if n <? 10 then [digit n] else dec_digits fuel (n / 10) ++ [digit (n mod 10)]
  end.

(** Twenty digits are enough for 64 bits. *)
Definition dec (n : Z) : bytes := dec_digits 20 n.

Lemma digit_value d : 0 <= d < 10 -> b2z (digit d) = 48 + d.
Proof. intros. unfold digit. rewrite b2z_z2b. apply Z.mod_small. lia. Qed.

Lemma digit_is_digit d : 0 <= d < 10 -> is_digit (digit d) = true.
Proof. intros. unfold is_digit. rewrite digit_value by lia. apply andb_true_intro. split; apply Z.leb_le; lia. Qed.

Lemma digits_value_snoc ds b : digits_value (ds ++ [b]) = digits_value ds * 10 + (b2z b - 48).
Proof. unfold digits_value. by rewrite fold_left_app. Qed.

Lemma dec_digits_ok fuel n : 0 <= n < 10 ^ Z.of_nat fuel ->
  digits_value (dec_digits fuel n) = n /\ Forall (λ b, is_digit b = true) (dec_digits fuel n).
Proof.
  revert n. induction fuel as [|fuel IH]; intros n Hn; [by replace n with 0 by (simpl in Hn; lia)|].
  cbn [dec_digits]. destruct (Z.ltb_spec n 10).
  - unfold digits_value. simpl. rewrite digit_value by lia.
    split; [lia|]. repeat constructor. apply digit_is_digit. lia.
  - rewrite Nat2Z.inj_succ, Z.pow_succ_r in Hn by lia.
    destruct (IH (n / 10)) as [Hv Hd]; [split; [apply Z.div_pos; lia|apply Z.div_lt_upper_bound; lia]|].
    pose proof (Z.mod_pos_bound n 10 ltac:(lia)).
    split.
    + rewrite digits_value_snoc, Hv, digit_value by lia. pose proof (Z.div_mod n 10). lia.
    + apply Forall_app. split; [done|]. repeat constructor. by apply digit_is_digit.
Qed.

Lemma dec_ok n : 0 <= n <= ULLONG_MAX ->
  digits_value (dec n) = n /\ Forall (λ b, is_digit b = true) (dec n) /\ dec n <> [].
Proof.
  intros Hn. unfold ULLONG_MAX in Hn. destruct (dec_digits_ok 20 n) as [H1 H2].
  { change (10 ^ Z.of_nat 20) with 100000000000000000000. lia. }
  split_and!; [done|done|]. unfold dec. cbn [dec_digits].
  destruct (n <? 10); [done|]. by intros [_ ?]%app_eq_nil.
Qed.

Lemma span_while_all f s : Forall (λ b, f b = true) s -> span_while f s = (s, []).
Proof. induction 1 as [|b s Hb _ IH]; [done|]. simpl. by rewrite Hb, IH. Qed.

Lemma digit_not_space b : is_digit b = true ->
  isspace b = false /\ b <> x2d /\ b <> x2b.
Proof.
  unfold is_digit, isspace. intros [H1%Z.leb_le H2%Z.leb_le]%andb_prop. split_and!.
  - rewrite (proj2 (Z.leb_gt (b2z b) 13)), (proj2 (Z.eqb_neq (b2z b) 32)) by lia.
    by rewrite andb_false_r.
  - intros ->. vm_compute in H1. done.
  - intros ->. vm_compute in H1. done.
Qed.

Lemma strtoull_digits ds : Forall (λ b, is_digit b = true) ds -> ds <> [] ->
  digits_value ds <= ULLONG_MAX -> strtoull ds = Some (digits_value ds, [], false).
Proof.
  intros Hd Hne Hv. unfold strtoull. destruct ds as [|b ds]; [done|].
  destruct (Forall_cons_1 _ _ _ Hd) as [Hb _].
  destruct (digit_not_space b Hb) as (Hs & Hm & Hp).
  cbn [span_while]. rewrite Hs. cbn [snd]. rewrite !decide_False by done.
  rewrite span_while_all by done. rewrite (proj2 (Z.ltb_ge _ _)) by done. done.
Qed.

Lemma strtoull_minus ds : Forall (λ b, is_digit b = true) ds -> ds <> [] ->
  digits_value ds <= ULLONG_MAX -> strtoull (x2d :: ds) = Some (u64 (- digits_value ds), [], false).
Proof.
  intros Hd Hne Hv. unfold strtoull. cbn [span_while]. change (isspace x2d) with false.
  cbv iota. cbn [snd]. rewrite decide_True by done.
  rewrite span_while_all by done. destruct ds; [done|].
  rewrite (proj2 (Z.ltb_ge _ _)) by done. done.
Qed.

Lemma parse_uint_range s lo hi n : parse_uint s lo hi = Some n -> lo <= n <= hi.
Proof.
  unfold parse_uint. destruct s; [done|]. destruct (strtoull _) as [[[v [|]] []]|]; try done.
  destruct (Z.ltb_spec v lo), (Z.ltb_spec hi v); simpl; try done. intros [= <-]. lia.
Qed.

Lemma parse_uint_dec n lo hi : 0 <= n <= ULLONG_MAX -> lo <= n <= hi ->
  parse_uint (dec n) lo hi = Some n.
Proof.
  intros Hn Hr. destruct (dec_ok n Hn) as (Hv & Hd & Hne). unfold parse_uint.
  rewrite strtoull_digits by (try done; lia). rewrite Hv.
  destruct (dec n); [done|].
  by rewrite (proj2 (Z.ltb_ge n lo)), (proj2 (Z.ltb_ge hi n)) by lia.
Qed.

(** ** What an accepted configuration satisfies *)

Record Config_ok (c : Config) : Prop := {
  ok_queue : 0 <= queue_num c <= 65535;
  ok_maxlen : 1 <= queue_maxlen c <= UINT32_MAX;
  ok_jobs : 1 <= jobs c <= 4096;
  ok_rcvbuf : 1 <= recv_buf_bytes c <= INT_MAX;
  ok_blocked : 0 <= max_blocked_flows c <= UINT32_MAX;
  ok_pin : -1 <= pin_first_cpu c <= 4095;
  ok_stride : 1 <= pin_stride c <= 64;
  ok_stats : 0 <= stats_interval_s c <= 86400
}.

Lemma Config_default_ok : Config_ok Config_default.
Proof. by split. Qed.

Lemma classify_number arg lo hi store c n : classify arg = Number lo hi store ->
  Config_ok c -> lo <= n <= hi -> Config_ok (store c n).
Proof.
  unfold classify. intros Hc [] Hn.
  repeat (case_match; try done); injection Hc as <- <- <-; unfold UINT32_MAX, INT_MAX in *;
    split; simpl; unfold UINT32_MAX, INT_MAX; unwrap; lia.
Qed.

Lemma classify_flag arg store c : classify arg = Flag store -> Config_ok c -> Config_ok (store c).
Proof.
  unfold classify. intros Hc []. repeat (case_match; try done); injection Hc as <-; by constructor.
Qed.

Lemma parse_args_ok : forall args c, Config_ok c ->
  let r := parse_args c args in
  if should_exit r then exit_code r = 0 \/ exit_code r = 2
  else exit_code r = 0 /\ Config_ok (config r) /\
       queue_num (config r) + jobs (config r) - 1 <= 65535.
Proof.
  assert (forall n args, (length args <= n)%nat -> forall c, Config_ok c ->
    let r := parse_args c args in
    if should_exit r then exit_code r = 0 \/ exit_code r = 2
    else exit_code r = 0 /\ Config_ok (config r) /\
         queue_num (config r) + jobs (config r) - 1 <= 65535) as Hall;
    [|intros args; exact (Hall (length args) args (le_n _))].
  induction n as [|n IH]; intros args Hlen c Hc.
  { destruct args; [|simpl in Hlen; lia]. simpl. unfold check_range.
    destruct (Z.ltb_spec 65535 (u64 (queue_num c + worker_count c - 1))) as [|Hle];
      cbn [should_exit exit_code config parse_fail]; [by right|].
    split_and!; [done|done|]. destruct Hc. unfold worker_count in Hle.
    rewrite (proj2 (Z.ltb_lt 0 _)), u64_id in Hle by lia. done. }
  destruct args as [|arg args].
  { apply (IH []); [simpl; lia|done]. }
  simpl in Hlen. cbn [parse_args].
  destruct (classify arg) as [|lo hi store| |store| |] eqn:E.
  - by left.
  - destruct args as [|val args]; [by right|]. simpl in Hlen.
    destruct (parse_uint val lo hi) as [v|] eqn:Ev; [|by right].
    apply IH; [lia|]. eapply classify_number; [done|done|]. by eapply parse_uint_range.
  - destruct args as [|val args]; [by right|]. simpl in Hlen. apply IH; [lia|]. by destruct Hc.
  - apply IH; [lia|]. by eapply classify_flag.
  - by right.
  - apply IH; [lia|]. by destruct Hc.
Qed.

(** * Properties *)

(** C34: only usable configurations are accepted.  Parsing any argument vector
    either asks to exit, with code 0 or 2, or yields a configuration in range:
    each worker's queue number fits 16 bits without wrapping and the last is
    [last_queue_num], and each worker's receive buffer is between 1 MiB and
    [INT_MAX], the shares together staying within the total unless the floor
    applies. *)
Theorem parse_accepts_only_valid args :
  let r := parse args in
  let c := config r in
  if should_exit r then exit_code r = 0 \/ exit_code r = 2
  else exit_code r = 0 /\ Config_ok c /\ worker_count c = jobs c /\
    (forall i, 0 <= i < worker_count c ->
       u16 (queue_num c + i) = queue_num c + i /\ queue_num c + i <= last_queue_num c) /\
    last_queue_num c = queue_num c + jobs c - 1 /\
    1024 * 1024 <= recv_buf_per_worker c <= INT_MAX /\
    (1024 * 1024 < recv_buf_per_worker c ->
       worker_count c * recv_buf_per_worker c <= recv_buf_bytes c).
Proof.
  intros r c. pose proof (parse_args_ok args Config_default Config_default_ok) as H.
  change (parse_args Config_default args) with r in H. cbv zeta in H. revert H.
  destruct (should_exit r); [by intros H|]. intros H. destruct H as (He & Hok & Hr). fold c in Hok, Hr.
  split; [done|]. split; [done|]. destruct Hok. unfold INT_MAX in *.
  assert (worker_count c = jobs c) as Hw
    by (unfold worker_count; by rewrite (proj2 (Z.ltb_lt 0 _)) by lia).
  assert (last_queue_num c = queue_num c + jobs c - 1) as Hlast.
  { unfold last_queue_num. rewrite Hw. by unwrap. }
  rewrite Hlast. unfold recv_buf_per_worker. rewrite Hw. unwrap.
  assert (recv_buf_bytes c / jobs c <= recv_buf_bytes c) by (apply Z.div_le_upper_bound; nia).
  pose proof (Z.mul_div_le (recv_buf_bytes c) (jobs c)).
  split_and!; try done.
  - intros i Hi. rewrite u16_id by lia. lia.
  - case_cmp; lia.
  - case_cmp; lia.
  - case_cmp; lia.
Qed.

(** A number option stores the number written.  For every option that takes
    a number and every number in its range, the option followed by its decimal
    notation is accepted and stores exactly that number, and parsing goes on
    with the arguments that follow. *)
Lemma number_option_stores arg lo hi store n c rest : classify arg = Number lo hi store ->
  0 <= n <= ULLONG_MAX -> lo <= n <= hi ->
  parse_args c (arg :: dec n :: rest) = parse_args (store c n) rest.
Proof.
  intros Hc Hn Hr. cbn [parse_args]. rewrite Hc. by rewrite parse_uint_dec.
Qed.

Lemma number_option_stores_witness :
  parse [str "-j"; dec 16] = MkParseResult (set_jobs Config_default 16) false 0.
Proof.
  unfold parse. rewrite (number_option_stores (str "-j") 1 4096 set_jobs 16 Config_default []);
    [vm_compute; reflexivity|reflexivity|unfold ULLONG_MAX; lia|lia].
Defined.

(** The number parser lets a minus sign through.  Whatever the range, a
    positive number of the range is also accepted when written as the negative
    number that wraps round to it, although only unsigned decimals are meant to
    be. *)
Lemma parse_uint_accepts_negative n lo hi : 0 < n <= ULLONG_MAX -> lo <= n <= hi ->
  parse_uint (x2d :: dec (ULLONG_MAX + 1 - n)) lo hi = Some n.
Proof.
  intros Hn Hr. unfold ULLONG_MAX in *.
  destruct (dec_ok (18446744073709551615 + 1 - n)) as (Hv & Hd & Hne);
    [unfold ULLONG_MAX; lia|].
  unfold parse_uint. rewrite strtoull_minus by (try done; rewrite Hv; unfold ULLONG_MAX; lia).
  rewrite Hv. replace (- (18446744073709551615 + 1 - n))
    with (n + (-1) * 18446744073709551616) by lia.
  unfold u64. rewrite Z.mod_add, Z.mod_small by lia.
  by rewrite (proj2 (Z.ltb_ge n lo)), (proj2 (Z.ltb_ge hi n)) by lia.
Qed.

(** "-18446744073709551612" is 4. *)
Lemma parse_uint_accepts_negative_witness :
  parse_uint (str "-18446744073709551612") 1 4096 = Some 4.
Proof.
  change (str "-18446744073709551612") with (x2d :: str "18446744073709551612").
  assert (str "18446744073709551612" = dec (ULLONG_MAX + 1 - 4)) as -> by (vm_compute; reflexivity).
  apply (parse_uint_accepts_negative 4 1 4096); unfold ULLONG_MAX; lia.
Defined.
