(* ===== verification/Main.v ===== *)
(** * The program ([src/main.cpp])

    The order in which [main] sets things up, starts, joins and tears down the
    workers, the queues it binds, its exit code and the counters line.  A run is
    recorded as the list of the actions it performs; what a worker's thread did
    is the parameter [after], the worker as it is once joined, and whether a thread
    can be created the parameter [creates].  [Program] has the threads and the
    signals, [Text] what is printed. *)
From S2P Require Import Prelude Extractor ExtractorInv ExtractorSpec BlockList NFQueue Worker Cli.

(** ** The counters line *)

Record Stats := MkStats {
  rx : Z; verdicts : Z; held_now : Z; flows : Z; blocked : Z; dropped_at_cap : Z; undecided : Z
}.

Section main.
  Context {K R : Type} `{!Netfilter K} `{!Pcpp R} `{!MapOrder}.
  Abbreviation WorkerKR := (Worker (K := K) (R := R)).
  Implicit Types w : WorkerKR.

Definition add_stats (s : Stats) w : Stats :=
  let q := queue (_queue w) in
  MkStats (u64 (rx s + packets_received q)) (u64 (verdicts s + verdicts_issued q))
    (u64 (held_now s + outstanding q)) (u64 (flows s + Z.of_nat (tracked_flows (_tls w))))
    (u64 (blocked s + Z.of_nat (blocked_flows (_tls w))))
    (u64 (dropped_at_cap s + flows_dropped_at_cap (_tls w)))
    (u64 (undecided s + packets_undecided q)).

Definition stats_line (ws : list WorkerKR) : Stats :=
  fold_left add_stats ws (MkStats 0 0 0 0 0 0 0).

(** ** The run *)

Inductive Action :=
| BindQueue (num : Z)
| InstallSignalHandlers
| StartWorker (i : nat)
| JoinWorker (i : nat)
| WriteStopFd
| DestroyWorkers
| CloseStopFd.

Definition worker_queue (c : Config) (i : nat) : Z := u16 (queue_num c + Z.of_nat i).

Definition worker_cpu (c : Config) (i : nat) : Z :=
  if 0 <=? pin_first_cpu c then pin_first_cpu c + Z.of_nat i * pin_stride c else -1.

(** The constructor loop: [n] workers still to build, from number [i] on.  [None]
    when a queue cannot be bound, with the actions so far either way. *)
Fixpoint build_workers (c : Config) (stop_fd : Z) (r : R) (n i : nat) (k : K)
    : option (list WorkerKR) * list Action :=
  match n with
  | O => (Some [], [])
  | S n =>
      match NFQueue_ctor (worker_queue c i) stop_fd (queue_maxlen c) (recv_buf_per_worker c) k with
      | (Throws _ _, _) => (None, [])
      | (Ready q, kt) =>
          let w := Worker_ctor q kt.1 r kDefaultMaxFlows (Z.to_nat (max_blocked_flows c)) in
          let '(ws, acts) := build_workers c stop_fd r n (S i) kt.1 in
          ((λ ws, w :: ws) <$> ws, BindQueue (worker_queue c i) :: acts)
      end
  end.

(** The loop that starts [n] workers from number [i] on, of which the [j]-th needs
    [creates j], that [std::thread] can be constructed; whether none threw, and
    the actions so far either way. *)
Fixpoint start_workers (creates : nat -> bool) (n i : nat) : bool * list Action :=
  match n with
  | O => (true, [])
  | S n =>
      if creates i then
        let '(started, acts) := start_workers creates n (S i) in (started, StartWorker i :: acts)
      else (false, [])
  end.

(** The end of [main], on every path that got as far as the stop fd. *)
Definition teardown : list Action := [WriteStopFd; DestroyWorkers; CloseStopFd].

(** [main]: the exit code, the actions, and the workers whose counters the final
    line adds up.  [creates j] is whether the [j]-th thread can be created, the
    statistics thread being the last; if not, the exception leaves the [try]
    block, and the destructors join what has been started. *)
Definition main (args : list bytes) (file : bytes -> option bytes) (stop_fd : Z) (r : R) (k : K)
    (creates : nat -> bool) (after : nat -> WorkerKR -> WorkerKR) : Z * list Action * list WorkerKR :=
  let parsed := parse args in
  if should_exit parsed then (exit_code parsed, [], [])
  else
    let cfg := config parsed in
    match BlockList_ctor (file (blocklist_path cfg)) with
    | None => (1, [], [])
    | Some blocklist =>
      if stop_fd <? 0 then (1, [], [])
      else
        let n := Z.to_nat (worker_count cfg) in
        match build_workers cfg stop_fd r n 0 k with
        | (None, acts) => (1, acts ++ teardown, [])
        | (Some ws, acts) =>
            let '(started, starts) := start_workers creates n 0 in
            if negb started || (0 <? stats_interval_s cfg) && negb (creates n) then
              (1, acts ++ [InstallSignalHandlers] ++ starts ++ teardown, [])
            else
              let ended := imap after ws in
              let rc := if existsb (λ w, failed (queue (_queue w))) ended then 1 else 0 in
              (rc, acts ++ [InstallSignalHandlers] ++ starts ++ map JoinWorker (seq 0 n) ++ teardown, ended)
        end
    end.

(** ** Facts *)

Lemma build_workers_acts c fd r n : forall i k ws acts,
  build_workers c fd r n i k = (ws, acts) ->
  match ws with
  | Some ws => length ws = n /\ acts = map (λ j, BindQueue (worker_queue c j)) (seq i n) /\
      Forall (λ w, Account w) ws
  | None => exists m, (m < n)%nat /\ acts = map (λ j, BindQueue (worker_queue c j)) (seq i m)
  end.
Proof.
  induction n as [|n IH]; intros i k ws acts; simpl; [by intros [= <- <-]|].
  pose proof (ctor_no_leak (worker_queue c i) fd (queue_maxlen c) (recv_buf_per_worker c) k) as Hq.
  unfold no_leak in Hq.
  destruct (NFQueue_ctor _ _ _ _ k) as [[q|what err] kt] eqn:E.
  2: { intros [= <- <-]. exists 0%nat. split; [lia|done]. }
  destruct Hq as [_ ->].
  destruct (build_workers c fd r n (S i) kt.1) as [ws' acts'] eqn:Eb. intros [= <- <-].
  specialize (IH _ _ _ _ Eb). destruct ws' as [ws'|]; simpl.
  - destruct IH as (Hn & -> & Hacc). split_and!; [congruence|done|].
    constructor; [|done]. by apply ctor_account.
  - destruct IH as (m & Hm & ->). exists (S m). split; [lia|done].
Qed.

(** How far the start loop gets, and whether the statistics thread is made. *)
Lemma start_workers_spec creates n : forall i, exists m, (start_workers creates n i).2 = map StartWorker (seq i m) /\
  (forall j, (i <= j < i + m)%nat -> creates j = true) /\
  if (start_workers creates n i).1 then m = n else (m < n)%nat /\ creates (i + m)%nat = false.
Proof.
  induction n as [|n IH]; intros i; simpl; [exists 0%nat; split_and!; [done|intros; lia|done]|].
  destruct (creates i) eqn:Hc.
  - destruct (IH (S i)) as (m & Ha & Hj & Hm). destruct (start_workers creates n (S i)) as [ok acts].
    simpl in *. exists (S m). rewrite Ha. split_and!; [done| |].
    + intros j Hlt. destruct (base.decide (j = i)) as [->|]; [done|]. apply Hj. lia.
    + destruct ok; [lia|]. destruct Hm. split; [lia|]. by rewrite <- plus_n_Sm.
  - exists 0%nat. split_and!; [done|intros; lia|]. rewrite Nat.add_0_r. split; [lia|done].
Qed.

Definition all_threads c (creates : nat -> bool) (n : nat) : bool :=
  negb (negb (start_workers creates n 0).1 || (0 <? stats_interval_s c) && negb (creates n)).

Lemma start_workers_cases c creates n : exists m, (m <= n)%nat /\
  (start_workers creates n 0).2 = map StartWorker (seq 0 m) /\
  if all_threads c creates n then m = n else creates m = false.
Proof.
  destruct (start_workers_spec creates n 0) as (m & Ha & _ & Hm). exists m. unfold all_threads.
  destruct (start_workers creates n 0) as [ok acts]. simpl in *. destruct ok; simpl.
  - subst m. split_and!; [done|done|]. destruct (0 <? _); simpl; [|done]. by destruct (creates n).
  - destruct Hm. split_and!; [lia|done|done].
Qed.

(** When all threads can be created, and when exactly the [m]-th cannot. *)
Lemma start_workers_all n : start_workers (λ _, true) n 0 = (true, map StartWorker (seq 0 n)).
Proof.
  destruct (start_workers_spec (λ _, true) n 0) as (m & Ha & _ & Hm).
  destruct (start_workers _ _ _) as [[] acts]; simpl in *; [congruence|]. by destruct Hm.
Qed.

Lemma start_workers_until n m : (m <= n)%nat ->
  start_workers (λ j, negb (j =? m)%nat) n 0 = ((m =? n)%nat, map StartWorker (seq 0 m)).
Proof.
  intros Hm. destruct (start_workers_spec (λ j, negb (j =? m)%nat) n 0) as (m' & Ha & Hj & Hm').
  destruct (start_workers _ _ _) as [started acts]. simpl in *.
  assert (m' = m) as ->.
  { destruct (Nat.lt_trichotomy m' m) as [Hlt|[?|Hlt]]; [|done|].
    - destruct started; [lia|]. destruct Hm' as [_ Hm']. apply negb_false_iff, Nat.eqb_eq in Hm'. lia.
    - specialize (Hj m ltac:(lia)). by rewrite Nat.eqb_refl in Hj. }
  rewrite Ha. f_equal. destruct started; [subst; by rewrite Nat.eqb_refl|].
  symmetry. apply Nat.eqb_neq. lia.
Qed.

Lemma no_start_in_binds c (l : list nat) i :
  StartWorker i ∉ map (λ j, BindQueue (worker_queue c j)) l ++ teardown.
Proof.
  rewrite list_elem_of_In, in_app_iff, in_map_iff. intros [(j & ? & _)|Hin]; [done|].
  by repeat (destruct Hin as [Hin|Hin]).
Qed.

(** ** Adding counters *)

Lemma stats_fold (f : Stats -> Z) (g : WorkerKR -> Z) ws s :
  (forall s w, f (add_stats s w) = u64 (f s + g w)) ->
  f (fold_left add_stats ws s) = match ws with [] => f s | _ => u64 (f s + foldr (λ w a, g w + a) 0 ws) end.
Proof.
  intros Hf. revert s. induction ws as [|w ws IH]; intros s; [done|]. simpl. rewrite IH, Hf.
  destruct ws as [|w' ws]; [simpl; by rewrite Z.add_0_r|].
  unfold u64. rewrite Zplus_mod_idemp_l. f_equal. lia.
Qed.

Lemma stats_zero (f : Stats -> Z) (g : WorkerKR -> Z) ws s :
  (forall s w, f (add_stats s w) = u64 (f s + g w)) -> f s = 0 ->
  Forall (λ w, g w = 0) ws -> f (fold_left add_stats ws s) = 0.
Proof.
  intros Hf. revert s. induction ws as [|w ws IH]; intros s Hs Hws; [done|].
  destruct (Forall_cons_1 _ _ _ Hws) as [Hw Hws']. simpl. apply IH; [|done].
  by rewrite Hf, Hs, Hw.
Qed.

Lemma stats_same (f f' : Stats -> Z) (g g' : WorkerKR -> Z) ws : forall s,
  (forall s w, f (add_stats s w) = u64 (f s + g w)) ->
  (forall s w, f' (add_stats s w) = u64 (f' s + g' w)) -> f s = f' s ->
  Forall (λ w, g w = g' w) ws -> f (fold_left add_stats ws s) = f' (fold_left add_stats ws s).
Proof.
  induction ws as [|w ws IH]; intros s Hf Hf' Hs Hws; [done|].
  destruct (Forall_cons_1 _ _ _ Hws) as [Hw Hws']. simpl. apply IH; try done.
  by rewrite Hf, Hf', Hs, Hw.
Qed.

(** No queue of these workers gave up. *)
Definition none_failed (ws : list WorkerKR) : bool :=
  negb (existsb (λ w, failed (queue (_queue w))) ws).

Lemma none_failed_spec ws : none_failed ws = true <->
  Forall (λ w, failed (queue (_queue w)) = false) ws.
Proof.
  unfold none_failed. rewrite negb_true_iff, <- not_true_iff_false, existsb_exists, List.Forall_forall.
  split.
  - intros Hne w Hw. destruct (failed _) eqn:Ef; [|done]. destruct Hne. eauto.
  - intros Hall (w & Hw & Hfw). rewrite (Hall w Hw) in Hfw. done.
Qed.

(** A worker whose loop has ended. *)
Definition ended (w : WorkerKR) : Prop :=
  exists blist verbose passthrough clock fuel w0, Account w0 /\
    loop blist verbose passthrough clock fuel w0 = Ok w.

Lemma ended_answered w : (forall k rv msgs k', recv (K := K) k = (rv, msgs, k') -> Forall msg_ok msgs) ->
  ended w -> answered w.
Proof.
  intros Hrecv (bl & vb & pt & ck & fuel & w0 & H0 & Hl).
  destruct (loop_account bl vb pt ck Hrecv fuel w0 H0) as [Hf|(w1 & H1 & Hacc & Hst & _)];
    rewrite Hl in *; [done|]. by injection H1 as <-.
Qed.

(** The counters line over workers that have answered everything. *)
Lemma answered_stats ws : accepts (K := K) -> Forall (λ w, answered w) ws ->
  let s := stats_line ws in verdicts s = rx s /\ held_now s = 0 /\ undecided s = 0.
Proof.
  intros Ha Hws s. assert (Forall (λ w, verdicts_issued (queue (_queue w)) =
      packets_received (queue (_queue w)) /\ packets_undecided (queue (_queue w)) = 0 /\
      outstanding (queue (_queue w)) = 0) ws) as Hb.
  { eapply List.Forall_impl; [|exact Hws]. intros w Hw. by apply answered_balanced. }
  apply List.Forall_and_inv in Hb as [Hb1 Hb2]. apply List.Forall_and_inv in Hb2 as [Hb2 Hb3].
  unfold s, stats_line. split_and!.
  - by apply (stats_same _ _ (λ w, verdicts_issued (queue (_queue w)))
      (λ w, packets_received (queue (_queue w)))).
  - by apply (stats_zero _ (λ w, outstanding (queue (_queue w)))).
  - by apply (stats_zero _ (λ w, packets_undecided (queue (_queue w)))).
Qed.

Lemma queue_range c : Config_ok c -> queue_num c + jobs c - 1 <= 65535 ->
  map (λ j, BindQueue (worker_queue c j)) (seq 0 (Z.to_nat (worker_count c))) =
  map BindQueue (seqZ (queue_num c) (jobs c)) /\ worker_count c = jobs c.
Proof.
  intros [] Hr. assert (worker_count c = jobs c) as Hw
    by (unfold worker_count; by rewrite (proj2 (Z.ltb_lt 0 _)) by lia).
  split; [|done]. rewrite Hw. unfold seqZ. rewrite List.map_map.
  apply List.map_ext_in. intros j Hj%in_seq. unfold worker_queue. rewrite u16_id by lia.
  f_equal. lia.
Qed.

(** The ways a run of [main] ends: before any worker starts, on a thread that
    cannot be created, or at the end of the [try] block. *)
Lemma main_cases args file fd r k creates after rc acts ws :
  main args file fd r k creates after = (rc, acts, ws) ->
  let c := config (parse args) in
  (should_exit (parse args) = true /\ rc = exit_code (parse args) /\ acts = [] /\ ws = []) \/
  (should_exit (parse args) = false /\ rc = 1 /\ ws = [] /\
     (acts = [] \/ exists l, acts = map (λ j, BindQueue (worker_queue c j)) l ++ teardown)) \/
  (should_exit (parse args) = false /\ rc = 1 /\ ws = [] /\
   Config_ok c /\ queue_num c + jobs c - 1 <= 65535 /\ exists m, Z.of_nat m <= jobs c /\ creates m = false /\
     acts = map BindQueue (seqZ (queue_num c) (jobs c)) ++ [InstallSignalHandlers] ++
       map StartWorker (seq 0 m) ++ teardown) \/
  (should_exit (parse args) = false /\ (exists ws0, length ws0 = Z.to_nat (jobs c) /\
     Forall (λ w, Account w) ws0 /\ ws = imap after ws0) /\
   rc = (if existsb (λ w, failed (queue (_queue w))) ws then 1 else 0) /\
   Config_ok c /\ queue_num c + jobs c - 1 <= 65535 /\
   acts = map BindQueue (seqZ (queue_num c) (jobs c)) ++ [InstallSignalHandlers] ++
     map StartWorker (seq 0 (Z.to_nat (jobs c))) ++ map JoinWorker (seq 0 (Z.to_nat (jobs c)))
     ++ teardown).
Proof.
  intros Hm c. unfold main in Hm.
  pose proof (parse_args_ok args Config_default Config_default_ok) as Hp.
  change (parse_args Config_default args) with (parse args) in Hp. cbv zeta in Hp.
  destruct (should_exit (parse args)); [left; by injection Hm as <- <- <-|right].
  destruct Hp as (He & Hok & Hr). fold c in Hok, Hr, Hm.
  destruct (BlockList_ctor _) as [bl|]; [|left; injection Hm as <- <- <-; by split_and!; [..|left]].
  destruct (fd <? 0); [left; injection Hm as <- <- <-; by split_and!; [..|left]|].
  destruct (queue_range c Hok Hr) as [Hq Hw].
  destruct (build_workers c fd r (Z.to_nat (worker_count c)) 0 k) as [ws0 acts0] eqn:Eb.
  apply build_workers_acts in Eb. rename Hm into Hm'. destruct ws0 as [ws0|].
  - destruct Eb as (Hn & -> & Hacc). rewrite Hq, Hw in *.
    destruct (start_workers_cases c creates (Z.to_nat (jobs c))) as (m & Hm & Hs & Hall).
    unfold all_threads in Hall. destruct (start_workers _ _ _) as [started starts]. cbn [fst snd] in *.
    destruct (negb started || _); injection Hm' as <- <- <-; simpl negb in Hall; right.
    + left. split_and!; try done. exists m. rewrite Hs. destruct Hok. split_and!; [lia|done|done].
    + right. rewrite Hs, Hall. split_and!; try done. by exists ws0.
  - left. injection Hm' as <- <- <-. destruct Eb as (m & _ & ->). split_and!; try done. right. by exists (seq 0 m).
Qed.

(** * Properties *)

(** C37: no worker runs unless every queue is bound.  Either [main] binds the
    queues from [-nfq] on, one per job, without a gap or a wrap, as the balance
    rule expects, and only then starts workers, all of them unless a thread
    cannot be created, in which case it starts no more of them, tears down what
    there is and returns 1; or it starts none, and unless the command line asked
    to exit, its exit code is 1. *)
Theorem main_binds_all_or_nothing args file fd r k creates after rc acts ws :
  main args file fd r k creates after = (rc, acts, ws) ->
  let c := config (parse args) in
  (exists rest m, acts = map BindQueue (seqZ (queue_num c) (jobs c)) ++ InstallSignalHandlers :: rest /\
     0 <= queue_num c /\ 1 <= jobs c /\ queue_num c + jobs c - 1 = last_queue_num c /\
     (forall i, StartWorker i ∈ acts <-> (i < m)%nat) /\
     ((Z.of_nat m = jobs c /\ Z.of_nat (length ws) = jobs c) \/
      (Z.of_nat m <= jobs c /\ creates m = false /\ rc = 1 /\ ws = [] /\
       rest = map StartWorker (seq 0 m) ++ teardown))) \/
  ((forall i, StartWorker i ∉ acts) /\ ws = [] /\ (should_exit (parse args) = false -> rc = 1)).
Proof.
  intros Hm c.
  assert (forall (l2 : list Action) m, (forall i, StartWorker i ∉ l2) -> forall i,
    StartWorker i ∈ map BindQueue (seqZ (queue_num c) (jobs c)) ++ [InstallSignalHandlers] ++
      map StartWorker (seq 0 m) ++ l2 <-> (i < m)%nat) as Hstarts.
  { intros l2 m Hl2 i. specialize (Hl2 i). rewrite list_elem_of_In in Hl2.
    rewrite list_elem_of_In, !in_app_iff, !in_map_iff. split.
    - intros [(j & ? & _)|[Hi|[(j & [= ->] & Hj%in_seq)|Hi]]]; try done; [|lia]. by destruct Hi.
    - intros Hi. right. right. left. exists i. split; [done|]. apply in_seq. lia. }
  assert (forall c0, Config_ok c0 -> queue_num c0 + jobs c0 - 1 <= 65535 ->
    0 <= queue_num c0 /\ 1 <= jobs c0 /\ queue_num c0 + jobs c0 - 1 = last_queue_num c0) as Hrange.
  { intros c0 [] Hr. split_and!; [lia|lia|]. unfold last_queue_num, worker_count.
    rewrite (proj2 (Z.ltb_lt 0 _)) by lia. by unwrap. }
  destruct (main_cases _ _ _ _ _ _ _ _ _ _ Hm)
    as [(He & _ & -> & ->)|[(_ & -> & -> & Ha)|[(_ & -> & -> & Hok & Hr & m & Hmj & Hcr & ->)
      |(_ & (ws0 & Hn & _ & ->) & _ & Hok & Hr & ->)]]].
  - right. split_and!; [set_solver|done|by rewrite He].
  - right. split_and!; [|done|done]. intros i.
    destruct Ha as [->|(l & ->)]; [set_solver|apply no_start_in_binds].
  - left. fold c in Hmj, Hok, Hr |- *. destruct (Hrange c Hok Hr) as (H1 & H2 & H3). eexists _, m. split; [reflexivity|].
    split_and!; [done|done|done| |by right]. apply Hstarts. intros i. exact (no_start_in_binds c [] i).
  - left. fold c in Hn, Hok, Hr |- *. destruct (Hrange c Hok Hr) as (H1 & H2 & H3). eexists _, (Z.to_nat (jobs c)). split; [reflexivity|].
    split_and!; [done|done|done| |left; rewrite length_imap, Hn; lia]. apply Hstarts.
    intros i. rewrite elem_of_app, list_elem_of_fmap. intros [(j & ? & _)|Hi]; [done|].
    exact (no_start_in_binds c [] i Hi).
Qed.

(** The exit code tells success.  It is 0, 1 or 2; 2 exactly for a usage
    error, and 0 exactly when only the help was asked for or the workers ran to
    their end and none of their queues failed.  Every run that reports on its
    workers has joined each of them; it then writes the stop fd, destroys them and
    closes the fd. *)
Lemma main_exit_code args file fd r k creates after rc acts ws :
  main args file fd r k creates after = (rc, acts, ws) ->
  (rc = 0 \/ rc = 1 \/ rc = 2) /\
  (rc = 2 <-> should_exit (parse args) = true /\ exit_code (parse args) = 2) /\
  (rc = 0 <-> (should_exit (parse args) = true /\ exit_code (parse args) = 0) \/
     (ws <> [] /\ Forall (λ w, failed (queue (_queue w)) = false) ws)) /\
  (ws <> [] -> exists pre,
     acts = pre ++ map JoinWorker (seq 0 (length ws)) ++ [WriteStopFd; DestroyWorkers; CloseStopFd]).
Proof.
  intros Hm. pose proof (parse_args_ok args Config_default Config_default_ok) as Hp.
  change (parse_args Config_default args) with (parse args) in Hp. cbv zeta in Hp.
  destruct (main_cases _ _ _ _ _ _ _ _ _ _ Hm)
    as [(He & -> & -> & ->)|[(He & -> & -> & Ha)|[(He & -> & -> & _)|(He & (ws0 & Hn & _ & ->) & -> & Hok & Hr & ->)]]];
    rewrite He in *.
  - split_and!; [naive_solver|naive_solver| |done]. split; [auto|]. by intros [[]|[]].
  - split_and!; [auto|naive_solver|naive_solver|done].
  - split_and!; [auto|naive_solver|naive_solver|done].
  - set (ws := imap after ws0) in *. assert (length ws = length ws0) as Hlen by apply length_imap.
    assert (existsb (λ w, failed (queue (_queue w))) ws = false <->
      Forall (λ w, failed (queue (_queue w)) = false) ws) as Hf.
    { rewrite <- none_failed_spec. unfold none_failed. by rewrite negb_true_iff. }
    assert (ws <> []) as Hne.
    { intros Hnil. rewrite Hnil in Hlen. simpl in Hlen. destruct Hok. lia. }
    split_and!.
    + destruct (existsb _ ws); auto.
    + destruct (existsb _ ws); naive_solver.
    + rewrite <- Hf. destruct (existsb _ ws); naive_solver.
    + intros _. rewrite Hlen, Hn. eexists. rewrite !app_assoc. reflexivity.
Qed.

(** The final account balances.  Once every worker's loop has ended, on a
    kernel that takes its verdicts, the counters line shows as many verdicts as
    packets received, nothing outstanding and nothing undecided, over all
    workers and modulo the counters' width. *)
Lemma final_stats_balance ws :
  (forall k rv msgs k', recv (K := K) k = (rv, msgs, k') -> Forall msg_ok msgs) ->
  accepts (K := K) -> Forall ended ws ->
  let s := stats_line ws in verdicts s = rx s /\ held_now s = 0 /\ undecided s = 0.
Proof.
  intros Hrecv Ha Hws. apply answered_stats; [done|].
  eapply List.Forall_impl; [|exact Hws]. intros w Hw. by apply ended_answered.
Qed.

End main.

(** ** Witnesses *)

Definition demo_files (path : bytes) : option bytes := Some (str "blocked.example").

Definition demo_argv : list bytes := [str "-j"; str "2"; str "-nfq"; str "10"].

Definition demo_run (creates : nat -> bool) :=
  main (R := list Z) demo_argv demo_files 3 [] demo_kernel creates (λ _ w, w).

(** The second worker's thread cannot be created. *)
Definition one_thread (j : nat) : bool := (j <? 1)%nat.

Example demo_run_starts_one : (demo_run one_thread).1 =
  (1, map BindQueue [10; 11] ++ [InstallSignalHandlers; StartWorker 0] ++ teardown).
Proof. vm_compute. reflexivity. Qed.

Lemma main_binds_all_or_nothing_witness :
  exists rest m, (demo_run one_thread).1.2 = map BindQueue [10; 11] ++ InstallSignalHandlers :: rest /\
    (forall i, StartWorker i ∈ (demo_run one_thread).1.2 <-> (i < m)%nat).
Proof.
  destruct (main_binds_all_or_nothing demo_argv demo_files 3 [] demo_kernel one_thread (λ _ w, w)
    (demo_run one_thread).1.1 (demo_run one_thread).1.2 (demo_run one_thread).2)
    as [(rest & m & H1 & _ & _ & _ & H2 & _)|(H & _)].
  - unfold demo_run. by destruct (main _ _ _ _ _ _ _) as [[]].
  - exists rest, m. split; [exact H1|exact H2].
  - exfalso. apply (H 0%nat). rewrite demo_run_starts_one. right. right. right. left.
Defined.

Lemma main_exit_code_witness :
  (demo_run one_thread).1.1 = 0 \/ (demo_run one_thread).1.1 = 1 \/ (demo_run one_thread).1.1 = 2.
Proof.
  refine (proj1 (main_exit_code demo_argv demo_files 3 [] demo_kernel one_thread (λ _ w, w)
    (demo_run one_thread).1.1 (demo_run one_thread).1.2 (demo_run one_thread).2 _)).
  unfold demo_run. by destruct (main _ _ _ _ _ _ _) as [[]].
Defined.

Lemma demo_final_ended : ended demo_final.
Proof.
  exists demo_list, false, false, demo_clock, 4%nat, demo_worker.
  split; [exact demo_worker_account|exact demo_final_ok].
Qed.

Lemma final_stats_balance_witness :
  verdicts (stats_line [demo_final; demo_final]) = rx (stats_line [demo_final; demo_final]).
Proof.
  refine (proj1 (final_stats_balance [demo_final; demo_final] demo_msgs_ok _ _)).
  - intros k id code. discriminate.
  - repeat constructor; exact demo_final_ended.
Defined.
