(* ===== verification/Text.v ===== *)
(** * What the program prints ([src/cli.cpp], [src/main.cpp])

    The help text and the messages of [cli::parse], the banner, the counters line
    and the messages of [main].  The error stream is the list of messages written
    to it, each without the newline that ends it.  What [std::strerror] and the
    exceptions of the standard library say is a parameter.  The lines a verbose
    worker and the statistics thread write in between are not in these lists. *)
From S2P Require Import Prelude BlockList NFQueue Worker Cli Main.

(** ** The help text *)

Definition kProg : string := "PacketInspector".

Definition usage_lines : list string := [
  "usage: " ++ kProg ++ " [options] [blocklist]";
  "";
  "Attach to an NFQUEUE and DROP flows whose TLS SNI is on the blocklist;";
  "everything else is ACCEPTed.";
  "";
  "options:";
  "  -j <n>          workers to run. Each owns one NFQUEUE, one thread";
  "                  and one reassembler                    (default 4)";
  "  -nfq <n>        FIRST NFQUEUE number; worker i binds <n>+i, so the";
  "                  set must match iptables --queue-balance (default 0)";
  "  -nfq-size <n>   NFQUEUE depth in packets, per worker    (default 8192)";
  "  -rcvbuf <n>     netlink recv buffer in bytes, TOTAL across workers";
  "                                                     (default 256MiB)";
  "  -max-blocked <n>  blocked flows a worker remembers, so they cannot";
  "                  crowd out flows still awaiting a verdict";
  "                                            (default: a quarter of the";
  "                                             flow cap, i.e. 16384)";
  "  -b <path>       blocklist file (or pass it positionally)";
  "                                                 (default blocklist.txt)";
  "  -pin <cpu>      pin worker i to CPU <cpu> + i*stride; off by default";
  "  -pin-stride <n> CPU stride between workers, for SMT   (default 1)";
  "  -v, --verbose   log a line per resolved flow; off by default because";
  "                  at load it costs a write() per flow";
  "  --passthrough   allow every packet without inspecting; benchmark";
  "                  baseline for the NFQUEUE round trip alone";
  "  --stats <n>     print a counters line to stderr every n seconds";
  "                                                        (default off)";
  "  -h, --help      show this help and exit" ]%string.

(** The text, without its last newline. *)
Definition usage : bytes :=
  match map str usage_lines with
  | [] => []
  | l :: ls => l ++ concat (map (λ l, x0a :: l) ls)
  end.

(** ** The messages of [parse] *)

(** What a numeric option that was given something else expected. *)
Definition expected (arg : bytes) : string :=
  if is_opt arg "-j" then "-j expects an integer 1..4096"
  else if is_opt arg "-nfq" then "-nfq expects a queue number 0..65535"
  else if is_opt arg "-nfq-size" then "-nfq-size expects a positive integer"
  else if is_opt arg "-max-blocked" then "-max-blocked expects a positive integer"
  else if is_opt arg "-pin" then "-pin expects a CPU number 0..4095"
  else if is_opt arg "-pin-stride" then "-pin-stride expects 1..64"
  else if is_opt arg "-rcvbuf" then "-rcvbuf expects a positive byte count"
  else "--stats expects seconds 0..86400".

Definition not_a_number (arg val : bytes) : bytes := str (expected arg) ++ str ", got '" ++ val ++ str "'".
Definition requires_value (arg : bytes) : bytes := str "option " ++ arg ++ str " requires a value".
Definition unknown_option (arg : bytes) : bytes := str "unknown option: " ++ arg.

Definition range_message (c : Config) : bytes :=
  str "-nfq " ++ dec (queue_num c) ++ str " with -j " ++ dec (jobs c) ++
  str " would need queues up to " ++ dec (u64 (queue_num c + worker_count c - 1)) ++
  str ", past the 65535 maximum".

(** A result with what was written to [std::cout] and [std::cerr]. *)
Record Printed (A : Type) := MkPrinted { result : A; out : list bytes; err : list bytes }.
Arguments MkPrinted {A} _ _ _.
Arguments result {A} _.
Arguments out {A} _.
Arguments err {A} _.

(** The lambda [fail]. *)
Definition failing (c : Config) (msg : bytes) : Printed ParseResult :=
  MkPrinted (parse_fail c) [] [str kProg ++ str ": " ++ msg; usage].

Definition report_range (c : Config) : Printed ParseResult :=
  if 65535 <? u64 (queue_num c + worker_count c - 1) then failing c (range_message c)
  else MkPrinted (MkParseResult c false 0) [] [].

Fixpoint report_args (c : Config) (args : list bytes) : Printed ParseResult :=
  match args with
  | [] => report_range c
  | arg :: args =>
    match classify arg with
    | Help => MkPrinted (MkParseResult c true 0) [usage] []
    | Number lo hi store =>
        match args with
        | [] => failing c (requires_value arg)
        | val :: args =>
            match parse_uint val lo hi with
            | None => failing c (not_a_number arg val)
            | Some n => report_args (store c n) args
            end
        end
    | Path =>
        match args with
        | [] => failing c (requires_value arg)
        | val :: args => report_args (set_path c val) args
        end
    | Flag store => report_args (store c) args
    | Unknown => failing c (unknown_option arg)
    | Positional => report_args (set_path c arg) args
    end
  end.

(** [cli::parse] with its output. *)
Definition report (args : list bytes) : Printed ParseResult := report_args Config_default args.

(** The result, and the streams that go with the exit code. *)
Definition reports (p : Printed ParseResult) (r : ParseResult) : Prop :=
  result p = r /\
  if should_exit r then
    (exit_code r = 0 /\ out p = [usage] /\ err p = []) \/
    (exit_code r = 2 /\ out p = [] /\ exists msg, err p = [str kProg ++ str ": " ++ msg; usage])
  else out p = [] /\ err p = [].

Lemma failing_reports c msg : reports (failing c msg) (parse_fail c).
Proof. split; [done|]. right. split_and!; [done|done|by exists msg]. Qed.

Lemma report_args_spec n : forall args c, (length args < n)%nat ->
  reports (report_args c args) (parse_args c args).
Proof.
  induction n as [|n IH]; intros args c Hn; [lia|]. destruct args as [|arg args]; simpl in *.
  { unfold report_range, check_range. destruct (_ <? _); [apply failing_reports|by split]. }
  destruct (classify arg).
  - split; [done|]. by left.
  - destruct args as [|val args]; [apply failing_reports|].
    destruct (parse_uint val lo hi); [apply IH; simpl in *; lia|apply failing_reports].
  - destruct args as [|val args]; [apply failing_reports|]. apply IH; simpl in *; lia.
  - apply IH; lia.
  - apply failing_reports.
  - apply IH; lia.
Qed.

(** ** The options the help text lists *)

Fixpoint words (cur s : bytes) : list bytes :=
  match s with
  | [] => if decide (cur = []) then [] else [cur]
  | b :: s =>
      if decide (b = x20) then (if decide (cur = []) then [] else [cur]) ++ words [] s
      else words (cur ++ [b]) s
  end.

(** The names that a line starts with, [-v, --verbose], and what follows them. *)
Fixpoint names (ws : list bytes) : list bytes * list bytes :=
  match ws with
  | [] => ([], [])
  | w :: ws =>
      if decide (head (List.rev w) = Some x2c) then let '(ns, rest) := names ws in (removelast w :: ns, rest)
      else ([w], ws)
  end.

(** The options a line of the text introduces, and whether each takes a value. *)
Definition option_line (l : bytes) : list (bytes * bool) :=
  if decide (take 3 l = str "  -") then
    let '(ns, rest) := names (words [] l) in
    let value := match rest with (b :: _) :: _ => bool_decide (b = x3c) | _ => false end in
    map (λ n, (n, value)) ns
  else [].

Definition documented : list (bytes * bool) := getlines [] (usage ++ [x0a]) ≫= option_line.

Definition options : list (bytes * bool) :=
  [(str "-j", true); (str "-nfq", true); (str "-nfq-size", true); (str "-rcvbuf", true);
   (str "-max-blocked", true); (str "-b", true); (str "-pin", true); (str "-pin-stride", true);
   (str "-v", false); (str "--verbose", false); (str "--passthrough", false); (str "--stats", true);
   (str "-h", false); (str "--help", false)].

Lemma documented_options : documented = options.
Proof. vm_compute. reflexivity. Qed.

(** ** The counters line *)

Definition stats_text (s : Stats) : bytes :=
  str "rx=" ++ dec (rx s) ++ str " verdicts=" ++ dec (verdicts s) ++
  str " outstanding=" ++ dec (held_now s) ++ str " flows=" ++ dec (flows s) ++
  str " blocked=" ++ dec (blocked s) ++ str " dropped_at_cap=" ++ dec (dropped_at_cap s) ++
  str " undecided=" ++ dec (undecided s).

(** A reader of such lines: the name, then a decimal number. *)
Definition read_field (name : string) (s : bytes) : option (Z * bytes) :=
  let n := length (str name) in
  if decide (take n s = str name) then
    match span_while is_digit (drop n s) with
    | ([], _) => None
    | (ds, rest) => Some (digits_value ds, rest)
    end
  else None.

Definition read_stats (s : bytes) : option Stats :=
  a ← read_field "rx=" s; b ← read_field " verdicts=" a.2; c ← read_field " outstanding=" b.2;
  d ← read_field " flows=" c.2; e ← read_field " blocked=" d.2;
  f ← read_field " dropped_at_cap=" e.2; g ← read_field " undecided=" f.2;
  match g.2 with [] => Some (MkStats a.1 b.1 c.1 d.1 e.1 f.1 g.1) | _ => None end.

Lemma span_while_app f s t : Forall (λ b, f b = true) s ->
  match t with b :: _ => f b = false | [] => True end -> span_while f (s ++ t) = (s, t).
Proof.
  intros Hs Ht. induction Hs as [|b s Hb _ IH]; simpl; [|by rewrite Hb, IH].
  destruct t as [|b t]; [done|]. simpl. by rewrite Ht.
Qed.

Lemma read_field_dec name n t : 0 <= n <= ULLONG_MAX ->
  match t with b :: _ => is_digit b = false | [] => True end ->
  read_field name (str name ++ dec n ++ t) = Some (n, t).
Proof.
  intros Hn Ht. destruct (dec_ok n Hn) as (Hv & Hd & Hne). unfold read_field.
  rewrite take_app_length, decide_True, drop_app_length, span_while_app by done.
  destruct (dec n); [done|]. by rewrite Hv.
Qed.

Record Stats_ok (s : Stats) : Prop := {
  sk_rx : 0 <= rx s <= ULLONG_MAX;
  sk_verdicts : 0 <= verdicts s <= ULLONG_MAX;
  sk_held : 0 <= held_now s <= ULLONG_MAX;
  sk_flows : 0 <= flows s <= ULLONG_MAX;
  sk_blocked : 0 <= blocked s <= ULLONG_MAX;
  sk_dropped : 0 <= dropped_at_cap s <= ULLONG_MAX;
  sk_undecided : 0 <= undecided s <= ULLONG_MAX
}.

Lemma u64_ok n : 0 <= u64 n <= ULLONG_MAX.
Proof.
  unfold u64, ULLONG_MAX. pose proof (Z.mod_pos_bound n 18446744073709551616 ltac:(lia)). lia.
Qed.

Lemma read_stats_text s : Stats_ok s -> read_stats (stats_text s) = Some s.
Proof.
  intros []. unfold read_stats, stats_text.
  do 6 (rewrite read_field_dec by done; cbn [mbind option_bind fst snd]).
  rewrite <- (app_nil_r (dec (undecided s))), read_field_dec by done. by destruct s.
Qed.

Section program.
  Context {K R : Type} `{!Netfilter K}.
  Abbreviation WorkerKR := (Worker (K := K) (R := R)).
  Implicit Types w : WorkerKR.

Lemma stats_line_ok (ws : list WorkerKR) : Stats_ok (stats_line ws).
Proof.
  unfold stats_line. assert (forall s, Stats_ok s -> Stats_ok (fold_left add_stats ws s)) as H1.
  { induction ws as [|w ws IH]; intros s Hs; [done|]. apply IH. split; apply u64_ok. }
  apply H1. by split.
Qed.

(** ** [main] *)

  (** [std::strerror], the text of the [std::ios_base::failure] for a path, that of
      the [std::system_error] of a queue, and that of a thread that cannot be
      created. *)
  Context (strerror : Z -> string) (open_failure : bytes -> bytes) (system_error : string -> Z -> bytes)
    (thread_error : bytes).

Definition banner (c : Config) : bytes :=
  str "PacketInspector: " ++ dec (worker_count c) ++ str " worker(s) on queues " ++
  dec (queue_num c) ++ str ".." ++ dec (last_queue_num c) ++ str ", maxlen " ++
  dec (queue_maxlen c) ++ str "/queue, rcvbuf " ++
  dec (recv_buf_per_worker c / (1024 * 1024)) ++ str " MiB/queue, " ++
  str "blocklist '" ++ blocklist_path c ++ str "'" ++ [x0a] ++
  str "iptables must route to this exact range, e.g." ++ [x0a] ++
  str "  -j NFQUEUE --queue-balance " ++ dec (queue_num c) ++ str ":" ++
  dec (last_queue_num c) ++ str " --queue-bypass".

(** What the exception says when one of [n] queues from number [i] on cannot be
    bound. *)
Fixpoint bind_failure (c : Config) (stop_fd : Z) (n i : nat) (k : K) : bytes :=
  match n with
  | O => []
  | S n =>
      match NFQueue_ctor (worker_queue c i) stop_fd (queue_maxlen c) (recv_buf_per_worker c) k with
      | (Throws what err, _) => system_error what err
      | (Ready q, kt) => bind_failure c stop_fd n (S i) kt.1
      end
  end.

Definition undecided_warning (i : nat) w : bytes :=
  str "warning: worker " ++ dec (Z.of_nat i) ++ str " had " ++
  dec (packets_undecided (queue (_queue w))) ++
  str " packet(s) reach the end of the callback undecided; they were allowed".

Definition failure_line (i : nat) w : bytes :=
  str "fatal: worker " ++ dec (Z.of_nat i) ++ str " (queue " ++
  dec (_queue_num (queue (_queue w))) ++ str "): " ++ str (error strerror (queue (_queue w))).

(** What [start] prints when [pthread_setaffinity_np] returns [affinity i]. *)
Definition pin_warning (c : Config) (affinity : nat -> Z) (i : nat) : list bytes :=
  if (0 <=? worker_cpu c i) && negb (affinity i =? 0) then
    [str "warning: worker " ++ dec (Z.of_nat i) ++ str " could not pin to CPU " ++
     dec (worker_cpu c i) ++ str ": " ++ str (strerror (affinity i))]
  else [].

(** The report on worker [i] once it has ended. *)
Definition worker_report (i : nat) w : list bytes :=
  (if negb (packets_undecided (queue (_queue w)) =? 0) then [undecided_warning i w] else []) ++
  (if failed (queue (_queue w)) then [failure_line i w] else []).

Definition final_line (ws : list WorkerKR) : bytes := str "final: " ++ stats_text (stats_line ws).

(** [main], as in [Main.main], with what its own thread prints. *)
Definition main_report (args : list bytes) (file : bytes -> option bytes) (stop_fd stop_errno : Z)
    (r : R) (k : K) (creates : nat -> bool) (affinity : nat -> Z) (after : nat -> WorkerKR -> WorkerKR)
    : Printed Z :=
  let p := report args in
  let parsed := result p in
  if should_exit parsed then MkPrinted (exit_code parsed) (out p) (err p)
  else
    let cfg := config parsed in
    let path := blocklist_path cfg in
    match BlockList_ctor (file path) with
    | None => MkPrinted 1 (out p) (err p ++
        [str "fatal: cannot load blocklist '" ++ path ++ str "': " ++ open_failure path])
    | Some _ =>
      if stop_fd <? 0
      then MkPrinted 1 (out p) (err p ++ [str "fatal: eventfd: " ++ str (strerror stop_errno)])
      else
        let n := Z.to_nat (worker_count cfg) in
        let out := out p ++ [banner cfg] in
        match (build_workers cfg stop_fd r n 0 k).1 with
        | None => MkPrinted 1 out (err p ++ [str "fatal: " ++ bind_failure cfg stop_fd n 0 k])
        | Some ws =>
            let '(started, starts) := start_workers creates n 0 in
            let err := err p ++ concat (map (pin_warning cfg affinity) (seq 0 (length starts))) in
            if negb started || (0 <? stats_interval_s cfg) && negb (creates n) then
              MkPrinted 1 out (err ++ [str "fatal: " ++ thread_error])
            else
              let ended := imap after ws in
              MkPrinted (if existsb (λ w, failed (queue (_queue w))) ended then 1 else 0)
                (out ++ if verbose cfg then [x0a :: str "shutting down..."] else [])
                (err ++ final_line ended :: concat (imap worker_report ended))
        end
    end.

Definition fatal (m : bytes) : bool := bool_decide (take 7 m = str "fatal: ").

Lemma pin_warnings_not_fatal c affinity l :
  List.filter fatal (concat (map (pin_warning c affinity) l)) = [].
Proof.
  induction l as [|i l IH]; [done|]. cbn [map concat]. rewrite List.filter_app, IH, app_nil_r.
  unfold pin_warning. by destruct (_ && _).
Qed.

Lemma worker_report_fatal i w :
  List.filter fatal (worker_report i w) = if failed (queue (_queue w)) then [failure_line i w] else [].
Proof.
  unfold worker_report. rewrite List.filter_app.
  destruct (negb _); destruct (failed _); simpl; try done.
Qed.

Lemma reports_fatal ws : forall f, List.filter fatal (concat (imap (λ i, worker_report (f + i)) ws)) =
  concat (imap (λ i w, if failed (queue (_queue w)) then [failure_line (f + i) w] else []) ws).
Proof.
  induction ws as [|w ws IH]; intros f; [done|]. simpl.
  rewrite List.filter_app, worker_report_fatal. f_equal.
  assert (forall A (g : nat -> WorkerKR -> list A),
    imap ((λ i, g (f + i)%nat) ∘ S) ws = imap (λ i, g (S f + i)%nat) ws) as E.
  { intros A g. apply imap_ext. intros i x _. simpl. by rewrite <- plus_n_Sm. }
  specialize (IH (S f)). rewrite <- (E _ worker_report) in IH.
  rewrite <- (E _ (λ i w, if failed (queue (_queue w)) then [failure_line i w] else [])) in IH. exact IH.
Qed.

Lemma fatal_in l : (exists m, m ∈ l /\ fatal m = true) <-> List.filter fatal l <> [].
Proof.
  split.
  - intros (m & Hin%list_elem_of_In & Hm) Hnil.
    assert (In m (List.filter fatal l)) as Hf by (by apply filter_In). by rewrite Hnil in Hf.
  - destruct (List.filter fatal l) as [|m l'] eqn:El; [done|]. intros _. exists m.
    rewrite list_elem_of_In. apply filter_In. rewrite El. by left.
Qed.

(** The messages about the workers whose queues failed. *)
Definition failure_lines (ws : list WorkerKR) : list bytes :=
  concat (imap (λ i w, if failed (queue (_queue w)) then [failure_line i w] else []) ws).

Lemma failure_lines_some ws : failure_lines ws <> [] <-> existsb (λ w, failed (queue (_queue w))) ws = true.
Proof.
  unfold failure_lines. generalize failure_line. induction ws as [|w ws IH]; intros g; [done|].
  simpl. destruct (failed _); simpl; [done|]. exact (IH (λ i, g (S i))).
Qed.

Lemma ended_messages ws : List.filter fatal (final_line ws :: concat (imap worker_report ws)) = failure_lines ws.
Proof. exact (reports_fatal ws 0). Qed.

End program.

(** * Properties *)

(** C35: [parse] says what it did.  Its result is the one of [Cli.parse]; when the
    program is to go on nothing is written; help is the usage text on the
    standard output and exit code 0; an error is one message under the program's
    name and the usage text, both on the error stream, and exit code 2. *)
Theorem parse_reports args :
  let p := report args in let r := parse args in
  result p = r /\
  if should_exit r then
    (exit_code r = 0 /\ out p = [usage] /\ err p = []) \/
    (exit_code r = 2 /\ out p = [] /\ exists msg, err p = [str kProg ++ str ": " ++ msg; usage])
  else out p = [] /\ err p = [].
Proof. apply (report_args_spec (S (length args))). lia. Qed.

(** The help text is complete and true: the options it lists, read off its
    lines, are exactly those that the argument loop knows, each with a value in
    the text if the loop takes one. *)
Lemma usage_documents_options arg :
  match classify arg with
  | Help | Flag _ => (arg, false) ∈ documented
  | Number _ _ _ | Path => (arg, true) ∈ documented
  | Unknown | Positional => forall b, (arg, b) ∉ documented
  end.
Proof.
  rewrite documented_options. unfold classify, is_opt.
  repeat match goal with
  | |- context [bool_decide (arg = ?s)] =>
      destruct (bool_decide_reflect (arg = s)) as [->|];
        [apply (bool_decide_unpack _); vm_compute; exact I|cbn [orb]]
  end.
  assert (forall b, (arg, b) ∉ options).
  { intros b Hin%list_elem_of_In. unfold options in Hin. cbn [In] in Hin.
    repeat (destruct Hin as [[= <- _]|Hin]; [congruence|]). destruct Hin. }
  by destruct (bool_decide _).
Qed.

Section properties.
  Context {K R : Type} `{!Netfilter K}.
  Abbreviation WorkerKR := (Worker (K := K) (R := R)).

(** The counters line can be read back: from the text of any workers' line,
    a reader that knows the names recovers every counter. *)
Lemma stats_text_roundtrip (ws : list WorkerKR) :
  read_stats (stats_text (stats_line ws)) = Some (stats_line ws).
Proof. apply read_stats_text, stats_line_ok. Qed.

(** C36: [main] accounts for its failures.  It prints a message that starts with
    [fatal: ] exactly when it returns 1, on every path: no block list, no stop
    fd, a queue that cannot be bound, a thread that cannot be created, a worker
    whose queue failed.  When it got as far as joining the workers, the counters
    line is printed and the failed workers, and only they, have such a line each,
    with the number, the queue and the error; when a thread could not be created,
    that is the one such line and the workers are not reported on. *)
Theorem main_reports_failures strerror open_failure system_error thread_error args file stop_fd stop_errno
    (r : R) (k : K) creates affinity after :
  let p := main_report strerror open_failure system_error thread_error args file stop_fd stop_errno r k
             creates affinity after in
  let '(rc, acts, ended) := main args file stop_fd r k creates after in
  result p = rc /\ (rc = 1 <-> exists m, m ∈ err p /\ fatal m = true) /\
  (JoinWorker 0 ∈ acts -> final_line ended ∈ err p /\
     List.filter fatal (err p) = failure_lines strerror ended) /\
  (InstallSignalHandlers ∈ acts -> JoinWorker 0 ∉ acts ->
     List.filter fatal (err p) = [str "fatal: " ++ thread_error]).
Proof.
  unfold main_report, main. destruct (report_args_spec (S (length args)) args Config_default) as [Hres Hio]; [lia|].
  fold (report args) in Hres, Hio. fold (parse args) in Hres, Hio. rewrite !Hres.
  pose proof (parse_args_ok args Config_default Config_default_ok) as Hok.
  change (parse_args Config_default args) with (parse args) in Hok. cbv zeta in Hok.
  destruct (should_exit (parse args)) eqn:Hex.
  { cbn [result err fst snd]. split; [done|]. split; [|split; set_solver]. rewrite fatal_in.
    destruct Hio as [(-> & _ & ->)|(-> & _ & msg & ->)]; by split. }
  destruct Hio as [_ ->]. destruct Hok as (_ & Hok & Hrange). set (c := config (parse args)) in *. cbn [app].
  assert (forall l m, List.filter fatal l = [] -> fatal m = true ->
    1 = 1 <-> exists m', m' ∈ l ++ [m] /\ fatal m' = true) as Hone.
  { intros l m _ Hm. split; [|done]. intros _. exists m. split; [apply elem_of_app; right; by left|done]. }
  destruct (BlockList_ctor _); [|split_and!; [done|by apply (Hone [])|set_solver|set_solver]].
  destruct (stop_fd <? 0); [split_and!; [done|by apply (Hone [])|set_solver|set_solver]|].
  destruct (build_workers c stop_fd r (Z.to_nat (worker_count c)) 0 k) as [ws acts] eqn:Hb. cbn [fst].
  pose proof (build_workers_acts _ _ _ _ _ _ _ _ Hb) as Ha. destruct ws as [ws|].
  2: { destruct Ha as (m & _ & ->). split_and!; [done|by apply (Hone [])| |]; intros Hin; exfalso; revert Hin;
         rewrite elem_of_app, list_elem_of_fmap; unfold teardown; rewrite list_elem_of_In; simpl; naive_solver. }
  destruct Ha as (Hlen & -> & _). destruct (start_workers_cases c creates (Z.to_nat (worker_count c))) as (m & Hm & Hs & Hall).
  unfold all_threads in Hall. destruct (start_workers _ _ _) as [started starts]. cbn [fst snd] in *.
  set (pins := concat _). assert (List.filter fatal pins = []) as Hpins by apply pin_warnings_not_fatal.
  set (binds := map (λ j, BindQueue (worker_queue c j)) _).
  assert (JoinWorker 0 ∉ binds) as Hnb by (unfold binds; rewrite list_elem_of_fmap; by intros (? & ? & _)).
  assert (JoinWorker 0 ∉ starts) as Hns by (rewrite Hs, list_elem_of_fmap; by intros (? & ? & _)).
  destruct (negb started || _); cbn [result err].
  - split_and!; [done|by apply Hone| |].
    + intros Hin. exfalso. revert Hin Hnb Hns. rewrite !list_elem_of_In, in_app_iff. cbn [app In].
      rewrite in_app_iff. simpl. naive_solver.
    + intros _ _. by rewrite List.filter_app, Hpins.
  - rewrite fatal_in, List.filter_app, Hpins, ended_messages. cbn [app]. rewrite failure_lines_some.
    split_and!; [done|by destruct (existsb _ _)| |].
    + intros _. split; [apply elem_of_app; right; by left|done].
    + intros _ Hno. destruct Hno. rewrite elem_of_app. right. right. rewrite !elem_of_app. right. left.
      apply list_elem_of_fmap. exists 0%nat. split; [done|]. apply list_elem_of_In, in_seq.
      destruct (queue_range c Hok Hrange) as [_ ->]. destruct Hok. lia.
Qed.

End properties.
