(* ===== verification/Program.v ===== *)
(** * The running program ([src/main.cpp], [src/worker.cpp]: threads and signals)

    [main]'s thread, the workers' threads, the statistics thread and the signal
    handler, interleaved.  [Sys] is the state they share; [step] is the step
    relation.  [main]'s thread executes the statements of its [try] block and of
    what follows it, one at a time, and waits where [std::thread::join] waits.
    A worker's thread executes one turn of [loop] at a time (the only thing it
    shares is the stop fd, which a turn looks at once, in [poll]).  The handler
    interrupts any thread and is two steps, so that what it read can be out of
    date when it writes.

    The eventfd is the class [EventFd]; a kernel state [k] that a turn starts
    from is arbitrary but for the stop fd, whose readiness [poll] has to report
    truly ([sees]).  What C++ leaves undefined, or ends the process with, sets
    [misuse]: writing or polling a closed fd, touching a destroyed worker,
    leaving the scope of a joinable [std::thread], a fault inside a thread. *)
From S2P Require Import Prelude Packet Extractor ExtractorInv ExtractorSpec BlockList NFQueue Worker Cli Main.

(** [eventfd(0, EFD_NONBLOCK)], [write(fd, 1)], and whether [poll] finds the fd
    readable.  Nothing in the program reads it. *)
Class EventFd (E : Type) := {
  eventfd0 : E;
  efd_write : E -> E;
  efd_readable : E -> bool
}.

(** What [eventfd(2)] says: a new one is not readable; a write adds one, or fails
    when the counter is at its maximum, and either way it is not zero then. *)
Record EventFd_ok (E : Type) `{!EventFd E} : Prop := {
  new_not_readable : efd_readable eventfd0 = false;
  written_readable : forall e, efd_readable (efd_write e) = true
}.

(** ** State *)

Inductive Thread := MainThread | WorkerThread (i : nat) | StatsThread.

#[export] Instance Thread_eq_dec : EqDecision Thread.
Proof. solve_decision. Defined.

(** A [std::thread] object and what it runs. *)
Inductive Run := NotStarted | Running | Ended | Joined.

#[export] Instance Run_eq_dec : EqDecision Run.
Proof. solve_decision. Defined.

Definition joinable (t : Run) : bool :=
  match t with Running | Ended => true | NotStarted | Joined => false end.

(** Where the statistics thread is: at its loop's head, or [slept] milliseconds
    into an interval. *)
Inductive StatsPc := AtWhile | Sleeping (slept : Z).

(** The statements [main] executes once the stop fd exists. *)
Inductive Stmt :=
| Build (i : nat)
| Install
| StartW (i : nat)
| StartStats
| JoinW (i : nat)
| StopReporting
| JoinStats
| Report
| LeaveTry
| AskStop
| Destroy (i : nat)
| Cleared
| ResetFd
| CloseFd.

#[export] Instance Stmt_eq_dec : EqDecision Stmt.
Proof. solve_decision. Defined.

(** What a step is: it brings the program nearer to its end, or it is a turn or
    a nap after which the thread goes on, or a signal arrives. *)
Inductive Kind := Advance | Linger | Signal.

#[export] Instance Kind_eq_dec : EqDecision Kind.
Proof. solve_decision. Defined.

(** One step of the statistics thread's function: where it is then ([None]: it
    has returned) and whether it prints a line. *)
Definition stats_step (interval_s : Z) (reporting : bool) (pc : StatsPc) : option StatsPc * bool :=
  match pc with
  | AtWhile => (if reporting then Some (Sleeping 0) else None, false)
  | Sleeping slept =>
      if (slept <? interval_s * 1000) && reporting then (Some (Sleeping (slept + 100)), false)
      else if negb reporting then (None, false)
      else (Some AtWhile, true)
  end.

Section program.
  Context {K R E : Type} `{!Netfilter K} `{!Pcpp R} `{!MapOrder} `{!EventFd E}.
  Abbreviation WorkerKR := (Worker (K := K) (R := R)).

(** A worker of the vector: the object, its [_thread], the CPU it was pinned to,
    and whether it has not been destroyed. *)
Record Slot := MkSlot {
  wk : WorkerKR;
  _thread : Run;
  pinned : option Z;
  alive : bool
}.

(** The stop fd: the eventfd, whether it is open, [g_stop_fd], whether the
    handlers are installed, the handlers in flight (latest first) with what they
    read, and a count of the signals that found [g_stop_fd] set. *)
Record StopFd := MkStopFd {
  efd : E;
  fd_open : bool;
  g_stop_fd : Z;
  installed : bool;
  inflight : list (Thread * Z);
  signals : nat
}.

(** The statistics thread: [reporting], [stats], where it is, the lines printed. *)
Record StatsState := MkStatsState {
  reporting : bool;
  stats : Run;
  stats_pc : StatsPc;
  lines : list Stats
}.

(** [todo] is what [main] has left to execute, [boot] the kernel that the queues
    being set up see; [trace], [final] and [thrown] are ghosts: the actions so
    far, the workers of the final report, whether a thread could not be made. *)
Record Sys := MkSys {
  todo : list Stmt;
  boot : K;
  fleet : list Slot;
  stop : StopFd;
  stat : StatsState;
  rc : Z;
  trace : list Action;
  final : list WorkerKR;
  thrown : bool;
  misuse : bool
}.

Definition set_todo (s : Sys) l :=
  MkSys l (boot s) (fleet s) (stop s) (stat s) (rc s) (trace s) (final s) (thrown s) (misuse s).
Definition set_fleet (s : Sys) f :=
  MkSys (todo s) (boot s) f (stop s) (stat s) (rc s) (trace s) (final s) (thrown s) (misuse s).
Definition set_stop (s : Sys) x :=
  MkSys (todo s) (boot s) (fleet s) x (stat s) (rc s) (trace s) (final s) (thrown s) (misuse s).
Definition set_stat (s : Sys) x :=
  MkSys (todo s) (boot s) (fleet s) (stop s) x (rc s) (trace s) (final s) (thrown s) (misuse s).
Definition set_rc (s : Sys) x :=
  MkSys (todo s) (boot s) (fleet s) (stop s) (stat s) x (trace s) (final s) (thrown s) (misuse s).
Definition set_final (s : Sys) ws :=
  MkSys (todo s) (boot s) (fleet s) (stop s) (stat s) (rc s) (trace s) ws (thrown s) (misuse s).
Definition act (s : Sys) (a : Action) :=
  MkSys (todo s) (boot s) (fleet s) (stop s) (stat s) (rc s) (trace s ++ [a]) (final s) (thrown s)
    (misuse s).
Definition set_thrown (s : Sys) :=
  MkSys (todo s) (boot s) (fleet s) (stop s) (stat s) (rc s) (trace s) (final s) true (misuse s).
(** [misuse] from now on, when [b]. *)
Definition flag (s : Sys) (b : bool) :=
  MkSys (todo s) (boot s) (fleet s) (stop s) (stat s) (rc s) (trace s) (final s) (thrown s)
    (misuse s || b).

Definition set_slot (s : Sys) (i : nat) (sl : Slot) : Sys := set_fleet s (<[i := sl]> (fleet s)).
Definition set_thread (sl : Slot) (t : Run) : Slot := MkSlot (wk sl) t (pinned sl) (alive sl).

(** ** The signal handler *)

(** [on_signal] in thread [t], up to the write. *)
Definition on_signal (t : Thread) (p : StopFd) : StopFd :=
  if g_stop_fd p <? 0 then p
  else MkStopFd (efd p) (fd_open p) (g_stop_fd p) (installed p) ((t, g_stop_fd p) :: inflight p)
         (signals p).

(** The write of the handlers in flight [rest], and its return. *)
Definition write_stop (p : StopFd) (rest : list (Thread * Z)) : StopFd :=
  MkStopFd (efd_write (efd p)) (fd_open p) (g_stop_fd p) (installed p) rest (signals p).

(** From here on [SIGINT] and [SIGTERM] run the handler. *)
Definition install_signal_handlers (p : StopFd) : StopFd :=
  MkStopFd (efd p) (fd_open p) (g_stop_fd p) true (inflight p) (signals p).

Definition count_signal (p : StopFd) : StopFd :=
  MkStopFd (efd p) (fd_open p) (g_stop_fd p) (installed p) (inflight p)
    (if g_stop_fd p <? 0 then signals p else S (signals p)).

(** No handler is running in thread [t]. *)
Definition undisturbed (t : Thread) (s : Sys) : bool :=
  forallb (λ f, bool_decide (f.1 <> t)) (inflight (stop s)).

(** ** [main]'s statements *)

Section main_thread.
  Context (cfg : Config) (stop_fd : Z) (r : R).

(** The [try] block for [n] workers. *)
Definition try_block (n : nat) : list Stmt :=
  map Build (seq 0 n) ++ Install :: map StartW (seq 0 n) ++ StartStats ::
  map JoinW (seq 0 n) ++ [StopReporting; JoinStats; Report; LeaveTry].

(** What follows it: [workers.clear()] destroys the [n] workers there are. *)
Definition epilogue (n : nat) : list Stmt :=
  AskStop :: map Destroy (seq 0 n) ++ [Cleared; ResetFd; CloseFd].

(** Leaving the block destroys [stats]: fatal if it is joinable. *)
Definition leave_try (s : Sys) : Sys :=
  flag (set_todo s (epilogue (length (fleet s)))) (joinable (stats (stat s))).

(** The [catch]. *)
Definition unwind (s : Sys) : Sys := set_rc (leave_try s) 1.

Inductive Result := Next (s : Sys) | Raise (s : Sys) | Blocked.

(** [Worker::start]. *)
Definition start (i : nat) (sl : Slot) : Slot :=
  if joinable (_thread sl) then sl
  else MkSlot (wk sl) Running
         (if 0 <=? worker_cpu cfg i then Some (worker_cpu cfg i) else pinned sl) (alive sl).

(** [Worker::join]; [None] while it waits. *)
Definition join (sl : Slot) : option Slot :=
  if joinable (_thread sl) then
    if base.decide (_thread sl = Ended) then Some (set_thread sl Joined) else None
  else Some sl.

(** [Worker::~Worker], in the slot; [None] while it waits. *)
Definition Worker_dtor (sl : Slot) : option Slot :=
  sl ← join sl; Some (MkSlot (wk sl) (_thread sl) (pinned sl) false).

(** Apply [f] to worker [i], then record [acts]. *)
Definition on_slot (s : Sys) (i : nat) (f : Slot -> option Slot) (acts : list Action) : Result :=
  match fleet s !! i with
  | None => Next (flag s true)
  | Some sl =>
      match f sl with
      | None => Blocked
      | Some sl' => Next (foldl act (flag (set_slot s i sl') (negb (alive sl))) acts)
      end
  end.

(** One statement; [s] is the state with the statement taken off [todo]. *)
Definition exec (st : Stmt) (s : Sys) : Result :=
  match st with
  | Build i =>
      match NFQueue_ctor (worker_queue cfg i) stop_fd (queue_maxlen cfg) (recv_buf_per_worker cfg)
              (boot s) with
      | (Throws _ _, _) => Raise s
      | (Ready q, kt) =>
          let w := Worker_ctor q kt.1 r kDefaultMaxFlows (Z.to_nat (max_blocked_flows cfg)) in
          Next (MkSys (todo s) kt.1 (fleet s ++ [MkSlot w NotStarted None true]) (stop s) (stat s)
                  (rc s) (trace s ++ [BindQueue (worker_queue cfg i)]) (final s) (thrown s) (misuse s))
      end
  | Install =>
      Next (act (set_stop s (install_signal_handlers (stop s))) InstallSignalHandlers)
  | StartW i => on_slot s i (λ sl, Some (start i sl)) [StartWorker i]
  | StartStats =>
      let on := 0 <? stats_interval_s cfg in
      Next (set_stat s (MkStatsState on (if on then Running else NotStarted) AtWhile (lines (stat s))))
  | JoinW i => on_slot s i join [JoinWorker i]
  | StopReporting =>
      let t := stat s in Next (set_stat s (MkStatsState false (stats t) (stats_pc t) (lines t)))
  | JoinStats =>
      let t := stat s in
      if joinable (stats t) then
        if base.decide (stats t = Ended)
        then Next (set_stat s (MkStatsState (reporting t) Joined (stats_pc t) (lines t)))
        else Blocked
      else Next s
  | Report =>
      let ws := map wk (fleet s) in
      let bad := existsb (λ w, failed (queue (_queue w))) ws in
      Next (set_rc (set_final s ws) (if bad then 1 else rc s))
  | LeaveTry => Next (leave_try s)
  | AskStop =>
      let p := stop s in
      let s' := set_stop s (on_signal MainThread p) in
      Next (if g_stop_fd p <? 0 then s' else act s' WriteStopFd)
  | Destroy i => on_slot s i Worker_dtor []
  | Cleared => Next (act s DestroyWorkers)
  | ResetFd =>
      let p := stop s in
      Next (set_stop s (MkStopFd (efd p) (fd_open p) (-1) (installed p) (inflight p) (signals p)))
  | CloseFd =>
      let p := stop s in
      Next (act (flag (set_stop s (MkStopFd (efd p) false (g_stop_fd p) (installed p) (inflight p)
                                     (signals p))) (negb (fd_open p))) CloseStopFd)
  end.

(** The statements that create a thread may throw. *)
Definition may_throw (st : Stmt) : bool :=
  match st with StartW _ => true | StartStats => 0 <? stats_interval_s cfg | _ => false end.

(** [main] where the stop fd has just been opened. *)
Definition launched (k : K) : Sys :=
  MkSys (try_block (Z.to_nat (worker_count cfg))) k []
    (MkStopFd eventfd0 true stop_fd false [] 0) (MkStatsState false NotStarted AtWhile [])
    0 [] [] false false.

End main_thread.

(** ** Steps *)

Section steps.
  Context (cfg : Config) (blocklist : BlockList) (stop_fd : Z) (r : R).
  Context (clock : nat -> nat -> Z).

(** [poll] in state [k] reports the stop fd as it is: it fails, or it says
    whether the fd is readable. *)
Definition sees (readable : bool) (k : K) : Prop :=
  match poll k kIdlePoll with
  | Some (n, _, rev1, _) => if readable then n < 0 \/ 0 < n /\ rev1 <> 0 else 0 < n -> rev1 = 0
  | None => True
  end.

#[export] Instance sees_dec readable k : Decision (sees readable k).
Proof. unfold sees. destruct (poll k kIdlePoll) as [[[[n r0] r1] k']|]; [destruct readable|]; apply _. Defined.

(** A turn of worker [i], from kernel state [k]. *)
Definition turn_of (i : nat) (k : K) (w : WorkerKR) : outcome (bool * WorkerKR) :=
  turn blocklist (verbose cfg) (passthrough cfg) (clock i) (MkWorker (set_kernel (_queue w) k) (_tls w) (_reads w)).

(** A turn leaves its worker [w], and leaves the loop if [fin].  It polls the stop
    fd and touches the worker. *)
Definition turned (s : Sys) (i : nat) (sl : Slot) (fin : bool) (w : WorkerKR) : Sys :=
  flag (set_slot s i (MkSlot w (if fin then Ended else Running) (pinned sl) (alive sl)))
    (negb (alive sl && fd_open (stop s))).

(** A step of the statistics thread.  It touches what lives in the [try] block,
    and all workers. *)
Definition stats_moved (s : Sys) (pc : option StatsPc) (print : bool) : Sys :=
  let t := stat s in
  flag (set_stat s (MkStatsState (reporting t)
                      (match pc with Some _ => Running | None => Ended end)
                      (default (stats_pc t) pc)
                      (if print then lines t ++ [stats_line (map wk (fleet s))] else lines t)))
    (negb (existsb (λ st, match st with LeaveTry => true | _ => false end) (todo s)
           && forallb alive (fleet s))).

Definition signalled (s : Sys) (t : Thread) : Sys :=
  set_stop s (on_signal t (count_signal (stop s))).

(** A handler that read [fd] writes; [rest] are the others in flight. *)
Definition written (s : Sys) (fd : Z) (rest : list (Thread * Z)) : Sys :=
  flag (set_stop s (write_stop (stop s) rest)) (negb (fd_open (stop s)) || negb (fd =? stop_fd)).

(** A thread in which a signal can be delivered. *)
Definition running (t : Thread) (s : Sys) : bool :=
  match t with
  | MainThread => true
  | WorkerThread i => match fleet s !! i with
                      | Some sl => bool_decide (_thread sl = Running)
                      | None => false
                      end
  | StatsThread => bool_decide (stats (stat s) = Running)
  end.

Inductive step : Kind -> Sys -> Sys -> Prop :=
| step_main st rest s s' :
    todo s = st :: rest -> undisturbed MainThread s = true ->
    exec cfg stop_fd r st (set_todo s rest) = Next s' -> step Advance s s'
| step_raise st rest s s' :
    todo s = st :: rest -> undisturbed MainThread s = true ->
    exec cfg stop_fd r st (set_todo s rest) = Raise s' -> step Advance s (unwind s')
| step_no_thread st rest s :
    todo s = st :: rest -> undisturbed MainThread s = true ->
    may_throw cfg st = true -> step Advance s (unwind (set_thrown (set_todo s rest)))
| step_turn i k sl s fin w :
    fleet s !! i = Some sl -> _thread sl = Running -> undisturbed (WorkerThread i) s = true ->
    sees (efd_readable (efd (stop s))) k -> turn_of i k (wk sl) = Ok (fin, w) ->
    step (if fin then Advance else Linger) s (turned s i sl fin w)
| step_fault i k sl s f :
    fleet s !! i = Some sl -> _thread sl = Running -> undisturbed (WorkerThread i) s = true ->
    sees (efd_readable (efd (stop s))) k -> turn_of i k (wk sl) = Fault f ->
    step Linger s (flag s true)
| step_stats s pc print :
    stats (stat s) = Running -> undisturbed StatsThread s = true ->
    stats_step (stats_interval_s cfg) (reporting (stat s)) (stats_pc (stat s)) = (pc, print) ->
    step (match pc with Some _ => Linger | None => Advance end) s (stats_moved s pc print)
| step_signal t s :
    installed (stop s) = true -> running t s = true -> step Signal s (signalled s t)
| step_write s before t fd after :
    inflight (stop s) = before ++ (t, fd) :: after -> t ∉ map fst before ->
    step Advance s (written s fd (before ++ after)).

(** States the program can be in, from kernel state [k0] on. *)
Inductive reachable (k0 : K) : Sys -> Prop :=
| reachable_launched : reachable k0 (launched cfg stop_fd k0)
| reachable_step kind s s' : reachable k0 s -> step kind s s' -> reachable k0 s'.

(** Steps in a row. *)
Inductive steps : list Kind -> Sys -> Sys -> Prop :=
| steps_nil s : steps [] s s
| steps_cons kind kinds s s' s'' : step kind s s' -> steps kinds s' s'' -> steps (kind :: kinds) s s''.

(** ** A scheduler

    Which step to take, and the state after it when it can be taken. *)

Inductive Move :=
| MainMoves
| NoThread
| TakesTurn (i : nat) (k : K)
| StatsMoves
| SignalIn (t : Thread)
| HandlerWrites.

Definition move (m : Move) (s : Sys) : option (Kind * Sys) :=
  match m with
  | MainMoves =>
      match todo s with
      | st :: rest =>
          if undisturbed MainThread s then
            match exec cfg stop_fd r st (set_todo s rest) with
            | Next s' => Some (Advance, s')
            | Raise s' => Some (Advance, unwind s')
            | Blocked => None
            end
          else None
      | [] => None
      end
  | NoThread =>
      match todo s with
      | st :: rest =>
          if undisturbed MainThread s && may_throw cfg st
          then Some (Advance, unwind (set_thrown (set_todo s rest))) else None
      | [] => None
      end
  | TakesTurn i k =>
      sl ← fleet s !! i;
      if bool_decide (_thread sl = Running) && undisturbed (WorkerThread i) s
         && bool_decide (sees (efd_readable (efd (stop s))) k)
      then match turn_of i k (wk sl) with
           | Ok (fin, w) => Some (if fin then Advance else Linger, turned s i sl fin w)
           | Fault _ => Some (Linger, flag s true)
           end
      else None
  | StatsMoves =>
      if bool_decide (stats (stat s) = Running) && undisturbed StatsThread s
      then let '(pc, print) :=
             stats_step (stats_interval_s cfg) (reporting (stat s)) (stats_pc (stat s)) in
           Some (match pc with Some _ => Linger | None => Advance end, stats_moved s pc print)
      else None
  | SignalIn t =>
      if installed (stop s) && running t s then Some (Signal, signalled s t) else None
  | HandlerWrites =>
      match inflight (stop s) with
      | (t, fd) :: rest => Some (Advance, written s fd rest)
      | [] => None
      end
  end.

(** A whole schedule. *)
Fixpoint perform (ms : list Move) (s : Sys) : option Sys :=
  match ms with
  | [] => Some s
  | m :: ms => ks ← move m s; perform ms (ks : Kind * Sys).2
  end.

Lemma move_step m s kind s' : move m s = Some (kind, s') -> step kind s s'.
Proof.
  destruct m as [| |i k| |t|]; simpl.
  - destruct (todo s) as [|st rest] eqn:Htd; [done|]. destruct (undisturbed MainThread s) eqn:Hu; [|done].
    destruct (exec _ _ _ _ _) as [s1|s1|] eqn:Hx; intros [= <- <-]; [by eapply step_main|by eapply step_raise].
  - destruct (todo s) as [|st rest] eqn:Htd; [done|].
    destruct (undisturbed MainThread s) eqn:Hu, (may_throw cfg st) eqn:Hth; intros [= <- <-]. by eapply step_no_thread.
  - destruct (fleet s !! i) as [sl|] eqn:Hsl; [|done]. simpl.
    destruct (bool_decide_reflect (_thread sl = Running)) as [Hrun|]; [|done].
    destruct (undisturbed (WorkerThread i) s) eqn:Hu; [|done].
    destruct (bool_decide_reflect (sees (efd_readable (efd (stop s))) k)) as [Hk|]; [|done]. simpl.
    destruct (turn_of i k (wk sl)) as [[fin w]|f] eqn:Ht; intros [= <- <-];
      [by eapply step_turn|by eapply step_fault].
  - destruct (bool_decide_reflect (stats (stat s) = Running)) as [Hrun|]; [|done].
    destruct (undisturbed StatsThread s) eqn:Hu; [|done]. simpl.
    destruct (stats_step _ _ _) as [pc print] eqn:Hst. intros [= <- <-]. by apply step_stats.
  - destruct (installed (stop s)) eqn:Hi, (running t s) eqn:Hr; intros [= <- <-]. by apply step_signal.
  - destruct (inflight (stop s)) as [|[t fd] rest] eqn:Hf; [done|]. intros [= <- <-].
    apply (step_write s [] t fd rest Hf). by intros ?%list_elem_of_In.
Qed.

Lemma perform_reachable k0 ms : forall s s', reachable k0 s -> perform ms s = Some s' -> reachable k0 s'.
Proof.
  induction ms as [|m ms IH]; intros s s' Hs Hp; simpl in Hp; [by injection Hp as <-|].
  destruct (move m s) as [[kind s1]|] eqn:Hm; [|done]. apply (IH s1); [|done].
  eapply reachable_step; [exact Hs|by eapply move_step].
Qed.

End steps.

End program.
