(* ===== verification/ProgramInv.v ===== *)
(** * The running program: invariant

    What the other threads and the handler cannot change of the state is its
    [view]; [At] says, for each place [main] can be at, what the view is there.
    [Sound] is the rest of the invariant: the workers, the handlers in flight and
    the stop fd. *)
From S2P Require Import Prelude Packet Extractor ExtractorInv ExtractorSpec BlockList NFQueue Worker Cli Main Program.

(** A thread as [main] knows it: not its own, or one to be joined, or joined. *)
Inductive Phase := Idle_ | Started | Done_.

Definition phase (t : Run) : Phase :=
  match t with NotStarted => Idle_ | Running | Ended => Started | Joined => Done_ end.

Section program.
  Context {K R E : Type} `{!Netfilter K} `{!Pcpp R} `{!MapOrder} `{!EventFd E}.
  Context (cfg : Config) (stop_fd : Z) (r : R) (k0 : K).
  Hypothesis stop_fd_valid : 0 <= stop_fd.
  #[local] Set Default Proof Using "Type*".
  Abbreviation WorkerKR := (Worker (K := K) (R := R)).
  Abbreviation SysKRE := (Sys (K := K) (R := R) (E := E)).
  Implicit Types s : SysKRE.

(** ** What only [main] changes *)

Record View := MkView {
  v_todo : list Stmt;
  v_boot : K;
  v_slots : list (Phase * option Z * bool);
  v_open : bool;
  v_fd : Z;
  v_reporting : bool;
  v_stats : Phase;
  v_rc : Z;
  v_trace : list Action;
  v_final : list WorkerKR;
  v_thrown : bool
}.

Definition slot_view (sl : Slot (K := K) (R := R)) : Phase * option Z * bool :=
  (phase (_thread sl), pinned sl, alive sl).

Definition view s : View :=
  MkView (todo s) (boot s) (map slot_view (fleet s)) (fd_open (stop s)) (g_stop_fd (stop s))
    (reporting (stat s)) (phase (stats (stat s))) (rc s) (trace s) (final s) (thrown s).

(** ** The places [main] can be at *)

Definition n : nat := Z.to_nat (worker_count cfg).

Definition joining (i : nat) : list Stmt :=
  map JoinW (seq i (n - i)) ++ [StopReporting; JoinStats; Report; LeaveTry].
Definition starting (i : nat) : list Stmt :=
  map StartW (seq i (n - i)) ++ StartStats :: joining 0.
Definition building (i : nat) : list Stmt :=
  map Build (seq i (n - i)) ++ Install :: starting 0.
Definition destroying (m i : nat) : list Stmt :=
  map Destroy (seq i (m - i)) ++ [Cleared; ResetFd; CloseFd].

Lemma try_block_building : try_block n = building 0.
Proof. unfold try_block, building, starting, joining. by rewrite !Nat.sub_0_r. Qed.

Lemma epilogue_destroying m : epilogue m = AskStop :: destroying m 0.
Proof. unfold epilogue, destroying. by rewrite Nat.sub_0_r. Qed.

Lemma seq_next i m : (i < m)%nat -> seq i (m - i) = i :: seq (S i) (m - S i).
Proof. intros Hi. replace (m - i)%nat with (S (m - S i)) by lia. done. Qed.

Definition binds (i : nat) : list Action := map (λ j, BindQueue (worker_queue cfg j)) (seq 0 i).
Definition launch_acts (i : nat) : list Action :=
  binds n ++ InstallSignalHandlers :: map StartWorker (seq 0 i).
Definition run_acts (i : nat) : list Action := launch_acts n ++ map JoinWorker (seq 0 i).

Definition pin (j : nat) : option Z :=
  if 0 <=? worker_cpu cfg j then Some (worker_cpu cfg j) else None.

Definition fresh_view : Phase * option Z * bool := (Idle_, None, true).

(** The first [i] of the [n] workers are as [a], the others as [b]. *)
Definition slots (i : nat) (a b : nat -> Phase * option Z * bool) : list (Phase * option Z * bool) :=
  map (λ j, if (j <? i)%nat then a j else b j) (seq 0 n).

(** How the [try] block ended: a thread could not be made, or a queue could not
    be set up, or it ran to its end. *)
Definition ended_as (code : Z) (acts : list Action) (ws : list WorkerKR) (th : bool) : Prop :=
  if th then code = 1 /\ ws = [] /\ exists ws0 i, build_workers cfg stop_fd r n 0 k0 = (Some ws0, binds n) /\
         acts = launch_acts i /\ ((i < n)%nat \/ i = n /\ 0 < stats_interval_s cfg)
  else (build_workers cfg stop_fd r n 0 k0 = (None, acts) /\ code = 1 /\ ws = []) \/
       (exists ws0, build_workers cfg stop_fd r n 0 k0 = (Some ws0, binds n) /\
          length ws0 = n /\ length ws = n /\ acts = run_acts n /\
          code = if none_failed ws then 0 else 1).

(** What the rest of the constructor loop would return, after [i] workers. *)
Definition built (i : nat) (k : K) : Prop :=
  exists ws : list WorkerKR, length ws = i /\
    build_workers cfg stop_fd r n 0 k0 =
      (let '(ws', acts) := build_workers cfg stop_fd r (n - i) i k in
       ((λ ws', ws ++ ws') <$> ws', binds i ++ acts)).

Inductive At : View -> Prop :=
| at_build i k : (i <= n)%nat -> built i k ->
    At (MkView (building i) k (replicate i fresh_view) true stop_fd false Idle_ 0 (binds i) [] false)
| at_start i k : (i <= n)%nat -> built n k ->
    At (MkView (starting i) k (slots i (λ j, (Started, pin j, true)) (λ _, fresh_view)) true stop_fd
          false Idle_ 0 (launch_acts i) [] false)
| at_join i k rep st : (i <= n)%nat -> built n k -> st <> Done_ ->
    At (MkView (joining i) k (slots i (λ j, (Done_, pin j, true)) (λ j, (Started, pin j, true))) true
          stop_fd rep st 0 (run_acts i) [] false)
| at_join_stats k st : built n k -> st <> Done_ ->
    At (MkView [JoinStats; Report; LeaveTry] k
          (slots n (λ j, (Done_, pin j, true)) (λ j, (Started, pin j, true))) true
          stop_fd false st 0 (run_acts n) [] false)
| at_report k st : built n k -> st <> Started ->
    At (MkView [Report; LeaveTry] k
          (slots n (λ j, (Done_, pin j, true)) (λ j, (Started, pin j, true))) true
          stop_fd false st 0 (run_acts n) [] false)
| at_leave k st code ws : st <> Started -> ended_as code (run_acts n) ws false ->
    At (MkView [LeaveTry] k (slots n (λ j, (Done_, pin j, true)) (λ j, (Started, pin j, true))) true
          stop_fd false st code (run_acts n) ws false)
| at_epilogue k sl rep st code acts ws th : Forall (λ x, x.2 = true) sl -> st <> Started ->
    WriteStopFd ∉ acts -> ended_as code acts ws th ->
    At (MkView (epilogue (length sl)) k sl true stop_fd rep st code acts ws th)
| at_destroy i k sl rep st code acts ws th : (i <= length sl)%nat -> st <> Started ->
    (forall j x, sl !! j = Some x -> if (j <? i)%nat then x.1.1 <> Started else x.2 = true) ->
    ended_as code acts ws th ->
    At (MkView (destroying (length sl) i) k sl true stop_fd rep st code (acts ++ [WriteStopFd]) ws th)
| at_reset k sl rep st code acts ws th : st <> Started -> Forall (λ x, x.1.1 <> Started) sl ->
    ended_as code acts ws th ->
    At (MkView [ResetFd; CloseFd] k sl true stop_fd rep st code
          (acts ++ [WriteStopFd; DestroyWorkers]) ws th)
| at_close k sl rep st code acts ws th : st <> Started -> Forall (λ x, x.1.1 <> Started) sl ->
    ended_as code acts ws th ->
    At (MkView [CloseFd] k sl true (-1) rep st code (acts ++ [WriteStopFd; DestroyWorkers]) ws th)
| at_end k sl rep st code acts ws th : st <> Started -> Forall (λ x, x.1.1 <> Started) sl ->
    ended_as code acts ws th ->
    At (MkView [] k sl false (-1) rep st code (acts ++ teardown) ws th).

Lemma no_write_binds i : WriteStopFd ∉ binds i.
Proof. unfold binds. rewrite list_elem_of_fmap. by intros (? & ? & _). Qed.

Lemma no_write_launch i : WriteStopFd ∉ launch_acts i.
Proof.
  unfold launch_acts. rewrite elem_of_app, elem_of_cons, list_elem_of_fmap.
  intros [Hw|[Hw|(? & ? & _)]]; [by apply no_write_binds in Hw|done|done].
Qed.

Lemma no_write_run i : WriteStopFd ∉ run_acts i.
Proof.
  unfold run_acts. rewrite elem_of_app, list_elem_of_fmap.
  intros [Hw|(? & ? & _)]; [by apply no_write_launch in Hw|done].
Qed.

Lemma building_next i : building i =
  if (i <? n)%nat then Build i :: building (S i) else Install :: starting 0.
Proof.
  unfold building. destruct (Nat.ltb_spec i n) as [Hi|Hi].
  - by rewrite (seq_next i n Hi).
  - by replace (n - i)%nat with 0%nat by lia.
Qed.

Lemma starting_next i : starting i =
  if (i <? n)%nat then StartW i :: starting (S i) else StartStats :: joining 0.
Proof.
  unfold starting. destruct (Nat.ltb_spec i n) as [Hi|Hi].
  - by rewrite (seq_next i n Hi).
  - by replace (n - i)%nat with 0%nat by lia.
Qed.

Lemma joining_next i : joining i =
  if (i <? n)%nat then JoinW i :: joining (S i) else [StopReporting; JoinStats; Report; LeaveTry].
Proof.
  unfold joining. destruct (Nat.ltb_spec i n) as [Hi|Hi].
  - by rewrite (seq_next i n Hi).
  - by replace (n - i)%nat with 0%nat by lia.
Qed.

Lemma destroying_next m i : destroying m i =
  if (i <? m)%nat then Destroy i :: destroying m (S i) else [Cleared; ResetFd; CloseFd].
Proof.
  unfold destroying. destruct (Nat.ltb_spec i m) as [Hi|Hi].
  - by rewrite (seq_next i m Hi).
  - by replace (m - i)%nat with 0%nat by lia.
Qed.

Lemma seq_snoc {A} (f : nat -> A) i : map f (seq 0 (S i)) = map f (seq 0 i) ++ [f i].
Proof. by rewrite seq_S, map_app. Qed.

Lemma binds_next i : binds (S i) = binds i ++ [BindQueue (worker_queue cfg i)].
Proof. unfold binds. by rewrite seq_snoc. Qed.

Lemma slots_lookup i a b j : (j < n)%nat ->
  slots i a b !! j = Some (if (j <? i)%nat then a j else b j).
Proof. intros Hj. unfold slots. by rewrite list_lookup_fmap, lookup_seq_lt. Qed.

Lemma slots_length i a b : length (slots i a b) = n.
Proof. unfold slots. by rewrite length_map, length_seq. Qed.

Lemma slots_insert i a b : (i < n)%nat -> <[i := a i]> (slots i a b) = slots (S i) a b.
Proof.
  intros Hi. apply list_eq. intros j. destruct (base.decide (j < n)%nat) as [Hj|Hj].
  - destruct (base.decide (i = j)) as [<-|Hij].
    + rewrite list_lookup_insert_eq by (by rewrite slots_length).
      rewrite slots_lookup by done. by rewrite (proj2 (Nat.ltb_lt i (S i))) by lia.
    + rewrite list_lookup_insert_ne, !slots_lookup by done.
      destruct (Nat.ltb_spec j i), (Nat.ltb_spec j (S i)); try done; lia.
  - rewrite !lookup_ge_None_2; [done|rewrite slots_length; lia|].
    rewrite length_insert, slots_length. lia.
Qed.

Lemma slots_all a b : slots n a b = map a (seq 0 n).
Proof.
  unfold slots. apply List.map_ext_in. intros j Hj%in_seq. by rewrite (proj2 (Nat.ltb_lt j n)) by lia.
Qed.

Lemma slots_none a b : slots 0 a b = map b (seq 0 n).
Proof. done. Qed.

(** ** The rest of the invariant *)

Definition slot_ok (readable : bool) (sl : Slot (K := K) (R := R)) : Prop :=
  Account (wk sl) /\ _stop_fd (queue (_queue (wk sl))) = stop_fd /\
  match _thread sl with
  | NotStarted => answered (wk sl) /\ seen (_queue (wk sl)) = []
  | Running => True
  | Ended | Joined => answered (wk sl) /\
      (failed (queue (_queue (wk sl))) = true \/ readable = true)
  end.

Record Sound s : Prop := {
  ok_misuse : misuse s = false;
  ok_slots : Forall (slot_ok (efd_readable (efd (stop s)))) (fleet s);
  ok_inflight : Forall (λ f, f.2 = stop_fd /\ running f.1 s = true) (inflight (stop s));
  ok_open : fd_open (stop s) = false -> inflight (stop s) = [];
  ok_asked : WriteStopFd ∈ trace s -> efd_readable (efd (stop s)) = true \/ inflight (stop s) <> [];
  ok_told : efd_readable (efd (stop s)) = true \/ inflight (stop s) <> [] ->
    (0 < signals (stop s))%nat \/ WriteStopFd ∈ trace s;
  ok_reported : final s <> [] -> final s = map wk (fleet s) /\
    Forall (λ sl, _thread sl = Joined) (fleet s);
  ok_zero : final s <> [] -> none_failed (final s) = true -> (0 < signals (stop s))%nat;
  ok_at : At (view s)
}.

(** ** [main]'s statements go from place to place *)

(** A worker that the view shows. *)
Lemma shown fl i x : map slot_view fl !! i = Some x ->
  exists sl, fl !! i = Some sl /\ slot_view sl = x.
Proof. rewrite list_lookup_fmap. destruct (fl !! i) as [sl|]; [|done]. intros [= <-]. by exists sl. Qed.

Lemma phase_joinable t : joinable t = true <-> phase t = Started.
Proof. by destruct t. Qed.

Lemma phase_not_joinable t : joinable t = false <-> phase t <> Started.
Proof. destruct t; simpl; naive_solver. Qed.

(** An exception out of the [try] block, wherever it is thrown. *)
Lemma unwind_at s : fd_open (stop s) = true -> g_stop_fd (stop s) = stop_fd ->
  Forall (λ sl, alive sl = true) (fleet s) -> joinable (stats (stat s)) = false ->
  WriteStopFd ∉ trace s -> ended_as 1 (trace s) (final s) (thrown s) ->
  At (view (unwind s)).
Proof.
  intros Ho Hg Hal Hst Htr He. unfold unwind, leave_try, view. simpl. rewrite Ho, Hg.
  rewrite <- (length_map slot_view). apply at_epilogue; try done.
  - by rewrite List.Forall_map.
  - by apply phase_not_joinable.
Qed.


(** What [on_slot] does to the view, when the slot is there. *)
Lemma on_slot_shown s i f acts x : map slot_view (fleet s) !! i = Some x -> x.2 = true ->
  match on_slot s i f acts with
  | Next s' => exists sl sl', fleet s !! i = Some sl /\ slot_view sl = x /\ f sl = Some sl' /\
      s' = foldl act (flag (set_slot s i sl') false) acts
  | Raise _ => False
  | Blocked => exists sl, fleet s !! i = Some sl /\ slot_view sl = x /\ f sl = None
  end.
Proof.
  intros Hx Hal. apply shown in Hx as (sl & Hsl & <-). unfold on_slot. rewrite Hsl. simpl in Hal.
  destruct (f sl) as [sl'|] eqn:Hf; [|by exists sl]. exists sl, sl'. by rewrite Hal.
Qed.

Lemma view_set_slot s i sl' acts : view (foldl act (flag (set_slot s i sl') false) acts) =
  MkView (todo s) (boot s) (<[i := slot_view sl']> (map slot_view (fleet s))) (fd_open (stop s))
    (g_stop_fd (stop s)) (reporting (stat s)) (phase (stats (stat s))) (rc s) (trace s ++ acts)
    (final s) (thrown s).
Proof.
  assert (forall acts s1, foldl act s1 acts =
    MkSys (todo s1) (boot s1) (fleet s1) (stop s1) (stat s1) (rc s1) (trace s1 ++ acts) (final s1)
      (thrown s1) (misuse s1)) as Hact.
  { intros acts0. induction acts0 as [|a acts0 IH]; intros s1; simpl; [rewrite app_nil_r; by destruct s1|].
    rewrite IH. simpl. by rewrite <- app_assoc. }
  rewrite Hact. unfold view. simpl. by rewrite <- list_fmap_insert.
Qed.

Lemma built_next i k : (i < n)%nat -> built i k ->
  match NFQueue_ctor (worker_queue cfg i) stop_fd (queue_maxlen cfg) (recv_buf_per_worker cfg) k with
  | (Throws _ _, _) => build_workers cfg stop_fd r n 0 k0 = (None, binds i)
  | (Ready _, kt) => built (S i) kt.1
  end.
Proof.
  intros Hi (ws & Hlen & Hb). replace (n - i)%nat with (S (n - S i)) in Hb by lia.
  cbn [build_workers] in Hb.
  destruct (NFQueue_ctor _ _ _ _ k) as [[q|what err] kt].
  - set (w := Worker_ctor q kt.1 r _ _) in Hb. exists (ws ++ [w]). rewrite Hb.
    destruct (build_workers cfg stop_fd r (n - S i) (S i) kt.1) as [ws' acts].
    split; [rewrite length_app; simpl; lia|]. rewrite binds_next, <- app_assoc.
    f_equal. destruct ws' as [ws'|]; [|done]. simpl. by rewrite <- app_assoc.
  - rewrite Hb. simpl. by rewrite app_nil_r.
Qed.

Lemma built_all k : built n k -> exists ws0, length ws0 = n /\
  build_workers cfg stop_fd r n 0 k0 = (Some ws0, binds n).
Proof.
  intros (ws & Hlen & Hb). rewrite Nat.sub_diag in Hb. simpl in Hb. rewrite !app_nil_r in Hb. by exists ws.
Qed.

(** Where a result of [exec] leaves [main]. *)
Definition result_at (res : Result) : Prop :=
  match res with
  | Next s' => At (view s')
  | Raise s' => At (view (unwind s'))
  | Blocked => True
  end.

Lemma build_at s i k : (i < n)%nat -> built i k ->
  view s = MkView (building (S i)) k (replicate i fresh_view) true stop_fd false Idle_ 0 (binds i) [] false ->
  result_at (exec cfg stop_fd r (Build i) s).
Proof.
  intros Hi Hb [= Htd Hbt Hfl Ho Hg Hrp Hst Hrc Htr Hfi Hth]. simpl. pose proof (built_next i k Hi Hb) as Hn.
  rewrite Hbt. destruct (NFQueue_ctor _ _ _ _ k) as [[q|what err] kt]; simpl.
  - unfold view. simpl. rewrite Htd, map_app, Hfl, Ho, Hg, Hrp, Hst, Hrc, Htr, Hfi, Hth.
    rewrite <- binds_next. cbn [map].
    change [slot_view _] with [fresh_view]. rewrite <- replicate_S_end.
    by apply (at_build (S i)).
  - apply unwind_at; try done.
    + assert (Forall (λ x, x.2 = true) (map slot_view (fleet s))) as Hal.
      { rewrite Hfl. by apply Forall_replicate. }
      by rewrite List.Forall_map in Hal.
    + apply phase_not_joinable. by rewrite Hst.
    + rewrite Htr. apply no_write_binds.
    + rewrite Hth, Htr, Hfi. left. by split_and!.
Qed.

Lemma start_at s i k : (i < n)%nat -> built n k ->
  view s = MkView (starting (S i)) k (slots i (λ j, (Started, pin j, true)) (λ _, fresh_view)) true stop_fd
          false Idle_ 0 (launch_acts i) [] false ->
  result_at (exec cfg stop_fd r (StartW i) s).
Proof.
  intros Hi Hb [= Htd Hbt Hfl Ho Hg Hrp Hst Hrc Htr Hfi Hth]. cbn [exec].
  pose proof (on_slot_shown s i (λ sl, Some (start cfg i sl)) [StartWorker i] fresh_view) as Hon.
  rewrite Hfl, slots_lookup, (proj2 (Nat.ltb_ge i i)) in Hon by lia. specialize (Hon eq_refl eq_refl).
  destruct (on_slot _ _ _ _) as [s'| |]; [|done|done].
  destruct Hon as (sl & sl' & Hsl & [= Hph Hpin Hal] & [= <-] & ->). simpl result_at.
  change (act (flag (set_slot s i (start cfg i sl)) false) (StartWorker i))
    with (foldl act (flag (set_slot s i (start cfg i sl)) false) [StartWorker i]).
  rewrite view_set_slot, Htd, Hbt, Hfl, Ho, Hg, Hrp, Hst, Hrc, Htr, Hfi, Hth.
  replace (slot_view (start cfg i sl)) with (Started, pin i, true).
  2: { unfold start, slot_view, pin. destruct (_thread sl); try done. simpl. rewrite Hal, Hpin. done. }
  rewrite (slots_insert i (λ j, (Started, pin j, true))) by done.
  replace (launch_acts i ++ [StartWorker i]) with (launch_acts (S i))
    by (unfold launch_acts; by rewrite seq_snoc, <- app_assoc). by apply at_start.
Qed.

Lemma join_at s i k rep st : (i < n)%nat -> built n k -> st <> Done_ ->
  view s = MkView (joining (S i)) k
    (slots i (λ j, (Done_, pin j, true)) (λ j, (Started, pin j, true))) true
          stop_fd rep st 0 (run_acts i) [] false ->
  result_at (exec cfg stop_fd r (JoinW i) s).
Proof.
  intros Hi Hb Hs0 [= Htd Hbt Hfl Ho Hg Hrp Hst Hrc Htr Hfi Hth]. cbn [exec].
  pose proof (on_slot_shown s i join [JoinWorker i] (Started, pin i, true)) as Hon.
  rewrite Hfl, slots_lookup, (proj2 (Nat.ltb_ge i i)) in Hon by lia. specialize (Hon eq_refl eq_refl).
  destruct (on_slot _ _ _ _) as [s'| |]; [|done|done].
  destruct Hon as (sl & sl' & Hsl & [= Hph Hpin Hal] & Hj & ->). simpl result_at.
  change (act (flag (set_slot s i sl') false) (JoinWorker i))
    with (foldl act (flag (set_slot s i sl') false) [JoinWorker i]).
  rewrite view_set_slot, Htd, Hbt, Hfl, Ho, Hg, Hrp, Hst, Hrc, Htr, Hfi, Hth.
  replace (slot_view sl') with (Done_, pin i, true).
  2: { unfold join in Hj. destruct (_thread sl); try done. simpl in Hj. injection Hj as <-.
       unfold slot_view. simpl. by rewrite Hpin, Hal. }
  rewrite (slots_insert i (λ j, (Done_, pin j, true))) by done.
  replace (run_acts i ++ [JoinWorker i]) with (run_acts (S i))
    by (unfold run_acts; by rewrite seq_snoc, <- app_assoc). by apply at_join.
Qed.

Lemma destroy_at s i k sl rep st code acts ws th : (i < length sl)%nat -> st <> Started ->
  (forall j x, sl !! j = Some x -> if (j <? i)%nat then x.1.1 <> Started else x.2 = true) ->
  ended_as code acts ws th ->
  view s = MkView (destroying (length sl) (S i)) k sl true stop_fd rep st code (acts ++ [WriteStopFd]) ws th ->
  result_at (exec cfg stop_fd r (Destroy i) s).
Proof.
  intros Hi Hs0 Hall He [= Htd Hbt Hfl Ho Hg Hrp Hst Hrc Htr Hfi Hth]. cbn [exec].
  destruct (lookup_lt_is_Some_2 sl i Hi) as [x Hx].
  pose proof (on_slot_shown s i Worker_dtor [] x) as Hon. rewrite Hfl in Hon. specialize (Hon Hx).
  pose proof (Hall i x Hx) as Hxa. rewrite (proj2 (Nat.ltb_ge i i)) in Hxa by lia. specialize (Hon Hxa).
  destruct (on_slot _ _ _ _) as [s'| |]; [|done|done].
  destruct Hon as (sl0 & sl' & Hsl & Hview & Hj & ->). simpl result_at.
  change (flag (set_slot s i sl') false) with (foldl act (flag (set_slot s i sl') false) []).
  rewrite view_set_slot, Htd, Hbt, Hfl, Ho, Hg, Hrp, Hst, Hrc, Htr, Hfi, Hth, app_nil_r.
  assert ((slot_view sl').1.1 <> Started) as Hns.
  { unfold Worker_dtor, join in Hj. destruct (_thread sl0) eqn:Et; simpl in Hj; try done;
      injection Hj as <-; simpl; by rewrite ?Et. }
  rewrite <- (length_insert sl i (slot_view sl')) at 1. apply at_destroy; try done.
  - rewrite length_insert. lia.
  - intros j y Hy. destruct (base.decide (i = j)) as [<-|Hij].
    + rewrite list_lookup_insert_eq in Hy by done. injection Hy as <-.
      by rewrite (proj2 (Nat.ltb_lt i (S i))) by lia.
    + rewrite list_lookup_insert_ne in Hy by done. specialize (Hall j y Hy).
      destruct (Nat.ltb_spec j i), (Nat.ltb_spec j (S i)); try done; lia.
Qed.

(** What has been built, as slots none of which has been started. *)
Lemma fresh_slots : replicate n fresh_view = slots 0 (λ j, (Started, pin j, true)) (λ _, fresh_view).
Proof.
  rewrite slots_none. apply list_eq. intros j. rewrite list_lookup_fmap.
  destruct (base.decide (j < n)%nat).
  - rewrite lookup_seq_lt by done. simpl. by apply lookup_replicate_2.
  - rewrite !lookup_ge_None_2; [done|rewrite length_seq; lia|rewrite length_replicate; lia].
Qed.

(** Evaluate a statement and rewrite the members of the new state that it left
    alone to what [Hview] says they are. *)
Ltac shown Hview :=
  let Htd := fresh "Htd" in let Hbt := fresh "Hbt" in let Hfl := fresh "Hfl" in let Ho := fresh "Ho" in
  let Hg := fresh "Hg" in let Hrp := fresh "Hrp" in let Hst := fresh "Hst" in let Hrc := fresh "Hrc" in
  let Htr := fresh "Htr" in let Hfi := fresh "Hfi" in let Hth := fresh "Hth" in
  injection Hview as Htd Hbt Hfl Ho Hg Hrp Hst Hrc Htr Hfi Hth;
  unfold result_at, exec, view; simpl;
  rewrite ?Htd, ?Hbt, ?Hfl, ?Ho, ?Hg, ?Hrp, ?Hst, ?Hrc, ?Htr, ?Hfi, ?Hth.

Lemma ask_at s sl k rep t code acts ws th rest : Forall (λ x, x.2 = true) sl -> t <> Started ->
  ended_as code acts ws th -> rest = destroying (length sl) 0 ->
  view s = MkView rest k sl true stop_fd rep t code acts ws th ->
  result_at (exec cfg stop_fd r AskStop s).
Proof.
  intros Hal Ht He -> Hview. shown Hview. unfold on_signal. simpl.
  rewrite ?Hg, (proj2 (Z.ltb_ge stop_fd 0) stop_fd_valid). simpl.
  rewrite Htd, Hbt, Hfl, Ho, ?Hg, Hrp, Hst, Hrc, Htr, Hfi, Hth. apply at_destroy; try done; [lia|].
  intros j x Hj. simpl. rewrite List.Forall_forall in Hal. apply Hal.
  apply list_elem_of_In. by eapply list_elem_of_lookup_2.
Qed.

Lemma exec_at st rest s : At (view s) -> todo s = st :: rest ->
  result_at (exec cfg stop_fd r st (set_todo s rest)).
Proof.
  intros HAt Htd.
  assert (view (set_todo s rest) = MkView rest (v_boot (view s)) (v_slots (view s)) (v_open (view s))
    (v_fd (view s)) (v_reporting (view s)) (v_stats (view s)) (v_rc (view s)) (v_trace (view s))
    (v_final (view s)) (v_thrown (view s))) as Hview by done.
  set (s1 := set_todo s rest) in *. assert (v_todo (view s) = st :: rest) as Hv by done.
  clearbody s1. clear Htd. set (v := view s) in *. clearbody v. clear s.
  destruct HAt as [i k Hin Hb|i k Hin Hb|i k rep t Hin Hb Ht|k t Hb Ht|k t Hb Ht|k t code ws Ht He
    |k sl rep t code acts ws th Hal Ht Hnw He|i k sl rep t code acts ws th Hin Ht Hall He
    |k sl rep t code acts ws th Ht Hns He|k sl rep t code acts ws th Ht Hns He
    |k sl rep t code acts ws th Ht Hns He]; cbn [v_todo v_boot v_slots v_open v_fd v_reporting v_stats v_rc v_trace v_final v_thrown] in *.
  - rewrite building_next in Hv. destruct (Nat.ltb_spec i n) as [Hi|Hi]; injection Hv as <- <-.
    + by eapply build_at.
    + assert (i = n) as -> by lia. shown Hview. rewrite fresh_slots. by apply (at_start 0); [lia|].
  - rewrite starting_next in Hv. destruct (Nat.ltb_spec i n) as [Hi|Hi]; injection Hv as <- <-.
    + by eapply start_at.
    + assert (i = n) as -> by lia. shown Hview.
      rewrite slots_all. rewrite <- (slots_none (λ j, (Done_, pin j, true))).
      replace (launch_acts n) with (run_acts 0) by (unfold run_acts; by rewrite app_nil_r).
      apply at_join; [lia|done|by destruct (0 <? _)].
  - rewrite joining_next in Hv. destruct (Nat.ltb_spec i n) as [Hi|Hi]; injection Hv as <- <-.
    + by eapply join_at.
    + assert (i = n) as -> by lia. shown Hview. by apply at_join_stats.
  - injection Hv as <- <-. shown Hview.
    destruct (stats (stat s1)) eqn:Es; simpl; try done; unfold view; simpl;
      rewrite ?Htd, ?Hbt, ?Hfl, ?Ho, ?Hg, ?Hrp, ?Hrc, ?Htr, ?Hfi, ?Hth, ?Es; by apply at_report.
  - injection Hv as <- <-. shown Hview.
    apply at_leave; [done|]. destruct (built_all _ Hb) as (ws0 & Hlen & Hws0). right. exists ws0.
    split_and!; [done|done| |done|by unfold none_failed; destruct (existsb _ _)].
    rewrite length_map, <- (length_map slot_view), Hfl. apply slots_length.
  - injection Hv as <- <-. shown Hview.
    rewrite <- (length_map slot_view), Hfl. apply at_epilogue; [|done|apply no_write_run|done].
    rewrite slots_all. rewrite List.Forall_map. by apply Forall_true.
  - rewrite epilogue_destroying in Hv. injection Hv as <- <-. by eapply ask_at.
  - rewrite destroying_next in Hv.
    destruct (Nat.ltb_spec i (length sl)) as [Hi|Hi]; injection Hv as <- <-.
    + by eapply destroy_at.
    + shown Hview. rewrite <- app_assoc. apply at_reset; try done.
      apply list.Forall_lookup. intros j x Hj. specialize (Hall j x Hj).
      apply lookup_lt_Some in Hj as Hlt. by rewrite (proj2 (Nat.ltb_lt j i)) in Hall by lia.
  - injection Hv as <- <-. shown Hview. by apply at_close.
  - injection Hv as <- <-. shown Hview. rewrite <- app_assoc. by apply at_end.
  - done.
Qed.

Lemma slot_view_alive fl : Forall (λ x, x.2 = true) (map slot_view fl) ->
  Forall (λ sl, alive sl = true) fl.
Proof. by rewrite List.Forall_map. Qed.

Lemma slots_alive i a b : (forall j, (a j).2 = true) -> (forall j, (b j).2 = true) ->
  Forall (λ x, x.2 = true) (slots i a b).
Proof.
  intros Ha Hb. unfold slots. rewrite List.Forall_map. apply Forall_true. intros j. by destruct (j <? i)%nat.
Qed.

Lemma slots_alive_at i a b j x : (forall j, (a j).2 = true) -> (forall j, (b j).2 = true) ->
  slots i a b !! j = Some x -> x.2 = true.
Proof.
  intros Ha Hb Hx. exact (proj1 (list.Forall_lookup _ _) (slots_alive i a b Ha Hb) j x Hx).
Qed.

Lemma no_thread_at st rest s : At (view s) -> todo s = st :: rest -> may_throw cfg st = true ->
  At (view (unwind (set_thrown (set_todo s rest)))).
Proof.
  intros HAt Htd Hth. remember (view s) as v eqn:Hview.
  destruct HAt as [i k Hin Hb|i k Hin Hb|i k rep t Hin Hb Ht|k t Hb Ht|k t Hb Ht|k t code ws Ht He
    |k sl rep t code acts ws th Hal Ht Hnw He|i k sl rep t code acts ws th Hin Ht Hall He
    |k sl rep t code acts ws th Ht Hns He|k sl rep t code acts ws th Ht Hns He
    |k sl rep t code acts ws th Ht Hns He];
    injection Hview as Htd' Hbt Hfl Ho Hg Hrp Hst Hrc Htr Hfi Hth'; rewrite Htd in Htd'.
  - rewrite building_next in Htd'. destruct (i <? n)%nat; by injection Htd' as <-.
  - apply unwind_at; try done.
    + apply slot_view_alive. simpl. rewrite <- Hfl. by apply slots_alive.
    + apply phase_not_joinable. simpl. by rewrite <- Hst.
    + simpl. rewrite <- Htr. apply no_write_launch.
    + simpl. rewrite <- Htr, <- Hfi. split; [done|]. split; [done|].
      destruct (built_all k Hb) as (ws0 & _ & Hws0). exists ws0, i. split_and!; [done|done|].
      rewrite starting_next in Htd'. destruct (Nat.ltb_spec i n); [by left|right]. injection Htd' as <- <-.
      simpl in Hth. apply Z.ltb_lt in Hth. split; [lia|done].
  - rewrite joining_next in Htd'. destruct (i <? n)%nat; by injection Htd' as <-.
  - by injection Htd' as <-.
  - by injection Htd' as <-.
  - by injection Htd' as <-.
  - rewrite epilogue_destroying in Htd'. by injection Htd' as <-.
  - rewrite destroying_next in Htd'. destruct (i <? length sl)%nat; by injection Htd' as <-.
  - by injection Htd' as <-.
  - by injection Htd' as <-.
  - done.
Qed.

(** ** Facts that a place gives *)

(** Before the epilogue nothing has been torn down. *)
Definition in_try (l : list Stmt) : bool :=
  existsb (λ st, match st with LeaveTry => true | _ => false end) l.

Lemma in_try_joining i : in_try (joining i) = true.
Proof. unfold in_try, joining. rewrite existsb_app. simpl. apply orb_true_r. Qed.

Lemma in_try_starting i : in_try (starting i) = true.
Proof.
  unfold starting, in_try. rewrite existsb_app. apply orb_true_iff. right.
  simpl. apply (in_try_joining 0).
Qed.

Lemma in_try_building i : in_try (building i) = true.
Proof.
  unfold building, in_try. rewrite existsb_app. apply orb_true_iff. right.
  simpl. apply (in_try_starting 0).
Qed.

Lemma in_try_destroying m i : in_try (destroying m i) = false.
Proof.
  unfold destroying, in_try. rewrite existsb_app. apply orb_false_iff. split; [|done].
  apply not_true_iff_false. rewrite existsb_exists. intros (x & Hx & ?).
  apply in_map_iff in Hx as (j & <- & _). done.
Qed.

(** The stop fd is open until its last statement; a thread that can run is alive
    and has what it uses. *)
Lemma at_open v : At v ->
  (v_todo v <> [] -> v_open v = true) /\ (v_todo v = [] -> v_open v = false) /\
  (v_open v = true -> v_fd v = stop_fd \/ v_fd v = -1) /\ (v_open v = false -> v_fd v = -1).
Proof.
  intros []; simpl; (split_and!; try tauto; try done); intros Hn; exfalso; revert Hn.
  - rewrite building_next. by destruct (i <? n)%nat.
  - rewrite starting_next. by destruct (i <? n)%nat.
  - rewrite joining_next. by destruct (i <? n)%nat.
  - rewrite destroying_next. by destruct (i <? length sl)%nat.
Qed.

Lemma at_worker v j x : At v -> v_slots v !! j = Some x -> x.1.1 = Started ->
  x.2 = true /\ v_open v = true.
Proof.
  intros HAt Hx Hs.
  destruct HAt as [i k Hin Hb|i k Hin Hb|i k rep t Hin Hb Ht|k t Hb Ht|k t Hb Ht|k t code ws Ht He
    |k sl rep t code acts ws th Hal Ht Hnw He|i k sl rep t code acts ws th Hin Ht Hall He
    |k sl rep t code acts ws th Ht Hns He|k sl rep t code acts ws th Ht Hns He
    |k sl rep t code acts ws th Ht Hns He]; simpl in *; (split; [|try done]).
  1: apply lookup_replicate in Hx as [-> _]; done.
  1-5: eapply slots_alive_at; [..|exact Hx]; done.
  1: exact (proj1 (list.Forall_lookup _ _) Hal j x Hx).
  1: specialize (Hall j x Hx); by destruct (j <? i)%nat.
  all: by destruct (proj1 (list.Forall_lookup _ _) Hns j x Hx).
Qed.

(** The statistics thread runs inside the [try] block only. *)
Lemma at_stats v : At v -> v_stats v = Started ->
  in_try (v_todo v) = true /\ v_open v = true /\ Forall (λ x, x.2 = true) (v_slots v).
Proof.
  intros HAt Hs.
  destruct HAt as [i k Hin Hb|i k Hin Hb|i k rep t Hin Hb Ht|k t Hb Ht|k t Hb Ht|k t code ws Ht He
    |k sl rep t code acts ws th Hal Ht Hnw He|i k sl rep t code acts ws th Hin Ht Hall He
    |k sl rep t code acts ws th Ht Hns He|k sl rep t code acts ws th Ht Hns He
    |k sl rep t code acts ws th Ht Hns He]; simpl in *; try done.
  - split_and!; [apply in_try_joining|done|by apply slots_alive].
  - split_and!; [done|done|by apply slots_alive].
Qed.


(** ** The other threads and the handlers leave the view alone *)

Lemma view_flag s b : view (flag s b) = view s.
Proof. done. Qed.

Lemma view_turn s i sl sl' b : fleet s !! i = Some sl -> slot_view sl' = slot_view sl ->
  view (flag (set_slot s i sl') b) = view s.
Proof.
  intros Hsl Hv. rewrite view_flag. unfold view, set_slot. simpl.
  rewrite list_fmap_insert, Hv, list_insert_id; [done|]. by rewrite list_lookup_fmap, Hsl.
Qed.

Lemma view_stop s p : fd_open p = fd_open (stop s) -> g_stop_fd p = g_stop_fd (stop s) ->
  view (set_stop s p) = view s.
Proof. intros H1 H2. unfold view. simpl. by rewrite H1, H2. Qed.

Lemma on_signal_same t (p : StopFd (E := E)) : fd_open (on_signal t p) = fd_open p /\ g_stop_fd (on_signal t p) = g_stop_fd p /\
  efd (on_signal t p) = efd p /\ installed (on_signal t p) = installed p /\ signals (on_signal t p) = signals p.
Proof. unfold on_signal. by destruct (_ <? 0). Qed.

(** ** What a place says about the statement [main] is at *)

Definition head_facts (st : Stmt) (v : View) : Prop :=
  match st with
  | Build _ | StartStats => v_stats v <> Started /\ v_final v = []
  | StartW i => v_stats v <> Started /\ v_final v = [] /\
      exists x, v_slots v !! i = Some x /\ x.2 = true /\ x.1.1 = Idle_
  | JoinW i => v_final v = [] /\ exists x, v_slots v !! i = Some x /\ x.2 = true
  | Destroy i => exists x, v_slots v !! i = Some x /\ x.2 = true
  | JoinStats => v_reporting v = false
  | Report => Forall (λ x, x.1.1 = Done_) (v_slots v) /\ WriteStopFd ∉ v_trace v
  | LeaveTry => v_stats v <> Started
  | AskStop => v_fd v = stop_fd
  | CloseFd => v_open v = true /\ Forall (λ x, x.1.1 <> Started) (v_slots v) /\ v_stats v <> Started
  | Install | StopReporting | Cleared | ResetFd => True
  end.

Lemma at_head v st rest : At v -> v_todo v = st :: rest -> head_facts st v.
Proof.
  intros HAt Hv.
  destruct HAt as [i k Hin Hb|i k Hin Hb|i k rep t Hin Hb Ht|k t Hb Ht|k t Hb Ht|k t code ws Ht He
    |k sl rep t code acts ws th Hal Ht Hnw He|i k sl rep t code acts ws th Hin Ht Hall He
    |k sl rep t code acts ws th Ht Hns He|k sl rep t code acts ws th Ht Hns He
    |k sl rep t code acts ws th Ht Hns He]; simpl in Hv.
  - rewrite building_next in Hv. by destruct (i <? n)%nat; injection Hv as <- <-.
  - rewrite starting_next in Hv. destruct (Nat.ltb_spec i n) as [Hi|Hi]; injection Hv as <- <-; [|done].
    simpl. split_and!; [done|done|]. eexists. split; [by apply slots_lookup|].
    by rewrite (proj2 (Nat.ltb_ge i i)) by lia.
  - rewrite joining_next in Hv. destruct (Nat.ltb_spec i n) as [Hi|Hi]; injection Hv as <- <-; [|done].
    simpl. split; [done|]. eexists. split; [by apply slots_lookup|].
    by rewrite (proj2 (Nat.ltb_ge i i)) by lia.
  - by injection Hv as <- <-.
  - injection Hv as <- <-. simpl. split; [|apply no_write_run].
    rewrite slots_all, List.Forall_map. by apply Forall_true.
  - by injection Hv as <- <-.
  - rewrite epilogue_destroying in Hv. by injection Hv as <- <-.
  - rewrite destroying_next in Hv.
    destruct (Nat.ltb_spec i (length sl)) as [Hi|Hi]; injection Hv as <- <-; [|done].
    destruct (lookup_lt_is_Some_2 sl i Hi) as [x Hx]. exists x. split; [done|].
    specialize (Hall i x Hx). by rewrite (proj2 (Nat.ltb_ge i i)) in Hall by lia.
  - by injection Hv as <- <-.
  - by injection Hv as <- <-.
  - done.
Qed.

(** ** The invariant is kept *)

Lemma undisturbed_spec t s f : undisturbed t s = true -> f ∈ inflight (stop s) -> f.1 <> t.
Proof.
  intros Hu Hf. unfold undisturbed in Hu. rewrite forallb_forall in Hu.
  apply list_elem_of_In, Hu in Hf. by apply bool_decide_eq_true in Hf.
Qed.

Lemma slot_ok_readable b b' sl : (b = true -> b' = true) -> slot_ok b sl -> slot_ok b' sl.
Proof.
  intros Hb (H1 & H2 & H3). split_and!; [done|done|]. destruct (_thread sl); try done;
    destruct H3 as [? [?|?]]; auto.
Qed.

Lemma ok_slot s i sl : Sound s -> fleet s !! i = Some sl -> slot_ok (efd_readable (efd (stop s))) sl.
Proof. intros Hs Hsl. exact (proj1 (list.Forall_lookup _ _) (ok_slots s Hs) i sl Hsl). Qed.

(** A change of [main]'s own: the stop fd and the handlers stay as they are, and
    no thread stops running. *)
Lemma ok_change s s' : Sound s -> misuse s' = false -> efd (stop s') = efd (stop s) ->
  inflight (stop s') = inflight (stop s) -> signals (stop s') = signals (stop s) ->
  (fd_open (stop s') = false -> fd_open (stop s) = false \/ inflight (stop s) = []) ->
  (WriteStopFd ∈ trace s' <-> WriteStopFd ∈ trace s) ->
  (forall t, running t s = true -> running t s' = true) ->
  Forall (slot_ok (efd_readable (efd (stop s)))) (fleet s') ->
  (final s' <> [] -> final s' = map wk (fleet s') /\ Forall (λ sl, _thread sl = Joined) (fleet s')) ->
  (final s' <> [] -> none_failed (final s') = true -> (0 < signals (stop s))%nat) ->
  At (view s') -> Sound s'.
Proof.
  intros [] Hm He Hi Hsg Ho Ht Hr Hsl Hf Hz HAt. split; try done; rewrite ?He, ?Hi, ?Hsg, ?Ht; try done.
  - eapply List.Forall_impl; [|exact ok_inflight0]. intros f [H1 H2]. split; [done|]. by apply Hr.
  - intros Hc. by destruct (Ho Hc); [apply ok_open0|].
Qed.

Lemma run_slot s i sl sl' b t : fleet s !! i = Some sl -> (_thread sl = Running -> _thread sl' = Running) ->
  running t s = true -> running t (flag (set_slot s i sl') b) = true.
Proof.
  intros Hsl Hr. destruct t as [|j|]; [done| |done]. simpl.
  destruct (base.decide (i = j)) as [<-|Hij].
  - rewrite Hsl, list_lookup_insert_eq by (by eapply lookup_lt_Some).
    rewrite !bool_decide_eq_true. auto.
  - by rewrite list_lookup_insert_ne.
Qed.

(** [on_slot] by a function that keeps the worker itself. *)
Lemma on_slot_ok s0 s i f acts s' x : Sound s0 -> s = set_todo s0 (todo s) ->
  WriteStopFd ∉ acts -> map slot_view (fleet s) !! i = Some x -> x.2 = true ->
  (forall sl sl', f sl = Some sl' -> wk sl' = wk sl /\ (_thread sl = Running -> _thread sl' = Running) /\
     (forall b, slot_ok b sl -> slot_ok b sl') /\ (final s <> [] -> _thread sl = Joined -> _thread sl' = Joined)) ->
  on_slot s i f acts = Next s' -> At (view s') -> Sound s'.
Proof.
  intros Hs0 Hs Hacts Hx Hal Hf Hon HAt. pose proof (on_slot_shown s i f acts x Hx Hal) as Hshown.
  rewrite Hon in Hshown. destruct Hshown as (sl & sl' & Hsl & _ & Hfs & ->).
  destruct (Hf sl sl' Hfs) as (Hw & Hr & Hok & Hj).
  assert (forall acts s1, foldl act s1 acts =
    MkSys (todo s1) (boot s1) (fleet s1) (stop s1) (stat s1) (rc s1) (trace s1 ++ acts) (final s1)
      (thrown s1) (misuse s1)) as Hact.
  { intros acts0. induction acts0 as [|a acts0 IH]; intros s1; simpl; [rewrite app_nil_r; by destruct s1|].
    rewrite IH. simpl. by rewrite <- app_assoc. }
  revert HAt. rewrite Hact. intros HAt. clear Hact. rewrite Hs in *. destruct Hs0 eqn:E0. simpl in *.
  eapply (ok_change s0); try done; simpl.
  - by rewrite ok_misuse0.
  - tauto.
  - set_solver.
  - intros t Ht. exact (run_slot s0 i sl sl' false t Hsl Hr Ht).
  - apply Forall_insert; [done|]. apply Hok. by eapply ok_slot.
  - intros Hfi. destruct (ok_reported0 Hfi) as [H1 H2]. split.
    + rewrite list_fmap_insert, Hw, list_insert_id; [done|]. by rewrite list_lookup_fmap, Hsl.
    + apply Forall_insert; [done|]. apply Hj; [done|]. exact (proj1 (list.Forall_lookup _ _) H2 i sl Hsl).
Qed.

Lemma nothing_in_flight s : Sound s -> undisturbed MainThread s = true ->
  Forall (λ x, x.1.1 <> Started) (map slot_view (fleet s)) -> phase (stats (stat s)) <> Started ->
  inflight (stop s) = [].
Proof.
  intros Hs Hu Hsl Hst. destruct (inflight (stop s)) as [|f l] eqn:Ef; [done|]. exfalso.
  pose proof (ok_inflight s Hs) as Hin. rewrite Ef in Hin. apply Forall_cons_1 in Hin as [[_ Hr] _].
  assert (f.1 <> MainThread) as Hm by (apply (undisturbed_spec MainThread s f Hu); rewrite Ef; by left).
  destruct f.1 as [|j|]; [done| |]; simpl in Hr.
  - destruct (fleet s !! j) as [sl|] eqn:Hj; [|done]. apply bool_decide_eq_true in Hr.
    rewrite List.Forall_map in Hsl. apply (proj1 (list.Forall_lookup _ _) Hsl j sl Hj). simpl. by rewrite Hr.
  - apply bool_decide_eq_true in Hr. by rewrite Hr in Hst.
Qed.

Lemma done_joined s : Forall (λ x, x.1.1 = Done_) (map slot_view (fleet s)) ->
  Forall (λ sl, _thread sl = Joined) (fleet s).
Proof.
  rewrite List.Forall_map. apply List.Forall_impl. intros sl. simpl. by destruct (_thread sl).
Qed.

(** Apply [ok_change], for a statement that leaves the eventfd, the handlers and
    the count of signals as they are. *)
#[local] Ltac changing Hs HAt :=
  refine (ok_change _ _ Hs _ _ _ _ _ _ _ _ _ _ HAt);
  [try exact (ok_misuse _ Hs)|reflexivity|reflexivity|reflexivity
  |auto|try exact (iff_refl _)|try exact (λ _ Hr, Hr)|try exact (ok_slots _ Hs)
  |try exact (ok_reported _ Hs)|try exact (ok_zero _ Hs)];
  cbn [stop fd_open trace fleet final misuse act set_stop set_todo flag].

Lemma add_action l (a : Action) : a <> WriteStopFd -> WriteStopFd ∈ l ++ [a] <-> WriteStopFd ∈ l.
Proof. intros Ha. rewrite elem_of_app, list_elem_of_singleton. naive_solver. Qed.

Lemma build_ok s i rest s' : Sound s -> todo s = Build i :: rest ->
  exec cfg stop_fd r (Build i) (set_todo s rest) = Next s' -> At (view s') -> Sound s'.
Proof.
  intros Hs Htd Hx HAt. destruct (at_head _ (Build i) rest (ok_at s Hs) Htd) as [_ Hfi].
  simpl in Hfi, Hx.
  pose proof (ctor_no_leak (worker_queue cfg i) stop_fd (queue_maxlen cfg) (recv_buf_per_worker cfg) (boot s)) as Hq.
  unfold no_leak in Hq. destruct (NFQueue_ctor _ _ _ _ _) as [[q|what err] kt]; [|done].
  destruct Hq as [_ ->]. injection Hx as <-.
  changing Hs HAt.
  - by apply add_action.
  - intros [|j|]; simpl; try done. destruct (fleet s !! j) as [sl|] eqn:Hj; [|done].
    by rewrite (lookup_app_l_Some _ _ _ _ Hj).
  - apply Forall_app. split; [exact (ok_slots s Hs)|]. constructor; [|done].
    split; [by apply ctor_account|]. split; [done|]. split; [|done]. split; [by apply ctor_account|done].
  - by rewrite Hfi.
Qed.

Lemma start_slot_ok i sl b : slot_ok b sl -> slot_ok b (start cfg i sl).
Proof.
  intros Hsl. unfold start. destruct (joinable (_thread sl)); [done|].
  destruct Hsl as (H1 & H2 & _). done.
Qed.

Lemma join_keeps sl sl' : join sl = Some sl' ->
  wk sl' = wk sl /\ _thread sl <> Running /\ (forall b, slot_ok b sl -> slot_ok b sl') /\
  (_thread sl = Joined -> _thread sl' = Joined).
Proof.
  intros Hj. unfold join in Hj. destruct (_thread sl) eqn:Et; simpl in Hj; try done;
    injection Hj as <-; rewrite ?Et; split_and!; try done.
  intros b (H1 & H2 & H3). rewrite Et in H3. done.
Qed.

(** When a joined worker has not failed, someone wrote the stop fd. *)
Lemma joined_told s : Sound s -> Forall (λ sl, _thread sl = Joined) (fleet s) -> fleet s <> [] ->
  none_failed (map wk (fleet s)) = true -> efd_readable (efd (stop s)) = true.
Proof.
  intros Hs Hj Hne Hfree. apply none_failed_spec in Hfree. rewrite List.Forall_map in Hfree.
  destruct (fleet s) as [|sl l] eqn:Efl; [done|].
  destruct (ok_slot s 0 sl Hs) as (_ & _ & Hsl); [by rewrite Efl|].
  apply Forall_cons_1 in Hj as [Hj _]. apply Forall_cons_1 in Hfree as [Hfree _].
  rewrite Hj in Hsl. destruct Hsl as [_ [Hbad|Hr]]; [|done]. by rewrite Hbad in Hfree.
Qed.

Lemma report_ok s rest s' : Sound s -> todo s = Report :: rest ->
  exec cfg stop_fd r Report (set_todo s rest) = Next s' -> At (view s') -> Sound s'.
Proof.
  intros Hs Htd Hx HAt. destruct (at_head _ Report rest (ok_at s Hs) Htd) as [Hd Htr].
  apply (done_joined s) in Hd. injection Hx as <-. changing Hs HAt.
  - by intros _.
  - intros Hne Hfree. simpl in Hne, Hfree. assert (fleet s <> []) as Hfl by (by destruct (fleet s)).
    pose proof (joined_told s Hs Hd Hfl Hfree) as Hr.
    destruct (ok_told s Hs (or_introl Hr)) as [?|?]; [done|]. by destruct Htr.
Qed.

Lemma ask_ok s rest s' : Sound s -> todo s = AskStop :: rest ->
  exec cfg stop_fd r AskStop (set_todo s rest) = Next s' -> At (view s') -> Sound s'.
Proof.
  intros Hs Htd Hx HAt. pose proof (at_head _ AskStop rest (ok_at s Hs) Htd) as Hh.
  simpl in Hh, Hx. rewrite Hh, (proj2 (Z.ltb_ge _ _) stop_fd_valid) in Hx. injection Hx as <-.
  unfold on_signal in *. rewrite Hh, (proj2 (Z.ltb_ge _ _) stop_fd_valid) in *.
  assert (fd_open (stop s) = true) as Ho.
  { apply (at_open _ (ok_at s Hs)). simpl. by rewrite Htd. }
  destruct Hs as [H1 H2 H3 H4 H5 H6 H7 H8 _].
  split; cbn [misuse fleet stop efd inflight trace signals final fd_open act set_stop set_todo]; try done.
  - by constructor.
  - by rewrite Ho.
  - intros _. by right.
  - intros _. right. apply elem_of_app. right. by apply list_elem_of_singleton.
Qed.

Lemma start_ok i s rest s' : Sound s -> todo s = StartW i :: rest ->
  exec cfg stop_fd r (StartW i) (set_todo s rest) = Next s' -> At (view s') -> Sound s'.
Proof.
  intros Hs Htd Hx HAt.
  pose proof (at_head _ (StartW i) rest (ok_at s Hs) Htd) as Hh. simpl in Hh.
  destruct Hh as (_ & Hfi & x & Hxs & Hal & Hid).
  refine (on_slot_ok s (set_todo s rest) i _ _ s' x Hs eq_refl _ Hxs Hal _ Hx HAt);
    [by intros Ha%list_elem_of_In; destruct Ha as [Ha|[]]|].
  intros sl sl' [= <-]. simpl. rewrite Hfi. split_and!; [|..|done].
  - unfold start. by destruct (joinable _).
  - unfold start. intros Hr. rewrite Hr. exact Hr.
  - intros b. apply start_slot_ok.
Qed.

Lemma destroy_ok i s rest s' : Sound s -> todo s = Destroy i :: rest ->
  exec cfg stop_fd r (Destroy i) (set_todo s rest) = Next s' -> At (view s') -> Sound s'.
Proof.
  intros Hs Htd Hx HAt. destruct (at_head _ (Destroy i) rest (ok_at s Hs) Htd) as (x & Hxs & Hal).
  refine (on_slot_ok s (set_todo s rest) i _ _ s' x Hs eq_refl _ Hxs Hal _ Hx HAt);
    [by intros Ha%list_elem_of_In|].
  intros sl sl' Hd. unfold Worker_dtor in Hd. destruct (join sl) as [sl1|] eqn:Hj; [|done].
  injection Hd as <-. destruct (join_keeps sl sl1 Hj) as (H1 & H2 & H3 & H4).
  simpl. split_and!; [done|by intros ?|exact H3|intros _; exact H4].
Qed.

Lemma exec_ok st rest s s' : Sound s -> todo s = st :: rest -> undisturbed MainThread s = true ->
  exec cfg stop_fd r st (set_todo s rest) = Next s' -> Sound s'.
Proof.
  intros Hs Htd Hu Hx. pose proof (exec_at st rest s (ok_at s Hs) Htd) as HAt. rewrite Hx in HAt.
  simpl in HAt. pose proof (at_head _ st rest (ok_at s Hs) Htd) as Hh.
  assert (forall s1, s1 = s' -> misuse s1 = false -> stop s1 = stop s ->
    fleet s1 = fleet s -> final s1 = final s ->
    (WriteStopFd ∈ trace s1 <-> WriteStopFd ∈ trace s) ->
    (forall t, running t s = true -> running t s1 = true) -> Sound s') as Hsame.
  { intros s1 <- Hm Hst Hfl Hfi Htr Hr.
    refine (ok_change s _ Hs Hm _ _ _ _ Htr Hr _ _ _ HAt); rewrite ?Hst, ?Hfl, ?Hfi; auto; by destruct Hs. }
  destruct st; simpl in Hh.
  - by eapply build_ok.
  - injection Hx as <-.
    changing Hs HAt. by apply add_action.
  - by eapply start_ok.
  - destruct Hh as [Hst Hfi]. injection Hx as Hx.
    refine (Hsame _ Hx (ok_misuse s Hs) eq_refl eq_refl eq_refl (iff_refl _) _).
    intros [|j|]; simpl; try done. rewrite !bool_decide_eq_true. intros Hr. simpl in Hst. by rewrite Hr in Hst.
  - destruct Hh as (Hfi & x & Hxs & Hal). refine (on_slot_ok s (set_todo s rest) i _ _ s' x Hs eq_refl _ Hxs Hal _ Hx HAt);
      [by intros Ha%list_elem_of_In; destruct Ha as [Ha|[]]|].
    intros sl sl' Hj. destruct (join_keeps sl sl' Hj) as (H1 & H2 & H3 & _).
    simpl. rewrite Hfi. split_and!; [done|by intros ?|done|done].
  - injection Hx as Hx. by refine (Hsame _ Hx (ok_misuse s Hs) eq_refl eq_refl eq_refl (iff_refl _) (λ _ H, H)).
  - simpl in Hx. destruct (stats (stat s)) eqn:Est; simpl in Hx; try done; injection Hx as Hx;
      refine (Hsame _ Hx (ok_misuse s Hs) eq_refl eq_refl eq_refl (iff_refl _) _); try done.
    intros [|j|]; simpl; try done. by rewrite Est.
  - by eapply report_ok.
  - injection Hx as Hx. refine (Hsame _ Hx _ eq_refl eq_refl eq_refl (iff_refl _) (λ _ H, H)).
    simpl. apply phase_not_joinable in Hh. by rewrite Hh, orb_false_r, ok_misuse.
  - by eapply ask_ok.
  - by eapply destroy_ok.
  - injection Hx as Hx. refine (Hsame _ Hx (ok_misuse s Hs) eq_refl eq_refl eq_refl _ (λ _ H, H)).
    by apply add_action.
  - injection Hx as <-.
    by changing Hs HAt.
  - destruct Hh as (Ho & Hsl & Hst). injection Hx as <-.
    changing Hs HAt.
    + simpl in Ho. by rewrite Ho, orb_false_r, ok_misuse.
    + intros _. right. by apply nothing_in_flight.
    + by apply add_action.
Qed.

(** An exception leaves the [try] block. *)
Lemma unwind_ok s s1 : Sound s -> joinable (stats (stat s)) = false ->
  stop s1 = stop s -> stat s1 = stat s -> fleet s1 = fleet s -> trace s1 = trace s -> final s1 = final s ->
  misuse s1 = misuse s -> At (view (unwind s1)) -> Sound (unwind s1).
Proof.
  intros Hs Hst H1 H2 H3 H4 H5 H6 HAt.
  refine (ok_change s _ Hs _ _ _ _ _ _ _ _ _ _ HAt); simpl; rewrite ?H1, ?H2, ?H3, ?H4, ?H5, ?H6; auto.
  - by rewrite Hst, orb_false_r, ok_misuse.
  - intros [|j|]; simpl; rewrite ?H2, ?H3; auto.
  - by destruct Hs.
  - by destruct Hs.
  - by destruct Hs.
Qed.

(** Only the set-up of a queue throws by itself. *)
Lemma raise_build st s s' : exec cfg stop_fd r st s = Raise s' -> (exists i, st = Build i) /\ s' = s.
Proof.
  intros Hx.
  assert (forall i f acts, on_slot s i f acts <> Raise s') as Hon.
  { intros i f acts. unfold on_slot. destruct (_ !! i); [|done]. by destruct (f _). }
  destruct st; try (by destruct (Hon _ _ _ Hx)); try done; simpl in Hx.
  - destruct (NFQueue_ctor _ _ _ _ _) as [[q|what err] kt]; [done|]. injection Hx as <-. by split; [eexists|].
  - destruct (joinable _); [by destruct (base.decide _)|done].
Qed.

Lemma raise_ok st rest s s' : Sound s -> todo s = st :: rest ->
  exec cfg stop_fd r st (set_todo s rest) = Raise s' -> Sound (unwind s').
Proof.
  intros Hs Htd Hx. pose proof (exec_at st rest s (ok_at s Hs) Htd) as HAt. rewrite Hx in HAt.
  pose proof (at_head _ st rest (ok_at s Hs) Htd) as Hh.
  destruct (raise_build _ _ _ Hx) as [[i ->] ->]. apply (unwind_ok s); try done.
  by apply phase_not_joinable, Hh.
Qed.

Lemma no_thread_ok st rest s : Sound s -> todo s = st :: rest -> may_throw cfg st = true ->
  Sound (unwind (set_thrown (set_todo s rest))).
Proof.
  intros Hs Htd Hth. pose proof (no_thread_at st rest s (ok_at s Hs) Htd Hth) as HAt.
  pose proof (at_head _ st rest (ok_at s Hs) Htd) as Hh. apply (unwind_ok s); try done.
  apply phase_not_joinable. destruct st; try done; apply Hh.
Qed.

(** ** The other threads *)

Section threads.
  Context (blocklist : BlockList) (clock : nat -> nat -> Z).
  Hypothesis recv_ok : forall k rv msgs k', recv (K := K) k = (rv, msgs, k') -> Forall msg_ok msgs.
  Hypothesis efd_ok : EventFd_ok E.

(** A turn never faults, and what it does to the worker. *)
Lemma turn_of_ok s i (k : K) sl : Sound s -> fleet s !! i = Some sl ->
  sees (efd_readable (efd (stop s))) k ->
  exists (fin : bool) (w' : WorkerKR), turn_of cfg blocklist clock i k (wk sl) = Ok (fin, w') /\
    forall b, slot_ok (efd_readable (efd (stop s)))
      (MkSlot w' (if fin then Ended else Running) (pinned sl) b).
Proof.
  intros Hs Hsl Hk. destruct (ok_slot s i sl Hs Hsl) as (Hacc & Hfd & _). unfold turn_of.
  set (w := MkWorker (set_kernel (_queue (wk sl)) k) (_tls (wk sl)) (_reads (wk sl))).
  destruct (turn_account blocklist (verbose cfg) (passthrough cfg) (clock i) w recv_ok)
    as (fin & w' & Ht & Hacc' & Hfd' & Hfin); [exact (kernel_account (wk sl) k Hacc)|].
  exists fin, w'. split; [exact Ht|]. intros b. split; [done|]. split; [exact (eq_trans Hfd' Hfd)|].
  destruct fin; [|done]. destruct Hfin as [Han Hwhy]. split; [done|]. destruct Hwhy as [Hbad|Hpoll]; [by left|right].
  change (kernel (link w)) with k in Hpoll. unfold sees in Hk.
  destruct (poll_returns k kIdlePoll ltac:(done)) as [[[[n0 r0] r1] k'] Hp]. rewrite Hp in Hk. destruct (Hpoll _ _ _ _ Hp) as [H1 H2].
  destruct (efd_readable _); [done|]. by destruct H2; apply Hk.
Qed.

(** A step of another thread: the view is the same. *)
Lemma ok_aside s s' : Sound s -> view s' = view s -> misuse s' = false ->
  Forall (slot_ok (efd_readable (efd (stop s')))) (fleet s') ->
  Forall (λ f, f.2 = stop_fd /\ running f.1 s' = true) (inflight (stop s')) ->
  (fd_open (stop s) = false -> inflight (stop s') = []) ->
  (efd_readable (efd (stop s)) = true \/ inflight (stop s) <> [] ->
   efd_readable (efd (stop s')) = true \/ inflight (stop s') <> []) ->
  (efd_readable (efd (stop s')) = true \/ inflight (stop s') <> [] ->
   (0 < signals (stop s'))%nat \/ efd_readable (efd (stop s)) = true \/ inflight (stop s) <> []) ->
  (signals (stop s) <= signals (stop s'))%nat ->
  (Forall (λ sl, _thread sl = Joined) (fleet s) -> fleet s' = fleet s) -> Sound s'.
Proof.
  intros Hs Hv Hm Hsl Hin Ho Ha Ht Hsg Hfl.
  assert (trace s' = trace s /\ final s' = final s /\ fd_open (stop s') = fd_open (stop s)) as (Etr & Efi & Eo).
  { by injection Hv. }
  split; rewrite ?Etr, ?Efi, ?Eo; try done.
  - intros Hw. apply Ha. by apply ok_asked.
  - intros Hr. destruct (Ht Hr) as [?|Hr']; [by left|]. destruct (ok_told s Hs Hr') as [?|?]; [left; lia|by right].
  - intros Hf. destruct (ok_reported s Hs Hf) as [H1 H2]. by rewrite (Hfl H2).
  - intros Hf Hfree. pose proof (ok_zero s Hs Hf Hfree). lia.
  - rewrite Hv. by apply ok_at.
Qed.

Lemma turn_ok s i k sl fin w : Sound s -> fleet s !! i = Some sl -> _thread sl = Running ->
  undisturbed (WorkerThread i) s = true -> sees (efd_readable (efd (stop s))) k ->
  turn_of cfg blocklist clock i k (wk sl) = Ok (fin, w) -> Sound (turned s i sl fin w).
Proof.
  intros Hs Hsl Hrun Hu Hk Ht. unfold turned. set (sl' := MkSlot w _ _ _).
  destruct (turn_of_ok s i k sl Hs Hsl Hk) as (fin' & w' & Ht' & Hok).
  rewrite Ht in Ht'. injection Ht' as <- <-. specialize (Hok (alive sl)). fold sl' in Hok.
  destruct (at_worker (view s) i (slot_view sl) (ok_at s Hs)) as [Hal Ho].
  { simpl. by rewrite list_lookup_fmap, Hsl. } { simpl. by rewrite Hrun. }
  simpl in Hal, Ho. apply (ok_aside s); try done.
  - apply (view_turn s i sl); [done|]. unfold slot_view. simpl. rewrite Hrun. by destruct fin.
  - simpl. by rewrite Hal, Ho, ok_misuse.
  - simpl. apply Forall_insert; [by apply ok_slots|done].
  - simpl. pose proof (ok_inflight s Hs) as Hin. apply List.Forall_forall. intros f Hf.
    destruct (proj1 (List.Forall_forall _ _) Hin f Hf) as [H1 H2]. split; [done|].
    pose proof (undisturbed_spec _ s f Hu (proj2 (list_elem_of_In _ _) Hf)) as Hne.
    destruct f.1 as [|j|]; [done| |done]. simpl in *.
    by rewrite list_lookup_insert_ne by congruence.
  - by rewrite Ho.
  - simpl. tauto.
  - simpl. intros Hj. pose proof (proj1 (list.Forall_lookup _ _) Hj i sl Hsl) as Hj'. simpl in Hj'. congruence.
Qed.

Lemma stats_ok s pc print : Sound s -> stats (stat s) = Running -> undisturbed StatsThread s = true ->
  Sound (stats_moved s pc print).
Proof.
  intros Hs Hrun Hu. unfold stats_moved.
  destruct (at_stats (view s) (ok_at s Hs)) as (Htry & _ & Hal); [by simpl; rewrite Hrun|].
  simpl in Htry, Hal. apply slot_view_alive in Hal. apply (ok_aside s); try done.
  - unfold view. simpl. rewrite Hrun. by destruct pc.
  - simpl. fold (in_try (todo s)). rewrite Htry, (proj2 (forallb_forall _ _) (proj1 (List.Forall_forall _ _) Hal)).
    by rewrite ok_misuse.
  - exact (ok_slots s Hs).
  - simpl. pose proof (ok_inflight s Hs) as Hin. apply List.Forall_forall. intros f Hf.
    destruct (proj1 (List.Forall_forall _ _) Hin f Hf) as [H1 H2]. split; [done|].
    pose proof (undisturbed_spec _ s f Hu (proj2 (list_elem_of_In _ _) Hf)) as Hne. by destruct f.1.
  - exact (ok_open s Hs).
  - simpl. tauto.
Qed.

Lemma signal_ok s t : Sound s -> running t s = true ->
  Sound (signalled s t).
Proof.
  intros Hs Hrun. unfold signalled. destruct (at_open (view s) (ok_at s Hs)) as (_ & _ & Hg & Hc). simpl in Hg, Hc.
  unfold on_signal, count_signal. cbn [g_stop_fd efd fd_open installed inflight signals].
  destruct (Z.ltb_spec (g_stop_fd (stop s)) 0) as [Hneg|Hpos].
  { replace (MkStopFd _ _ _ _ _ _) with (stop s) by (by destruct (stop s)).
    by replace (set_stop s (stop s)) with s by (by destruct s). }
  assert (g_stop_fd (stop s) = stop_fd /\ fd_open (stop s) = true) as [Hg' Ho].
  { destruct (fd_open (stop s)) eqn:Ho; [destruct (Hg eq_refl); [done|lia]|rewrite Hc in Hpos by done; lia]. }
  apply (ok_aside s); simpl; try done.
  - exact (ok_misuse s Hs).
  - exact (ok_slots s Hs).
  - constructor; [done|]. exact (ok_inflight s Hs).
  - by rewrite Ho.
  - by right.
  - intros _. left. lia.
  - lia.
Qed.

Lemma write_ok s before t fd after : Sound s -> inflight (stop s) = before ++ (t, fd) :: after ->
  Sound (written stop_fd s fd (before ++ after)).
Proof.
  intros Hs Hf. unfold written. pose proof (ok_inflight s Hs) as Hin. rewrite Hf in Hin.
  apply Forall_app in Hin as [Hb Ha]. destruct (Forall_cons_1 _ _ _ Ha) as [[H1 H2] Ha'].
  assert (fd_open (stop s) = true) as Ho.
  { destruct (fd_open (stop s)) eqn:Ho; [done|]. apply (ok_open s Hs) in Ho. rewrite Hf in Ho.
    by destruct before. }
  simpl in H1, H2. subst fd. pose proof (written_readable E efd_ok (efd (stop s))) as Hw.
  apply (ok_aside s); simpl; try done; rewrite ?Hw.
  - by rewrite Ho, Z.eqb_refl, ok_misuse.
  - eapply List.Forall_impl; [|exact (ok_slots s Hs)]. intros sl. by apply slot_ok_readable.
  - by apply Forall_app.
  - by rewrite Ho.
  - by left.
  - intros _. right. right. rewrite Hf. by destruct before.
Qed.

Lemma step_ok kind s s' : Sound s -> step cfg blocklist stop_fd r clock kind s s' -> Sound s'.
Proof.
  intros Hs Hstep. destruct Hstep as [st rest s s' Htd Hu Hx|st rest s s' Htd Hu Hx|st rest s Htd Hu Hth
    |i k sl s fin w Hsl Hrun Hu Hk Ht|i k sl s f Hsl Hrun Hu Hk Ht|s pc print Hrun Hu Hst
    |t s Hins Hrun|s before t fd after Hf Hb].
  - by eapply exec_ok.
  - by eapply raise_ok.
  - by eapply no_thread_ok.
  - by eapply turn_ok.
  - destruct (turn_of_ok s i k sl Hs Hsl Hk) as (fin & w & Hok & _). rewrite Ht in Hok. done.
  - by apply stats_ok.
  - by apply signal_ok.
  - by apply (write_ok s before t fd after).
Qed.

Lemma launched_ok : Sound (launched cfg stop_fd k0).
Proof.
  split; simpl; try done; rewrite ?(new_not_readable E efd_ok).
  - by intros ?%list_elem_of_In.
  - intros [?|?]; done.
  - unfold launched, view. simpl. fold n. rewrite try_block_building. apply (at_build 0); [lia|].
    exists []. rewrite Nat.sub_0_r. split; [done|].
    destruct (build_workers cfg stop_fd r n 0 k0) as [[ws|] acts]; done.
Qed.

Lemma reachable_ok s : reachable cfg blocklist stop_fd r clock k0 s -> Sound s.
Proof. induction 1; [apply launched_ok|by eapply step_ok]. Qed.

End threads.

End program.
