(* ===== verification/ProgramSpec.v ===== *)
(** * The running program: properties

    Safety of the shared stop fd and of the objects the threads share, shutdown
    without deadlock, the final account, and the refinement of the sequential
    [Main.main] by every interleaving. *)
From S2P Require Import Prelude Packet Extractor ExtractorInv ExtractorSpec BlockList NFQueue Worker Cli Main Program ProgramInv.

(** ** Progress *)

(** What a statement can still cost: itself, the thread or the handler it starts,
    the worker it builds to be destroyed later. *)
Definition weight (st : Stmt) : nat :=
  match st with Build _ | StartW _ | StartStats | AskStop => 2 | _ => 1 end.

Definition todo_weight (l : list Stmt) : nat := sum_list_with weight l.

Definition count (k : Kind) (ks : list Kind) : nat := length (filter (eq k) ks).

Section program.
  Context {K R E : Type} `{!Netfilter K} `{!Pcpp R} `{!MapOrder} `{!EventFd E}.
  Context (cfg : Config) (stop_fd : Z) (r : R) (k0 : K).
  Context (blocklist : BlockList) (clock : nat -> nat -> Z).
  Abbreviation WorkerKR := (Worker (K := K) (R := R)).
  Abbreviation SysKRE := (Sys (K := K) (R := R) (E := E)).
  Implicit Types s : SysKRE.

Definition slot_cost (sl : Slot (K := K) (R := R)) : nat :=
  if base.decide (_thread sl = Running) then 1 else 0.

(** The number of steps the program can still take towards its end. *)
Definition remaining s : nat :=
  todo_weight (todo s) + (if in_try (todo s) then length (fleet s) + 6 else 0) +
  sum_list_with slot_cost (fleet s) + (if base.decide (stats (stat s) = Running) then 1 else 0) +
  length (inflight (stop s)).

Lemma sum_insert {A} (f : A -> nat) l i x y : l !! i = Some x ->
  (sum_list_with f (<[i := y]> l) + f x = sum_list_with f l + f y)%nat.
Proof.
  revert i. induction l as [|a l IH]; intros [|i] Hi; simpl in *; try done.
  - injection Hi as <-. lia.
  - specialize (IH i Hi). lia.
Qed.

Lemma epilogue_weight m : todo_weight (epilogue m) = (m + 5)%nat.
Proof.
  unfold epilogue, todo_weight. simpl. rewrite sum_list_with_app. simpl.
  assert (sum_list_with weight (map Destroy (seq 0 m)) = m) as ->; [|lia].
  generalize 0%nat. induction m as [|m IH]; intros i; simpl; [done|]. by rewrite IH.
Qed.

Lemma in_try_epilogue m : in_try (epilogue m) = false.
Proof. rewrite epilogue_destroying. simpl. apply in_try_destroying. Qed.

Lemma foldl_act acts s : foldl act s acts =
  MkSys (todo s) (boot s) (fleet s) (stop s) (stat s) (rc s) (trace s ++ acts) (final s)
    (thrown s) (misuse s).
Proof.
  revert s. induction acts as [|a acts IH]; intros s; simpl; [rewrite app_nil_r; by destruct s|].
  rewrite IH. simpl. by rewrite <- app_assoc.
Qed.

(** What the rest of [remaining] is. *)
Definition others s : nat :=
  (sum_list_with slot_cost (fleet s) + (if base.decide (stats (stat s) = Running) then 1 else 0) +
   length (inflight (stop s)))%nat.

Lemma on_slot_cost s i f acts s' d : on_slot s i f acts = Next s' ->
  (forall sl sl', f sl = Some sl' -> (slot_cost sl' <= slot_cost sl + d)%nat) ->
  todo s' = todo s /\ length (fleet s') = length (fleet s) /\ (others s' <= others s + d)%nat.
Proof.
  unfold on_slot. destruct (fleet s !! i) as [sl|] eqn:Hsl; [|intros [= <-] _; split_and!; [done|done|]; unfold others; simpl; lia].
  destruct (f sl) as [sl'|] eqn:Hf; [|done]. intros [= <-] Hd. rewrite foldl_act. unfold others. simpl.
  pose proof (sum_insert slot_cost (fleet s) i sl sl' Hsl). specialize (Hd sl sl' Hf).
  rewrite length_insert. split_and!; [done|done|lia].
Qed.

Lemma join_cost (sl sl' : Slot (K := K) (R := R)) : join sl = Some sl' -> (slot_cost sl' <= slot_cost sl + 0)%nat.
Proof.
  unfold join, slot_cost. destruct (_thread sl) eqn:Et; simpl; try done; intros [= <-]; simpl; rewrite ?Et; simpl; lia.
Qed.

(** A statement of [main] costs at least one. *)
Lemma exec_cost st s s' : st <> LeaveTry -> exec cfg stop_fd r st s = Next s' ->
  todo s' = todo s /\ (length (fleet s) <= length (fleet s'))%nat /\
  (others s' + length (fleet s') + 1 <= others s + length (fleet s) + weight st)%nat.
Proof.
  intros Hst Hx. destruct st; cbn [exec] in Hx; try done.
  - destruct (NFQueue_ctor _ _ _ _ _) as [[q|what err] kt]; [|done]. injection Hx as <-.
    unfold others. simpl. rewrite sum_list_with_app, length_app. simpl. split_and!; [done|lia|lia].
  - injection Hx as <-. unfold others. simpl. split_and!; [done|lia|lia].
  - apply (on_slot_cost _ _ _ _ _ 1) in Hx as (H1 & H2 & H3); [split_and!; [done|lia|simpl; lia]|].
    intros sl sl' [= <-]. unfold slot_cost. destruct (base.decide _), (base.decide _); lia.
  - injection Hx as <-. unfold others. simpl. split_and!; [done|lia|].
    destruct (0 <? _); simpl; destruct (base.decide _); lia.
  - apply (on_slot_cost _ _ _ _ _ 0) in Hx as (H1 & H2 & H3); [split_and!; [done|lia|simpl; lia]|]. apply join_cost.
  - injection Hx as <-. unfold others. simpl. split_and!; [done|lia|lia].
  - destruct (stats (stat s)) eqn:Est; simpl in Hx; try done; injection Hx as <-;
      unfold others; simpl; rewrite ?Est; split_and!; simpl; try done; lia.
  - injection Hx as <-. unfold others. simpl. split_and!; [done|lia|lia].
  - injection Hx as <-. unfold on_signal. destruct (_ <? 0); unfold others; simpl; split_and!; try done; lia.
  - apply (on_slot_cost _ _ _ _ _ 0) in Hx as (H1 & H2 & H3); [split_and!; [done|lia|simpl; lia]|].
    intros sl sl' Hd. unfold Worker_dtor in Hd. destruct (join sl) as [sl1|] eqn:Hj; [|done].
    injection Hd as <-. by apply join_cost in Hj.
  - injection Hx as <-. unfold others. simpl. split_and!; [done|lia|lia].
  - injection Hx as <-. unfold others. simpl. split_and!; [done|lia|lia].
  - injection Hx as <-. unfold others. simpl. split_and!; [done|lia|lia].
Qed.

Lemma remaining_others s : remaining s =
  (todo_weight (todo s) + (if in_try (todo s) then length (fleet s) + 6 else 0) + others s)%nat.
Proof. unfold remaining, others. lia. Qed.

Lemma todo_weight_cons st l : todo_weight (st :: l) = (weight st + todo_weight l)%nat.
Proof. done. Qed.

Lemma weight_pos st : (1 <= weight st)%nat.
Proof. destruct st; simpl; lia. Qed.

Lemma in_try_cons st l : st <> LeaveTry -> in_try (st :: l) = in_try l.
Proof. by destruct st. Qed.

(** An exception costs less than what it skips. *)
Lemma unwind_cost st rest s s1 : todo s = st :: rest -> in_try (todo s) = true ->
  fleet s1 = fleet s -> others s1 = others s -> (remaining (unwind s1) < remaining s)%nat.
Proof.
  intros Htd Htry Hfl Ho. rewrite !remaining_others, Htry, Htd. unfold unwind, leave_try.
  cbn [set_rc flag set_todo todo fleet stop stat].
  rewrite in_try_epilogue, epilogue_weight, Hfl, todo_weight_cons.
  change (others (set_rc (flag (set_todo s1 _) _) 1)) with (others s1). rewrite Ho.
  pose proof (weight_pos st). lia.
Qed.

(** Only the [try] block throws. *)
Lemma at_throws v st rest : At cfg stop_fd r k0 v -> v_todo v = st :: rest ->
  match st with Build _ | StartW _ | StartStats => in_try (v_todo v) = true | _ => True end.
Proof.
  intros HAt Hv. assert (in_try (v_todo v) = true \/ in_try (v_todo v) = false) as [Ht|Ht]
    by (destruct (in_try _); auto); [by destruct st|].
  destruct HAt as [i k Hin Hb|i k Hin Hb|i k rep t Hin Hb Hp|k t Hb Hp|k t Hb Hp|k t code ws Hp He
    |k sl rep t code acts ws th Hal Hp Hnw He|i k sl rep t code acts ws th Hin Hp Hall He
    |k sl rep t code acts ws th Hp Hns He|k sl rep t code acts ws th Hp Hns He
    |k sl rep t code acts ws th Hp Hns He]; simpl in *; try done.
  - by rewrite in_try_building in Ht.
  - by rewrite in_try_starting in Ht.
  - by rewrite in_try_joining in Ht.
  - rewrite epilogue_destroying in Hv. by injection Hv as <- _.
  - rewrite destroying_next in Hv. by destruct (i <? length sl)%nat; injection Hv as <- _.
  - by injection Hv as <- _.
  - by injection Hv as <- _.
Qed.

(** The sequential [main] with the outcome of the [try] block. *)
Lemma ended_main code acts ws th : ended_as cfg stop_fd r k0 code acts ws th ->
  exists creates after,
    match build_workers cfg stop_fd r (Z.to_nat (worker_count cfg)) 0 k0 with
    | (None, acts) => (1, acts ++ teardown, [])
    | (Some ws, acts) =>
        let '(started, starts) := start_workers creates (Z.to_nat (worker_count cfg)) 0 in
        if negb started || (0 <? stats_interval_s cfg) && negb (creates (Z.to_nat (worker_count cfg))) then
          (1, acts ++ [InstallSignalHandlers] ++ starts ++ teardown, [])
        else
          let ended := imap after ws in
          let rc := if existsb (λ w, failed (queue (_queue w))) ended then 1 else 0 in
          (rc, acts ++ [InstallSignalHandlers] ++ starts ++
             map JoinWorker (seq 0 (Z.to_nat (worker_count cfg))) ++ teardown, ended)
    end = (code, acts ++ teardown, ws) /\ (th = false -> forall j, creates j = true).
Proof.
  change (Z.to_nat (worker_count cfg)) with (n cfg). unfold ended_as, launch_acts, run_acts. destruct th.
  - intros (-> & -> & ws0 & i & Hb & -> & Hi). rewrite Hb.
    exists (λ j, negb (j =? i)%nat), (λ _ w, w). split; [|done].
    rewrite start_workers_until by (destruct Hi; lia).
    replace (_ || _) with true; [by rewrite <- !app_assoc|]. destruct Hi as [Hi|[-> Hi]].
    + by rewrite (proj2 (Nat.eqb_neq i (n cfg))) by lia.
    + by rewrite Nat.eqb_refl, (proj2 (Z.ltb_lt 0 _)).
  - intros Hend. exists (λ _, true), (λ i w, default w (ws !! i)). split; [|done].
    rewrite start_workers_all. simpl negb. rewrite andb_false_r. cbn [orb].
    destruct Hend as [(Hb & -> & ->)|(ws0 & Hb & Hl0 & Hlf & -> & ->)]; rewrite Hb; [done|].
    assert (imap (λ i w, default w (ws !! i)) ws0 = ws) as ->.
    { apply list_eq. intros i. rewrite list_lookup_imap. destruct (ws0 !! i) as [w|] eqn:Hw; simpl.
      - apply lookup_lt_Some in Hw. destruct (lookup_lt_is_Some_2 ws i) as [w' ->]; [lia|done].
      - apply lookup_ge_None in Hw. symmetry. apply lookup_ge_None_2. lia. }
    unfold none_failed, launch_acts. rewrite <- !app_assoc. simpl. by destruct (existsb _ ws).
Qed.

Section running.
  Hypothesis stop_fd_valid : 0 <= stop_fd.
  #[local] Set Default Proof Using "Type*".
  Abbreviation step1 := (step cfg blocklist stop_fd r clock).
  Abbreviation Sound1 := (Sound cfg stop_fd r k0).

(** A program that has returned. *)
Lemma finished_at s : Sound1 s -> todo s = [] ->
  fd_open (stop s) = false /\ g_stop_fd (stop s) = -1 /\ inflight (stop s) = [] /\
  joinable (stats (stat s)) = false /\
  Forall (λ sl, joinable (_thread sl) = false /\ answered (wk sl)) (fleet s) /\
  exists acts, trace s = acts ++ teardown /\
    ended_as cfg stop_fd r k0 (rc s) acts (final s) (thrown s).
Proof.
  intros Hs Htd. pose proof (ok_at _ _ _ _ s Hs) as HAt. remember (view s) as v eqn:Hview.
  destruct HAt as [i k Hin Hb|i k Hin Hb|i k rep t Hin Hb Hp|k t Hb Hp|k t Hb Hp|k t code ws Hp He
    |k sl rep t code acts ws th Hal Hp Hnw He|i k sl rep t code acts ws th Hin Hp Hall He
    |k sl rep t code acts ws th Hp Hns He|k sl rep t code acts ws th Hp Hns He
    |k sl rep t code acts ws th Hp Hns He];
    injection Hview as Htd' Hbt Hfl Ho Hg Hrp Hst Hrc Htr Hfi Hth'; rewrite Htd in Htd'; try done.
  - rewrite building_next in Htd'. by destruct (i <? _)%nat.
  - rewrite starting_next in Htd'. by destruct (i <? _)%nat.
  - rewrite joining_next in Htd'. by destruct (i <? _)%nat.
  - rewrite destroying_next in Htd'. by destruct (i <? _)%nat.
  - split_and!; [done|done|by apply (ok_open _ _ _ _ s Hs)|apply phase_not_joinable; by rewrite <- Hst| |].
    + rewrite Hfl, List.Forall_map in Hns. apply list.Forall_lookup. intros j x Hx.
      pose proof (proj1 (list.Forall_lookup _ _) Hns j x Hx) as Hj. simpl in Hj.
      split; [by apply phase_not_joinable|].
      destruct (ok_slot _ _ _ _ stop_fd_valid s j x Hs Hx) as (_ & _ & Hok). destruct (_thread x); try done; apply Hok.
    + exists acts. split; [done|]. by rewrite <- Hrc, <- Hfi, <- Hth'.
Qed.

Hypothesis recv_ok : forall k rv msgs k', recv (K := K) k = (rv, msgs, k') -> Forall msg_ok msgs.
Hypothesis efd_ok : EventFd_ok E.

Lemma main_cost st rest s s' : todo s = st :: rest ->
  exec cfg stop_fd r st (set_todo s rest) = Next s' -> (remaining s' < remaining s)%nat.
Proof.
  intros Htd Hx. destruct (base.decide (st = LeaveTry)) as [->|Hst].
  - injection Hx as <-. rewrite !remaining_others, Htd. unfold leave_try.
    cbn [set_rc flag set_todo todo fleet stop stat].
    rewrite in_try_epilogue, epilogue_weight, todo_weight_cons. simpl.
    change (others (flag _ _)) with (others s). lia.
  - destruct (exec_cost st (set_todo s rest) s' Hst Hx) as (H1 & H2 & H3).
    rewrite !remaining_others, H1, Htd, todo_weight_cons, in_try_cons by done.
    change (others (set_todo s rest)) with (others s) in H3.
    change (fleet (set_todo s rest)) with (fleet s) in *. simpl. destruct (in_try rest); lia.
Qed.

Lemma step_cost kind s s' : Sound1 s -> step1 kind s s' ->
  match kind with
  | Advance => (remaining s' < remaining s)%nat
  | Linger => remaining s' = remaining s
  | Signal => (remaining s' <= S (remaining s))%nat
  end.
Proof.
  intros Hs Hstep. destruct Hstep as [st rest s s' Htd Hu Hx|st rest s s' Htd Hu Hx|st rest s Htd Hu Hth
    |i k sl s fin w Hsl Hrun Hu Hk Ht|i k sl s f Hsl Hrun Hu Hk Ht|s pc print Hrun Hu Hst
    |t s Hins Hrun|s before t fd after Hf Hb].
  - by eapply main_cost.
  - pose proof (at_throws _ st rest (ok_at _ _ _ _ s Hs) Htd) as Htry.
    apply raise_build in Hx as [[i ->] ->]; [|done..]. by apply (unwind_cost (Build i) rest).
  - pose proof (at_throws _ st rest (ok_at _ _ _ _ s Hs) Htd) as Htry.
    apply (unwind_cost st rest); try done. by destruct st.
  - pose proof (sum_insert slot_cost (fleet s) i sl (MkSlot w (if fin then Ended else Running) (pinned sl) (alive sl)) Hsl) as Hsum.
    unfold slot_cost in Hsum at 2 4. rewrite Hrun in Hsum. simpl in Hsum.
    rewrite !remaining_others. unfold others. simpl. rewrite length_insert.
    destruct fin; simpl in Hsum; destruct (in_try _); lia.
  - done.
  - rewrite !remaining_others. unfold others. simpl. rewrite Hrun. destruct pc; simpl; lia.
  - rewrite !remaining_others. unfold others, signalled, on_signal. simpl. destruct (_ <? 0); simpl; lia.
  - rewrite !remaining_others. unfold others. simpl. rewrite Hf, !length_app. simpl. lia.
Qed.

(** ** Nobody waits for ever *)

(** The program has been told to stop, or is past the [try] block. *)
Definition stopping s : Prop := efd_readable (efd (stop s)) = true \/ in_try (todo s) = false.

Hypothesis kernel_tells : exists (k : K) (n r0 r1 : Z) (k' : K), poll k kIdlePoll = Some (n, r0, r1, k') /\ 0 < n /\ r1 <> 0.

(** A running worker of a program told to stop takes its last turn. *)
Lemma worker_can_end s i sl : Sound1 s -> inflight (stop s) = [] ->
  efd_readable (efd (stop s)) = true -> fleet s !! i = Some sl -> _thread sl = Running ->
  exists s', step1 Advance s s'.
Proof.
  intros Hs Hfl Hr Hsl Hrun. destruct kernel_tells as (k & n0 & r0 & r1 & k' & Hp & Hn & Hr1).
  assert (sees (efd_readable (efd (stop s))) k) as Hk.
  { unfold sees. rewrite Hp, Hr. by right. }
  assert (undisturbed (WorkerThread i) s = true) as Hu by (unfold undisturbed; by rewrite Hfl).
  destruct (ok_slot _ _ _ _ stop_fd_valid s i sl Hs Hsl) as (Hacc & Hfd & _).
  set (w := MkWorker (set_kernel (_queue (wk sl)) k) (_tls (wk sl)) (_reads (wk sl))).
  destruct (turn_account blocklist (verbose cfg) (passthrough cfg) (clock i) w recv_ok)
    as (fin & w' & Ht & _ & _ & Hfin); [exact (kernel_account (wk sl) k Hacc)|].
  destruct fin.
  - eexists. exact (step_turn cfg blocklist stop_fd r clock i k sl s true w' Hsl Hrun Hu Hk Ht).
  - destruct Hfin as [_ Hno]. destruct Hr1. apply (Hno n0 r0 r1 k' Hp Hn).
    change (_stop_fd (queue (link w))) with (_stop_fd (queue (_queue (wk sl)))). by rewrite Hfd.
Qed.

(** Why [main] waits. *)
Lemma exec_blocked st s : exec cfg stop_fd r st s = Blocked ->
  (exists i sl, (st = JoinW i \/ st = Destroy i) /\ fleet s !! i = Some sl /\ _thread sl = Running) \/
  (st = JoinStats /\ stats (stat s) = Running).
Proof.
  assert (forall sl : Slot (K := K) (R := R), join sl = None -> _thread sl = Running) as Hj.
  { intros sl. unfold join. by destruct (_thread sl). }
  destruct st; intros Hx; try done; simpl in Hx; unfold on_slot in Hx.
  - by destruct (NFQueue_ctor _ _ _ _ _) as [[] ?].
  - by destruct (fleet s !! i).
  - destruct (fleet s !! i) as [sl|] eqn:Hsl; [|done]. left. exists i, sl. split_and!; [by left|done|].
    apply Hj. by destruct (join sl).
  - right. split; [done|]. by destruct (stats (stat s)).
  - destruct (fleet s !! i) as [sl|] eqn:Hsl; [|done]. left. exists i, sl. split_and!; [by right|done|].
    apply Hj. unfold Worker_dtor in Hx. by destruct (join sl).
Qed.

(** What the places say about a [main] that waits. *)
Lemma at_waits v st rest : At cfg stop_fd r k0 v -> v_todo v = st :: rest ->
  match st with
  | Destroy _ => WriteStopFd ∈ v_trace v
  | JoinW _ => in_try (v_todo v) = true
  | JoinStats => v_reporting v = false
  | _ => True
  end.
Proof.
  intros HAt Hv. pose proof (at_head cfg stop_fd r k0 stop_fd_valid v st rest HAt Hv) as Hh.
  destruct HAt as [i k Hin Hb|i k Hin Hb|i k rep t Hin Hb Hp|k t Hb Hp|k t Hb Hp|k t code ws Hp He
    |k sl rep t code acts ws th Hal Hp Hnw He|i k sl rep t code acts ws th Hin Hp Hall He
    |k sl rep t code acts ws th Hp Hns He|k sl rep t code acts ws th Hp Hns He
    |k sl rep t code acts ws th Hp Hns He]; simpl in Hv.
  - rewrite building_next in Hv. by destruct (i <? _)%nat; injection Hv as <- _.
  - rewrite starting_next in Hv. by destruct (i <? _)%nat; injection Hv as <- _.
  - simpl. rewrite in_try_joining. rewrite joining_next in Hv. by destruct (i <? _)%nat; injection Hv as <- _.
  - by injection Hv as <- _.
  - by injection Hv as <- _.
  - by injection Hv as <- _.
  - rewrite epilogue_destroying in Hv. by injection Hv as <- _.
  - assert (WriteStopFd ∈ acts ++ [WriteStopFd]) as Hw by (apply elem_of_app; right; by apply list_elem_of_singleton).
    rewrite destroying_next in Hv. by destruct (i <? length sl)%nat; injection Hv as <- _.
  - by injection Hv as <- _.
  - by injection Hv as <- _.
  - done.
Qed.

Lemma progress s : Sound1 s -> todo s <> [] -> stopping s -> exists s', step1 Advance s s'.
Proof.
  intros Hs Hne Hstop. destruct (inflight (stop s)) as [|[t fd] l] eqn:Hfl.
  2: { eexists. apply (step_write _ _ _ _ _ s [] t fd l Hfl). by intros ?%list_elem_of_In. }
  assert (forall t, undisturbed t s = true) as Hu by (intros t; unfold undisturbed; by rewrite Hfl).
  destruct (todo s) as [|st rest] eqn:Htd; [done|].
  destruct (exec cfg stop_fd r st (set_todo s rest)) as [s'|s'|] eqn:Hx.
  - exists s'. by eapply step_main.
  - exists (unwind s'). by eapply step_raise.
  - pose proof (at_waits _ st rest (ok_at _ _ _ _ s Hs) Htd) as Hw. simpl in Hw.
    destruct (exec_blocked st _ Hx) as [(i & sl & Hst & Hsl & Hrun)|[-> Hrun]].
    + apply (worker_can_end s i sl); try done. destruct Hst as [-> | ->].
      * destruct Hstop as [?|Hstop]; [done|]. rewrite Htd in *. congruence.
      * by destruct (ok_asked _ _ _ _ s Hs Hw).
    + simpl in Hrun. destruct (stats_pc (stat s)) as [|slept] eqn:Hpc.
      * eexists. apply (step_stats _ _ _ _ _ s None false); [done|done|]. by rewrite Hpc, Hw.
      * eexists. apply (step_stats _ _ _ _ _ s None false); [done|done|]. rewrite Hpc, Hw. simpl.
        by rewrite andb_false_r.
Qed.

Lemma exec_efd st s s' : exec cfg stop_fd r st s = Next s' -> efd (stop s') = efd (stop s).
Proof.
  assert (forall i f acts, on_slot s i f acts = Next s' -> efd (stop s') = efd (stop s)) as Hon.
  { intros i f acts. unfold on_slot. destruct (fleet s !! i) as [sl|]; [|by intros [= <-]].
    destruct (f sl); [|done]. intros [= <-]. by rewrite foldl_act. }
  destruct st; intros Hx; try (by eapply Hon); try (by injection Hx as <-); simpl in Hx.
  - destruct (NFQueue_ctor _ _ _ _ _) as [[q|what err] kt]; [by injection Hx as <-|done].
  - destruct (joinable _); [destruct (base.decide _); [|done]|]; by injection Hx as <-.
  - injection Hx as <-. unfold on_signal. by destruct (_ <? 0).
Qed.

(** A step leaves a stopping program stopping. *)
Lemma stopping_step kind s s' : step1 kind s s' -> stopping s -> stopping s'.
Proof.
  unfold stopping. intros Hstep Hstop.
  destruct Hstep as [st rest s s' Htd Hu Hx|st rest s s' Htd Hu Hx|st rest s Htd Hu Hth
    |i k sl s fin w Hsl Hrun Hu Hk Ht|i k sl s f Hsl Hrun Hu Hk Ht|s pc print Hrun Hu Hst
    |t s Hins Hrun|s before t fd after Hf Hb]; try done.
  - destruct (base.decide (st = LeaveTry)) as [->|Hst].
    + right. injection Hx as <-. apply in_try_epilogue.
    + rewrite (exec_efd _ _ _ Hx). destruct (exec_cost st _ s' Hst Hx) as (-> & _).
      rewrite Htd, in_try_cons in Hstop by done. exact Hstop.
  - right. apply in_try_epilogue.
  - right. apply in_try_epilogue.
  - unfold signalled, on_signal. simpl. by destruct (_ <? 0).
  - left. apply (written_readable E efd_ok).
Qed.

Lemma count_app k ks1 ks2 : count k (ks1 ++ ks2) = (count k ks1 + count k ks2)%nat.
Proof. unfold count. by rewrite list.filter_app, length_app. Qed.

(** Along any run: the invariant, the stop request and the cost. *)
Lemma steps_cost kinds s s' : steps cfg blocklist stop_fd r clock kinds s s' -> Sound1 s ->
  Sound1 s' /\ (stopping s -> stopping s') /\
  (count Advance kinds + remaining s' <= remaining s + count Signal kinds)%nat.
Proof.
  induction 1 as [s|kind kinds s s1 s2 Hstep Hsteps IH]; intros Hs; [split_and!; [done|done|simpl; lia]|].
  pose proof (step_cost kind s s1 Hs Hstep) as Hc. pose proof (stopping_step kind s s1 Hstep) as Hst.
  assert (Sound1 s1) as Hs1 by (by eapply step_ok).
  destruct (IH Hs1) as (H1 & H2 & H3). split_and!; [done|auto|].
  change (kind :: kinds) with ([kind] ++ kinds). rewrite !count_app. unfold count in *.
  destruct kind; simpl in *; lia.
Qed.

Lemma can_finish m : forall s, (remaining s <= m)%nat -> Sound1 s -> stopping s ->
  exists kinds s', steps cfg blocklist stop_fd r clock kinds s s' /\
    Forall (eq Advance) kinds /\ todo s' = [].
Proof.
  induction m as [|m IH]; intros s Hm Hs Hstop;
    (destruct (todo s) as [|st rest] eqn:Htd; [exists [], s; by split_and!; [apply steps_nil|..]|]);
    (destruct (progress s Hs) as (s1 & Hstep); [by rewrite Htd|done|]);
    (assert (remaining s1 < remaining s)%nat as Hc by exact (step_cost Advance s s1 Hs Hstep)); [lia|].
  destruct (IH s1) as (kinds & s2 & H1 & H2 & H3); [lia|by eapply step_ok|by eapply stopping_step|].
  exists (Advance :: kinds), s2. split_and!; [by eapply steps_cons|by constructor|done].
Qed.

End running.

End program.

(** ** The statistics thread by itself *)

(** [n] steps of its function with [reporting] as it is: where it is then, and
    the number of lines printed. *)
Fixpoint stats_run (interval_s : Z) (reporting : bool) (n : nat) (pc : StatsPc) : option StatsPc * nat :=
  match n with
  | O => (Some pc, 0%nat)
  | S n =>
      let '(pc, print) := stats_step interval_s reporting pc in
      let printed := if print then 1%nat else 0%nat in
      match pc with
      | None => (None, printed)
      | Some pc => let '(pc, m) := stats_run interval_s reporting n pc in (pc, (printed + m)%nat)
      end
  end.

Lemma stats_run_naps interval_s n : forall slept, (slept + Z.of_nat n * 100 <= interval_s * 1000) ->
  forall m, stats_run interval_s true (n + m) (Sleeping slept) =
    stats_run interval_s true m (Sleeping (slept + Z.of_nat n * 100)).
Proof.
  induction n as [|n IH]; intros slept Hs m; [by rewrite Z.add_0_r|].
  simpl plus. cbn [stats_run stats_step].
  rewrite (proj2 (Z.ltb_lt slept _)) by lia. cbn [andb].
  rewrite (IH (slept + 100)) by lia. replace (slept + 100 + Z.of_nat n * 100) with (slept + Z.of_nat (S n) * 100) by lia.
  by destruct (stats_run _ _ m _).
Qed.

(** * Properties *)

Section properties.
  Context {K R E : Type} `{!Netfilter K} `{!Pcpp R} `{!MapOrder} `{!EventFd E}.
  Context (blocklist : BlockList) (stop_fd : Z) (r : R) (k0 : K) (clock : nat -> nat -> Z).
  Abbreviation SysKRE := (Sys (K := K) (R := R) (E := E)).
  Implicit Types s : SysKRE.

(** C3: the shared objects outlive their use.  In every interleaving of [main], the
    workers, the statistics thread and the signals, no thread polls or writes a
    closed stop fd, touches a destroyed worker, outlives what it refers to, or
    faults; a worker is destroyed only after its thread is done and has answered
    everything; and once the stop fd is closed no other thread runs, no handler
    is in flight and [g_stop_fd] is -1. *)
Theorem program_safe cfg s : 0 <= stop_fd ->
  (forall k rv msgs k', recv (K := K) k = (rv, msgs, k') -> Forall msg_ok msgs) -> EventFd_ok E ->
  reachable cfg blocklist stop_fd r clock k0 s ->
  misuse s = false /\
  (forall i sl, fleet s !! i = Some sl -> alive sl = false ->
     joinable (_thread sl) = false /\ answered (wk sl)) /\
  (fd_open (stop s) = false ->
     g_stop_fd (stop s) = -1 /\ inflight (stop s) = [] /\
     forall t, t <> MainThread -> running t s = false).
Proof.
  intros Hfd Hrecv Hefd Hreach.
  pose proof (reachable_ok cfg stop_fd r k0 Hfd blocklist clock Hrecv Hefd s Hreach) as Hs.
  split; [by apply (ok_misuse _ _ _ _ s Hs)|]. split.
  - intros i sl Hsl Hal.
    assert (joinable (_thread sl) = false) as Hj.
    { apply phase_not_joinable. intros Hst.
      destruct (at_worker cfg stop_fd r k0 Hfd (view s) i (slot_view sl) (ok_at _ _ _ _ s Hs)) as [Ha _]; [|done|].
      - simpl. by rewrite list_lookup_fmap, Hsl.
      - simpl in Ha. by rewrite Hal in Ha. }
    split; [done|]. destruct (ok_slot _ _ _ _ Hfd s i sl Hs Hsl) as (_ & _ & Hok).
    destruct (_thread sl); try done; apply Hok.
  - intros Hc. destruct (at_open cfg stop_fd r k0 Hfd (view s) (ok_at _ _ _ _ s Hs)) as (_ & _ & _ & Hg).
    split_and!; [by apply Hg|by apply (ok_open _ _ _ _ s Hs)|].
    intros [|i|] Ht; [done| |]; simpl.
    + destruct (fleet s !! i) as [sl|] eqn:Hsl; [|done]. apply bool_decide_eq_false. intros Hrun.
      destruct (at_worker cfg stop_fd r k0 Hfd (view s) i (slot_view sl) (ok_at _ _ _ _ s Hs)) as [_ Ho].
      * simpl. by rewrite list_lookup_fmap, Hsl.
      * simpl. by rewrite Hrun.
      * simpl in Ho. by rewrite Hc in Ho.
    + apply bool_decide_eq_false. intros Hrun.
      destruct (at_stats cfg stop_fd r k0 Hfd (view s) (ok_at _ _ _ _ s Hs)) as (_ & Ho & _).
      * simpl. by rewrite Hrun.
      * simpl in Ho. by rewrite Hc in Ho.
Qed.

(** C4: the program shuts down.  From any reachable state in which the stop fd has
    been written, or [main] is past its [try] block, the program can go on to its
    end; however it is scheduled it takes at most [remaining] steps forward, one
    more per signal that arrives, apart from turns that fail to poll and naps; and
    it is never stuck on the way: no join waits for a thread that waits. *)
Theorem program_shuts_down cfg s : 0 <= stop_fd ->
  (forall k rv msgs k', recv (K := K) k = (rv, msgs, k') -> Forall msg_ok msgs) -> EventFd_ok E ->
  (exists (k : K) (n r0 r1 : Z) (k' : K), poll k kIdlePoll = Some (n, r0, r1, k') /\ 0 < n /\ r1 <> 0) ->
  reachable cfg blocklist stop_fd r clock k0 s -> stopping s ->
  (exists kinds s', steps cfg blocklist stop_fd r clock kinds s s' /\ Forall (eq Advance) kinds /\
     todo s' = []) /\
  (forall kinds s', steps cfg blocklist stop_fd r clock kinds s s' ->
     (count Advance kinds <= remaining s + count Signal kinds)%nat /\
     (todo s' = [] \/ exists s'', step cfg blocklist stop_fd r clock Advance s' s'')).
Proof.
  intros Hfd Hrecv Hefd Hk Hreach Hstop.
  pose proof (reachable_ok cfg stop_fd r k0 Hfd blocklist clock Hrecv Hefd s Hreach) as Hs. split.
  - by apply (can_finish cfg stop_fd r k0 blocklist clock Hfd Hrecv Hefd Hk (remaining s)).
  - intros kinds s' Hsteps.
    destruct (steps_cost cfg stop_fd r k0 blocklist clock Hfd Hrecv Hefd Hk kinds s s' Hsteps Hs)
      as (Hs' & Hstop' & Hcost).
    split; [lia|]. destruct (todo s') as [|st rest] eqn:Htd; [by left|right].
    apply (progress cfg stop_fd r k0 blocklist clock Hfd Hrecv Hefd Hk s' Hs'); [by rewrite Htd|auto].
Qed.

(** C2: whatever happens, everything is answered.  When the program has returned,
    also after an exception, each worker it made has sent one verdict for each
    packet it ever received and holds nothing; and on a kernel that takes its
    verdicts the final counters line shows as many verdicts as packets received,
    nothing outstanding and nothing undecided. *)
Theorem program_answers_everything cfg s : 0 <= stop_fd ->
  (forall k rv msgs k', recv (K := K) k = (rv, msgs, k') -> Forall msg_ok msgs) -> EventFd_ok E ->
  reachable cfg blocklist stop_fd r clock k0 s -> todo s = [] ->
  Forall (λ sl, map fst (sent (_queue (wk sl))) ≡ₚ seen (_queue (wk sl)) /\ stored (_tls (wk sl)) = [] /\
    joinable (_thread sl) = false) (fleet s) /\
  (final s <> [] -> final s = map wk (fleet s)) /\
  (accepts (K := K) -> let line := stats_line (final s) in
     verdicts line = rx line /\ held_now line = 0 /\ undecided line = 0).
Proof.
  intros Hfd Hrecv Hefd Hreach Htd.
  pose proof (reachable_ok cfg stop_fd r k0 Hfd blocklist clock Hrecv Hefd s Hreach) as Hs.
  destruct (finished_at cfg stop_fd r k0 Hfd s Hs Htd) as (_ & _ & _ & _ & Hall & _).
  split_and!.
  - eapply List.Forall_impl; [|exact Hall]. intros sl [Hj Han]. split; [by apply answered_ids|]. by split; [apply Han|].
  - intros Hf. by apply (ok_reported _ _ _ _ s Hs).
  - intros Ha. apply answered_stats; [done|].
    destruct (final s) as [|w ws] eqn:Hf; [done|]. rewrite <- Hf.
    destruct (ok_reported _ _ _ _ s Hs) as [-> _]; [by rewrite Hf|].
    rewrite List.Forall_map. eapply List.Forall_impl; [|exact Hall]. by intros sl [].
Qed.

(** C16: the interleaving does not matter.  A program that has returned has the
    exit code, the actions and the reported workers of the sequential [main], for
    some outcome [after] of the workers' loops in which each has answered
    everything, and some outcome [creates] of making the threads, all of which
    were made unless an exception said otherwise. *)
Theorem program_refines_main args file s :
  let cfg := config (parse args) in
  should_exit (parse args) = false -> BlockList_ctor (file (blocklist_path cfg)) = Some blocklist ->
  0 <= stop_fd ->
  (forall k rv msgs k', recv (K := K) k = (rv, msgs, k') -> Forall msg_ok msgs) -> EventFd_ok E ->
  reachable cfg blocklist stop_fd r clock k0 s -> todo s = [] ->
  exists creates after, main args file stop_fd r k0 creates after = (rc s, trace s, final s) /\
    Forall (λ w, answered w) (final s) /\ (thrown s = false -> forall j, creates j = true).
Proof.
  intros cfg He Hbl Hfd Hrecv Hefd Hreach Htd.
  pose proof (reachable_ok cfg stop_fd r k0 Hfd blocklist clock Hrecv Hefd s Hreach) as Hs.
  destruct (finished_at cfg stop_fd r k0 Hfd s Hs Htd) as (_ & _ & _ & _ & Hall & acts & Htr & Hend).
  assert (Forall (λ w, answered w) (final s)) as Han.
  { destruct (final s) as [|w ws] eqn:Hf; [done|]. rewrite <- Hf.
    destruct (ok_reported _ _ _ _ s Hs) as [-> _]; [by rewrite Hf|].
    rewrite List.Forall_map. eapply List.Forall_impl; [|exact Hall]. by intros sl []. }
  destruct (ended_main cfg stop_fd r k0 (rc s) acts (final s) (thrown s) Hend)
    as (creates & after & Hm & Hcr).
  exists creates, after. split_and!; [|done|done].
  unfold main. rewrite He. fold cfg. rewrite Hbl, (proj2 (Z.ltb_ge stop_fd 0) Hfd), Htr. exact Hm.
Qed.

(** C17: what the exit code of a run says.  A program that has returned has exit
    code 0 or 1.  It is 0 exactly when every worker was set up, started and
    joined, none of their queues failed, and no thread, the statistics thread
    included, failed to be created; and then someone had sent the process a
    signal: the program does not end by itself. *)
Theorem program_exit_code cfg s : 0 <= stop_fd ->
  (forall k rv msgs k', recv (K := K) k = (rv, msgs, k') -> Forall msg_ok msgs) -> EventFd_ok E ->
  reachable cfg blocklist stop_fd r clock k0 s -> todo s = [] -> 0 < worker_count cfg ->
  (rc s = 0 \/ rc s = 1) /\
  (rc s = 0 <-> Z.of_nat (length (final s)) = worker_count cfg /\ final s = map wk (fleet s) /\
     Forall (λ sl, _thread sl = Joined /\ failed (queue (_queue (wk sl))) = false) (fleet s) /\
     thrown s = false) /\
  (rc s = 0 -> (0 < signals (stop s))%nat).
Proof.
  intros Hfd Hrecv Hefd Hreach Htd Hn.
  pose proof (reachable_ok cfg stop_fd r k0 Hfd blocklist clock Hrecv Hefd s Hreach) as Hs.
  destruct (finished_at cfg stop_fd r k0 Hfd s Hs Htd) as (_ & _ & _ & _ & Hall & acts & Htr & Hend).
  unfold ended_as in Hend.
  assert (rc s = 0 -> thrown s = false /\ length (final s) = n cfg /\ none_failed (final s) = true) as H0.
  { intros Hrc. destruct (thrown s); [destruct Hend; lia|].
    destruct Hend as [(_ & ? & _)|(ws0 & _ & _ & Hl & _ & Hc)]; [lia|]. split_and!; [done|done|].
    destruct (none_failed (final s)); [done|lia]. }
  assert (n cfg <> 0%nat) as Hn0 by (unfold n; lia).
  assert (length (final s) = n cfg -> final s <> []) as Hne
    by (intros Hl Hnil; rewrite Hnil in Hl; by destruct Hn0).
  split_and!.
  - destruct (thrown s); [right; apply Hend|]. destruct Hend as [(_ & ? & _)|(ws0 & _ & _ & _ & _ & ->)]; [by right|].
    destruct (none_failed _); auto.
  - split.
    + intros Hrc. destruct (H0 Hrc) as (Hth & Hl & Hfree).
      destruct (ok_reported _ _ _ _ s Hs (Hne Hl)) as [Hf Hj].
      split_and!; [rewrite Hl; unfold n; lia|done| |done].
      rewrite Hf in Hfree. apply none_failed_spec in Hfree. rewrite List.Forall_map in Hfree.
      apply List.Forall_and; [exact Hj|exact Hfree].
    + intros (Hl & Hf & Hj & Hth). rewrite Hth in Hend. apply List.Forall_and_inv in Hj as [_ Hj].
      destruct Hend as [(_ & _ & Hnil)|(ws0 & _ & _ & _ & _ & ->)]; [rewrite Hnil in Hl; simpl in Hl; lia|].
      assert (none_failed (final s) = true) as ->; [|done].
      rewrite Hf. apply none_failed_spec. by rewrite List.Forall_map.
  - intros Hrc. destruct (H0 Hrc) as (_ & Hl & Hfree). by apply (ok_zero _ _ _ _ s Hs); [apply Hne|].
Qed.

(** The statistics thread keeps time and stops when told.  While it reports,
    it prints exactly one line per interval, after ten naps a second, and starts
    over; once [reporting] is false its next step, wherever it is, is its last and
    prints nothing. *)
Lemma stats_thread_paced interval_s : 0 < interval_s ->
  stats_run interval_s true (S (Z.to_nat (10 * interval_s) + 1)) AtWhile = (Some AtWhile, 1%nat) /\
  (forall m, (m < S (Z.to_nat (10 * interval_s) + 1))%nat ->
     (stats_run interval_s true m AtWhile).2 = 0%nat) /\
  (forall pc, stats_step interval_s false pc = (None, false)).
Proof.
  intros Hi. split_and!.
  - cbn [stats_run stats_step]. rewrite stats_run_naps by lia. rewrite Z.add_0_l.
    replace (Z.of_nat (Z.to_nat (10 * interval_s)) * 100) with (interval_s * 1000) by lia.
    cbn [stats_run stats_step]. by rewrite Z.ltb_irrefl.
  - intros m Hm. destruct m as [|m]; [done|]. cbn [stats_run stats_step].
    replace m with (m + 0)%nat by lia. rewrite stats_run_naps by lia. done.
  - intros [|slept]; simpl; [done|]. by rewrite andb_false_r.
Qed.

End properties.

(** ** Witnesses *)

(** An eventfd that counts, up to the kernel's maximum. *)
#[export] Instance demo_eventfd : EventFd N := {|
  eventfd0 := 0%N;
  efd_write c := if (c <? 18446744073709551614)%N then (c + 1)%N else c;
  efd_readable c := (0 <? c)%N
|}.

Lemma demo_eventfd_ok : EventFd_ok N.
Proof.
  split; [done|]. intros c. simpl. destruct (N.ltb_spec c 18446744073709551614); apply N.ltb_lt; lia.
Qed.

Definition demo_args : list bytes := [str "-j"; str "2"; str "-nfq"; str "10"; str "--stats"; str "1"].
Definition demo_cfg : Config := config (parse demo_args).

(** Two workers: traffic for the first, the statistics thread at work, and a
    signal in the second worker's thread; then the end. *)
Definition demo_start : list (Move (K := DemoKernel)) :=
  repeat MainMoves 6 ++
  [TakesTurn 0 demo_kernel; StatsMoves; StatsMoves; SignalIn (WorkerThread 1); HandlerWrites].

Definition demo_schedule : list (Move (K := DemoKernel)) :=
  demo_start ++
  [TakesTurn 0 (0%nat, []); MainMoves; TakesTurn 1 (0%nat, []); MainMoves; MainMoves; StatsMoves] ++
  repeat MainMoves 4 ++ HandlerWrites :: repeat MainMoves 5.

Definition demo_perform ms := perform (K := DemoKernel) (R := list Z) (E := N)
  demo_cfg demo_list 3 [] (λ _, demo_clock) ms (launched demo_cfg 3 demo_kernel).

Abbreviation demo_reachable :=
  (reachable (K := DemoKernel) (R := list Z) (E := N) demo_cfg demo_list 3 [] (λ _, demo_clock) demo_kernel).

Lemma demo_performed ms s : demo_perform ms = Some s -> demo_reachable s.
Proof. apply perform_reachable, reachable_launched. Qed.

Example demo_returns :
  (λ s, (todo s, thrown s, rc s, trace s, map (λ w, sent (_queue w)) (final s), signals (stop s))) <$>
    demo_perform demo_schedule =
  Some ([], false, 0,
    [BindQueue 10; BindQueue 11; InstallSignalHandlers; StartWorker 0; StartWorker 1;
     JoinWorker 0; JoinWorker 1; WriteStopFd; DestroyWorkers; CloseStopFd],
    [[(1, NF_ACCEPT); (2, NF_ACCEPT)]; []], 1%nat).
Proof. vm_compute. reflexivity. Qed.

Example demo_told : (λ s, (efd_readable (efd (stop s)), remaining s)) <$> demo_perform demo_start = Some (true, 17%nat).
Proof. vm_compute. reflexivity. Qed.

(** The state the schedule ends in. *)
Lemma demo_end : exists s, demo_reachable s /\ todo s = [] /\ thrown s = false /\ rc s = 0.
Proof.
  pose proof demo_returns as Hr. destruct (demo_perform demo_schedule) as [s|] eqn:Hp; [|done].
  injection Hr as H1 H2 H3 _ _ _. exists s.
  exact (conj (demo_performed _ _ Hp) (conj H1 (conj H2 H3))).
Qed.

Lemma demo_stopping : exists s, demo_reachable s /\ stopping s.
Proof.
  pose proof demo_told as Ht. destruct (demo_perform demo_start) as [s|] eqn:Hp; [|done].
  injection Ht as H1 _. exists s. split; [exact (demo_performed _ _ Hp)|by left].
Qed.

Lemma demo_tells : exists (k : DemoKernel) (n r0 r1 : Z) (k' : DemoKernel),
  poll k kIdlePoll = Some (n, r0, r1, k') /\ 0 < n /\ r1 <> 0.
Proof. by exists (0%nat, []), 1, 0, POLLIN, (0%nat, []). Qed.

Lemma program_safe_witness : exists s, demo_reachable s /\ todo s = [] /\ misuse s = false.
Proof.
  destruct demo_end as (s & Hs & Htd & _). exists s. split; [exact Hs|]. split; [exact Htd|].
  exact (proj1 (program_safe demo_list 3 [] demo_kernel (λ _, demo_clock) demo_cfg s
    ltac:(lia) demo_msgs_ok demo_eventfd_ok Hs)).
Defined.

Lemma program_shuts_down_witness : exists s, demo_reachable s /\ exists kinds s',
  steps demo_cfg demo_list 3 [] (λ _, demo_clock) kinds s s' /\ Forall (eq Advance) kinds /\ todo s' = [].
Proof.
  destruct demo_stopping as (s & Hs & Hstop). exists s. split; [exact Hs|].
  exact (proj1 (program_shuts_down demo_list 3 [] demo_kernel (λ _, demo_clock) demo_cfg s
    ltac:(lia) demo_msgs_ok demo_eventfd_ok demo_tells Hs Hstop)).
Defined.

Lemma program_answers_everything_witness : exists s, demo_reachable s /\ todo s = [] /\
  verdicts (stats_line (final s)) = rx (stats_line (final s)).
Proof.
  destruct demo_end as (s & Hs & Htd & _). exists s. split; [exact Hs|]. split; [exact Htd|].
  destruct (program_answers_everything demo_list 3 [] demo_kernel (λ _, demo_clock) demo_cfg s
    ltac:(lia) demo_msgs_ok demo_eventfd_ok Hs Htd) as (_ & _ & Hline).
  refine (proj1 (Hline _)). intros k id code. discriminate.
Defined.

Definition demo_file (path : bytes) : option bytes := Some (str "blocked.example").

(** The second worker's thread cannot be created: the first one is stopped. *)
Definition demo_no_thread : list (Move (K := DemoKernel)) :=
  repeat MainMoves 4 ++ [NoThread; MainMoves; HandlerWrites; TakesTurn 0 (0%nat, [])] ++ repeat MainMoves 5.

Example demo_gives_up :
  (λ s, (todo s, rc s, trace s, misuse s)) <$> demo_perform demo_no_thread =
  Some ([], 1, [BindQueue 10; BindQueue 11; InstallSignalHandlers; StartWorker 0;
                WriteStopFd; DestroyWorkers; CloseStopFd], false).
Proof. vm_compute. reflexivity. Qed.

Lemma demo_gave_up : exists s, demo_reachable s /\ todo s = [] /\ rc s = 1.
Proof.
  pose proof demo_gives_up as Hr. destruct (demo_perform demo_no_thread) as [s|] eqn:Hp; [|done].
  injection Hr as H1 H2 _ _. exists s. exact (conj (demo_performed _ _ Hp) (conj H1 H2)).
Qed.

Lemma program_refines_main_witness :
  (exists (s : Sys (K := DemoKernel) (R := list Z) (E := N)) creates after,
     main demo_args demo_file 3 [] demo_kernel creates after = (rc s, trace s, final s) /\ rc s = 0) /\
  (exists (s : Sys (K := DemoKernel) (R := list Z) (E := N)) creates after,
     main demo_args demo_file 3 [] demo_kernel creates after = (rc s, trace s, final s) /\ rc s = 1).
Proof.
  split.
  - destruct demo_end as (s & Hs & Htd & _ & Hrc). exists s.
    destruct (program_refines_main demo_list 3 [] demo_kernel (λ _, demo_clock) demo_args demo_file s)
      as (creates & after & H1 & _); [reflexivity|reflexivity|lia|exact demo_msgs_ok|exact demo_eventfd_ok
        |exact Hs|exact Htd|].
    exists creates, after. exact (conj H1 Hrc).
  - destruct demo_gave_up as (s & Hs & Htd & Hrc). exists s.
    destruct (program_refines_main demo_list 3 [] demo_kernel (λ _, demo_clock) demo_args demo_file s)
      as (creates & after & H1 & _); [reflexivity|reflexivity|lia|exact demo_msgs_ok|exact demo_eventfd_ok
        |exact Hs|exact Htd|].
    exists creates, after. exact (conj H1 Hrc).
Defined.

Lemma program_exit_code_witness : exists s, demo_reachable s /\ (0 < signals (stop s))%nat.
Proof.
  destruct demo_end as (s & Hs & Htd & _ & Hrc). exists s. split; [exact Hs|].
  refine (proj2 (proj2 (program_exit_code demo_list 3 [] demo_kernel (λ _, demo_clock) demo_cfg s
    ltac:(lia) demo_msgs_ok demo_eventfd_ok Hs Htd _)) Hrc). vm_compute. reflexivity.
Defined.

Lemma stats_thread_paced_witness : stats_run 2 true 22 AtWhile = (Some AtWhile, 1%nat).
Proof. exact (proj1 (stats_thread_paced 2 ltac:(lia))). Defined.
