(* ===== verification/ProgramTrace.v ===== *)
(** * The running program: its workers' extractors

    Whatever the interleaving, the state of each worker is that of an extractor
    of its own run on a list of calls, and the verdicts it has sent are the ones
    that run hands out.  So what holds of an extractor's runs holds of each worker
    of the program. *)
From S2P Require Import ClientHello ClientHelloSpec Packet PacketSpec Extractor ExtractorInv ExtractorSpec ExtractorDecision Streams ExtractorTraffic BlockList NFQueue Worker WorkerTrace Cli Main Program ProgramInv ProgramSpec.

Section program.
  Context {K R E : Type} `{!Netfilter K} `{!Pcpp R} `{!MapOrder} `{!EventFd E}.
  Context (cfg : Config) (stop_fd : Z) (r : R) (k0 : K).
  Context (blocklist : BlockList) (clock : nat -> nat -> Z).
  Abbreviation WorkerKR := (Worker (K := K) (R := R)).
  Abbreviation SysKRE := (Sys (K := K) (R := R) (E := E)).
  Implicit Types s : SysKRE.

(** The ceiling on blocked flows that a worker's extractor is given. *)
Definition blocked_ceiling : nat := Z.to_nat (max_blocked_flows cfg).

(** Nothing that is stored has bytes: no packet points into the receive buffer. *)
Definition settled (w : WorkerKR) : Prop :=
  _decided (_tls w) = [] /\ Forall (λ p, data p = None) (stored (_tls w)).

(** The calls of worker [i], which end with the last thing that a turn does. *)
Definition calls_of (i : nat) (w : WorkerKR) (ops : list op) : Prop :=
  Ran blocklist (verbose cfg) (clock i) r kDefaultMaxFlows blocked_ceiling w ops /\
  (ops = [] \/ exists ops' fin, ops = ops' ++ turn_end (clock i) w fin).

Record Followed (i : nat) (w : WorkerKR) : Prop := {
  fo_calls : passthrough cfg = false -> exists ops, calls_of i w ops;
  fo_passed : passthrough cfg = true -> passed w;
  fo_settled : settled w
}.

Lemma followed_ctor i q k : Followed i (Worker_ctor q k r kDefaultMaxFlows blocked_ceiling).
Proof.
  split; [| |by split].
  - intros _. exists []. split; [apply Ran_ctor|by left].
  - intros _. split_and!; [done|done|]. unfold stored. simpl. by rewrite held_in_empty.
Qed.

Lemma shells_settled (w : WorkerKR) : Account w -> _decided (_tls w) = [] -> settled w.
Proof.
  intros Hw Hd. split; [done|]. unfold stored. rewrite Hd. simpl.
  apply list.Forall_forall. intros p (k & c & Hk & Hp)%elem_of_held_in.
  pose proof (gd_shells _ (ac_good w Hw) k c p Hk Hp) as Hb. unfold has_bytes in Hb. by destruct (data p).
Qed.

Hypothesis recv_ok : forall k rv msgs k', recv (K := K) k = (rv, msgs, k') -> Forall msg_ok msgs.

Lemma turn_settled pass clk (w : WorkerKR) fin w' : Account w ->
  turn blocklist (verbose cfg) pass clk w = Ok (fin, w') -> settled w'.
Proof using recv_ok.
  intros Hw. unfold turn.
  destruct (run_once_account blocklist (verbose cfg) pass clk recv_ok w Hw) as (ev & w1 & -> & A1).
  cbn [mbind outcome_bind fst snd].
  destruct (after_turn_account blocklist (verbose cfg) clk w1 A1) as (w2 & H2 & A2 & D2).
  destruct (finish_account blocklist (verbose cfg) w1 A1) as (w3 & H3 & A3 & D3 & _).
  destruct ev; rewrite ?H2, ?H3; cbn [mbind outcome_bind]; intros [= <- <-]; apply shells_settled; try done.
  all: unfold stored in D3; by apply app_nil in D3 as [D3%fmap_nil_inv _].
Qed.

Lemma turn_followed i (w : WorkerKR) k fin w' : Account w -> Followed i w ->
  turn_of cfg blocklist clock i k w = Ok (fin, w') -> Followed i w'.
Proof using recv_ok.
  intros Hw [Hc Hpass _] Ht. unfold turn_of in Ht. set (w0 := MkWorker _ _ _) in Ht.
  assert (Account w0) as A0 by exact (kernel_account w k Hw).
  split; [| |by apply (turn_settled (passthrough cfg) (clock i) w0 fin)].
  2: { intros Hp. rewrite Hp in Ht. refine (turn_passed blocklist (verbose cfg) (clock i) recv_ok w0 fin w' A0 Ht _).
       exact (Hpass Hp). }
  intros Hp. rewrite Hp in Ht. destruct (Hc Hp) as (ops & Hran & _).
  destruct (traced_turn blocklist (verbose cfg) (clock i) recv_ok w0 fin w' A0 Ht) as (ops' & Htr).
  exists (ops ++ ops' ++ turn_end (clock i) w' fin). split; [|right; exists (ops ++ ops'), fin; by rewrite app_assoc].
  apply (Ran_traced _ _ _ _ _ _ w); [done|].
  destruct Htr as (out & Htr). by exists out.
Qed.

(** ** Every step *)

Definition all_workers (P : nat -> WorkerKR -> Prop) s : Prop :=
  forall i sl, fleet s !! i = Some sl -> P i (wk sl).

Lemma on_slot_workers P s i f acts s' : on_slot s i f acts = Next s' ->
  (forall sl sl', f sl = Some sl' -> wk sl' = wk sl) -> all_workers P s -> all_workers P s'.
Proof.
  intros Ho Hf Hall j sl Hj. unfold on_slot in Ho.
  destruct (fleet s !! i) as [sl0|] eqn:Hi; [|injection Ho as <-; by apply Hall].
  destruct (f sl0) as [sl1|] eqn:Hsl1; [|done]. injection Ho as <-. rewrite foldl_act in Hj. simpl in Hj.
  apply list_lookup_insert_Some in Hj as [(<- & <- & _)|[_ Hj]]; [|by apply Hall].
  rewrite (Hf _ _ Hsl1). by apply Hall.
Qed.

Lemma join_wk (sl sl' : Slot (K := K) (R := R)) : join sl = Some sl' -> wk sl' = wk sl.
Proof. unfold join. destruct (joinable _); [destruct (base.decide _); [|done]|]; by intros [= <-]. Qed.

Lemma start_wk i (sl : Slot (K := K) (R := R)) : wk (start cfg i sl) = wk sl.
Proof. unfold start. by destruct (joinable _). Qed.

(** A statement of [main] builds workers, and leaves those there are alone. *)
Lemma exec_workers P st s s' : exec cfg stop_fd r st s = Next s' ->
  (forall i q k, P i (Worker_ctor q k r kDefaultMaxFlows blocked_ceiling)) ->
  all_workers P s -> all_workers P s'.
Proof.
  intros Hx Hnew Hall. destruct st; cbn [exec] in Hx; try (injection Hx as <-; exact Hall).
  - destruct (NFQueue_ctor _ _ _ _ _) as [[q|what err] kt]; [|done]. injection Hx as <-.
    intros j sl. simpl. rewrite lookup_app_Some. intros [Hj|[_ Hj]]; [by apply Hall|].
    apply list_lookup_singleton_Some in Hj as [_ <-]. apply Hnew.
  - apply (on_slot_workers P _ _ _ _ _ Hx); [|done]. intros sl sl' [= <-]. apply start_wk.
  - apply (on_slot_workers P _ _ _ _ _ Hx); [|done]. apply join_wk.
  - destruct (joinable _); [destruct (base.decide _); [|done]|]; injection Hx as <-; exact Hall.
  - injection Hx as <-. destruct (_ <? 0); exact Hall.
  - apply (on_slot_workers P _ _ _ _ _ Hx); [|done]. intros sl sl' Hd. unfold Worker_dtor in Hd.
    destruct (join sl) as [sl1|] eqn:Hj; [|done]. injection Hd as <-. exact (join_wk sl sl1 Hj).
Qed.

Hypothesis stop_fd_valid : 0 <= stop_fd.

Lemma main_moves_workers P m : (forall i q k, P i (Worker_ctor q k r kDefaultMaxFlows blocked_ceiling)) ->
  forall s s', all_workers P s ->
  perform cfg blocklist stop_fd r clock (repeat MainMoves m) s = Some s' -> all_workers P s'.
Proof using k0 stop_fd_valid.
  intros Hnew. induction m as [|m IH]; intros s s' Hall Hp; simpl in Hp; [by injection Hp as <-|].
  destruct (todo s) as [|st rest]; [done|]. destruct (undisturbed MainThread s); [|done].
  destruct (exec _ _ _ _ _) as [s1|s1|] eqn:Hx; [| |done]; cbn [mbind option_bind fst snd] in Hp.
  - apply (IH s1); [|done]. by apply (exec_workers P st (set_todo s rest)).
  - apply (IH (unwind s1)); [|done]. apply raise_build in Hx as [_ ->]; [exact Hall|done..].
Qed.

Hypothesis efd_ok : EventFd_ok E.
#[local] Set Default Proof Using "Type*".

Lemma step_followed kind s s' : Sound cfg stop_fd r k0 s -> step cfg blocklist stop_fd r clock kind s s' ->
  all_workers Followed s -> all_workers Followed s'.
Proof.
  intros Hs Hstep Hall. destruct Hstep as [st rest s s' Htd Hu Hx|st rest s s' Htd Hu Hx|st rest s Htd Hu Hth
    |i k sl s fin w Hsl Hrun Hu Hk Ht|i k sl s f Hsl Hrun Hu Hk Ht|s pc print Hrun Hu Hst
    |t s Hins Hrun|s before t fd after Hf Hb]; try exact Hall.
  - apply (exec_workers Followed st (set_todo s rest)); [done|apply followed_ctor|exact Hall].
  - apply raise_build in Hx as [_ ->]; [exact Hall|done..].
  - intros j sl'. simpl. intros Hj. apply list_lookup_insert_Some in Hj as [(<- & <- & _)|[_ Hj]]; [|by apply Hall].
    destruct (ok_slot _ _ _ _ stop_fd_valid s i sl Hs Hsl) as (Hacc & _ & _).
    apply (turn_followed i (wk sl) k fin); [done|by apply Hall|done].
Qed.

Lemma reachable_followed s : reachable cfg blocklist stop_fd r clock k0 s -> all_workers Followed s.
Proof.
  induction 1 as [|kind s s' Hr IH Hstep]; [by intros i sl|].
  pose proof (reachable_ok cfg stop_fd r k0 stop_fd_valid blocklist clock recv_ok efd_ok s Hr) as Hs.
  by apply (step_followed kind s).
Qed.

End program.

(** The readings of a clock that does not run backwards. *)
Lemma monotone_times (clk : nat -> Z) : (forall n, clk n <= clk (S n)) ->
  forall ops t m, t <= clk m -> times ops = map clk (seq m (length (times ops))) -> monotone t ops.
Proof.
  intros Hclk. induction ops as [|o ops IH]; intros t m Ht Hops; [done|].
  change (times (o :: ops)) with (times_of o ++ times ops) in Hops.
  destruct o as [now p|now| |]; simpl in Hops |- *; try (by apply (IH t m)).
  all: injection Hops as -> Hops; split; [done|]; apply (IH _ (S m)); [apply Hclk|done].
Qed.

(** A turn's drain leaves the flow table alone. *)
Lemma run_drained {D R} `{!Policy D, !Pcpp R, !MapOrder} (e : Extractor D R) ops o e' out :
  run e (ops ++ [o; Drain]) = Ok (e', out) ->
  exists e1 out1, run e (ops ++ [o]) = Ok (e1, out1) /\ _conns e' = _conns e1.
Proof.
  change (ops ++ [o; Drain]) with (ops ++ [o] ++ [Drain]). rewrite app_assoc, run_app.
  destruct (run e (ops ++ [o])) as [[e1 out1]|]; [|done]. cbn [mbind outcome_bind run run_op fst snd].
  intros [= <- _]. by exists e1, out1.
Qed.

Lemma run_flushed {D R} `{!Policy D, !Pcpp R, !MapOrder} (e : Extractor D R) ops e' out :
  Good e -> Forall op_ok ops -> run e (ops ++ [Flush]) = Ok (e', out) -> _conns e' = ∅.
Proof.
  intros Hg Hok. rewrite run_app. destruct (run_good e ops Hg Hok) as (e1 & out1 & -> & [I1 Q1 _ _] & _).
  cbn [mbind outcome_bind run run_op fst snd].
  destruct (flush_spec e1 I1 Q1) as (e2 & -> & _ & _ & Hc & _). cbn [mbind outcome_bind fst snd].
  by intros [= <- _].
Qed.

(** * Properties *)

Section properties.
  Context {K R E : Type} `{!Netfilter K} `{!Pcpp R} `{!MapOrder} `{!EventFd E}.
  Context (blocklist : BlockList) (stop_fd : Z) (r : R) (k0 : K) (clock : nat -> nat -> Z) (cfg : Config).
  Implicit Types s : Sys (K := K) (R := R) (E := E).
  Context (stop_fd_valid : 0 <= stop_fd) (efd_ok : EventFd_ok E).
  Context (recv_ok : forall k rv msgs k', recv (K := K) k = (rv, msgs, k') -> Forall msg_ok msgs).
  Abbreviation reach := (reachable cfg blocklist stop_fd r clock k0).
  #[local] Set Default Proof Using "Type*".

Lemma followed s i sl : reach s -> fleet s !! i = Some sl -> Followed cfg r blocklist clock i (wk sl).
Proof.
  intros Hs Hi. by apply (reachable_followed cfg stop_fd r k0 blocklist clock recv_ok stop_fd_valid efd_ok s Hs).
Qed.

(** C1: a listed host is blocked, an unlisted one is not, whatever else is going
    on.  For a list file of these lines, in any interleaving of the program's
    threads, when the calls that a worker has made on its extractor contain a
    connection's packets among any others, in any order that the reassembler puts
    right and with any repetitions, acknowledgements and answers, up to the end of
    a ClientHello: between turns every such packet that carries data has been
    dropped if some line of the file matches the host name in the hello, and
    accepted otherwise; the others (the SYN, bare acknowledgements) have been
    accepted; and no packet id that arrived once has any other verdict.  The
    conditions are those of one connection among others: the table has room when
    the first packet comes; no other packet has the same flow key ([foreign]); the
    reassembler knows the connection by a key that is not 0, and reports other
    packets under other keys ([Reassembles]); up to the end of the hello at most
    32 packets carry data and the stream is at most 32 KiB ([Sends_hello]); each
    operation until then comes within ten seconds of the connection's last packet
    and none is a shutdown ([among]). *)
Theorem listed_host_in_program lines key k theirs expects s i sl pre t0 x own ops hl :
  Forall newline_free lines -> BlockList_ctor (Some (file_of lines)) = Some blocklist ->
  reach s -> fleet s !! i = Some sl ->
  Ran blocklist (verbose cfg) (clock i) r kDefaultMaxFlows (blocked_ceiling cfg) (wk sl) (pre ++ Feed t0 x.1 :: ops) ->
  (forall p, theirs p -> foreign key p) -> Reassembles k theirs expects -> k <> 0 ->
  Sends_hello key k (x :: own) hl -> expects (deliveries (x :: own)) r -> Forall theirs (fed pre) ->
  (forall e out, run (Policy0 := policy blocklist (verbose cfg))
       (Extractor_ctor [] r kDefaultMaxFlows (blocked_ceiling cfg)) pre = Ok (e, out) ->
     (size (_conns e) < _max_flows e)%nat) ->
  among theirs t0 (map fst own) ops ->
  exists v, (v = BLOCK <-> exists name l, sni hl = Some name /\ l ∈ lines /\ entry_matches (parse_line l) name) /\
    forall p, p ∈ map fst (x :: own) ->
      let code := if carrying p then nf_code v else NF_ACCEPT in
      (_id p, code) ∈ sent (_queue (wk sl)) /\
      (NoDup (seen (_queue (wk sl))) -> forall c, (_id p, c) ∈ sent (_queue (wk sl)) -> c = code).
Proof.
  intros Hnl Hlist Hs Hi Hran.
  pose proof (reachable_ok cfg stop_fd r k0 stop_fd_valid blocklist clock recv_ok efd_ok s Hs) as Hok.
  destruct (ok_slot _ _ _ _ stop_fd_valid s i sl Hok Hi) as (Hacc & _).
  destruct (fo_settled _ _ _ _ _ _ (followed s i sl Hs Hi)) as [Hd _].
  by apply (ran_listed_host blocklist (verbose cfg) (clock i) lines key k theirs expects).
Qed.

(** C9: every worker of the program runs an extractor of its own.  In any
    interleaving, whatever the other threads do, the state of a worker that is
    not passing everything through is that of an extractor's run on a list of
    calls, each of which read the worker's clock once and in order; the packets
    it received are those fed, in order, and the verdicts it has sent are exactly
    the ones handed out, in order.  The last call of a turn drains them. *)
Theorem program_runs_extractors s i sl : reach s -> passthrough cfg = false ->
  fleet s !! i = Some sl ->
  exists ops out, run (Policy0 := policy blocklist (verbose cfg))
      (Extractor_ctor [] r kDefaultMaxFlows (blocked_ceiling cfg)) ops = Ok (_tls (wk sl), out) /\
    Forall op_ok ops /\ sent (_queue (wk sl)) = map passed_on out /\
    seen (_queue (wk sl)) = map _id (fed ops) /\ times ops = map (clock i) (seq 0 (_reads (wk sl))) /\
    (ops = [] \/ exists ops' o, ops = ops' ++ [o; Drain] /\ (o = Flush \/ exists t, o = Tick t)).
Proof.
  intros Hs Hp Hi. destruct (fo_calls _ _ _ _ _ _ (followed s i sl Hs Hi) Hp) as (ops & (out & H1 & H2 & H3 & H4 & H5) & Hl).
  exists ops, out. split_and!; try done. destruct Hl as [->|(ops' & fin & ->)]; [by left|right].
  exists ops'. eexists. split; [done|]. destruct fin; [by left|right; eauto].
Qed.

(** C6: no packet outlives its bytes.  Whenever a worker is between two turns, and
    so whenever it is about to receive into its buffer again, nothing waits in the
    decided buffer and no packet it keeps refers to any bytes: what is held are
    shells. *)
Theorem no_view_survives_a_turn s i sl : reach s -> fleet s !! i = Some sl ->
  _decided (_tls (wk sl)) = [] /\ Forall (λ p, data p = None) (stored (_tls (wk sl))).
Proof. intros Hs Hi. exact (fo_settled _ _ _ _ _ _ (followed s i sl Hs Hi)). Qed.

(** C20: with --passthrough nothing is inspected.  In any interleaving, between
    any two turns of a worker, it has accepted each packet it received, in order,
    holds none and tracks no flow. *)
Theorem program_passes_through s i sl : reach s -> passthrough cfg = true -> fleet s !! i = Some sl ->
  sent (_queue (wk sl)) = map (λ id, (id, NF_ACCEPT)) (seen (_queue (wk sl))) /\
  stored (_tls (wk sl)) = [] /\ tracked_flows (_tls (wk sl)) = 0%nat.
Proof.
  intros Hs Hp Hi. destruct (fo_passed _ _ _ _ _ _ (followed s i sl Hs Hi) Hp) as (H1 & H2 & H3).
  pose proof (reachable_ok cfg stop_fd r k0 stop_fd_valid blocklist clock recv_ok efd_ok s Hs) as Hok.
  destruct (ok_slot _ _ _ _ stop_fd_valid s i sl Hok Hi) as (Hacc & _).
  split_and!; [done|done|]. unfold tracked_flows. by rewrite (gd_flows _ (ac_good _ Hacc)), H2.
Qed.

(** C19: the program releases what goes silent.  On a clock that does not run
    backwards, between any two turns of a worker, each flow with held packets has
    been heard of within the last eleven seconds (the idle timeout and the sweep
    interval) before the worker's latest reading of the clock. *)
Theorem program_releases_idle_flows s i sl k c : reach s -> passthrough cfg = false ->
  (forall n, 0 <= clock i n <= clock i (S n)) -> fleet s !! i = Some sl ->
  _conns (_tls (wk sl)) !! k = Some c -> held c <> [] ->
  clock i (pred (_reads (wk sl))) - last c < seconds 11.
Proof.
  intros Hs Hp Hclk Hi Hk Hh.
  destruct (fo_calls _ _ _ _ _ _ (followed s i sl Hs Hi) Hp) as (ops & (out & Hrun & Hok & _ & _ & Ht) & Hl).
  destruct Hl as [->|(ops' & fin & ->)]; [injection Hrun as Hrun _; by rewrite <- Hrun in Hk|].
  pose proof (Good_ctor (D := Log) (R := R) [] r kDefaultMaxFlows (blocked_ceiling cfg)) as Hg.
  destruct (run_drained (Policy0 := policy blocklist (verbose cfg)) _ _ _ _ _ Hrun) as (e1 & out1 & Hrun1 & Hc).
  rewrite Hc in Hk. apply Forall_app in Hok as [Hok _]. destruct fin.
  - by rewrite (run_flushed (Policy0 := policy blocklist (verbose cfg)) _ _ _ _ Hg Hok Hrun1) in Hk.
  - apply (idle_flows_released (Policy0 := policy blocklist (verbose cfg)) [] r kDefaultMaxFlows
      (blocked_ceiling cfg) ops' _ e1 out1 k c); try done.
    apply (monotone_times (clock i) (λ n, proj2 (Hclk n)) _ 0 0); [apply Hclk|].
    assert (times (ops' ++ [Tick (clock i (pred (_reads (wk sl))))]) = map (clock i) (seq 0 (_reads (wk sl)))) as Ht'.
    { rewrite <- Ht. unfold times. by rewrite !bind_app. }
    by rewrite Ht', length_map, length_seq.
Qed.

End properties.

(** ** Witnesses: the connection of [ExtractorTraffic] in a program of two workers
    whose list file has a wildcard over its host name *)

(** The program is started; then the first worker takes three turns. *)
Definition demo_turns : list (Move (K := DemoKernel)) :=
  repeat MainMoves 6 ++
  [TakesTurn 0 demo_wires; TakesTurn 0 (2%nat, tail demo_wires.2); TakesTurn 0 (1%nat, tail (tail demo_wires.2))].

Definition demo_traffic : option (Sys (K := DemoKernel) (R := Streams) (E := N)) :=
  perform demo_cfg demo_wildcards 3 ∅ (λ _, demo_clock) demo_turns (launched demo_cfg 3 demo_wires).

Definition demo_running : Sys (K := DemoKernel) (R := Streams) (E := N) :=
  default (launched demo_cfg 3 demo_wires) demo_traffic.

Definition demo_slot : Slot (K := DemoKernel) (R := Streams) :=
  default (MkSlot demo_inspector NotStarted None true) (fleet demo_running !! 0%nat).

Example demo_running_eq : (_thread demo_slot, todo demo_running, sent (_queue (wk demo_slot)), _reads (wk demo_slot)) =
  (Running, [JoinW 0; JoinW 1; StopReporting; JoinStats; Report; LeaveTry],
   [(20, NF_ACCEPT); (10, NF_ACCEPT); (11, NF_ACCEPT); (12, NF_ACCEPT); (22, NF_ACCEPT);
    (21, NF_ACCEPT); (23, NF_ACCEPT);
    (13, NF_DROP); (14, NF_DROP); (15, NF_DROP); (16, NF_DROP); (17, NF_DROP)], 15%nat).
Proof. vm_compute. reflexivity. Qed.

Lemma default_reachable {K R E : Type} `{!Netfilter K, !Pcpp R, !MapOrder, !EventFd E} cfg bl fd (r : R) clock
    (k0 : K) ms (s0 : Sys (K := K) (R := R) (E := E)) :
  reachable cfg bl fd r clock k0 s0 ->
  reachable cfg bl fd r clock k0 (default s0 (perform cfg bl fd r clock ms s0)).
Proof.
  intros Hs. destruct (perform cfg bl fd r clock ms s0) as [s|] eqn:Hp; [|exact Hs].
  exact (perform_reachable cfg bl fd r clock k0 ms s0 s Hs Hp).
Qed.

Lemma demo_running_reachable :
  reachable demo_cfg demo_wildcards 3 ∅ (λ _, demo_clock) demo_wires demo_running.
Proof. apply default_reachable, reachable_launched. Qed.

Lemma perform_app {K R E : Type} `{!Netfilter K, !Pcpp R, !MapOrder, !EventFd E} cfg bl fd (r : R) clock ms1 ms2 :
  forall s : Sys (K := K) (R := R) (E := E), perform cfg bl fd r clock (ms1 ++ ms2) s =
    perform cfg bl fd r clock ms1 s ≫= perform cfg bl fd r clock ms2.
Proof.
  induction ms1 as [|m ms1 IH]; intros s; [done|]. cbn [app perform].
  destruct (move cfg bl fd r clock m s) as [[kind s1]|]; [apply IH|done].
Qed.

(** A turn that the schedule gives a worker. *)
Lemma perform_turn {K R E : Type} `{!Netfilter K, !Pcpp R, !MapOrder, !EventFd E} cfg bl fd (r : R) clock i (k : K) ms
    (s s' : Sys (K := K) (R := R) (E := E)) sl fin w :
  perform cfg bl fd r clock (TakesTurn i k :: ms) s = Some s' -> fleet s !! i = Some sl ->
  turn_of cfg bl clock i k (wk sl) = Ok (fin, w) ->
  exists sl1, wk sl1 = w /\ fleet (turned s i sl fin w) !! i = Some sl1 /\
    step cfg bl fd r clock (if fin then Advance else Linger) s (turned s i sl fin w) /\
    perform cfg bl fd r clock ms (turned s i sl fin w) = Some s'.
Proof.
  intros Hp Hi Ht. cbn [perform] in Hp.
  destruct (move cfg bl fd r clock (TakesTurn i k) s) as [[kind s1]|] eqn:Hm; [|done].
  pose proof (move_step cfg bl fd r clock _ s kind s1 Hm) as Hstep. cbn [mbind option_bind snd] in Hp.
  simpl in Hm. rewrite Hi in Hm. simpl in Hm. destruct (_ && _); [|done]. rewrite Ht in Hm. injection Hm as <- <-.
  eexists. split_and!; [|simpl; apply list_lookup_insert_eq; by eapply lookup_lt_Some|exact Hstep|exact Hp]. done.
Qed.

(** The calls those turns make. *)
Definition demo_before : list op := [Feed (demo_clock 0) (demo_other 0)].
Definition demo_so_far : list op :=
  let t := demo_clock in
  [Feed (t 2%nat) (demo_p 1); Feed (t 3%nat) (demo_p 2); Tick (t 4%nat); Drain;
   Feed (t 5%nat) (demo_other 1); Feed (t 6%nat) (demo_p 3); Feed (t 7%nat) (demo_other 2);
   Feed (t 8%nat) (demo_p 4); Tick (t 9%nat); Drain;
   Feed (t 10%nat) (demo_p 5); Feed (t 11%nat) (demo_p 6); Feed (t 12%nat) (demo_other 3);
   Feed (t 13%nat) (demo_p 7); Tick (t 14%nat); Drain].
Definition demo_program_calls : list op := demo_before ++ Feed (demo_clock 1) demo_syn :: demo_so_far.

Abbreviation demo_ran := (Ran demo_wildcards false demo_clock ∅ kDefaultMaxFlows (blocked_ceiling demo_cfg)).
Abbreviation traffic_reachable :=
  (reachable (K := DemoKernel) (R := Streams) (E := N) demo_cfg demo_wildcards 3 ∅ (λ _, demo_clock) demo_wires).

(** One of the turns, which finds the batch [b] in the buffer. *)
Lemma demo_turn n b bs ms s s' sl ops : traffic_reachable s -> fleet s !! 0%nat = Some sl ->
  demo_ran (wk sl) ops ->
  perform demo_cfg demo_wildcards 3 ∅ (λ _, demo_clock) (TakesTurn 0 (S n, b :: bs) :: ms) s = Some s' ->
  exists s1 sl1, traffic_reachable s1 /\ fleet s1 !! 0%nat = Some sl1 /\
    (let m := length (times ops) in
     demo_ran (wk sl1) (ops ++ feeds demo_clock m (map demo_msg b) ++ [Tick (demo_clock (m + length b)); Drain])) /\
    perform demo_cfg demo_wildcards 3 ∅ (λ _, demo_clock) ms s1 = Some s'.
Proof.
  intros Hs Hi Hran Hp.
  pose proof (reachable_ok demo_cfg 3 ∅ demo_wires ltac:(lia) demo_wildcards (λ _, demo_clock) demo_msgs_ok
    demo_eventfd_ok s Hs) as Hok.
  destruct (ok_slot demo_cfg 3 ∅ demo_wires ltac:(lia) s 0%nat sl Hok Hi) as (Hacc & _).
  set (w0 := MkWorker (set_kernel (_queue (wk sl)) ((S n, b :: bs) : DemoKernel)) (_tls (wk sl)) (_reads (wk sl))).
  destruct (packets_turn demo_wildcards false demo_clock demo_msgs_ok w0 1 POLLIN (n, b :: bs) 64 (map demo_msg b) (n, bs))
    as (w1 & Ht & Htr); [exact (kernel_account (wk sl) _ Hacc)|done|lia|done|done|lia|].
  destruct (perform_turn demo_cfg demo_wildcards 3 ∅ (λ _, demo_clock) 0%nat _ ms s s' sl false w1 Hp Hi)
    as (sl1 & Hw & Hi1 & Hstep & Hp1); [exact Ht|].
  assert (_reads (wk sl) = length (times ops)) as Hm.
  { destruct Hran as (out & _ & _ & _ & _ & ->). by rewrite length_map, length_seq. }
  exists (turned s 0 sl false w1), sl1. split; [by eapply reachable_step|]. split; [exact Hi1|].
  split; [|exact Hp1]. subst w1. cbv zeta.
  rewrite length_map in Htr. change (_reads w0) with (_reads (wk sl)) in Htr. rewrite Hm in Htr.
  exact (Ran_traced demo_wildcards false demo_clock ∅ _ _ (wk sl) ops (wk sl1) _ Hran Htr).
Qed.

Example demo_turns_taken :
  (λ s, (length (fleet s), todo s, map (λ sl, sent (_queue (wk sl))) (fleet s))) <$> demo_traffic =
  Some (2%nat, [JoinW 0; JoinW 1; StopReporting; JoinStats; Report; LeaveTry],
   [[(20, NF_ACCEPT); (10, NF_ACCEPT); (11, NF_ACCEPT); (12, NF_ACCEPT); (22, NF_ACCEPT);
     (21, NF_ACCEPT); (23, NF_ACCEPT);
     (13, NF_DROP); (14, NF_DROP); (15, NF_DROP); (16, NF_DROP); (17, NF_DROP)]; []]).
Proof. vm_compute. reflexivity. Qed.

Example demo_started :
  (λ s, length (fleet s)) <$> perform (K := DemoKernel) (R := Streams) (E := N) demo_cfg demo_wildcards 3 ∅
    (λ _, demo_clock) (repeat MainMoves 6) (launched demo_cfg 3 demo_wires) = Some 2%nat.
Proof. vm_compute. reflexivity. Qed.

(** After the start, before any turn. *)
Lemma demo_launch : exists s sl, traffic_reachable s /\ fleet s !! 0%nat = Some sl /\
  demo_ran (wk sl) [] /\ perform demo_cfg demo_wildcards 3 ∅ (λ _, demo_clock) (drop 6 demo_turns) s = demo_traffic.
Proof.
  pose proof demo_started as Hst. set (l := launched demo_cfg 3 demo_wires) in Hst.
  destruct (perform _ _ _ _ _ (repeat MainMoves 6) l) as [s1|] eqn:Hp; [|discriminate]. injection Hst as Hlen.
  destruct (lookup_lt_is_Some_2 (fleet s1) 0) as [sl Hsl]; [rewrite Hlen; lia|].
  exists s1, sl. split; [exact (perform_reachable _ _ _ _ _ _ _ l s1 (reachable_launched _ _ _ _ _ _) Hp)|].
  split; [exact Hsl|]. split.
  - set (P := λ (_ : nat) (w : Worker (K := DemoKernel) (R := Streams)),
      exists q k, w = Worker_ctor q k ∅ kDefaultMaxFlows (blocked_ceiling demo_cfg)).
    assert (all_workers P s1) as Hall.
    { apply (main_moves_workers demo_cfg 3 ∅ demo_wires demo_wildcards (λ _, demo_clock) ltac:(lia) P 6
        (λ _ q k, ex_intro _ q (ex_intro _ k eq_refl)) l); [|exact Hp]. intros i sl0. discriminate. }
    destruct (Hall 0%nat sl Hsl) as (q & k & ->). apply Ran_ctor.
  - unfold demo_traffic. change demo_turns with (repeat (MainMoves (K := DemoKernel)) 6 ++ drop 6 demo_turns) at 2.
    rewrite perform_app. fold l. by rewrite Hp.
Qed.

(** After the three turns the worker has made these calls. *)
Lemma demo_run : exists s sl, traffic_reachable s /\ fleet s !! 0%nat = Some sl /\
  demo_ran (wk sl) demo_program_calls /\ todo s <> [].
Proof.
  destruct demo_launch as (s0 & sl0 & Hs0 & Hi0 & R0 & Hp0). pose proof demo_turns_taken as Hend.
  destruct demo_traffic as [s'|]; [|discriminate].
  change (drop 6 demo_turns) with ([TakesTurn 0 demo_wires; TakesTurn 0 (2%nat, tail demo_wires.2);
    TakesTurn 0 (1%nat, tail (tail demo_wires.2))] : list (Move (K := DemoKernel))) in Hp0.
  destruct (demo_turn _ _ _ _ _ _ _ _ Hs0 Hi0 R0 Hp0) as (s1 & sl1 & Hs1 & Hi1 & R1 & Hp1).
  destruct (demo_turn _ _ _ _ _ _ _ _ Hs1 Hi1 R1 Hp1) as (s2 & sl2 & Hs2 & Hi2 & R2 & Hp2).
  destruct (demo_turn _ _ _ _ _ _ _ _ Hs2 Hi2 R2 Hp2) as (s3 & sl3 & Hs3 & Hi3 & R3 & Hp3).
  exists s3, sl3. split; [exact Hs3|]. split; [exact Hi3|]. cbv zeta in R3.
  match type of R3 with Ran _ _ _ _ _ _ _ ?l =>
    assert (l = demo_program_calls) as <- by (vm_compute; reflexivity) end. split; [exact R3|].
  injection Hp3 as ->. injection Hend as _ Htd _. rewrite Htd. discriminate.
Qed.

Lemma demo_so_far_among :
  among (λ p, p ∈ demo_others) (demo_clock 1) (tail demo_packets) demo_so_far.
Proof.
  change (tail demo_packets) with [demo_p 1; demo_p 2; demo_p 3; demo_p 4; demo_p 5; demo_p 6; demo_p 7].
  unfold demo_so_far. among_concrete.
Qed.

(** The flow table has room for the connection. *)
Lemma demo_room e out :
  run (Policy0 := policy demo_wildcards false) (Extractor_ctor [] (∅ : Streams) kDefaultMaxFlows (blocked_ceiling demo_cfg))
    demo_before = Ok (e, out) -> (size (_conns e) < _max_flows e)%nat.
Proof.
  intros Hrun. assert ((λ x, (size (_conns x.1) <? _max_flows x.1)%nat) <$>
    run (Policy0 := policy demo_wildcards false) (Extractor_ctor [] (∅ : Streams) kDefaultMaxFlows (blocked_ceiling demo_cfg))
      demo_before = Ok true) as H by (vm_compute; reflexivity).
  rewrite Hrun in H. simpl in H. injection H as H. by apply Nat.ltb_lt.
Qed.

Lemma listed_host_in_program_witness :
  exists s sl, traffic_reachable s /\ fleet s !! 0%nat = Some sl /\ todo s <> [] /\
    Forall (λ p, (_id p, if carrying p then NF_DROP else NF_ACCEPT) ∈ sent (_queue (wk sl))) demo_packets.
Proof.
  destruct demo_run as (s & sl & Hs & Hi & Hran & Htd). exists s, sl.
  destruct (listed_host_in_program demo_wildcards 3 ∅ demo_wires (λ _, demo_clock) demo_cfg ltac:(lia)
    demo_eventfd_ok demo_msgs_ok demo_lines demo_key demo_token (λ p, p ∈ demo_others) (streams_expect demo_token)
    s 0%nat sl demo_before (demo_clock 1) (demo_syn, [ConnectionStart demo_token]) (tail demo_own) demo_so_far demo_hello)
    as (v & Hv & Hown).
  - concrete.
  - concrete.
  - exact Hs.
  - exact Hi.
  - exact Hran.
  - exact demo_others_foreign.
  - exact demo_reassembles.
  - concrete.
  - exact demo_sends.
  - unfold streams_expect. split_and!; concrete.
  - apply Forall_cons; [apply demo_other_in; lia|apply Forall_nil].
  - intros e out Hrun. exact (demo_room e out Hrun).
  - exact demo_so_far_among.
  - split; [exact Hs|]. split; [exact Hi|]. split; [exact Htd|].
    apply list.Forall_forall. intros p Hp. replace NF_DROP with (nf_code v); [exact (proj1 (Hown p Hp))|].
    rewrite (proj2 Hv); [reflexivity|].
    exists (str "blocked.example.com"), (str "*.example.com"). split; [concrete|].
    split; [right; left|]. split; [discriminate|]. split; [discriminate|]. left.
    exists (str "example.com"). split; [concrete|]. split; [discriminate|]. exists (str "blocked"). concrete.
Defined.

Lemma program_runs_extractors_witness :
  exists s sl, traffic_reachable s /\ fleet s !! 0%nat = Some sl /\ exists ops out,
    sent (_queue (wk sl)) = map passed_on out /\ seen (_queue (wk sl)) = map _id (fed ops).
Proof.
  destruct demo_run as (s & sl & Hs & Hi & _). exists s, sl. split; [exact Hs|]. split; [exact Hi|].
  destruct (program_runs_extractors demo_wildcards 3 ∅ demo_wires (λ _, demo_clock) demo_cfg ltac:(lia)
    demo_eventfd_ok demo_msgs_ok s 0%nat sl Hs eq_refl Hi) as (ops & out & _ & _ & H1 & H2 & _).
  exists ops, out. exact (conj H1 H2).
Defined.

Lemma no_view_survives_a_turn_witness :
  exists s sl, traffic_reachable s /\ fleet s !! 0%nat = Some sl /\
    Forall (λ p, data p = None) (stored (_tls (wk sl))).
Proof.
  destruct demo_run as (s & sl & Hs & Hi & _). exists s, sl. split; [exact Hs|]. split; [exact Hi|].
  exact (proj2 (no_view_survives_a_turn demo_wildcards 3 ∅ demo_wires (λ _, demo_clock) demo_cfg ltac:(lia)
    demo_eventfd_ok demo_msgs_ok s 0%nat sl Hs Hi)).
Defined.

(** A worker that holds half a hello. *)
Definition demo_holding : list (Move (K := DemoKernel)) :=
  repeat MainMoves 6 ++ [TakesTurn 0 (1%nat, drop 2 demo_kernel.2)].

Example demo_holds :
  (λ s, (λ sl, (λ c, (map _id (held c), last c, _reads (wk sl))) <$> _conns (_tls (wk sl)) !! demo_waiting_key) <$>
     (fleet s !! 0%nat)) <$> demo_perform demo_holding = Some (Some (Some ([4], demo_clock 0, 2%nat))).
Proof. vm_compute. reflexivity. Qed.

Lemma demo_clock_forward n : 0 <= demo_clock n <= demo_clock (S n).
Proof. unfold demo_clock, seconds. lia. Qed.

Lemma program_releases_idle_flows_witness :
  exists s sl c, demo_reachable s /\ fleet s !! 0%nat = Some sl /\
    _conns (_tls (wk sl)) !! demo_waiting_key = Some c /\ demo_clock (pred (_reads (wk sl))) - last c < seconds 11.
Proof.
  pose proof demo_holds as Hh. destruct (demo_perform demo_holding) as [s|] eqn:Hp; [|discriminate].
  cbn [fmap option_fmap option_map] in Hh. destruct (fleet s !! 0%nat) as [sl|] eqn:Hi; [|discriminate].
  cbn [fmap option_fmap option_map] in Hh.
  destruct (_conns (_tls (wk sl)) !! demo_waiting_key) as [c|] eqn:Hc; [|discriminate].
  cbn [fmap option_fmap option_map] in Hh. injection Hh as Hheld _ _.
  exists s, sl, c. split; [exact (demo_performed _ _ Hp)|]. split; [exact Hi|]. split; [exact Hc|].
  refine (program_releases_idle_flows demo_list 3 [] demo_kernel (λ _, demo_clock) demo_cfg ltac:(lia)
    demo_eventfd_ok demo_msgs_ok s 0%nat sl demo_waiting_key c (demo_performed _ _ Hp) eq_refl demo_clock_forward Hi Hc _).
  intros H0. rewrite H0 in Hheld. discriminate.
Defined.

(** A run with [--passthrough]. *)
Definition demo_open_cfg : Config := config (parse [str "-j"; str "2"; str "--passthrough"]).

Definition demo_open ms := perform (K := DemoKernel) (R := list Z) (E := N)
  demo_open_cfg demo_list 3 [] (λ _, demo_clock) ms (launched demo_open_cfg 3 demo_kernel).
Abbreviation open_reachable :=
  (reachable (K := DemoKernel) (R := list Z) (E := N) demo_open_cfg demo_list 3 [] (λ _, demo_clock) demo_kernel).

Lemma demo_opened ms s : demo_open ms = Some s -> open_reachable s.
Proof. apply perform_reachable, reachable_launched. Qed.

Example demo_open_seen :
  (λ s, (λ sl, seen (_queue (wk sl))) <$> (fleet s !! 0%nat)) <$>
    demo_open (repeat MainMoves 6 ++ [TakesTurn 0 demo_kernel]) = Some (Some [1; 2]).
Proof. vm_compute. reflexivity. Qed.

Lemma demo_open_flag : passthrough demo_open_cfg = true.
Proof. vm_compute. reflexivity. Qed.

Lemma program_passes_through_witness :
  exists s sl, open_reachable s /\ fleet s !! 0%nat = Some sl /\
    seen (_queue (wk sl)) = [1; 2] /\ sent (_queue (wk sl)) = [(1, NF_ACCEPT); (2, NF_ACCEPT)].
Proof.
  pose proof demo_open_seen as Hh. destruct (demo_open _) as [s|] eqn:Hp; [|discriminate].
  cbn [fmap option_fmap option_map] in Hh. destruct (fleet s !! 0%nat) as [sl|] eqn:Hi; [|discriminate].
  cbn [fmap option_fmap option_map] in Hh. injection Hh as Hseen.
  exists s, sl. split; [exact (demo_opened _ _ Hp)|]. split; [exact Hi|]. split; [exact Hseen|].
  change [(1, NF_ACCEPT); (2, NF_ACCEPT)] with (map (λ id, (id, NF_ACCEPT)) [1; 2]). rewrite <- Hseen.
  exact (proj1 (program_passes_through demo_list 3 [] demo_kernel (λ _, demo_clock) demo_open_cfg ltac:(lia)
    demo_eventfd_ok demo_msgs_ok s 0%nat sl (demo_opened _ _ Hp) demo_open_flag Hi)).
Defined.
