(* ===== verification/Scenarios.v ===== *)
(** * The unit tests' scenarios, and the runs behind some findings

    The inputs of [tests/unit/] with the results that the tests expect, evaluated
    on the definitions.  The tests run on PcapPlusPlus; here packets come from the
    encoder of [PacketSpec] and are put in order by the reassembler of [Streams].
    The last section has concrete runs in which the code does not do what a
    comment says. *)
From S2P Require Import ClientHello ClientHelloSpec Packet PacketSpec BlockList Extractor ExtractorInv ExtractorSpec Streams NFQueue Worker.

(** ** [test_blocklist.cpp] *)

Module BlockListTests.

Definition listed (content name : string) : option (outcome bool) :=
  (λ bl, isHostnameBlocked bl (str name)) <$> BlockList_ctor (Some (str content)).

Definition exact_file : string :=
  "# a comment" ++ String (Ascii.ascii_of_nat 10) "exact.example.com" ++
  String (Ascii.ascii_of_nat 10) (String (Ascii.ascii_of_nat 10) "foo.test") ++ String (Ascii.ascii_of_nat 10) "".

Example ExactMatch :
  map (listed exact_file) ["exact.example.com"; "foo.test"; "other.example.com"; ""; "# a comment";
    "sub.exact.example.com"]%string =
  map (λ b, Some (Ok b)) [true; true; false; false; false; false].
Proof. vm_compute. reflexivity. Qed.

Definition wildcard_file : string :=
  "*.blocked.com" ++ String (Ascii.ascii_of_nat 10) "  *.ads.tracker.net  " ++ String (Ascii.ascii_of_nat 10) "".

Example WildcardMatchesSubdomainsNotApex :
  map (listed wildcard_file) ["www.blocked.com"; "a.b.blocked.com"; "x.ads.tracker.net"; "blocked.com";
    "tracker.net"; "notblocked.com"]%string =
  map (λ b, Some (Ok b)) [true; true; true; false; false; false].
Proof. vm_compute. reflexivity. Qed.

Example MissingFileThrows : BlockList_ctor None = None.
Proof. reflexivity. Qed.

End BlockListTests.

(** ** [test_packet.cpp] *)

Module PacketTests.

Example DissectsTcpAndLocatesThePayload :
  let ch := client_hello (str "example.org") in
  (λ r, (r.1, ip_version r.2, ip_proto r.2, src_port r.2, dst_port r.2, negb (Packet.key r.2 =? 0)%Z,
         payload_len r.2, take 2 (payload r.2))) <$>
    flow_view (test_view (test_l3 [x0a; x00; x00; x01] [x5d; xb8; xd8; x22] 50000 443 1000 24 ch) 0) =
  Ok (true, 4, 6, 50000, 443, true, zlen ch, [x16; x03]).
Proof. vm_compute. reflexivity. Qed.

Example ReportsTcpFlags :
  (λ r, (r.1, tcp_flags r.2, payload_len r.2)) <$> flow_view (test_view (test_syn 5000) 0) = Ok (true, 2, 0) /\
  (λ r, (r.1, tcp_flags r.2)) <$> flow_view (test_view (test_l3 kServer kClient 443 5000 1 18 []) 0) = Ok (true, 18).
Proof. split; vm_compute; reflexivity. Qed.

Example RejectsEmptyAndGarbage :
  fst <$> flow_view Packet_default = Ok false /\ fst <$> flow_view (test_view [x45; x00; x02; xff] 0) = Ok false.
Proof. split; vm_compute; reflexivity. Qed.

Example KeyIsDirectionInsensitive :
  flow_key (test_view (test_syn 5000) 0) = flow_key (test_view (test_l3 kServer kClient 443 5000 1 18 []) 0).
Proof. vm_compute. reflexivity. Qed.

Example StableForFlowDistinctForOthers :
  let ch := client_hello (str "a.com") in
  flow_key (test_view (test_seg 1111 1 ch) 0) = flow_key (test_view (test_seg 1111 999 ch) 0) /\
  match flow_key (test_view (test_seg 1111 1 ch) 0), flow_key (test_view (test_seg 2222 1 ch) 0) with
  | Ok k1, Ok k2 => k1 =? k2 | _, _ => true end = false.
Proof. split; vm_compute; reflexivity. Qed.

Example MaterializeSurvivesSourceDestruction :
  let p := test_owned (test_seg 1234 1 (client_hello (str "owned.example.com"))) 42 in
  (is_view p, _id p, (λ r, (r.1, dst_port r.2, take 2 (payload r.2))) <$> flow_view p) =
  (false, 42, Ok (true, 443, [x16; x03])).
Proof. vm_compute. reflexivity. Qed.

Example MaterializeIsIdempotent :
  let p := test_owned (test_seg 1234 1 (client_hello (str "idem.example.com"))) 7 in materialize p = Ok p.
Proof. vm_compute. reflexivity. Qed.

Example ReleaseBytesLeavesAShell :
  let raw := test_seg 1234 1 (client_hello (str "shell.example.com")) in
  let p := release_bytes (test_owned raw 99) in
  (has_bytes p, data p, _id p, _len p, pending_verdict p) = (false, None, 99, zlen raw, true).
Proof. vm_compute. reflexivity. Qed.

Example MaterializeOnShellIsANoOp :
  (λ p, (has_bytes p, _id p)) <$> materialize (Packet_view None 0 5) = Ok (false, 5).
Proof. vm_compute. reflexivity. Qed.

Example ArrivingPacketIsPendingAndDefaultIsNot :
  let p := test_view (test_syn 1234) 1 in
  (_verdict p, pending_verdict p, pending_verdict Packet_default) = (ALLOW, true, false).
Proof. vm_compute. reflexivity. Qed.

Example LeavesSourceInert :
  let '(dst, src) := Packet_move (test_owned (test_seg 1234 1 (client_hello (str "move.example.com"))) 77) in
  (_id dst, has_bytes dst, pending_verdict dst) = (77, true, true) /\
  (pending_verdict src, has_bytes src, _id src, _len src) = (false, false, 0, 0).
Proof. vm_compute. split; reflexivity. Qed.

End PacketTests.

(** ** [test_extractor.cpp] *)

(** [Policy]: the one host to block, and what it was asked. *)
#[local] Instance test_policy : Policy (bytes * list (option bytes)) := λ h d,
  (if base.decide (h = Some d.1) then BLOCK else ALLOW, (d.1, d.2 ++ [h])).

(** What a test looks at: the names asked, the ids with their verdicts, and the
    counters [tracked_flows] and [flows_dropped_at_cap]. *)
Definition seen_by (mf mb : nat) (blocked : string) (ops : list op) :
    outcome (list (option bytes) * list (Z * Verdict) * (nat * Z)) :=
  r ← run (Extractor_ctor (str blocked, []) (∅ : Streams) mf mb) (ops ++ [Drain]);
  Ok ((_policy r.1).2, map (λ d, (_id (pkt d), verdict d)) r.2, (tracked_flows r.1, flows_dropped_at_cap r.1)).

Definition t0 : Z := seconds 100.
Definition feed_owned (raw : bytes) (id : Z) : op := Feed t0 (test_owned raw id).

(** [data] in segments of [n] bytes from [seq] on, with ids from [id] on. *)
Fixpoint segmented (fuel n : nat) (sport seq : Z) (data : bytes) (id : Z) : list op :=
  match fuel, data with
  | S fuel, _ :: _ =>
      feed_owned (test_seg sport seq (take n data)) id ::
      segmented fuel n sport (seq + zlen (take n data)) (drop n data) (id + 1)
  | _, _ => []
  end.

Module ExtractorTests.

Definition blocked_host : string := "blocked.example.com".
Definition hello (host : string) : bytes := client_hello (str host).
Definition half (host : string) : bytes := take (length (hello host) / 2) (hello host).

Example BlocksAHostnameOnTheList :
  seen_by 64 0 blocked_host [feed_owned (test_syn 40000) 1; feed_owned (test_seg 40000 1001 (hello blocked_host)) 2] =
  Ok ([Some (str blocked_host)], [(1, ALLOW); (2, BLOCK)], (1%nat, 0)).
Proof. vm_compute. reflexivity. Qed.

Example AllowsAHostnameNotOnTheList :
  seen_by 64 0 blocked_host
    [feed_owned (test_syn 40001) 1; feed_owned (test_seg 40001 1001 (hello "allowed.example.com")) 2] =
  Ok ([Some (str "allowed.example.com")], [(1, ALLOW); (2, ALLOW)], (0%nat, 0)).
Proof. vm_compute. reflexivity. Qed.

Example FindsAHostnameSplitAcrossSegments :
  (λ r, (r.1.1, map snd r.1.2)) <$> seen_by 64 0 "split.example.com"
    (feed_owned (test_syn 40002) 1 :: segmented 20 7 40002 1001 (hello "split.example.com") 2) =
  Ok ([Some (str "split.example.com")], ALLOW :: replicate 12 BLOCK).
Proof. vm_compute. reflexivity. Qed.

Example FindsAHostnameWhenSegmentsArriveOutOfOrder :
  let ch := hello "reorder.example.com" in let h := (length ch / 2)%nat in
  seen_by 64 0 "reorder.example.com"
    [feed_owned (test_syn 40003) 1; feed_owned (test_seg 40003 (1001 + Z.of_nat h) (drop h ch)) 2;
     feed_owned (test_seg 40003 1001 (take h ch)) 3] =
  Ok ([Some (str "reorder.example.com")], [(1, ALLOW); (2, BLOCK); (3, BLOCK)], (1%nat, 0)).
Proof. vm_compute. reflexivity. Qed.

Example PicksUpAFlowWithNoSynFromTheRecordItself :
  seen_by 64 0 "midstream.example.com" [feed_owned (test_seg 40004 5000 (hello "midstream.example.com")) 1] =
  Ok ([Some (str "midstream.example.com")], [(1, BLOCK)], (1%nat, 0)).
Proof. vm_compute. reflexivity. Qed.

Example RemembersTheDecisionForTheRestOfTheConnection :
  (λ r, (length r.1.1, r.1.2)) <$> seen_by 64 0 blocked_host
    ([feed_owned (test_syn 40005) 1; feed_owned (test_seg 40005 1001 (hello blocked_host)) 2] ++
     map (λ i, feed_owned (test_seg 40005 (1200 + 3 * i) (str "xyz")) (10 + i)) [0; 1; 2; 3; 4]) =
  Ok (1%nat, (1, ALLOW) :: map (λ i, (i, BLOCK)) [2; 10; 11; 12; 13; 14]).
Proof. vm_compute. reflexivity. Qed.

(** Traffic that is none of its business. *)

Definition padded (n : nat) (l : bytes) : bytes := l ++ replicate (n - length l) xaa.
Definition after_syn (sport : Z) (data : bytes) : list op :=
  [feed_owned (test_syn sport) 1; feed_owned (test_seg sport 1001 data) 2].

(** Everything is allowed, and the flow forgotten. *)
Definition let_through (asked : list (option bytes)) : outcome (list (option bytes) * list (Z * Verdict) * (nat * Z)) :=
  Ok (asked, [(1, ALLOW); (2, ALLOW)], (0%nat, 0)).

Example AllowsNonTlsPayload :
  seen_by 64 0 blocked_host (after_syn 40010 (str "GET /")) = let_through [None].
Proof. vm_compute. reflexivity. Qed.

Example AllowsAPureAckWithoutTrackingIt :
  seen_by 64 0 blocked_host [feed_owned (test_l3 kClient kServer 40011 443 9000 16 []) 1] =
  Ok ([], [(1, ALLOW)], (0%nat, 0)).
Proof. vm_compute. reflexivity. Qed.

Example AllowsGarbageThatIsNotEvenAPacket :
  seen_by 64 0 blocked_host [feed_owned [xff; x00; x13; x37] 1; Feed t0 (Packet_view None 0 2)] = let_through [].
Proof. vm_compute. reflexivity. Qed.

Example AllowsATruncatedClientHelloThatCanNeverComplete :
  seen_by 64 0 blocked_host
    (after_syn 40012 (padded 53 [x16; x03; x01; x00; x30; x02; x00; x00; x2c])) = let_through [None].
Proof. vm_compute. reflexivity. Qed.

Example AllowsAClientHelloWithNoServerNameExtension :
  seen_by 64 0 blocked_host (after_syn 40013 (hello "")) = let_through [None].
Proof. vm_compute. reflexivity. Qed.

(** The bail-outs. *)

Example BailsAtOnceOnAnOversizedRecordLength :
  seen_by 64 0 blocked_host
    (after_syn 40020 (padded 80 [x16; x03; x01; xff; xff; x01; x00; x00; x40])) = let_through [None].
Proof. vm_compute. reflexivity. Qed.

Example BailsAtOnceOnAZeroRecordLength :
  seen_by 64 0 blocked_host
    (after_syn 40021 (padded 80 [x16; x03; x01; x00; x00; x01; x00; x00; x40])) = let_through [None].
Proof. vm_compute. reflexivity. Qed.

(** A prefix that may still become a ClientHello. *)
Definition endless : bytes := [x16; x03; x01; x40; x00; x01; x00; xff; xf0].

Definition pour (chunks : nat) : list op :=
  after_syn 40030 endless ++
  segmented chunks 4096 40030 (1001 + zlen endless) (replicate (4096 * chunks) xaa) 3.

(** The test fills the stream with 0xaa until the flow is given up.  That happens
    at the fifth chunk: the first record, of 16384 bytes, is complete then and what
    follows is not a record.  The ceiling of 32768 bytes is not reached. *)
Example BailsWhenTheStreamGrowsPastTheByteCeiling :
  (λ r, (r.1.1, map snd r.1.2, r.2.1)) <$> seen_by 64 0 blocked_host (pour 4) = Ok ([], [ALLOW], 1%nat) /\
  (λ r, (r.1.1, map snd r.1.2, r.2.1)) <$> seen_by 64 0 blocked_host (pour 5) =
    Ok ([None], replicate 7 ALLOW, 0%nat) /\
  zlen endless + 5 * 4096 < kMaxStreamBytes.
Proof. split_and!; vm_compute; reflexivity. Qed.

(** Whole records that keep the hello unfinished do reach it. *)
Example StreamCeilingReached :
  (λ r, (r.1.1, map snd r.1.2, r.2.1)) <$> seen_by 64 0 blocked_host
    (feed_owned (test_syn 40031) 1 ::
     segmented 40 4096 40031 1001
       ([x16; x03; x01; x40; x00] ++ padded (Z.to_nat 16384) [x01; x00; xff; xf0] ++
        [x16; x03; x01; x40; x00] ++ replicate (Z.to_nat 16384) xaa) 2) =
    Ok ([None], replicate 10 ALLOW, 0%nat).
Proof. vm_compute. reflexivity. Qed.

Example BailsWhenAFlowHoldsTooManyPackets :
  let dribble n := feed_owned (test_syn 40040) 1 ::
    segmented n 1 40040 1001 (endless ++ replicate 64 xaa) 2 in
  (λ r, (r.1.1, map snd r.1.2)) <$> seen_by 64 0 blocked_host (dribble 32%nat) = Ok ([], [ALLOW]) /\
  (λ r, (r.1.1, map snd r.1.2)) <$> seen_by 64 0 blocked_host (dribble 33%nat) = Ok ([None], replicate 34 ALLOW).
Proof. split; vm_compute; reflexivity. Qed.

Example BailsWhenAWaitingFlowGoesIdle :
  let start := [feed_owned (test_syn 40050) 1; feed_owned (test_seg 40050 1001 (half "idle.example.com")) 2] in
  seen_by 64 0 blocked_host start = Ok ([], [(1, ALLOW)], (1%nat, 0)) /\
  seen_by 64 0 blocked_host (start ++ [Tick (t0 + seconds 2)]) = Ok ([], [(1, ALLOW)], (1%nat, 0)) /\
  seen_by 64 0 blocked_host (start ++ [Tick (t0 + seconds 2); Tick (t0 + seconds 11)]) = let_through [None].
Proof. split_and!; vm_compute; reflexivity. Qed.

(** The flow table. *)

Definition flow_opens (data : bytes) (i : Z) : list op :=
  [feed_owned (test_syn (41000 + i)) (1 + 2 * i); feed_owned (test_seg (41000 + i) 1001 data) (2 + 2 * i)].

Example StopsTrackingNewFlowsAtTheCapAndAllowsThem :
  let four := concat (map (flow_opens (take 4 (hello blocked_host))) [0; 1; 2; 3]) in
  snd <$> seen_by 4 0 blocked_host four = Ok (4%nat, 0) /\
  (λ r, (list_find (λ x, x.1 = 10) r.1.2, r.2)) <$> seen_by 4 0 blocked_host (four ++ flow_opens (hello blocked_host) 4) =
    Ok (Some (5%nat, (10, ALLOW)), (4%nat, 2)).
Proof. split; vm_compute; reflexivity. Qed.

Example BlockedFlowsCannotCrowdOutUndecidedOnes :
  (λ r, (map snd r.1.2, r.2.1)) <$>
    seen_by 8 2 blocked_host (concat (map (flow_opens (hello blocked_host)) [0; 1; 2; 3; 4; 5])) =
  Ok (concat (replicate 6 [ALLOW; BLOCK]), 2%nat).
Proof. vm_compute. reflexivity. Qed.

(** Shutdown, and other packets of the connection. *)

Example FlushReleasesEverythingStillHeld :
  let two := flow_opens (half "never.example.com") 0 ++ flow_opens (half "never.example.com") 1 in
  seen_by 64 0 blocked_host two = Ok ([], [(1, ALLOW); (3, ALLOW)], (2%nat, 0)) /\
  (λ r, (map snd r.1.2, r.2.1)) <$> seen_by 64 0 blocked_host (two ++ [Flush]) = Ok (replicate 4 ALLOW, 0%nat).
Proof. split; vm_compute; reflexivity. Qed.

(** [l1] and [l2], in turns. *)
Fixpoint alternate {A} (l1 l2 : list A) : list A :=
  match l1, l2 with x :: l1, y :: l2 => x :: y :: alternate l1 l2 | l1, [] => l1 | [], l2 => l2 end.

Example KeepsConcurrentFlowsSeparate :
  let flow sport host id := segmented 40 8 sport 1001 (hello host) id in
  (λ r, (r.1.1, map (λ n, length (List.filter (λ x, (n <? x.1) && (x.1 <? n + 100) && bool_decide (x.2 = BLOCK)) r.1.2))
     [100; 200])) <$>
    seen_by 64 0 blocked_host ([feed_owned (test_syn 44000) 1; feed_owned (test_syn 44001) 2] ++
      alternate (flow 44000 blocked_host 101) (flow 44001 "fine.example.com"%string 201)) =
  Ok ([Some (str blocked_host); Some (str "fine.example.com")], [10; 0])%nat.
Proof. vm_compute. reflexivity. Qed.

Example AOneSidedFinDoesNotReleaseAHeldFlow :
  let start := flow_opens (half "aborted.example.com") 0 ++
    [feed_owned (test_l3 kClient kServer 41000 443 1045 17 []) 3] in
  seen_by 64 0 blocked_host start = Ok ([], [(1, ALLOW); (3, ALLOW)], (1%nat, 0)) /\
  seen_by 64 0 blocked_host (start ++ [Tick (t0 + seconds 11)]) =
    Ok ([None], [(1, ALLOW); (3, ALLOW); (2, ALLOW)], (0%nat, 0)).
Proof. split; vm_compute; reflexivity. Qed.

Example ARstReleasesAHeldFlowImmediately :
  seen_by 64 0 blocked_host (flow_opens (half "reset.example.com") 0 ++
    [feed_owned (test_l3 kClient kServer 41000 443 1045 20 []) 3]) =
  Ok ([None], [(1, ALLOW); (2, ALLOW); (3, ALLOW)], (0%nat, 0)).
Proof. vm_compute. reflexivity. Qed.

(** A hello in two records. *)

Definition two_records (at_ : nat) : bytes := split_across_two_records (hello blocked_host) at_.

Example BlocksAClientHelloFragmentedAcrossTwoRecords :
  map (λ n, seen_by 64 0 blocked_host (after_syn 47000 (two_records n))) [20; 1]%nat =
  replicate 2 (Ok ([Some (str blocked_host)], [(1, ALLOW); (2, BLOCK)], (1%nat, 0))).
Proof. vm_compute. reflexivity. Qed.

Example BlocksAFragmentedClientHelloAlsoSplitAcrossTcpSegments :
  (λ r, (r.1.1, map snd r.1.2)) <$> seen_by 64 0 blocked_host
    (feed_owned (test_syn 47002) 1 :: segmented 20 9 47002 1001 (two_records 13) 2) =
  Ok ([Some (str blocked_host)], ALLOW :: replicate 10 BLOCK).
Proof. vm_compute. reflexivity. Qed.

Example WaitsForTheSecondRecordRatherThanGuessing :
  let start := [feed_owned (test_syn 47003) 1; feed_owned (test_seg 47003 1001 (take 25 (two_records 20))) 2] in
  seen_by 64 0 blocked_host start = Ok ([], [(1, ALLOW)], (1%nat, 0)) /\
  seen_by 64 0 blocked_host (start ++ [feed_owned (test_seg 47003 1026 (drop 25 (two_records 20))) 3]) =
    Ok ([Some (str blocked_host)], [(1, ALLOW); (2, BLOCK); (3, BLOCK)], (1%nat, 0)).
Proof. split; vm_compute; reflexivity. Qed.

Example AllowsANonHandshakeRecordAppearingMidHandshake :
  seen_by 64 0 blocked_host (after_syn 47004 (<[25%nat := x15]> (two_records 20))) = let_through [None].
Proof. vm_compute. reflexivity. Qed.

End ExtractorTests.

(** ** [e2e_cases.cpp] *)

Module EndToEnd.

Record TestPacket := MkTestPacket { seq : Z; flags : Z; body : bytes; expect_arrival : bool }.

Record TestCase := MkTestCase {
  name : string; ipv6 : bool; host : byte; sport : Z; packets : list TestPacket
}.

Definition kBlockedHost : string := "blocked.e2e.test".
Definition kWildcardSuffix : string := "wild.e2e.test".
Definition kAllowedHost : string := "allowed.e2e.test".

Definition kIsn : Z := 1000.
Definition syn : TestPacket := MkTestPacket kIsn 2 [] true.
Definition data (seq : Z) (body : bytes) (arrives : bool) : TestPacket := MkTestPacket seq 24 body arrives.

(** [data] in [n] roughly equal chunks, with their sequence numbers. *)
Fixpoint chunks_from (fuel each : nat) (off : Z) (l : bytes) : list (Z * bytes) :=
  match fuel, l with
  | S fuel, _ :: _ => (kIsn + 1 + off, take each l) :: chunks_from fuel each (off + Z.of_nat each) (drop each l)
  | _, _ => []
  end.

Definition chunks (l : bytes) (n : nat) : list (Z * bytes) := chunks_from n ((length l + n - 1) / n) 0 l.

Definition all_cases : list TestCase :=
  let blocked := client_hello (str kBlockedHost) in
  let allowed := client_hello (str kAllowedHost) in
  let wildcard := client_hello (str ("sub." ++ kWildcardSuffix)) in
  let no_sni := client_hello [] in
  let simple hello arrives := [syn; data (kIsn + 1) hello arrives] in
  let dropped parts := syn :: map (λ x, data x.1 x.2 false) parts in
  let bad := [x16; x03; x01; xff; xff; x01; x00; x00; x40] in
  [MkTestCase "v4_blocked_simple" false x0a 41000 (simple blocked false);
   MkTestCase "v4_allowed_simple" false x0b 41001 (simple allowed true);
   MkTestCase "v4_blocked_split" false x0c 41002 (dropped (chunks blocked 4));
   MkTestCase "v4_blocked_reorder" false x0d 41003 (dropped (rev (chunks blocked 2)));
   MkTestCase "v4_wildcard_blocked" false x0e 41004 (simple wildcard false);
   MkTestCase "v4_non_tls" false x0f 41005 (simple (str "GET / HTTP/1.1" ++ [x0d; x0a; x0d; x0a]) true);
   MkTestCase "v4_pure_ack" false x10 41006 [MkTestPacket kIsn 16 [] true];
   MkTestCase "v4_no_sni" false x11 41007 (simple no_sni true);
   MkTestCase "v4_oversized_record" false x12 41008 (simple (bad ++ replicate 71 xaa) true);
   MkTestCase "v4_blocked_then_more" false x13 41009
     (simple blocked false ++
      map (λ i, data (kIsn + 1 + zlen blocked + 9 * i) (str "more-data") false) [0; 1; 2]);
   MkTestCase "v4_midstream_blocked" false x14 41010 [data (kIsn + 5000) blocked false];
   MkTestCase "v4_partial_hello_idle" false x15 41011 (simple (take (length blocked / 2) blocked) true);
   MkTestCase "v4_blocked_two_records" false x16 41012 (simple (split_across_two_records blocked 20) false);
   MkTestCase "v6_blocked_simple" true x1e 41020 (simple blocked false);
   MkTestCase "v6_allowed_simple" true x1f 41021 (simple allowed true);
   MkTestCase "v6_blocked_split" true x20 41022 (dropped (chunks blocked 3));
   MkTestCase "v6_non_tls" true x21 41023 (simple (str "PING" ++ [x0d; x0a]) true)].

(** The packet on the wire, from 10.99.1.<host> or fd00:99:1::<host> to the server. *)
Definition on_wire (c : TestCase) (p : TestPacket) : bytes :=
  let t := Tcp (sport c) 443 (put16 (seq p / 65536) ++ put16 (seq p mod 65536) ++ replicate 4 x00) 0 (flags p)
             (replicate 6 x00) [] (body p) in
  let v6 a b := [xfd; x00; x00; x99; x00; a] ++ replicate 9 x00 ++ [b] in
  if ipv6 c then enc_ipv6 (MkIpv6 (replicate 3 x00) x40 (v6 x01 (host c)) (v6 x02 x02) []) t
  else enc_ipv4 (MkIpv4 x00 [x00; x00] 0 x40 [x00; x00] [x0a; x63; x01; host c] [x0a; x63; x02; x02] []) t.

(** The whole corpus in one queue: a buffer per case, ids from 1 on. *)
Fixpoint buffers (id : nat) (cases : list TestCase) : list (list (byte * bytes)) * list (Z * Z) :=
  match cases with
  | [] => ([], [])
  | c :: cases =>
      let n := length (packets c) in
      let '(bs, expected) := buffers (id + n) cases in
      (imap (λ i p, (z2b (Z.of_nat (id + i)), on_wire c p)) (packets c) :: bs,
       imap (λ i p, (Z.of_nat (id + i), if expect_arrival p then NF_ACCEPT else NF_DROP)) (packets c) ++ expected)
  end.

Definition e2e_list : option BlockList :=
  BlockList_ctor (Some (str kBlockedHost ++ x0a :: str ("*." ++ kWildcardSuffix) ++ [x0a])).

(** A worker receives them all, idles past the timeout, and is told to stop: has
    every packet the verdict that the case expects, and no other?  The clock stands
    still while the corpus arrives, then a second passes per turn. *)
Definition corpus_holds (idle_turns : nat) : outcome bool :=
  match e2e_list with
  | None => Ok false
  | Some bl =>
      let '(bs, expected) := buffers 1 all_cases in
      let w := Worker_ctor (K := DemoKernel) (MkNFQueue true true 0 3 0 0 0 0 None)
                 ((length bs + idle_turns)%nat, bs) (∅ : Streams) 64 0 in
      w ← loop bl false false (λ n, seconds (100 + Z.of_nat (n - 70))) (S (length bs + idle_turns)) w;
      Ok (forallb (λ x, bool_decide (x ∈ sent (_queue w))) expected && (length (sent (_queue w)) =? length expected)%nat)
  end.

(** Each of the seventeen cases comes out as [all_cases] says, whether the worker
    is stopped at once or idles for half a minute first. *)
Example all_cases_hold : map corpus_holds [0; 40]%nat = [Ok true; Ok true].
Proof. vm_compute. reflexivity. Qed.

End EndToEnd.

(** ** Runs in which the code does something else than a comment says *)

Module Divergences.
Import ExtractorTests.

Definition blocked_flow (sport id : Z) : list op :=
  [Feed t0 (test_owned (test_syn sport) id); Feed t0 (test_owned (test_seg sport 1001 (hello blocked_host)) (id + 1))].

Definition later (s : Z) (ops : list op) : list op :=
  map (λ o, match o with Feed t p => Feed (t + seconds s) p | Tick t => Tick (t + seconds s) | o => o end) ops.

(** Whether the flow of port [sport] is in the table, with two blocked flows allowed. *)
Definition remembered (ops : list op) (sports : list Z) : outcome (list bool) :=
  r ← run (Extractor_ctor (str blocked_host, []) (∅ : Streams) 8 2) ops;
  Ok (map (λ sport, bool_decide (is_Some (_conns r.1 !! key_of (test_view (test_syn sport) 0)))) sports).

(** "evicting the oldest blocked flow if the ring is full": a flow that was
    blocked, idled out and was blocked again is in both slots, and the next
    registration evicts it, the newest, although it is the only blocked flow. *)
Lemma stale_slot_evicts_newest :
  let again := blocked_flow 42000 1 ++ [Tick (t0 + seconds 61)] ++ later 62 (blocked_flow 42000 3) in
  remembered again [42000; 42001] = Ok [true; false] /\
  remembered (again ++ later 62 (blocked_flow 42001 5)) [42000; 42001] = Ok [false; true].
Proof. split; vm_compute; reflexivity. Qed.

(** "Losing a blocked entry only means re-parsing that connection's next
    retransmitted ClientHello and reaching the same verdict": when the hello came
    in two segments and the entry is lost, the second segment is allowed when it is
    retransmitted, and the first is allowed once the flow has waited for ten
    seconds.  Together they are the hello that was blocked. *)
Lemma evicted_flow_gets_through :
  let ch := hello blocked_host in
  let first id := Feed t0 (test_owned (test_seg 42000 1001 (take 40 ch)) id) in
  let second id := Feed t0 (test_owned (test_seg 42000 1041 (drop 40 ch)) id) in
  (λ r, r.1.2) <$> seen_by 8 1 blocked_host
    ([Feed t0 (test_owned (test_syn 42000) 1); first 2; second 3] ++ blocked_flow 42001 4 ++
     [second 6; first 7; Tick (t0 + seconds 10)]) =
  Ok [(1, ALLOW); (2, BLOCK); (3, BLOCK); (4, ALLOW); (5, BLOCK); (6, ALLOW); (7, ALLOW)].
Proof. vm_compute. reflexivity. Qed.

End Divergences.
